(** * The vochain indexer: a shallow embedding of [vochain/indexer/indexer.go]

    The indexer mirrors, block by block, the entities of the chain
    application into a sqlite database and keeps live tallies.  This file
    embeds the Go code as state-passing functions over an explicit world
    (the [Indexer] struct, the database files, the log, the chain
    application) and proves the properties the specification states about
    it.

    Conventions.
    - Go integers are [Z]; conversions that can wrap ([uint64], [uint32])
      are written out.
    - A Go [[]byte] is a [string] (the code itself converts byte slices to
      strings to use them as map keys); a nil slice and an empty one are
      identified, so [nonNullBytes] is the identity.
    - A Go [(T, error)] result is a [res T]; a function that can panic, or
      wait for ever on the block mutex, returns an [Outcome].
    - Go maps are stdpp [gmap]s; ranging over a map uses [map_to_list],
      one fixed order among those the Go runtime may choose. *)

From Stdlib Require Import ZArith String Ascii List Lia.
From stdpp Require Import base option gmap strings list sorting pretty.

Local Open Scope string_scope.

(** ** Results, outcomes *)

Inductive res (A : Type) : Type :=
| Ok (a : A)
| Err (e : string).
Arguments Ok {A} a.
Arguments Err {A} e.

Definition res_err {A} (r : res A) : option string :=
  match r with Ok _ => None | Err e => Some e end.

Inductive Outcome (A : Type) : Type :=
| Returns (a : A)
| Panics (msg : string)
| Blocks.
Arguments Returns {A} a.
Arguments Panics {A} msg.
Arguments Blocks {A}.

Inductive Level := Debug | Info | Warn | Error.

Definition bytes := string.

Definition uint64 (z : Z) : Z := (z mod 2 ^ 64)%Z.
Definition uint32 (z : Z) : Z := (z mod 2 ^ 32)%Z.
Definition int32 (z : Z) : Z := ((z + 2 ^ 31) mod 2 ^ 32 - 2 ^ 31)%Z.

Definition nonNullBytes (p : bytes) : bytes := p.

(** The order of Go strings, byte by byte. *)
Definition string_le (a b : string) : Prop := String.leb a b = true.

#[global] Instance string_le_dec : RelDecision string_le.
Proof. intros a b. unfold string_le. apply _. Defined.

(** [new(big.Int).SetBytes(b)]: the big-endian unsigned value of [b]. *)
Definition SetBytes (b : bytes) : Z :=
  fold_left (fun acc c => (acc * 256 + Z.of_N (N_of_ascii c))%Z)
            (list_ascii_of_string b) 0%Z.

(** ** Data of the chain application ([state], [models], [results]) *)

(** [state.Vote], with the fields the indexer reads.  [Weight] is a
    pointer to a [big.Int] and may be nil. *)
Record Vote := {
  ProcessID : bytes;
  Nullifier : bytes;
  Height : Z;
  Weight : option Z;
  Overwrites : Z;
  VoterID : bytes;
  EncryptionKeyIndexes : list Z;
  VotePackage : bytes;
}.

(** [models.StateDBVote]: a ballot as committed in the chain state.
    [OverwriteCount] is an optional protobuf field read through its
    getter. *)
Record StateDBVote := {
  sv_VotePackage : bytes;
  sv_Weight : bytes;
  sv_OverwriteCount : option Z;
}.

Definition GetOverwriteCount (v : StateDBVote) : Z :=
  match sv_OverwriteCount v with Some c => c | None => 0%Z end.

(** The result of [State.Vote(pid, nullifier, committed)], a
    pointer to a [models.StateDBVote] paired with an error: a ballot, a nil
    ballot without error, or an error (with a nil ballot). *)
Inductive VoteLookup :=
| VoteFound (v : StateDBVote)
| VoteNil
| VoteErr (e : string).

Record ProcessVoteOptions := {
  MaxCount : Z;
  MaxValue : Z;
  MaxVoteOverwrites : Z;
  MaxTotalCost : Z;
  CostExponent : Z;
}.

Record EnvelopeType := {
  Serial : bool;
  Anonymous : bool;
  EncryptedVotes : bool;
  UniqueValues : bool;
  CostFromWeight : bool;
}.

(** [results.Results]. *)
Record Results := {
  r_ProcessID : bytes;
  r_Votes : list (list Z);
  r_Weight : Z;
  r_VoteOpts : ProcessVoteOptions;
  r_EnvelopeType : EnvelopeType;
  r_BlockHeight : Z;
}.

(** [models.Process] as read from the chain state. *)
Record StateProcess := {
  sp_KeyIndex : option Z;
  sp_VoteOptions : ProcessVoteOptions;
  sp_EnvelopeType : EnvelopeType;
}.

Record Block := {
  b_ChainID : string;
  b_Height : Z;
  b_Time : Z;
  b_Hash : bytes;
  b_ProposerAddress : bytes;
  b_LastBlockHash : bytes;
  b_Txs : list bytes;
}.

Record BlockStore := {
  bs_Base : Z;
  bs_Height : Z;
}.

(** What the indexer consumes of [vochain.BaseApplication]. *)
Record BaseApplication := {
  IsSynced : bool;
  app_Height : Z;
  app_Timestamp : Z;
  app_GetBlockByHeight : Z -> option Block;
  app_BlockStore : option BlockStore;
  State_Vote : bytes -> bytes -> VoteLookup;
  State_Process : bytes -> res StateProcess;
}.

(** ** [indexertypes] *)

(** [indexertypes.Process]; the scalar columns that [ProcessFromDB] copies
    verbatim and that nothing below reads are left out. *)
Record Process := {
  p_ID : bytes;
  p_Status : Z;
  p_HaveResults : bool;
  p_FinalResults : bool;
  p_SourceNetworkId : string;
  p_Envelope : EnvelopeType;
  p_VoteOpts : ProcessVoteOptions;
  p_VoteCount : Z;
  p_ResultsVotes : list (list Z);
  p_ResultsWeight : Z;
  p_ResultsBlockHeight : Z;
}.

Definition Process_Results (p : Process) : Results :=
  {| r_ProcessID := p_ID p;
     r_Votes := p_ResultsVotes p;
     r_Weight := p_ResultsWeight p;
     r_VoteOpts := p_VoteOpts p;
     r_EnvelopeType := p_Envelope p;
     r_BlockHeight := p_ResultsBlockHeight p |}.

Record TokenFeeMeta := {
  tf_Cost : Z;
  tf_From : bytes;
  tf_TxType : string;
  tf_Height : Z;
  tf_Reference : string;
  tf_Timestamp : Z;
}.

Record TokenTransferMeta := {
  tt_Amount : Z;
  tt_From : bytes;
  tt_To : bytes;
  tt_Height : Z;
  tt_TxHash : bytes;
  tt_Timestamp : Z;
}.

Record Account := {
  a_Address : bytes;
  a_Balance : Z;
  a_Nonce : Z;
}.

(** ** Rows and parameters of the generated queries ([indexerdb]) *)

Record GetProcessRow := {
  gp_ID : bytes;
  gp_Status : Z;
  gp_HaveResults : bool;
  gp_FinalResults : bool;
  gp_SourceNetworkID : Z;
  gp_EnvelopePb : bytes;
  gp_VoteOptsPb : bytes;
  gp_VoteCount : Z;
  gp_ResultsVotes : string;
  gp_ResultsWeight : string;
  gp_ResultsBlockHeight : Z;
}.

Record CreateVoteParams := {
  cv_Nullifier : bytes;
  cv_ProcessID : bytes;
  cv_BlockHeight : Z;
  cv_BlockIndex : Z;
  cv_Weight : string;
  cv_OverwriteCount : Z;
  cv_VoterID : bytes;
  cv_EncryptionKeyIndexes : string;
  cv_Package : string;
}.

Record CreateAccountParams := {
  ca_Account : bytes;
  ca_Balance : Z;
  ca_Nonce : Z;
}.

Record CreateTokenTransferParams := {
  ct_TxHash : bytes;
  ct_BlockHeight : Z;
  ct_FromAccount : bytes;
  ct_ToAccount : bytes;
  ct_Amount : Z;
  ct_TransferTime : Z;
}.

Record CreateTokenFeeParams := {
  cf_FromAccount : bytes;
  cf_TxType : string;
  cf_Cost : Z;
  cf_Reference : string;
  cf_SpendTime : Z;
  cf_BlockHeight : Z;
}.

Record CreateBlockParams := {
  cb_ChainID : string;
  cb_Height : Z;
  cb_Time : Z;
  cb_Hash : bytes;
  cb_ProposerAddress : bytes;
  cb_LastBlockHash : bytes;
}.

Record BlockRow := {
  br_Height : Z;
  br_Time : Z;
  br_Hash : bytes;
}.

Record TransactionRow := {
  tr_BlockHeight : Z;
  tr_BlockIndex : Z;
  tr_Hash : bytes;
}.

Record SearchTokenFeesParams := {
  sf_Limit : Z;
  sf_Offset : Z;
  sf_TxType : string;
  sf_Reference : string;
  sf_FromAccount : string;
}.

Record SearchTokenFeesRow := {
  fr_FromAccount : bytes;
  fr_TxType : string;
  fr_Cost : Z;
  fr_Reference : string;
  fr_SpendTime : Z;
  fr_BlockHeight : Z;
  fr_TotalCount : Z;
}.

Record SearchTokenTransfersParams := {
  st_Limit : Z;
  st_Offset : Z;
  st_FromOrToAccount : string;
  st_FromAccount : string;
  st_ToAccount : string;
}.

Record SearchTokenTransfersRow := {
  xr_TxHash : bytes;
  xr_BlockHeight : Z;
  xr_FromAccount : bytes;
  xr_ToAccount : bytes;
  xr_Amount : Z;
  xr_TransferTime : Z;
  xr_TotalCount : Z;
}.

Record SearchAccountsParams := {
  sa_Limit : Z;
  sa_Offset : Z;
  sa_AccountIDSubstr : string;
}.

Record SearchAccountsRow := {
  ar_Account : bytes;
  ar_Balance : Z;
  ar_Nonce : Z;
  ar_TotalCount : Z;
}.

(** [vochaintx.TokenTransfer]. *)
Record TokenTransfer := {
  tk_TxHash : bytes;
  tk_FromAddress : bytes;
  tk_ToAddress : bytes;
  tk_Amount : Z;
}.

(** [state.Account]. *)
Record StateAccount := {
  sa_Balance : Z;
  sa_Nonce : Z;
}.

(** ** The database backend

    The generated queries ([indexerdb], sqlc), the migration runner (goose),
    the codecs (JSON, protobuf) and the helpers of the package that live in
    other files are an interface here: each query is a function on the
    contents of a database file.  [SpecBackend] below is one
    implementation. *)

Class Backend := {
  Tables : Type;
  VochainTx : Type;
  (** a database file as [mode=rwc] creates it *)
  newDB : Tables;
  (** goose *)
  goose_GetDBVersion : Tables -> res Z;
  goose_CollectMigrations : Z -> res (list Z);
  goose_Up : Tables -> res Tables;
  (** [PRAGMA analysis_limit=1000; ANALYZE] and [PRAGMA optimize] *)
  sql_Analyze : Tables -> res Tables;
  sql_Optimize : Tables -> res Tables;
  (** [indexerdb.Prepare] *)
  sql_Prepare : Tables -> option string;
  (** statements that write *)
  CreateVote : CreateVoteParams -> Tables -> res Tables;
  CreateAccount : CreateAccountParams -> Tables -> res Tables;
  CreateTokenTransfer : CreateTokenTransferParams -> Tables -> res Tables;
  CreateTokenFee : CreateTokenFeeParams -> Tables -> res Tables;
  CreateBlock : CreateBlockParams -> Tables -> res Tables;
  ComputeProcessVoteCount : bytes -> Tables -> res Tables;
  (** statements that read *)
  GetProcess : bytes -> Tables -> res GetProcessRow;
  GetBlockByHeight : Z -> Tables -> res BlockRow;
  GetTransactionByHeightAndIndex : Z -> Z -> Tables -> res TransactionRow;
  CountBlocks : Tables -> res Z;
  SearchTokenFees : SearchTokenFeesParams -> Tables -> res (list SearchTokenFeesRow);
  SearchTokenTransfers :
    SearchTokenTransfersParams -> Tables -> res (list SearchTokenTransfersRow);
  SearchAccounts : SearchAccountsParams -> Tables -> res (list SearchAccountsRow);
  (** helpers of the package defined outside [indexer.go]: what they write
      through the queries handle they are given *)
  addLiveVote : Process -> bytes -> option Z -> Results -> Results * option string;
  updateProcess_sql : BaseApplication -> bytes -> Tables -> res Tables;
  commitVotes_sql : bytes -> Results -> Results -> Results -> Z -> Tables -> res Tables;
  newEmptyProcess_sql : BaseApplication -> bytes -> Tables -> res Tables;
  indexTx_sql : VochainTx -> Z -> Z -> Tables -> res Tables;
  (** codecs *)
  EncodeJSON_BigInt : Z -> string;
  EncodeJSON_KeyIndexes : list Z -> string;
  DecodeJSON_Votes : string -> option (list (list Z));
  DecodeJSON_BigInt : string -> option Z;
  Unmarshal_EnvelopeType : bytes -> res EnvelopeType;
  Unmarshal_VoteOpts : bytes -> res ProcessVoteOptions;
  SourceNetworkId_name : Z -> option string;
  TxType_String : Z -> string;
  Tx_Hash : bytes -> bytes;
  Tx_Unmarshal : bytes -> string -> res VochainTx;
}.

(** A [*sql.DB]: the file it was opened on and whether [Close] was called
    on it.  The writer ([readWriteDB]) is opened with [mode=rwc], the
    reader ([readOnlyDB]) with [mode=ro]. *)
Record SqlDB := {
  sql_path : string;
  sql_closed : bool;
}.

(** A [*indexerdb.Queries]: statements prepared on one of the two
    databases, possibly rebound to a transaction by [WithTx]. *)
Record Queries := {
  q_ro : bool;
  q_tx : option nat;
}.

Definition ErrTxDone : string :=
  "sql: transaction has already been committed or rolled back".
Definition ErrDBClosed : string := "sql: database is closed".
Definition nilDeref : string :=
  "runtime error: invalid memory address or nil pointer dereference".

Section Model.
Context `{B : Backend}.

(** A [*sql.Tx] on the writer database: its working copy of the tables is
    invisible to the read-only connections until [Commit]. *)
Record Tx := {
  tx_id : nat;
  tx_path : string;
  tx_work : Tables;
  tx_done : bool;
}.

Definition WithTx (q : Queries) (tx : Tx) : Queries :=
  {| q_ro := q_ro q; q_tx := Some (tx_id tx) |}.

(** The [Indexer] struct.  [App] is kept in the [World]; [blockMu] is true
    while the mutex is held; [liveResultsProcs] is the key set of the
    [sync.Map]. *)
Record Indexer := {
  votePool : gmap string (gmap string Vote);
  dbPath : string;
  readOnlyDB : option SqlDB;
  readWriteDB : option SqlDB;
  readOnlyQuery : option Queries;
  blockMu : bool;
  blockTx : option Tx;
  blockQueries : option Queries;
  blockUpdateProcs : gmap string bool;
  blockUpdateProcVoteCounts : gmap string bool;
  liveResultsProcs : gset string;
  ignoreLiveResults : bool;
}.

(** The indexer and what surrounds it: the chain application, the files on
    disk (a database file is its tables), the log, the statements issued
    to sqlite so far (latest first), the goroutines started, and the next
    transaction identifier. *)
Record World := {
  idx : Indexer;
  App : BaseApplication;
  disk : gmap string Tables;
  logs : list (Level * string);
  sqlTrace : list string;
  spawned : list string;
  nextTx : nat;
}.

Definition set_votePool (x : gmap string (gmap string Vote)) (i : Indexer) :=
  {| votePool := x; dbPath := dbPath i; readOnlyDB := readOnlyDB i;
     readWriteDB := readWriteDB i; readOnlyQuery := readOnlyQuery i;
     blockMu := blockMu i; blockTx := blockTx i; blockQueries := blockQueries i;
     blockUpdateProcs := blockUpdateProcs i;
     blockUpdateProcVoteCounts := blockUpdateProcVoteCounts i;
     liveResultsProcs := liveResultsProcs i;
     ignoreLiveResults := ignoreLiveResults i |}.

Definition set_dbPath (x : string) (i : Indexer) :=
  {| votePool := votePool i; dbPath := x; readOnlyDB := readOnlyDB i;
     readWriteDB := readWriteDB i; readOnlyQuery := readOnlyQuery i;
     blockMu := blockMu i; blockTx := blockTx i; blockQueries := blockQueries i;
     blockUpdateProcs := blockUpdateProcs i;
     blockUpdateProcVoteCounts := blockUpdateProcVoteCounts i;
     liveResultsProcs := liveResultsProcs i;
     ignoreLiveResults := ignoreLiveResults i |}.

Definition set_readOnlyDB (x : option SqlDB) (i : Indexer) :=
  {| votePool := votePool i; dbPath := dbPath i; readOnlyDB := x;
     readWriteDB := readWriteDB i; readOnlyQuery := readOnlyQuery i;
     blockMu := blockMu i; blockTx := blockTx i; blockQueries := blockQueries i;
     blockUpdateProcs := blockUpdateProcs i;
     blockUpdateProcVoteCounts := blockUpdateProcVoteCounts i;
     liveResultsProcs := liveResultsProcs i;
     ignoreLiveResults := ignoreLiveResults i |}.

Definition set_readWriteDB (x : option SqlDB) (i : Indexer) :=
  {| votePool := votePool i; dbPath := dbPath i; readOnlyDB := readOnlyDB i;
     readWriteDB := x; readOnlyQuery := readOnlyQuery i;
     blockMu := blockMu i; blockTx := blockTx i; blockQueries := blockQueries i;
     blockUpdateProcs := blockUpdateProcs i;
     blockUpdateProcVoteCounts := blockUpdateProcVoteCounts i;
     liveResultsProcs := liveResultsProcs i;
     ignoreLiveResults := ignoreLiveResults i |}.

Definition set_readOnlyQuery (x : option Queries) (i : Indexer) :=
  {| votePool := votePool i; dbPath := dbPath i; readOnlyDB := readOnlyDB i;
     readWriteDB := readWriteDB i; readOnlyQuery := x;
     blockMu := blockMu i; blockTx := blockTx i; blockQueries := blockQueries i;
     blockUpdateProcs := blockUpdateProcs i;
     blockUpdateProcVoteCounts := blockUpdateProcVoteCounts i;
     liveResultsProcs := liveResultsProcs i;
     ignoreLiveResults := ignoreLiveResults i |}.

Definition set_blockMu (x : bool) (i : Indexer) :=
  {| votePool := votePool i; dbPath := dbPath i; readOnlyDB := readOnlyDB i;
     readWriteDB := readWriteDB i; readOnlyQuery := readOnlyQuery i;
     blockMu := x; blockTx := blockTx i; blockQueries := blockQueries i;
     blockUpdateProcs := blockUpdateProcs i;
     blockUpdateProcVoteCounts := blockUpdateProcVoteCounts i;
     liveResultsProcs := liveResultsProcs i;
     ignoreLiveResults := ignoreLiveResults i |}.

Definition set_blockTx (x : option Tx) (i : Indexer) :=
  {| votePool := votePool i; dbPath := dbPath i; readOnlyDB := readOnlyDB i;
     readWriteDB := readWriteDB i; readOnlyQuery := readOnlyQuery i;
     blockMu := blockMu i; blockTx := x; blockQueries := blockQueries i;
     blockUpdateProcs := blockUpdateProcs i;
     blockUpdateProcVoteCounts := blockUpdateProcVoteCounts i;
     liveResultsProcs := liveResultsProcs i;
     ignoreLiveResults := ignoreLiveResults i |}.

Definition set_blockQueries (x : option Queries) (i : Indexer) :=
  {| votePool := votePool i; dbPath := dbPath i; readOnlyDB := readOnlyDB i;
     readWriteDB := readWriteDB i; readOnlyQuery := readOnlyQuery i;
     blockMu := blockMu i; blockTx := blockTx i; blockQueries := x;
     blockUpdateProcs := blockUpdateProcs i;
     blockUpdateProcVoteCounts := blockUpdateProcVoteCounts i;
     liveResultsProcs := liveResultsProcs i;
     ignoreLiveResults := ignoreLiveResults i |}.

Definition set_blockUpdateProcs (x : gmap string bool) (i : Indexer) :=
  {| votePool := votePool i; dbPath := dbPath i; readOnlyDB := readOnlyDB i;
     readWriteDB := readWriteDB i; readOnlyQuery := readOnlyQuery i;
     blockMu := blockMu i; blockTx := blockTx i; blockQueries := blockQueries i;
     blockUpdateProcs := x;
     blockUpdateProcVoteCounts := blockUpdateProcVoteCounts i;
     liveResultsProcs := liveResultsProcs i;
     ignoreLiveResults := ignoreLiveResults i |}.

Definition set_blockUpdateProcVoteCounts (x : gmap string bool) (i : Indexer) :=
  {| votePool := votePool i; dbPath := dbPath i; readOnlyDB := readOnlyDB i;
     readWriteDB := readWriteDB i; readOnlyQuery := readOnlyQuery i;
     blockMu := blockMu i; blockTx := blockTx i; blockQueries := blockQueries i;
     blockUpdateProcs := blockUpdateProcs i;
     blockUpdateProcVoteCounts := x;
     liveResultsProcs := liveResultsProcs i;
     ignoreLiveResults := ignoreLiveResults i |}.

Definition set_liveResultsProcs (x : gset string) (i : Indexer) :=
  {| votePool := votePool i; dbPath := dbPath i; readOnlyDB := readOnlyDB i;
     readWriteDB := readWriteDB i; readOnlyQuery := readOnlyQuery i;
     blockMu := blockMu i; blockTx := blockTx i; blockQueries := blockQueries i;
     blockUpdateProcs := blockUpdateProcs i;
     blockUpdateProcVoteCounts := blockUpdateProcVoteCounts i;
     liveResultsProcs := x;
     ignoreLiveResults := ignoreLiveResults i |}.

Definition on_idx (f : Indexer -> Indexer) (w : World) : World :=
  {| idx := f (idx w); App := App w; disk := disk w; logs := logs w;
     sqlTrace := sqlTrace w; spawned := spawned w; nextTx := nextTx w |}.

Definition set_disk (d : gmap string Tables) (w : World) : World :=
  {| idx := idx w; App := App w; disk := d; logs := logs w;
     sqlTrace := sqlTrace w; spawned := spawned w; nextTx := nextTx w |}.

Definition add_log (l : Level) (msg : string) (w : World) : World :=
  {| idx := idx w; App := App w; disk := disk w; logs := (l, msg) :: logs w;
     sqlTrace := sqlTrace w; spawned := spawned w; nextTx := nextTx w |}.

Definition add_trace (stmt : string) (w : World) : World :=
  {| idx := idx w; App := App w; disk := disk w; logs := logs w;
     sqlTrace := stmt :: sqlTrace w; spawned := spawned w; nextTx := nextTx w |}.

Definition add_spawned (g : string) (w : World) : World :=
  {| idx := idx w; App := App w; disk := disk w; logs := logs w;
     sqlTrace := sqlTrace w; spawned := g :: spawned w; nextTx := nextTx w |}.

Definition bump_nextTx (w : World) : World :=
  {| idx := idx w; App := App w; disk := disk w; logs := logs w;
     sqlTrace := sqlTrace w; spawned := spawned w; nextTx := S (nextTx w) |}.

(** ** The monad of the code: state, panics, waiting on the mutex *)

Definition M (A : Type) : Type := World -> Outcome (A * World).

Definition ret {A} (a : A) : M A := fun w => Returns (a, w).

Definition bind {A C} (m : M A) (k : A -> M C) : M C :=
  fun w =>
    match m w with
    | Returns (a, w') => k a w'
    | Panics msg => Panics msg
    | Blocks => Blocks
    end.

Definition panic {A} (msg : string) : M A := fun _ => Panics msg.
Definition gets {A} (f : World -> A) : M A := fun w => Returns (f w, w).
Definition modify (f : World -> World) : M unit := fun w => Returns (tt, f w).
Definition log (l : Level) (msg : string) : M unit := modify (add_log l msg).

End Model.

Notation "'let*' x ':=' c 'in' k" := (bind c (fun x => k))
  (at level 10, x pattern, c at level 100, k at level 200).
Notation "c ';;' k" := (bind c (fun _ => k))
  (at level 100, k at level 200, right associativity).

Section Code.
Context `{B : Backend}.

(** ** The block mutex *)

Definition Lock : M unit :=
  fun w =>
    if blockMu (idx w) then Blocks
    else Returns (tt, on_idx (set_blockMu true) w).

Definition Unlock : M unit := modify (on_idx (set_blockMu false)).

Definition TryLock : M bool :=
  fun w =>
    if blockMu (idx w) then Returns (false, w)
    else Returns (true, on_idx (set_blockMu true) w).

(** [idx.blockMu.Lock(); defer idx.blockMu.Unlock(); body]. *)
Definition withLock {A} (body : M A) : M A :=
  Lock ;; let* r := body in Unlock ;; ret r.

(** ** [database/sql] *)

(** The tables a connection of [db] sees; [ro] tells the reader from the
    writer, which creates a missing file. *)
Definition open_tables (ro : bool) (db : SqlDB) (w : World) : res Tables :=
  if sql_closed db then Err ErrDBClosed
  else match disk w !! sql_path db with
       | Some t => Ok t
       | None => if ro then Err "unable to open database file" else Ok newDB
       end.

(** The writer has one connection ([SetMaxOpenConns(1)]): while the block
    transaction holds it, anything else on the writer waits. *)
Definition acquire_conn (ro : bool) : M unit :=
  fun w =>
    match blockTx (idx w) with
    | Some tx => if ro || tx_done tx then Returns (tt, w) else Blocks
    | None => Returns (tt, w)
    end.

(** A statement run on the writer [db] outside any transaction. *)
Definition db_exec (db : option SqlDB) (stmt : string)
    (f : Tables -> res Tables) : M (option string) :=
  match db with
  | None => panic nilDeref
  | Some db =>
      acquire_conn false ;;
      modify (add_trace stmt) ;;
      let* t := gets (open_tables false db) in
      match t with
      | Err e => ret (Some e)
      | Ok t =>
          match f t with
          | Ok t' => modify (fun w => set_disk (<[sql_path db := t']> (disk w)) w) ;; ret None
          | Err e => ret (Some e)
          end
      end
  end.

Definition db_query {A} (ro : bool) (db : option SqlDB) (stmt : string)
    (f : Tables -> res A) : M (res A) :=
  match db with
  | None => panic nilDeref
  | Some db =>
      acquire_conn ro ;;
      modify (add_trace stmt) ;;
      let* t := gets (open_tables ro db) in
      match t with
      | Err e => ret (Err e)
      | Ok t => ret (f t)
      end
  end.

(** [idx.readWriteDB.Begin()]. *)
Definition db_Begin : M (res Tx) :=
  let* db := gets (fun w => readWriteDB (idx w)) in
  match db with
  | None => panic nilDeref
  | Some db =>
      acquire_conn false ;;
      modify (add_trace "BEGIN") ;;
      let* t := gets (open_tables false db) in
      match t with
      | Err e => ret (Err e)
      | Ok t =>
          let* n := gets nextTx in
          modify bump_nextTx ;;
          ret (Ok {| tx_id := n; tx_path := sql_path db; tx_work := t; tx_done := false |})
      end
  end.

Definition finish (tx : Tx) : Tx :=
  {| tx_id := tx_id tx; tx_path := tx_path tx; tx_work := tx_work tx; tx_done := true |}.

(** [idx.blockTx.Commit()]: the working copy becomes the file. *)
Definition tx_Commit : M (option string) :=
  let* tx := gets (fun w => blockTx (idx w)) in
  match tx with
  | None => panic nilDeref
  | Some tx =>
      modify (add_trace "COMMIT") ;;
      if tx_done tx then ret (Some ErrTxDone)
      else
        modify (fun w => set_disk (<[tx_path tx := tx_work tx]> (disk w)) w) ;;
        modify (on_idx (set_blockTx (Some (finish tx)))) ;;
        ret None
  end.

(** [idx.blockTx.Rollback()]: the working copy is dropped. *)
Definition tx_Rollback : M (option string) :=
  let* tx := gets (fun w => blockTx (idx w)) in
  match tx with
  | None => panic nilDeref
  | Some tx =>
      modify (add_trace "ROLLBACK") ;;
      if tx_done tx then ret (Some ErrTxDone)
      else modify (on_idx (set_blockTx (Some (finish tx)))) ;; ret None
  end.

(** The tables a queries handle reads and writes: those of the
    transaction it is bound to, if that one is still in progress,
    otherwise those of its database. *)
Definition tables_of (q : Queries) (w : World) : res Tables :=
  match q_tx q with
  | Some n =>
      match blockTx (idx w) with
      | Some tx =>
          if decide (tx_id tx = n) then
            if tx_done tx then Err ErrTxDone else Ok (tx_work tx)
          else Err ErrTxDone
      | None => Err ErrTxDone
      end
  | None =>
      match (if q_ro q then readOnlyDB (idx w) else readWriteDB (idx w)) with
      | Some db => open_tables (q_ro q) db w
      | None => Err ErrDBClosed
      end
  end.

Definition store_tables (q : Queries) (t : Tables) (w : World) : World :=
  match q_tx q with
  | Some _ =>
      match blockTx (idx w) with
      | Some tx =>
          on_idx (set_blockTx (Some {| tx_id := tx_id tx; tx_path := tx_path tx;
                                       tx_work := t; tx_done := tx_done tx |})) w
      | None => w
      end
  | None =>
      match (if q_ro q then readOnlyDB (idx w) else readWriteDB (idx w)) with
      | Some db => set_disk (<[sql_path db := t]> (disk w)) w
      | None => w
      end
  end.

(** A generated query method that reads, called on [q]. *)
Definition q_read {A} (q : option Queries) (stmt : string)
    (f : Tables -> res A) : M (res A) :=
  match q with
  | None => panic nilDeref
  | Some q =>
      modify (add_trace stmt) ;;
      let* t := gets (tables_of q) in
      match t with
      | Err e => ret (Err e)
      | Ok t => ret (f t)
      end
  end.

(** A generated query method that writes, called on [q]; the Go error. *)
Definition q_write (q : option Queries) (stmt : string)
    (f : Tables -> res Tables) : M (option string) :=
  match q with
  | None => panic nilDeref
  | Some q =>
      modify (add_trace stmt) ;;
      let* t := gets (tables_of q) in
      match t with
      | Err e => ret (Some e)
      | Ok t =>
          match f t with
          | Ok t' => modify (store_tables q t') ;; ret None
          | Err e => ret (Some e)
          end
      end
  end.

(** ** Opening, restoring, closing *)

Definition gooseMigrationsPending (db : option SqlDB) : M bool :=
  let* v := db_query false db "goose: get db version" goose_GetDBVersion in
  match v with
  | Err e => log Error ("failed to get current database version: " ++ e) ;; ret false
  | Ok currentVersion =>
      match goose_CollectMigrations currentVersion with
      | Err e =>
          if String.eqb e "no migration files found" then ret false
          else log Error ("failed to collect migrations: " ++ e) ;; ret false
      | Ok migrations => ret (0 <? Z.of_nat (length migrations))%Z
      end
  end.

Definition startDB : M (option string) :=
  let* rw := gets (fun w => readWriteDB (idx w)) in
  match rw with
  | Some _ => panic "Indexer.startDB called twice"
  | None =>
      let* path := gets (fun w => dbPath (idx w)) in
      let rwdb := {| sql_path := path; sql_closed := false |} in
      modify (on_idx (set_readWriteDB (Some rwdb))) ;;
      let* pending := gooseMigrationsPending (Some rwdb) in
      (if pending
       then log Info "indexer db needs migration, scheduling a reindex after sync"
       else ret tt) ;;
      let* r :=
        (let* e := db_exec (Some rwdb) "goose: up" goose_Up in
         match e with
         | Some e => ret (Some ("goose up: " ++ e))
         | None =>
             let* e := db_exec (Some rwdb) "PRAGMA analysis_limit=1000; ANALYZE" sql_Analyze in
             match e with
             | Some e => ret (Some e)
             | None =>
                 let rodb := {| sql_path := path; sql_closed := false |} in
                 modify (on_idx (set_readOnlyDB (Some rodb))) ;;
                 let* p := db_query true (Some rodb) "prepare" (fun t => Ok (sql_Prepare t)) in
                 match p with
                 | Err e | Ok (Some e) =>
                     modify (on_idx (set_readOnlyQuery None)) ;; ret (Some e)
                 | Ok None =>
                     modify (on_idx (set_readOnlyQuery (Some {| q_ro := true; q_tx := None |}))) ;;
                     let* p := db_query false (Some rwdb) "prepare" (fun t => Ok (sql_Prepare t)) in
                     match p with
                     | Err e | Ok (Some e) =>
                         modify (on_idx (set_blockQueries None)) ;; ret (Some e)
                     | Ok None =>
                         modify (on_idx (set_blockQueries (Some {| q_ro := false; q_tx := None |}))) ;;
                         ret None
                     end
                 end
             end
         end) in
      (* the deferred [go idx.ReindexBlocks(false)] *)
      (if pending then modify (add_spawned "ReindexBlocks(false)") else ret tt) ;;
      ret r
  end.

(** [os.Open(src)] fails on a missing file; [os.Create(dst)] truncates or
    creates [dst] (an empty file is [newDB]); [io.Copy] then writes what
    [src] holds. *)
Definition copyFile (dst src : string) : M (option string) :=
  let* d := gets disk in
  match d !! src with
  | None => ret (Some ("open " ++ src ++ ": no such file or directory"))
  | Some _ =>
      let created := <[dst := newDB]> d in
      match created !! src with
      | Some data => modify (set_disk (<[dst := data]> created)) ;; ret None
      | None => ret (Some "read: file already closed")
      end
  end.

Definition Close : M (option string) :=
  let* ro := gets (fun w => readOnlyDB (idx w)) in
  match ro with
  | None => panic nilDeref
  | Some ro =>
      modify (on_idx (set_readOnlyDB (Some {| sql_path := sql_path ro; sql_closed := true |}))) ;;
      let* rw := gets (fun w => readWriteDB (idx w)) in
      match rw with
      | None => panic nilDeref
      | Some rw =>
          modify (on_idx (set_readWriteDB (Some {| sql_path := sql_path rw; sql_closed := true |}))) ;;
          ret None
      end
  end.

Definition RestoreBackup (path : string) : M (option string) :=
  let* rw := gets (fun w => readWriteDB (idx w)) in
  match rw with
  | Some _ => panic "Indexer.RestoreBackup called after the database was initialized"
  | None =>
      let* dst := gets (fun w => dbPath (idx w)) in
      let* e := copyFile dst path in
      match e with
      | Some e => ret (Some ("could not restore indexer backup: " ++ e))
      | None =>
          let* e := startDB in
          match e with
          | Some e => ret (Some e)
          | None => ret None
          end
      end
  end.

(** [blockTxQueries] assumes that the block mutex is locked. *)
Definition blockTxQueries : M (option Queries) :=
  let* acquired := TryLock in
  if (acquired : bool)
  then panic "Indexer.blockTxQueries was called without locking Indexer.lockPool"
  else
    let* tx := gets (fun w => blockTx (idx w)) in
    match tx with
    | None =>
        let* r := db_Begin in
        match r with
        | Err e => panic e
        | Ok tx =>
            modify (on_idx (set_blockTx (Some tx))) ;;
            let* q := gets (fun w => blockQueries (idx w)) in
            match q with
            | None => panic nilDeref
            | Some q => modify (on_idx (set_blockQueries (Some (WithTx q tx))))
            end
        end
    | Some _ => ret tt
    end ;;
    gets (fun w => blockQueries (idx w)).

End Code.

Section Callbacks.
Context `{B : Backend}.

Fixpoint forEach {A} (l : list A) (f : A -> M unit) : M unit :=
  match l with
  | [] => ret tt
  | x :: l' => f x ;; forEach l' f
  end.

Fixpoint foldM {A S} (f : S -> A -> M S) (l : list A) (s : S) : M S :=
  match l with
  | [] => ret s
  | x :: l' => let* s' := f s x in foldM f l' s'
  end.

Definition when (b : bool) (m : M unit) : M unit := if b then m else ret tt.

(** [if err != nil { log ... }]. *)
Definition logIfErr (e : option string) (l : Level) (msg : string) : M unit :=
  match e with
  | Some _ => log l msg
  | None => ret tt
  end.

Definition int64 (z : Z) : Z := ((z + 2 ^ 63) mod 2 ^ 64 - 2 ^ 63)%Z.

Definition dquote : string := String (ascii_of_nat 34) EmptyString.

Definition lower_ascii (c : ascii) : ascii :=
  let n := nat_of_ascii c in
  if (65 <=? n)%nat && (n <=? 90)%nat then ascii_of_nat (n + 32) else c.

Fixpoint ToLower (s : string) : string :=
  match s with
  | EmptyString => EmptyString
  | String c s' => String (lower_ascii c) (ToLower s')
  end.

(** Modelled from the spec: [isProcessLiveResults] and
    [addProcessToLiveResults] are defined outside [indexer.go]; the spec
    has a live-results process set that callbacks read and extend. *)
Definition isProcessLiveResults (pid : bytes) : M bool :=
  gets (fun w => bool_decide (pid ∈ liveResultsProcs (idx w))).

Definition addProcessToLiveResults (pid : bytes) : M unit :=
  modify (on_idx (fun i => set_liveResultsProcs ({[pid]} ∪ liveResultsProcs i) i)).

(** Modelled from the spec: [newEmptyProcess] is defined outside
    [indexer.go]; the spec has it insert a process row with zeroed results
    within the open block transaction, under the block lock. *)
Definition newEmptyProcess (pid : bytes) : M (option string) :=
  withLock (
    let* queries := blockTxQueries in
    let* app := gets App in
    q_write queries "CreateProcess" (newEmptyProcess_sql app pid)).

(** Modelled from the spec: [indexTx] is defined outside [indexer.go]; the
    spec has it insert the transaction row within the open block
    transaction; its caller holds the block lock. *)
Definition indexTx (vtx : VochainTx) (blockHeight txIndex : Z) : M unit :=
  let* queries := blockTxQueries in
  let* e := q_write queries "CreateTransaction" (indexTx_sql vtx blockHeight txIndex) in
  logIfErr e Error "cannot index tx".

(** [idx.blockUpdateProcs[string(pid)] = true]. *)
Definition markUpdateProc (pid : bytes) : M unit :=
  modify (on_idx (fun i => set_blockUpdateProcs (<[pid := true]> (blockUpdateProcs i)) i)).

Definition OnProcess (pid : bytes) : M unit :=
  let* e := newEmptyProcess pid in
  logIfErr e Error "commit: cannot create new empty process" ;;
  let* synced := gets (fun w => IsSynced (App w)) in
  when synced (addProcessToLiveResults pid) ;;
  log Debug "new process".

(** The first block of [OnVote]: the vote pool. *)
Definition poolVote (vote : Vote) : M unit :=
  let pid := ProcessID vote in
  let* ignore := gets (fun w => ignoreLiveResults (idx w)) in
  let* live := if ignore then ret false else isProcessLiveResults (ProcessID vote) in
  when (negb ignore && live) (
    let nullifier := Nullifier vote in
    let* pool := gets (fun w => votePool (idx w)) in
    when (bool_decide (pool !! pid = None))
         (modify (on_idx (set_votePool (<[pid := ∅]> pool)))) ;;
    let* pool := gets (fun w => votePool (idx w)) in
    let prevVote := pool !! pid ≫= (fun m => m !! nullifier) in
    match prevVote with
    | Some prev =>
        when (Overwrites vote <? Overwrites prev)%Z
             (log Warn "OnVote called with a lower overwrite value than before")
    | None => ret tt
    end ;;
    modify (on_idx (set_votePool
      (<[pid := <[nullifier := vote]> (default ∅ (pool !! pid))]> pool)))).

(** [OnVote] stores the vote if the process has live results, and indexes
    it in any case. *)
Definition OnVote (vote : Vote) (txIndex : Z) : M unit :=
  let pid := ProcessID vote in
  poolVote vote ;;
  let weightStr :=
    match Weight vote with
    | Some w => EncodeJSON_BigInt w
    | None => dquote ++ "1" ++ dquote
    end in
  let keyIndexes := EncodeJSON_KeyIndexes (EncryptionKeyIndexes vote) in
  withLock (
    let* queries := blockTxQueries in
    let* e := q_write queries "CreateVote"
      (CreateVote {| cv_Nullifier := Nullifier vote;
                     cv_ProcessID := ProcessID vote;
                     cv_BlockHeight := Height vote;
                     cv_BlockIndex := txIndex;
                     cv_Weight := weightStr;
                     cv_OverwriteCount := Overwrites vote;
                     cv_VoterID := nonNullBytes (VoterID vote);
                     cv_EncryptionKeyIndexes := keyIndexes;
                     cv_Package := VotePackage vote |}) in
    logIfErr e Error "could not index vote" ;;
    modify (on_idx (fun i =>
      set_blockUpdateProcVoteCounts (<[pid := true]> (blockUpdateProcVoteCounts i)) i))).

Definition OnCancel (pid : bytes) : M unit := withLock (markUpdateProc pid).
Definition OnProcessKeys (pid : bytes) : M unit := withLock (markUpdateProc pid).
Definition OnProcessStatusChange (pid : bytes) : M unit := withLock (markUpdateProc pid).
Definition OnProcessDurationChange (pid : bytes) : M unit := withLock (markUpdateProc pid).
Definition OnProcessResults (pid : bytes) : M unit := withLock (markUpdateProc pid).
Definition OnCensusUpdate (pid : bytes) : M unit := withLock (markUpdateProc pid).

Definition OnRevealKeys (pid : bytes) : M unit :=
  let* p := gets (fun w => State_Process (App w) pid) in
  match p with
  | Err _ => log Error "cannot fetch process from state"
  | Ok p =>
      match sp_KeyIndex p with
      | None => log Error "keyindex is nil"
      | Some _ => withLock (markUpdateProc pid)
      end
  end.

Definition OnProcessesStart (pids : list bytes) : M unit :=
  withLock (forEach pids markUpdateProc).

Definition OnSetAccount (accountAddress : bytes) (account : StateAccount) : M unit :=
  withLock (
    let* queries := blockTxQueries in
    let* e := q_write queries "CreateAccount"
      (CreateAccount {| ca_Account := accountAddress;
                        ca_Balance := int64 (sa_Balance account);
                        ca_Nonce := sa_Nonce account |}) in
    logIfErr e Error "cannot index new account").

Definition OnTransferTokens (tx : TokenTransfer) : M unit :=
  withLock (
    let* queries := blockTxQueries in
    let* app := gets App in
    let* e := q_write queries "CreateTokenTransfer"
      (CreateTokenTransfer {| ct_TxHash := tk_TxHash tx;
                              ct_BlockHeight := app_Height app;
                              ct_FromAccount := tk_FromAddress tx;
                              ct_ToAccount := tk_ToAddress tx;
                              ct_Amount := int64 (tk_Amount tx);
                              ct_TransferTime := app_Timestamp app |}) in
    logIfErr e Error "cannot index new transaction").

Definition OnSpendTokens (address : bytes) (txType cost : Z) (reference : string) : M unit :=
  withLock (
    let* queries := blockTxQueries in
    let* app := gets App in
    let* e := q_write queries "CreateTokenFee"
      (CreateTokenFee {| cf_FromAccount := address;
                         cf_TxType := ToLower (TxType_String txType);
                         cf_Cost := int64 cost;
                         cf_Reference := reference;
                         cf_SpendTime := app_Timestamp app;
                         cf_BlockHeight := app_Height app |}) in
    logIfErr e Error "cannot index new token spending").

(** [Rollback] removes the non committed pending operations. *)
Definition Rollback : M unit :=
  withLock (
    modify (on_idx (set_votePool ∅)) ;;
    modify (on_idx (set_blockUpdateProcs ∅)) ;;
    modify (on_idx (set_blockUpdateProcVoteCounts ∅)) ;;
    let* tx := gets (fun w => blockTx (idx w)) in
    match tx with
    | Some _ =>
        let* e := tx_Rollback in
        logIfErr e Error "could not rollback tx" ;;
        modify (on_idx (set_blockTx None))
    | None => ret tt
    end).

End Callbacks.

Section Commit.
Context `{B : Backend}.

Definition zeroEnvelope : EnvelopeType :=
  {| Serial := false; Anonymous := false; EncryptedVotes := false;
     UniqueValues := false; CostFromWeight := false |}.

Definition zeroVoteOpts : ProcessVoteOptions :=
  {| MaxCount := 0; MaxValue := 0; MaxVoteOverwrites := 0;
     MaxTotalCost := 0; CostExponent := 0 |}.

(** [indexertypes.ProcessFromDB], for the fields of [Process] kept here
    (the process mode is decoded like the envelope type and is left out).
    [DecodeJSON] panics on malformed JSON; a protobuf that does not
    unmarshal is logged and leaves the zero value. *)
Definition ProcessFromDB (dbproc : GetProcessRow) : M Process :=
  match DecodeJSON_Votes (gp_ResultsVotes dbproc),
        DecodeJSON_BigInt (gp_ResultsWeight dbproc) with
  | Some votes, Some weight =>
      let* network :=
        match SourceNetworkId_name (gp_SourceNetworkID dbproc) with
        | None => log Error "unknown SourceNetworkId" ;; ret ""
        | Some name => ret name
        end in
      let* envelope :=
        match Unmarshal_EnvelopeType (gp_EnvelopePb dbproc) with
        | Ok e => ret e
        | Err e => log Error e ;; ret zeroEnvelope
        end in
      let* voteOpts :=
        match Unmarshal_VoteOpts (gp_VoteOptsPb dbproc) with
        | Ok o => ret o
        | Err e => log Error e ;; ret zeroVoteOpts
        end in
      ret {| p_ID := gp_ID dbproc;
             p_Status := int32 (gp_Status dbproc);
             p_HaveResults := gp_HaveResults dbproc;
             p_FinalResults := gp_FinalResults dbproc;
             p_SourceNetworkId := network;
             p_Envelope := envelope;
             p_VoteOpts := voteOpts;
             p_VoteCount := uint64 (gp_VoteCount dbproc);
             p_ResultsVotes := votes;
             p_ResultsWeight := weight;
             p_ResultsBlockHeight := uint32 (gp_ResultsBlockHeight dbproc) |}
  | _, _ => panic "json: cannot unmarshal"
  end.

(** What the loop over the pooled ballots of [Commit] carries: the two
    accumulators of the current process and the two counters. *)
Record Tally := {
  addedResults : Results;
  subtractedResults : Results;
  newVotes : Z;
  overwritedVotes : Z;
}.

Definition emptyResults (proc : Process) : Results :=
  {| r_ProcessID := ""; r_Votes := []; r_Weight := 0;
     r_VoteOpts := p_VoteOpts proc; r_EnvelopeType := p_Envelope proc;
     r_BlockHeight := 0 |}.

(** [idx.addLiveVote(proc, v.VotePackage, v.Weight, addedResults)] and what
    follows it, to the end of the loop body. *)
Definition addNewVote (proc : Process) (v : Vote) (t : Tally) : M Tally :=
  let (added, e) := addLiveVote proc (VotePackage v) (Weight v) (addedResults t) in
  logIfErr e Error "vote cannot be added to results" ;;
  ret {| addedResults := added; subtractedResults := subtractedResults t;
         newVotes := newVotes t; overwritedVotes := overwritedVotes t |}.

(** The body of [for _, v := range votesByNullifier] in [Commit]. *)
Definition commitPooledVote (proc : Process) (t : Tally) (v : Vote) : M Tally :=
  let* previousVote :=
    if (0 <? Overwrites v)%Z then
      let* r := gets (fun w => State_Vote (App w) (ProcessID v) (Nullifier v)) in
      match r with
      | VoteFound pv => ret (Some pv)
      | VoteNil => ret None
      | VoteErr _ => log Warn "cannot get previous vote" ;; ret None
      end
    else ret None in
  match previousVote with
  | Some previousVote =>
      log Debug "vote overwrite, previous vote" ;;
      if (Overwrites v <=? GetOverwriteCount previousVote)%Z then
        log Error "check vote overwrite failed" ;;
        ret t
      else
        let (subtracted, e) :=
          addLiveVote proc (sv_VotePackage previousVote)
                      (Some (SetBytes (sv_Weight previousVote))) (subtractedResults t) in
        let t := {| addedResults := addedResults t; subtractedResults := subtracted;
                    newVotes := newVotes t; overwritedVotes := overwritedVotes t |} in
        match e with
        | Some _ => log Error "vote cannot be added to subtracted results" ;; ret t
        | None =>
            addNewVote proc v
              {| addedResults := addedResults t; subtractedResults := subtractedResults t;
                 newVotes := newVotes t; overwritedVotes := overwritedVotes t + 1 |}
        end
  | None =>
      addNewVote proc v
        {| addedResults := addedResults t; subtractedResults := subtractedResults t;
           newVotes := newVotes t + 1; overwritedVotes := overwritedVotes t |}
  end.

(** The body of [for pidStr, votesByNullifier := range idx.votePool]. *)
Definition commitPool (queries : option Queries) (counts : Z * Z)
    (entry : string * gmap string Vote) : M (Z * Z) :=
  let pid := entry.1 in
  let* procInner := q_read queries "GetProcess" (GetProcess pid) in
  match procInner with
  | Err _ => log Warn "cannot get process" ;; ret counts
  | Ok procInner =>
      let* proc := ProcessFromDB procInner in
      let* t := foldM (commitPooledVote proc) (map_to_list entry.2).*2
                  {| addedResults := emptyResults proc;
                     subtractedResults := emptyResults proc;
                     newVotes := counts.1; overwritedVotes := counts.2 |} in
      let* app := gets App in
      let* e := q_write queries "commitVotes"
        (commitVotes_sql pid (Process_Results proc) (addedResults t)
                         (subtractedResults t) (app_Height app)) in
      logIfErr e Error "cannot commit live votes from block" ;;
      ret (newVotes t, overwritedVotes t)
  end.

Definition blockParams (b : Block) : CreateBlockParams :=
  {| cb_ChainID := b_ChainID b;
     cb_Height := b_Height b;
     cb_Time := b_Time b;
     cb_Hash := nonNullBytes (b_Hash b);
     cb_ProposerAddress := nonNullBytes (b_ProposerAddress b);
     cb_LastBlockHash := nonNullBytes (b_LastBlockHash b) |}.

(** [slices.Sorted(maps.Keys(m))]. *)
Definition sortedKeys {V} (m : gmap string V) : list string :=
  merge_sort string_le (map_to_list m).*1.

(** [Commit] is called by the application when a block is confirmed. *)
Definition Commit (height : Z) : M (option string) :=
  withLock (
    let* updateProcs := gets (fun w => sortedKeys (blockUpdateProcs (idx w))) in
    let* queries := blockTxQueries in
    let* app := gets App in
    match app_GetBlockByHeight app height with
    | Some b =>
        let* e := q_write queries "CreateBlock" (CreateBlock (blockParams b)) in
        logIfErr e Error "cannot index new block"
    | None => ret tt
    end ;;
    forEach updateProcs (fun pid =>
      let* e := q_write queries "UpdateProcess" (updateProcess_sql app pid) in
      match e with
      | Some _ => log Error "commit: cannot update process"
      | None => log Debug "updated process"
      end) ;;
    modify (on_idx (set_blockUpdateProcs ∅)) ;;
    let* pool := gets (fun w => votePool (idx w)) in
    let* counts := foldM (commitPool queries) (map_to_list pool) (0, 0)%Z in
    modify (on_idx (set_votePool ∅)) ;;
    let* dirty := gets (fun w => blockUpdateProcVoteCounts (idx w)) in
    forEach (map_to_list dirty).*1 (fun pid =>
      let* e := q_write queries "ComputeProcessVoteCount" (ComputeProcessVoteCount pid) in
      logIfErr e Error "could not compute process vote count") ;;
    modify (on_idx (set_blockUpdateProcVoteCounts ∅)) ;;
    let* e := tx_Commit in
    logIfErr e Error "could not commit tx" ;;
    modify (on_idx (set_blockTx None)) ;;
    let* r :=
      if (Z.rem height 1000 =? 0)%Z then
        let* db := gets (fun w => readWriteDB (idx w)) in
        db_exec db "PRAGMA optimize" sql_Optimize
      else ret None in
    match r with
    | Some e => ret (Some e)
    | None =>
        when (0 <? counts.1 + counts.2)%Z (log Info "add live votes to results") ;;
        ret None
    end).

End Commit.

Section Queries.
Context `{B : Backend}.

Definition feeMeta (row : SearchTokenFeesRow) : TokenFeeMeta :=
  {| tf_Cost := uint64 (fr_Cost row);
     tf_From := fr_FromAccount row;
     tf_TxType := fr_TxType row;
     tf_Height := uint64 (fr_BlockHeight row);
     tf_Reference := fr_Reference row;
     tf_Timestamp := fr_SpendTime row |}.

Definition transferMeta (row : SearchTokenTransfersRow) : TokenTransferMeta :=
  {| tt_Amount := uint64 (xr_Amount row);
     tt_From := xr_FromAccount row;
     tt_To := xr_ToAccount row;
     tt_Height := uint64 (xr_BlockHeight row);
     tt_TxHash := xr_TxHash row;
     tt_Timestamp := xr_TransferTime row |}.

Definition accountOf (row : SearchAccountsRow) : Account :=
  {| a_Address := ar_Account row;
     a_Balance := uint64 (ar_Balance row);
     a_Nonce := uint32 (ar_Nonce row) |}.

Definition badOffset (offset : Z) : string :=
  "invalid value: offset cannot be " ++ pretty offset.
Definition badLimit (limit : Z) : string :=
  "invalid value: limit cannot be " ++ pretty limit.

(** The three listing functions return a Go triple: the page (nil or a
    slice), the total count, the error (nil or not). *)
Definition TokenFeesList (limit offset : Z) (txType reference fromAccount : string)
    : M (option (list TokenFeeMeta) * Z * option string) :=
  if (offset <? 0)%Z then ret (None, 0%Z, Some (badOffset offset))
  else if (limit <=? 0)%Z then ret (None, 0%Z, Some (badLimit limit))
  else
    let* q := gets (fun w => readOnlyQuery (idx w)) in
    let* results := q_read q "SearchTokenFees"
      (SearchTokenFees {| sf_Limit := limit; sf_Offset := offset; sf_TxType := txType;
                          sf_Reference := reference; sf_FromAccount := fromAccount |}) in
    match results with
    | Err e => ret (None, 0%Z, Some e)
    | Ok results =>
        let list := map feeMeta results in
        match results with
        | [] => ret (Some list, 0%Z, None)
        | first :: _ => ret (Some list, uint64 (fr_TotalCount first), None)
        end
    end.

Definition TokenTransfersList (limit offset : Z)
    (fromOrToAccount fromAccount toAccount : string)
    : M (option (list TokenTransferMeta) * Z * option string) :=
  if (offset <? 0)%Z then ret (None, 0%Z, Some (badOffset offset))
  else if (limit <=? 0)%Z then ret (None, 0%Z, Some (badLimit limit))
  else
    let* q := gets (fun w => readOnlyQuery (idx w)) in
    let* results := q_read q "SearchTokenTransfers"
      (SearchTokenTransfers {| st_Limit := limit; st_Offset := offset;
                               st_FromOrToAccount := fromOrToAccount;
                               st_FromAccount := fromAccount;
                               st_ToAccount := toAccount |}) in
    match results with
    | Err e => ret (None, 0%Z, Some e)
    | Ok results =>
        let list := map transferMeta results in
        match results with
        | [] => ret (Some list, 0%Z, None)
        | first :: _ => ret (Some list, uint64 (xr_TotalCount first), None)
        end
    end.

Definition AccountList (limit offset : Z) (accountID : string)
    : M (option (list Account) * Z * option string) :=
  if (offset <? 0)%Z then ret (None, 0%Z, Some (badOffset offset))
  else if (limit <=? 0)%Z then ret (None, 0%Z, Some (badLimit limit))
  else
    let* q := gets (fun w => readOnlyQuery (idx w)) in
    let* results := q_read q "SearchAccounts"
      (SearchAccounts {| sa_Limit := limit; sa_Offset := offset;
                         sa_AccountIDSubstr := accountID |}) in
    match results with
    | Err e => ret (None, 0%Z, Some e)
    | Ok results =>
        let list := map accountOf results in
        match results with
        | [] => ret (Some list, 0%Z, None)
        | first :: _ => ret (Some list, uint64 (ar_TotalCount first), None)
        end
    end.

(** [AccountExists] returns whether the passed accountID exists in the db;
    if the argument is not the full hex string, it returns false. *)
Definition AccountExists (accountID : string) : M bool :=
  if negb (String.length accountID =? 40)%nat then ret false
  else
    let* r := AccountList 1 0 accountID in
    logIfErr r.2 Error "indexer query failed" ;;
    ret (0 <? r.1.2)%Z.

End Queries.

Section Reindex.
Context `{B : Backend}.

(** Modelled from the spec: [CountBlocks] is defined outside
    [indexer.go]; it is a counting query of the read-only query surface. *)
Definition Indexer_CountBlocks : M (res Z) :=
  let* q := gets (fun w => readOnlyQuery (idx w)) in
  q_read q "CountBlocks" CountBlocks.

(** [idx.blockTx.Commit()], the log of its error, [idx.blockTx = nil]. *)
Definition commitBlockTx : M unit :=
  let* e := tx_Commit in
  logIfErr e Error "could not commit tx" ;;
  modify (on_idx (set_blockTx None)).

(** The first closure of the loop body of [ReindexBlocks]: the block row.
    It may rebind the local variable [queries], which it returns. *)
Definition reindexBlock (height : Z) (b : Block) (queries : option Queries)
    : M (option Queries) :=
  let* ro := gets (fun w => readOnlyQuery (idx w)) in
  let* idxBlock := q_read ro "GetBlockByHeight" (GetBlockByHeight (b_Height b)) in
  let* queries :=
    if (Z.rem height 10000 =? 1)%Z then
      log Info "reindexing height, updating values on current row" ;;
      commitBlockTx ;;
      blockTxQueries
    else ret queries in
  let create :=
    let* e := q_write queries "CreateBlock" (CreateBlock (blockParams b)) in
    logIfErr e Error "cannot index new block" ;;
    ret queries in
  match idxBlock with
  | Ok row =>
      if negb (br_Time row =? b_Time b)%Z then
        log Error "while reindexing blocks, block timestamp in db differs from blockstore, leaving untouched" ;;
        ret queries
      else create
  | Err _ => create
  end.

(** The second closure: [for index, tx := range b.Data.Txs], from position
    [index] on.  A stored hash that differs returns from the closure; the
    value tells whether the loop ran to its end (true) or returned (false),
    which the caller does not look at. *)
Fixpoint reindexTxs (b : Block) (index : Z) (txs : list bytes) : M bool :=
  match txs with
  | [] => ret true
  | tx :: rest =>
      let* ro := gets (fun w => readOnlyQuery (idx w)) in
      let* idxTx := q_read ro "GetTransactionByHeightAndIndex"
                      (GetTransactionByHeightAndIndex (b_Height b) index) in
      let go_on :=
        match Tx_Unmarshal tx (b_ChainID b) with
        | Err _ => log Error "cannot unmarshal tx" ;; reindexTxs b (index + 1) rest
        | Ok vtx =>
            indexTx vtx (uint32 (b_Height b)) (int32 index) ;;
            reindexTxs b (index + 1) rest
        end in
      match idxTx with
      | Ok row =>
          if negb (String.eqb (tr_Hash row) (Tx_Hash tx)) then
            log Error "while reindexing txs, tx hash in db differs from blockstore, leaving untouched" ;;
            ret false
          else go_on
      | Err _ => go_on
      end
  end.

(** The loop of [ReindexBlocks] over the heights still to visit. *)
Fixpoint reindexHeights (heights : list Z) (queries : option Queries) : M unit :=
  match heights with
  | [] => ret tt
  | height :: rest =>
      let* app := gets App in
      match app_GetBlockByHeight app height with
      | Some b =>
          let* queries := reindexBlock height b queries in
          reindexTxs b 0 (b_Txs b) ;;
          reindexHeights rest queries
      | None => reindexHeights rest queries
      end
  end.

(** [ReindexBlocks] reindexes all blocks found in the block store.  Waiting
    for a chain that is not synced never ends here. *)
Definition ReindexBlocks (inTest : bool) : M unit :=
  let* synced := gets (fun w => IsSynced (App w)) in
  if negb inTest && negb synced then (fun _ => Blocks)
  else
    withLock (
      let* store := gets (fun w => app_BlockStore (App w)) in
      match store with
      | None => ret tt
      | Some store =>
          let* idxBlockCount := Indexer_CountBlocks in
          logIfErr (res_err idxBlockCount) Warn "indexer CountBlocks returned error" ;;
          log Info "start reindexing" ;;
          let* queries := blockTxQueries in
          reindexHeights (seqZ (bs_Base store) (bs_Height store - bs_Base store + 1)) queries ;;
          commitBlockTx ;;
          log Info "finished reindexing"
      end).

Definition dbFilename : string := "db.sqlite".

End Reindex.

(** ** [New]

    What [New] asks of the operating system beyond the files themselves,
    for a path: the error of [os.MkdirAll], an error of [os.Stat] other than
    the one of a missing file, and [filepath.Join]. *)
Class OS := {
  os_MkdirAll : string -> option string;
  os_Stat_error : string -> option string;
  filepath_Join : string -> string -> string;
}.

(** The error of [os.Stat]: nil, one that [os.IsNotExist] accepts, or
    another one. *)
Inductive StatError :=
| StatNil
| StatNotExist
| StatOther (e : string).

(** The [*Indexer] that [New] returns: nil, or the indexer of the world. *)
Inductive IndexerPtr := nilIndexer | theIndexer.

Section Construct.
Context `{B : Backend} `{O : OS}.

Definition os_Stat (files : gmap string Tables) (path : string) : StatError :=
  match os_Stat_error path with
  | Some e => StatOther e
  | None =>
      match files !! path with
      | Some _ => StatNil
      | None => StatNotExist
      end
  end.

(** [New]: the indexer on the files [files] and the application [app];
    the fields it does not set have their zero value.  [os.MkdirAll] is
    its error (the files have no directories); the subscription to the
    events of the state, [AddEventListener], is what makes the application
    call the callbacks, and changes nothing here.  An error of [os.Stat]
    other than the one of a missing file makes neither disjunct of the
    condition true: [startDB] is skipped, and the indexer is returned. *)
Definition New (app : BaseApplication) (files : gmap string Tables)
    (DataDir : string) (ExpectBackupRestore IgnoreLiveResults : bool)
    : Outcome ((IndexerPtr * option string) * World) :=
  let w :=
    {| idx := {| votePool := ∅; dbPath := ""; readOnlyDB := None; readWriteDB := None;
                 readOnlyQuery := None; blockMu := false; blockTx := None;
                 blockQueries := None; blockUpdateProcs := ∅;
                 blockUpdateProcVoteCounts := ∅; liveResultsProcs := ∅;
                 ignoreLiveResults := IgnoreLiveResults |};
       App := app; disk := files;
       logs := [(Info, "indexer initialization")];
       sqlTrace := []; spawned := []; nextTx := 0 |} in
  match os_MkdirAll DataDir with
  | Some e => Returns ((nilIndexer, Some e), w)
  | None =>
      (modify (on_idx (set_dbPath (filepath_Join DataDir dbFilename))) ;;
       let* path := gets (fun w => dbPath (idx w)) in
       let* d := gets disk in
       let start :=
         match os_Stat d path with
         | StatNil => true
         | StatNotExist => negb ExpectBackupRestore
         | StatOther _ => false
         end in
       if start then
         let* e := startDB in
         match e with
         | Some e => ret (nilIndexer, Some e)
         | None => ret (theIndexer, None)
         end
       else ret (theIndexer, None)) w
  end.

End Construct.

(** Modelled from the spec: a reference backend.  The generated queries,
    the migrations, the codecs, [addLiveVote], [updateProcess],
    [commitVotesUnsafe], [newEmptyProcess] and [indexTx] are not in
    [indexer.go].  This backend follows the data model and the aggregator
    of the specification: one list of rows per entity, votes and transfers
    and fees append-only, accounts and blocks replaced in place, listings
    filtered, latest first, cut by offset and limit, with the count of
    matching rows in every row.  The theorems below hold for every
    backend; this one runs them on concrete inputs. *)

Module Spec.

Record SpecTables := {
  t_version : Z;
  t_blocks : list CreateBlockParams;
  t_transactions : list TransactionRow;
  t_processes : list GetProcessRow;
  t_votes : list CreateVoteParams;
  t_accounts : list CreateAccountParams;
  t_transfers : list CreateTokenTransferParams;
  t_fees : list CreateTokenFeeParams;
}.

Definition emptyTables : SpecTables :=
  {| t_version := 0; t_blocks := []; t_transactions := []; t_processes := [];
     t_votes := []; t_accounts := []; t_transfers := []; t_fees := [] |}.

Definition latestVersion : Z := 3.
Definition noRows : string := "sql: no rows in result set".

Definition with_version (v : Z) (t : SpecTables) : SpecTables :=
  {| t_version := v; t_blocks := t_blocks t; t_transactions := t_transactions t;
     t_processes := t_processes t; t_votes := t_votes t; t_accounts := t_accounts t;
     t_transfers := t_transfers t; t_fees := t_fees t |}.
Definition with_blocks (x : list CreateBlockParams) (t : SpecTables) : SpecTables :=
  {| t_version := t_version t; t_blocks := x; t_transactions := t_transactions t;
     t_processes := t_processes t; t_votes := t_votes t; t_accounts := t_accounts t;
     t_transfers := t_transfers t; t_fees := t_fees t |}.
Definition with_transactions (x : list TransactionRow) (t : SpecTables) : SpecTables :=
  {| t_version := t_version t; t_blocks := t_blocks t; t_transactions := x;
     t_processes := t_processes t; t_votes := t_votes t; t_accounts := t_accounts t;
     t_transfers := t_transfers t; t_fees := t_fees t |}.
Definition with_processes (x : list GetProcessRow) (t : SpecTables) : SpecTables :=
  {| t_version := t_version t; t_blocks := t_blocks t; t_transactions := t_transactions t;
     t_processes := x; t_votes := t_votes t; t_accounts := t_accounts t;
     t_transfers := t_transfers t; t_fees := t_fees t |}.
Definition with_votes (x : list CreateVoteParams) (t : SpecTables) : SpecTables :=
  {| t_version := t_version t; t_blocks := t_blocks t; t_transactions := t_transactions t;
     t_processes := t_processes t; t_votes := x; t_accounts := t_accounts t;
     t_transfers := t_transfers t; t_fees := t_fees t |}.
Definition with_accounts (x : list CreateAccountParams) (t : SpecTables) : SpecTables :=
  {| t_version := t_version t; t_blocks := t_blocks t; t_transactions := t_transactions t;
     t_processes := t_processes t; t_votes := t_votes t; t_accounts := x;
     t_transfers := t_transfers t; t_fees := t_fees t |}.
Definition with_transfers (x : list CreateTokenTransferParams) (t : SpecTables) : SpecTables :=
  {| t_version := t_version t; t_blocks := t_blocks t; t_transactions := t_transactions t;
     t_processes := t_processes t; t_votes := t_votes t; t_accounts := t_accounts t;
     t_transfers := x; t_fees := t_fees t |}.
Definition with_fees (x : list CreateTokenFeeParams) (t : SpecTables) : SpecTables :=
  {| t_version := t_version t; t_blocks := t_blocks t; t_transactions := t_transactions t;
     t_processes := t_processes t; t_votes := t_votes t; t_accounts := t_accounts t;
     t_transfers := t_transfers t; t_fees := x |}.

(** *** Codecs *)

Definition digit_of (c : ascii) : option Z :=
  let n := nat_of_ascii c in
  if (48 <=? n)%nat && (n <=? 57)%nat then Some (Z.of_nat (n - 48)) else None.

(** A vote package is its choices, one decimal digit each. *)
Fixpoint decodePackage (pkg : string) : option (list Z) :=
  match pkg with
  | EmptyString => Some []
  | String c rest =>
      match digit_of c, decodePackage rest with
      | Some d, Some l => Some (d :: l)
      | _, _ => None
      end
  end.

Fixpoint parseNat (s : string) (acc : Z) : option Z :=
  match s with
  | EmptyString => Some acc
  | String c rest =>
      match digit_of c with
      | Some d => parseNat rest (acc * 10 + d)%Z
      | None => None
      end
  end.

Definition encodeBigInt (z : Z) : string := pretty z.

Definition decodeBigInt (s : string) : option Z :=
  match s with
  | EmptyString => None
  | String _ _ => parseNat s 0
  end.

(** Tally vectors are written row by row: numbers separated by commas,
    rows ended by a semicolon. *)
Definition encodeRow (row : list Z) : string :=
  String.concat "," (map pretty row) ++ ";".

Definition encodeVotes (votes : list (list Z)) : string :=
  String.concat "" (map encodeRow votes).

Fixpoint decodeVotesFrom (s : string) (cur : option Z) (row : list Z)
    (rows : list (list Z)) : option (list (list Z)) :=
  match s with
  | EmptyString =>
      match cur, row with
      | None, [] => Some rows
      | _, _ => None
      end
  | String c rest =>
      if Ascii.eqb c ";" then
        match cur with
        | Some n => decodeVotesFrom rest None [] (rows ++ [row ++ [n]])%list
        | None => match row with
                  | [] => decodeVotesFrom rest None [] (rows ++ [[]])%list
                  | _ => None
                  end
        end
      else if Ascii.eqb c "," then
        match cur with
        | Some n => decodeVotesFrom rest None (row ++ [n])%list rows
        | None => None
        end
      else
        match digit_of c with
        | Some d => decodeVotesFrom rest (Some (default 0 cur * 10 + d)%Z) row rows
        | None => None
        end
  end.

Definition decodeVotes (s : string) : option (list (list Z)) :=
  decodeVotesFrom s None [] [].

Definition byte_of (z : Z) : ascii := ascii_of_N (Z.to_N z).
Definition of_byte (c : ascii) : Z := Z.of_N (N_of_ascii c).
Definition flag (c : ascii) : bool := negb (of_byte c =? 0)%Z.

(** Vote options and envelope types are stored one byte per field. *)
Definition marshalVoteOpts (o : ProcessVoteOptions) : bytes :=
  String (byte_of (MaxCount o)) (String (byte_of (MaxValue o))
    (String (byte_of (MaxVoteOverwrites o)) (String (byte_of (MaxTotalCost o))
      (String (byte_of (CostExponent o)) EmptyString)))).

Definition unmarshalVoteOpts (b : bytes) : res ProcessVoteOptions :=
  match b with
  | String a (String b (String c (String d (String e EmptyString)))) =>
      Ok {| MaxCount := of_byte a; MaxValue := of_byte b; MaxVoteOverwrites := of_byte c;
            MaxTotalCost := of_byte d; CostExponent := of_byte e |}
  | _ => Err "proto: cannot parse invalid wire-format data"
  end.

Definition marshalEnvelope (e : EnvelopeType) : bytes :=
  let bit (x : bool) := byte_of (if x then 1 else 0) in
  String (bit (Serial e)) (String (bit (Anonymous e)) (String (bit (EncryptedVotes e))
    (String (bit (UniqueValues e)) (String (bit (CostFromWeight e)) EmptyString)))).

Definition unmarshalEnvelope (b : bytes) : res EnvelopeType :=
  match b with
  | String a (String b (String c (String d (String e EmptyString)))) =>
      Ok {| Serial := flag a; Anonymous := flag b; EncryptedVotes := flag c;
            UniqueValues := flag d; CostFromWeight := flag e |}
  | _ => Err "proto: cannot parse invalid wire-format data"
  end.

Definition hexDigit (n : N) : ascii :=
  if (n <? 10)%N then ascii_of_N (48 + n) else ascii_of_N (87 + n).

Fixpoint hexOf (b : bytes) : string :=
  match b with
  | EmptyString => EmptyString
  | String c rest =>
      let n := N_of_ascii c in
      String (hexDigit (n / 16)) (String (hexDigit (n mod 16)) (hexOf rest))
  end.

Fixpoint contains (needle hay : string) : bool :=
  String.prefix needle hay ||
  match hay with
  | EmptyString => false
  | String _ rest => contains needle rest
  end.

Definition txTypeName (t : Z) : string :=
  match t with
  | 0 => "TX_UNKNOWN"
  | 1 => "NEW_PROCESS"
  | 2 => "SET_PROCESS_STATUS"
  | 3 => "SET_PROCESS_CENSUS"
  | 4 => "VOTE"
  | 5 => "SET_ACCOUNT_INFO_URI"
  | 6 => "SEND_TOKENS"
  | _ => pretty t
  end%Z.

(** *** The aggregator *)

Definition zeroVotes (o : ProcessVoteOptions) : list (list Z) :=
  replicate (Z.to_nat (MaxCount o)) (replicate (Z.to_nat (MaxValue o + 1)) 0%Z).

(** Question [q] receives [weight] at the index of its choice. *)
Fixpoint addChoices (q : nat) (choices : list Z) (weight : Z)
    (votes : list (list Z)) : list (list Z) :=
  match choices with
  | [] => votes
  | c :: rest =>
      addChoices (S q) rest weight (alter (alter (Z.add weight) (Z.to_nat c)) q votes)
  end.

Definition totalCost (o : ProcessVoteOptions) (choices : list Z) : Z :=
  fold_right (fun c acc => (c ^ CostExponent o + acc)%Z) 0%Z choices.

Definition validChoices (o : ProcessVoteOptions) (e : EnvelopeType)
    (choices : list Z) : option string :=
  if negb (Z.of_nat (length choices) =? MaxCount o)%Z then
    Some "wrong number of choices"
  else if existsb (fun c => (MaxValue o <? c)%Z) choices then
    Some "choice above the maximum value"
  else if UniqueValues e && negb (bool_decide (NoDup choices)) then
    Some "choices are not unique"
  else if (0 <? MaxTotalCost o)%Z && (MaxTotalCost o <? totalCost o choices)%Z then
    Some "total cost above the maximum"
  else None.

(** Modelled from the spec: [addLiveVote] is defined outside [indexer.go].
    Adding one ballot: decode, validate against the vote options (choice
    count equal to the question count, each choice at most [MaxValue], no
    repeated choice under [UniqueValues], total cost within
    [MaxTotalCost]), add the weight (1 when absent) to the tally.  An
    invalid ballot leaves the accumulator as it was and is reported. *)
Definition addLiveVote (proc : Process) (pkg : bytes) (weight : option Z)
    (results : Results) : Results * option string :=
  match decodePackage pkg with
  | None => (results, Some "cannot unmarshal vote")
  | Some choices =>
      match validChoices (p_VoteOpts proc) (p_Envelope proc) choices with
      | Some e => (results, Some e)
      | None =>
          let w := default 1%Z weight in
          let votes :=
            match r_Votes results with
            | [] => zeroVotes (p_VoteOpts proc)
            | v => v
            end in
          ({| r_ProcessID := r_ProcessID results;
              r_Votes := addChoices 0 choices w votes;
              r_Weight := r_Weight results + w;
              r_VoteOpts := r_VoteOpts results;
              r_EnvelopeType := r_EnvelopeType results;
              r_BlockHeight := r_BlockHeight results |}, None)
      end
  end.

Definition combineRows (f : Z -> Z -> Z) (a b : list (list Z)) : list (list Z) :=
  match b with
  | [] => a
  | _ => zip_with (zip_with f) a b
  end.

(** *** Statements *)

Definition sameProcess (pid : bytes) (r : GetProcessRow) : bool := String.eqb (gp_ID r) pid.

Definition GetProcess (pid : bytes) (t : SpecTables) : res GetProcessRow :=
  match List.find (sameProcess pid) (t_processes t) with
  | Some r => Ok r
  | None => Err noRows
  end.

Definition updateRow (pid : bytes) (f : GetProcessRow -> GetProcessRow)
    (t : SpecTables) : SpecTables :=
  with_processes (map (fun r => if sameProcess pid r then f r else r) (t_processes t)) t.

Definition withResults (votes : list (list Z)) (weight height : Z)
    (r : GetProcessRow) : GetProcessRow :=
  {| gp_ID := gp_ID r; gp_Status := gp_Status r; gp_HaveResults := gp_HaveResults r;
     gp_FinalResults := gp_FinalResults r; gp_SourceNetworkID := gp_SourceNetworkID r;
     gp_EnvelopePb := gp_EnvelopePb r; gp_VoteOptsPb := gp_VoteOptsPb r;
     gp_VoteCount := gp_VoteCount r; gp_ResultsVotes := encodeVotes votes;
     gp_ResultsWeight := encodeBigInt weight; gp_ResultsBlockHeight := height |}.

Definition withVoteCount (n : Z) (r : GetProcessRow) : GetProcessRow :=
  {| gp_ID := gp_ID r; gp_Status := gp_Status r; gp_HaveResults := gp_HaveResults r;
     gp_FinalResults := gp_FinalResults r; gp_SourceNetworkID := gp_SourceNetworkID r;
     gp_EnvelopePb := gp_EnvelopePb r; gp_VoteOptsPb := gp_VoteOptsPb r;
     gp_VoteCount := n; gp_ResultsVotes := gp_ResultsVotes r;
     gp_ResultsWeight := gp_ResultsWeight r;
     gp_ResultsBlockHeight := gp_ResultsBlockHeight r |}.

Definition withOptions (o : ProcessVoteOptions) (e : EnvelopeType)
    (r : GetProcessRow) : GetProcessRow :=
  {| gp_ID := gp_ID r; gp_Status := gp_Status r; gp_HaveResults := gp_HaveResults r;
     gp_FinalResults := gp_FinalResults r; gp_SourceNetworkID := gp_SourceNetworkID r;
     gp_EnvelopePb := marshalEnvelope e; gp_VoteOptsPb := marshalVoteOpts o;
     gp_VoteCount := gp_VoteCount r; gp_ResultsVotes := gp_ResultsVotes r;
     gp_ResultsWeight := gp_ResultsWeight r;
     gp_ResultsBlockHeight := gp_ResultsBlockHeight r |}.

(** Modelled from the spec: [commitVotesUnsafe] is defined outside
    [indexer.go]; results := current + added - subtracted, at block
    [height]. *)
Definition commitVotes (pid : bytes) (current added subtracted : Results)
    (height : Z) (t : SpecTables) : res SpecTables :=
  match GetProcess pid t with
  | Err e => Err e
  | Ok _ =>
      let votes := combineRows Z.sub (combineRows Z.add (r_Votes current) (r_Votes added))
                               (r_Votes subtracted) in
      let weight := (r_Weight current + r_Weight added - r_Weight subtracted)%Z in
      Ok (updateRow pid (withResults votes weight height) t)
  end.

(** Modelled from the spec: a new process row with zeroed results sized by
    the vote options of the chain state. *)
Definition newEmptyProcess (app : BaseApplication) (pid : bytes)
    (t : SpecTables) : res SpecTables :=
  match State_Process app pid, GetProcess pid t with
  | Err e, _ => Err e
  | Ok _, Ok _ => Err "UNIQUE constraint failed: processes.id"
  | Ok sp, Err _ =>
      Ok (with_processes
            (t_processes t ++
             [{| gp_ID := pid; gp_Status := 0; gp_HaveResults := true;
                 gp_FinalResults := false; gp_SourceNetworkID := 0;
                 gp_EnvelopePb := marshalEnvelope (sp_EnvelopeType sp);
                 gp_VoteOptsPb := marshalVoteOpts (sp_VoteOptions sp);
                 gp_VoteCount := 0;
                 gp_ResultsVotes := encodeVotes (zeroVotes (sp_VoteOptions sp));
                 gp_ResultsWeight := encodeBigInt 0;
                 gp_ResultsBlockHeight := 0 |}])%list t)
  end.

(** Modelled from the spec: the row is rewritten from the chain state. *)
Definition updateProcess (app : BaseApplication) (pid : bytes)
    (t : SpecTables) : res SpecTables :=
  match State_Process app pid, GetProcess pid t with
  | Err e, _ | _, Err e => Err e
  | Ok sp, Ok _ =>
      Ok (updateRow pid (withOptions (sp_VoteOptions sp) (sp_EnvelopeType sp)) t)
  end.

Fixpoint distinct (l : list bytes) : list bytes :=
  match l with
  | [] => []
  | x :: rest => x :: List.filter (fun y => negb (String.eqb x y)) (distinct rest)
  end.

Definition ComputeProcessVoteCount (pid : bytes) (t : SpecTables) : res SpecTables :=
  let nullifiers :=
    map cv_Nullifier (List.filter (fun v => String.eqb (cv_ProcessID v) pid) (t_votes t)) in
  Ok (updateRow pid (withVoteCount (Z.of_nat (length (distinct nullifiers)))) t).

(** Replace the first row that [same] holds of, or append. *)
Fixpoint upsert {A} (same : A -> bool) (x : A) (l : list A) : list A :=
  match l with
  | [] => [x]
  | y :: rest => if same y then x :: rest else y :: upsert same x rest
  end.

Definition CreateVote (p : CreateVoteParams) (t : SpecTables) : res SpecTables :=
  Ok (with_votes (t_votes t ++ [p])%list t).

Definition CreateAccount (p : CreateAccountParams) (t : SpecTables) : res SpecTables :=
  Ok (with_accounts
        (upsert (fun a => String.eqb (ca_Account a) (ca_Account p)) p (t_accounts t)) t).

Definition CreateTokenTransfer (p : CreateTokenTransferParams) (t : SpecTables)
    : res SpecTables :=
  Ok (with_transfers (t_transfers t ++ [p])%list t).

Definition CreateTokenFee (p : CreateTokenFeeParams) (t : SpecTables) : res SpecTables :=
  Ok (with_fees (t_fees t ++ [p])%list t).

Definition CreateBlock (p : CreateBlockParams) (t : SpecTables) : res SpecTables :=
  Ok (with_blocks (upsert (fun b => (cb_Height b =? cb_Height p)%Z) p (t_blocks t)) t).

Definition GetBlockByHeight (h : Z) (t : SpecTables) : res BlockRow :=
  match List.find (fun b => (cb_Height b =? h)%Z) (t_blocks t) with
  | Some b => Ok {| br_Height := cb_Height b; br_Time := cb_Time b; br_Hash := cb_Hash b |}
  | None => Err noRows
  end.

Definition atPosition (h i : Z) (r : TransactionRow) : bool :=
  (tr_BlockHeight r =? h)%Z && (tr_BlockIndex r =? i)%Z.

Definition GetTransactionByHeightAndIndex (h i : Z) (t : SpecTables) : res TransactionRow :=
  match List.find (atPosition h i) (t_transactions t) with
  | Some r => Ok r
  | None => Err noRows
  end.

(** The hash of a transaction stands for itself here. *)
Definition Tx_Hash (tx : bytes) : bytes := tx.

Definition Tx_Unmarshal (tx : bytes) (chainID : string) : res bytes :=
  match tx with
  | EmptyString => Err "proto: cannot parse invalid wire-format data"
  | _ => Ok tx
  end.

(** Modelled from the spec: the transaction row at (height, index). *)
Definition indexTx (vtx : bytes) (h i : Z) (t : SpecTables) : res SpecTables :=
  Ok (with_transactions
        (upsert (atPosition h i)
                {| tr_BlockHeight := h; tr_BlockIndex := i; tr_Hash := Tx_Hash vtx |}
                (t_transactions t)) t).

Definition CountBlocks (t : SpecTables) : res Z := Ok (Z.of_nat (length (t_blocks t))).

(** *** Listings

    Modelled from the spec: matching rows, latest first, cut by offset and
    limit; every row carries the count of all matching rows. *)

Definition anyOr (filter value : string) : bool :=
  String.eqb filter "" || String.eqb filter value.

Definition page {A} (limit offset : Z) (hits : list A) : list A :=
  take (Z.to_nat limit) (drop (Z.to_nat offset) hits).

Definition feeHits (p : SearchTokenFeesParams) (t : SpecTables) : list CreateTokenFeeParams :=
  List.filter (fun f => anyOr (sf_TxType p) (cf_TxType f) &&
                        anyOr (sf_Reference p) (cf_Reference f) &&
                        anyOr (sf_FromAccount p) (hexOf (cf_FromAccount f)))
              (rev (t_fees t)).

Definition SearchTokenFees (p : SearchTokenFeesParams) (t : SpecTables)
    : res (list SearchTokenFeesRow) :=
  let hits := feeHits p t in
  Ok (map (fun f => {| fr_FromAccount := cf_FromAccount f; fr_TxType := cf_TxType f;
                       fr_Cost := cf_Cost f; fr_Reference := cf_Reference f;
                       fr_SpendTime := cf_SpendTime f; fr_BlockHeight := cf_BlockHeight f;
                       fr_TotalCount := Z.of_nat (length hits) |})
          (page (sf_Limit p) (sf_Offset p) hits)).

Definition transferHits (p : SearchTokenTransfersParams) (t : SpecTables)
    : list CreateTokenTransferParams :=
  List.filter (fun x => (anyOr (st_FromOrToAccount p) (hexOf (ct_FromAccount x)) ||
                         anyOr (st_FromOrToAccount p) (hexOf (ct_ToAccount x))) &&
                        anyOr (st_FromAccount p) (hexOf (ct_FromAccount x)) &&
                        anyOr (st_ToAccount p) (hexOf (ct_ToAccount x)))
              (rev (t_transfers t)).

Definition SearchTokenTransfers (p : SearchTokenTransfersParams) (t : SpecTables)
    : res (list SearchTokenTransfersRow) :=
  let hits := transferHits p t in
  Ok (map (fun x => {| xr_TxHash := ct_TxHash x; xr_BlockHeight := ct_BlockHeight x;
                       xr_FromAccount := ct_FromAccount x; xr_ToAccount := ct_ToAccount x;
                       xr_Amount := ct_Amount x; xr_TransferTime := ct_TransferTime x;
                       xr_TotalCount := Z.of_nat (length hits) |})
          (page (st_Limit p) (st_Offset p) hits)).

Definition accountHits (p : SearchAccountsParams) (t : SpecTables) : list CreateAccountParams :=
  List.filter (fun a => String.eqb (sa_AccountIDSubstr p) "" ||
                        contains (sa_AccountIDSubstr p) (hexOf (ca_Account a)))
              (rev (t_accounts t)).

Definition SearchAccounts (p : SearchAccountsParams) (t : SpecTables)
    : res (list SearchAccountsRow) :=
  let hits := accountHits p t in
  Ok (map (fun a => {| ar_Account := ca_Account a; ar_Balance := ca_Balance a;
                       ar_Nonce := ca_Nonce a;
                       ar_TotalCount := Z.of_nat (length hits) |})
          (page (sa_Limit p) (sa_Offset p) hits)).

(** *** Migrations *)

Definition CollectMigrations (current : Z) : res (list Z) :=
  match List.filter (fun v => (current <? v)%Z) [1; 2; latestVersion]%Z with
  | [] => Err "no migration files found"
  | l => Ok l
  end.

Definition Prepare (t : SpecTables) : option string :=
  if (t_version t =? latestVersion)%Z then None else Some "no such table: processes".

#[global] Instance SpecBackend : Backend :=
  Build_Backend SpecTables bytes emptyTables
    (fun t => Ok (t_version t)) CollectMigrations
    (fun t => Ok (with_version latestVersion t))
    (fun t => Ok t) (fun t => Ok t) Prepare
    CreateVote CreateAccount CreateTokenTransfer CreateTokenFee CreateBlock
    ComputeProcessVoteCount
    GetProcess GetBlockByHeight GetTransactionByHeightAndIndex CountBlocks
    SearchTokenFees SearchTokenTransfers SearchAccounts
    addLiveVote updateProcess commitVotes newEmptyProcess indexTx
    (fun z => dquote ++ encodeBigInt z ++ dquote)
    (fun l => String.concat "," (map pretty l))
    decodeVotes decodeBigInt unmarshalEnvelope unmarshalVoteOpts
    (fun n => if (n =? 0)%Z then Some "UNKNOWN" else None)
    txTypeName Tx_Hash Tx_Unmarshal.

End Spec.

(** An operating system for the examples: [os.MkdirAll] and [os.Stat] fail
    as [mkdir] and [stat] say, and [filepath.Join] is the one of Go on
    slash-separated paths: the elements from the first one that is not
    empty are joined with a slash and the result is cleaned (no empty
    element, no ".", and no ".." that an element before it cancels). *)
Module Unix.

Fixpoint elements (path : string) : list string :=
  match path with
  | EmptyString => [EmptyString]
  | String c rest =>
      if Ascii.eqb c "/" then EmptyString :: elements rest
      else match elements rest with
           | [] => [String c EmptyString]
           | e :: es => String c e :: es
           end
  end.

(** One element of the path, on the elements kept so far, last first. *)
Definition cleanStep (rooted : bool) (out : list string) (e : string) : list string :=
  if String.eqb e "" || String.eqb e "." then out
  else if String.eqb e ".." then
    match out with
    | top :: out' => if String.eqb top ".." then e :: out else out'
    | [] => if rooted then out else [e]
    end
  else e :: out.

Definition Clean (path : string) : string :=
  let rooted := match path with String c _ => Ascii.eqb c "/" | _ => false end in
  let out := rev (fold_left (cleanStep rooted) (elements path) []) in
  match rooted, out with
  | true, _ => "/" ++ String.concat "/" out
  | false, [] => "."
  | false, _ => String.concat "/" out
  end.

Definition Join (a b : string) : string :=
  if negb (String.eqb a "") then Clean (a ++ "/" ++ b)
  else if negb (String.eqb b "") then Clean b
  else "".

Definition os (mkdir stat : string -> option string) : OS :=
  {| os_MkdirAll := mkdir; os_Stat_error := stat; filepath_Join := Join |}.

(** No failure of the operating system. *)
Definition sound : OS := os (fun _ => None) (fun _ => None).

End Unix.

(** ** Reasoning about runs

    [wp m Q w]: run from [w], [m] returns (it neither panics nor waits for
    ever), and its value and final world satisfy [Q]. *)

Section Logic.
Context `{B : Backend}.

Definition wp {A} (m : M A) (Q : A -> World -> Prop) (w : World) : Prop :=
  match m w with
  | Returns (a, w') => Q a w'
  | Panics _ => False
  | Blocks => False
  end.

(** [w'] differs from [w] at most in the log, the statements traced and
    the goroutines started. *)
Definition quiet (w w' : World) : Prop :=
  idx w' = idx w /\ App w' = App w /\ disk w' = disk w /\ nextTx w' = nextTx w.

(** The database part of a callback leaves all of this alone, and only
    adds to the log. *)
Definition frame (w w' : World) : Prop :=
  disk w' = disk w /\ App w' = App w /\
  votePool (idx w') = votePool (idx w) /\
  liveResultsProcs (idx w') = liveResultsProcs (idx w) /\
  ignoreLiveResults (idx w') = ignoreLiveResults (idx w) /\
  readWriteDB (idx w') = readWriteDB (idx w) /\
  blockUpdateProcs (idx w') = blockUpdateProcs (idx w) /\
  blockUpdateProcVoteCounts (idx w') = blockUpdateProcVoteCounts (idx w) /\
  (forall x, x ∈ logs w -> x ∈ logs w').

(** The writer database is open and the block queries are prepared on it;
    while a block transaction exists they are bound to a transaction.
    [startDB] establishes this and every function below keeps it. *)
Definition dbReady (w : World) : Prop :=
  (exists db, readWriteDB (idx w) = Some db /\ sql_closed db = false) /\
  (exists q, blockQueries (idx w) = Some q /\
             (is_Some (blockTx (idx w)) -> is_Some (q_tx q))).

(** Between two callbacks: the mutex is free. *)
Definition ready (w : World) : Prop := blockMu (idx w) = false /\ dbReady w.

(** Inside a callback that has called [blockTxQueries]. *)
Definition inTx (w : World) : Prop :=
  blockMu (idx w) = true /\ dbReady w /\ is_Some (blockTx (idx w)).

(** The calls the chain application makes between the first mutation of a
    block and its [Commit] or [Rollback]. *)
Inductive Event :=
| EvProcess (pid : bytes)
| EvVote (vote : Vote) (txIndex : Z)
| EvCancel (pid : bytes)
| EvProcessKeys (pid : bytes)
| EvProcessStatusChange (pid : bytes)
| EvProcessDurationChange (pid : bytes)
| EvRevealKeys (pid : bytes)
| EvProcessResults (pid : bytes)
| EvProcessesStart (pids : list bytes)
| EvSetAccount (address : bytes) (account : StateAccount)
| EvTransferTokens (tx : TokenTransfer)
| EvCensusUpdate (pid : bytes)
| EvSpendTokens (address : bytes) (txType cost : Z) (reference : string).

Definition dispatch (ev : Event) : M unit :=
  match ev with
  | EvProcess pid => OnProcess pid
  | EvVote vote txIndex => OnVote vote txIndex
  | EvCancel pid => OnCancel pid
  | EvProcessKeys pid => OnProcessKeys pid
  | EvProcessStatusChange pid => OnProcessStatusChange pid
  | EvProcessDurationChange pid => OnProcessDurationChange pid
  | EvRevealKeys pid => OnRevealKeys pid
  | EvProcessResults pid => OnProcessResults pid
  | EvProcessesStart pids => OnProcessesStart pids
  | EvSetAccount address account => OnSetAccount address account
  | EvTransferTokens tx => OnTransferTokens tx
  | EvCensusUpdate pid => OnCensusUpdate pid
  | EvSpendTokens address txType cost reference =>
      OnSpendTokens address txType cost reference
  end.

Definition runEvents (evs : list Event) : M unit := forEach evs dispatch.

(** The ballot pooled for the process and nullifier of [vote]. *)
Definition pooled (vote : Vote) (w : World) : option Vote :=
  votePool (idx w) !! ProcessID vote ≫= (fun m => m !! Nullifier vote).

Definition lowerOverwrite : Level * string :=
  (Warn, "OnVote called with a lower overwrite value than before").

(** The stored hash at position [index] of block [b] is not the hash of
    [tx], as the read-only queries of [w] see it. *)
Definition hashMismatch (b : Block) (index : Z) (tx : bytes) (w : World) : Prop :=
  exists q t row,
    readOnlyQuery (idx w) = Some q /\ tables_of q w = Ok t /\
    GetTransactionByHeightAndIndex (b_Height b) index t = Ok row /\
    tr_Hash row <> Tx_Hash tx.

Definition hashMismatchLog : Level * string :=
  (Error, "while reindexing txs, tx hash in db differs from blockstore, leaving untouched").

(** The transaction loop of [ReindexBlocks] as the specification words it:
    a stored hash that differs is logged, that row is skipped, and the
    loop goes on with the next transaction. *)
Fixpoint reindexTxs_asSpecified (b : Block) (index : Z) (txs : list bytes) : M bool :=
  match txs with
  | [] => ret true
  | tx :: rest =>
      let* ro := gets (fun w => readOnlyQuery (idx w)) in
      let* idxTx := q_read ro "GetTransactionByHeightAndIndex"
                      (GetTransactionByHeightAndIndex (b_Height b) index) in
      let go_on :=
        match Tx_Unmarshal tx (b_ChainID b) with
        | Err _ =>
            log Error "cannot unmarshal tx" ;; reindexTxs_asSpecified b (index + 1) rest
        | Ok vtx =>
            indexTx vtx (uint32 (b_Height b)) (int32 index) ;;
            reindexTxs_asSpecified b (index + 1) rest
        end in
      match idxTx with
      | Ok row =>
          if negb (String.eqb (tr_Hash row) (Tx_Hash tx)) then
            log (fst hashMismatchLog) (snd hashMismatchLog) ;;
            reindexTxs_asSpecified b (index + 1) rest
          else go_on
      | Err _ => go_on
      end
  end.

(** Where a callback may leave the world: ready again, same files. *)
Definition calm (w : World) : unit -> World -> Prop :=
  fun _ w' => ready w' /\ disk w' = disk w.

End Logic.

(** ** The claims as the specification words them, and small worlds

    Four sentences of the specification say something else than the
    code does; each is stated here as a proposition about an input, to be
    refuted below at a concrete one.  The worlds of this section run on the
    reference backend. *)

Section AsSpecified.
Context `{B : Backend}.

(** "keeping the ballot with the highest overwrite counter": after
    [OnVote] on a live-results process, a pooled ballot with a higher
    counter than the one received is still the pooled one. *)
Definition pool_keeps_highest_at (w : World) (vote : Vote) (txIndex : Z) : Prop :=
  ignoreLiveResults (idx w) = false ->
  ProcessID vote ∈ liveResultsProcs (idx w) ->
  forall prev w',
    pooled vote w = Some prev ->
    (Overwrites vote < Overwrites prev)%Z ->
    OnVote vote txIndex w = Returns (tt, w') ->
    pooled vote w' = Some prev.

(** "otherwise the previous ballot is added to the subtracted accumulator
    and the new ballot to the added accumulator": whenever the counter has
    increased, both accumulators have been through [addLiveVote]. *)
Definition overwrite_always_added_at (proc : Process) (t : Tally) (v : Vote)
    (pv : StateDBVote) (w : World) : Prop :=
  (0 < Overwrites v)%Z ->
  State_Vote (App w) (ProcessID v) (Nullifier v) = VoteFound pv ->
  (GetOverwriteCount pv < Overwrites v)%Z ->
  exists t' w',
    commitPooledVote proc t v w = Returns (t', w') /\
    subtractedResults t' =
      (addLiveVote proc (sv_VotePackage pv) (Some (SetBytes (sv_Weight pv)))
                   (subtractedResults t)).1 /\
    addedResults t' =
      (addLiveVote proc (VotePackage v) (Weight v) (addedResults t)).1.

(** "the new ballot is still added to the added-results accumulator and
    nothing is added to the subtracted accumulator (the ballot is counted
    as a new vote)": [addLiveVote] has added the ballot, without an
    error, and the accumulator of the loop is the one it gives. *)
Definition overwrite_without_previous_added_at (proc : Process) (t : Tally) (v : Vote)
    (w : World) : Prop :=
  (0 < Overwrites v)%Z ->
  (forall pv, State_Vote (App w) (ProcessID v) (Nullifier v) <> VoteFound pv) ->
  exists t' w',
    commitPooledVote proc t v w = Returns (t', w') /\
    addLiveVote proc (VotePackage v) (Weight v) (addedResults t) = (addedResults t', None) /\
    subtractedResults t' = subtractedResults t /\
    newVotes t' = (newVotes t + 1)%Z /\ overwritedVotes t' = overwritedVotes t.

(** "reindexing skips only that row and continues with the remaining
    transactions": the transaction loop is the loop of the
    specification. *)
Definition reindex_skips_one_row_at (b : Block) (w : World) : Prop :=
  reindexTxs b 0 (b_Txs b) w = reindexTxs_asSpecified b 0 (b_Txs b) w.

End AsSpecified.

Module Demo.
Import Spec.

Definition opts : ProcessVoteOptions :=
  {| MaxCount := 2; MaxValue := 1; MaxVoteOverwrites := 2;
     MaxTotalCost := 0; CostExponent := 1 |}.

(** The election of the scenarios: two questions, choices 0 and 1. *)
Definition proc : Process :=
  {| p_ID := "P"; p_Status := 0; p_HaveResults := true; p_FinalResults := false;
     p_SourceNetworkId := "UNKNOWN"; p_Envelope := zeroEnvelope; p_VoteOpts := opts;
     p_VoteCount := 0; p_ResultsVotes := [[0; 0]; [0; 0]]%Z; p_ResultsWeight := 0;
     p_ResultsBlockHeight := 0 |}.

Definition ballot (nullifier : bytes) (overwrites : Z) (package : bytes) : Vote :=
  {| ProcessID := "P"; Nullifier := nullifier; Height := 3; Weight := Some 5%Z;
     Overwrites := overwrites; VoterID := ""; EncryptionKeyIndexes := [];
     VotePackage := package |}.

Definition committed (package : bytes) (count : option Z) : StateDBVote :=
  {| sv_VotePackage := package; sv_Weight := String (ascii_of_nat 5) EmptyString;
     sv_OverwriteCount := count |}.

(** The chain state holds a valid ballot for N1, a ballot overwritten once
    for N2, a ballot with a choice above the maximum for N3 (scenario S5
    of the specification), fails on N4 and has nothing else. *)
Definition stateVote (pid nullifier : bytes) : VoteLookup :=
  if String.eqb nullifier "N1" then VoteFound (committed "10" None)
  else if String.eqb nullifier "N2" then VoteFound (committed "01" (Some 1%Z))
  else if String.eqb nullifier "N3" then VoteFound (committed "20" None)
  else if String.eqb nullifier "N4" then VoteErr "statedb: key not found"
  else VoteNil.

Definition block1 : Block :=
  {| b_ChainID := "chain"; b_Height := 1; b_Time := 10; b_Hash := "h1";
     b_ProposerAddress := "v"; b_LastBlockHash := "h0"; b_Txs := ["a"; "b"; "c"] |}.

Definition block2 : Block :=
  {| b_ChainID := "chain"; b_Height := 2; b_Time := 20; b_Hash := "h2";
     b_ProposerAddress := "v"; b_LastBlockHash := "h1"; b_Txs := ["d"] |}.

Definition app : BaseApplication :=
  {| IsSynced := true; app_Height := 3; app_Timestamp := 30;
     app_GetBlockByHeight := fun h =>
       if (h =? 1)%Z then Some block1 else if (h =? 2)%Z then Some block2 else None;
     app_BlockStore := Some {| bs_Base := 1; bs_Height := 2 |};
     State_Vote := stateVote;
     State_Process := fun _ =>
       Ok {| sp_KeyIndex := Some 1%Z; sp_VoteOptions := opts;
             sp_EnvelopeType := zeroEnvelope |} |}.

(** A 20-byte address; its hex form has 40 characters. *)
Definition address : bytes := "AAAAAAAAAAAAAAAAAAAA".
Definition addressHex : string := "4141414141414141414141414141414141414141".

Definition fee (cost : Z) : CreateTokenFeeParams :=
  {| cf_FromAccount := address; cf_TxType := "vote"; cf_Cost := cost;
     cf_Reference := "P"; cf_SpendTime := 30; cf_BlockHeight := 3 |}.

Definition transfer (amount : Z) : CreateTokenTransferParams :=
  {| ct_TxHash := "t"; ct_BlockHeight := 3; ct_FromAccount := address;
     ct_ToAccount := "BBBBBBBBBBBBBBBBBBBB"; ct_Amount := amount;
     ct_TransferTime := 30 |}.

(** The index: process P, one account, two fees, two transfers, and at
    position (1, 1) a transaction whose hash is not the one of the block
    store. *)
Definition tables : SpecTables :=
  {| t_version := latestVersion;
     t_blocks := [];
     t_transactions := [{| tr_BlockHeight := 1; tr_BlockIndex := 1; tr_Hash := "x" |}];
     t_processes :=
       [{| gp_ID := "P"; gp_Status := 0; gp_HaveResults := true;
           gp_FinalResults := false; gp_SourceNetworkID := 0;
           gp_EnvelopePb := marshalEnvelope zeroEnvelope;
           gp_VoteOptsPb := marshalVoteOpts opts; gp_VoteCount := 0;
           gp_ResultsVotes := encodeVotes (zeroVotes opts);
           gp_ResultsWeight := encodeBigInt 0; gp_ResultsBlockHeight := 0 |}];
     t_votes := [];
     t_accounts := [{| ca_Account := address; ca_Balance := 100; ca_Nonce := 1 |}];
     t_transfers := [transfer 1; transfer 2];
     t_fees := [fee 1; fee 2] |}.

Definition dbFile : string := "data/db.sqlite".
Definition handle : SqlDB := {| sql_path := dbFile; sql_closed := false |}.

(** The indexer between two blocks: database open, mutex free, nothing
    pending, process P live. *)
Definition world : World :=
  {| idx := {| votePool := ∅; dbPath := dbFile;
               readOnlyDB := Some handle; readWriteDB := Some handle;
               readOnlyQuery := Some {| q_ro := true; q_tx := None |};
               blockMu := false; blockTx := None;
               blockQueries := Some {| q_ro := false; q_tx := None |};
               blockUpdateProcs := ∅; blockUpdateProcVoteCounts := ∅;
               liveResultsProcs := {["P"]}; ignoreLiveResults := false |};
     App := app; disk := {[dbFile := tables]}; logs := []; sqlTrace := [];
     spawned := []; nextTx := 0 |}.

(** The same with the mutex held, as inside [ReindexBlocks] or a callback. *)
Definition locked : World := on_idx (set_blockMu true) world.

(** The same with a block transaction in progress. *)
Definition inBlock : World :=
  on_idx (fun i => set_blockQueries (Some {| q_ro := false; q_tx := Some 0%nat |})
                     (set_blockTx (Some {| tx_id := 0; tx_path := dbFile;
                                           tx_work := tables; tx_done := false |}) i))
         locked.

(** The indexer as [New] leaves it when a backup is to be restored: no
    database yet; a backup lies at "backup.sqlite". *)
Definition unopened : World :=
  {| idx := {| votePool := ∅; dbPath := dbFile;
               readOnlyDB := None; readWriteDB := None; readOnlyQuery := None;
               blockMu := false; blockTx := None; blockQueries := None;
               blockUpdateProcs := ∅; blockUpdateProcVoteCounts := ∅;
               liveResultsProcs := ∅; ignoreLiveResults := false |};
     App := app; disk := {["backup.sqlite" := with_version 0 tables]};
     logs := []; sqlTrace := []; spawned := []; nextTx := 0 |}.

(** A ballot with overwrite counter 2 is pooled for (P, N1). *)
Definition highPooled : World :=
  on_idx (set_votePool {["P" := {["N1" := ballot "N1" 2 "01"]}]}) world.

Definition zeroTally : Tally :=
  {| addedResults := emptyResults proc; subtractedResults := emptyResults proc;
     newVotes := 0; overwritedVotes := 0 |}.

(** Reindexing block 1 from [inBlock]: after the block row, and after the
    first transaction. *)
Definition afterBlockRow : option Queries * World :=
  Eval vm_compute in
  match reindexBlock 1 block1 (blockQueries (idx inBlock)) inBlock with
  | Returns r => r
  | _ => (None, inBlock)
  end.

Definition afterFirstTx : World :=
  Eval vm_compute in
  match reindexTxs block1 0 ["a"] afterBlockRow.2 with
  | Returns (_, w) => w
  | _ => inBlock
  end.

(** The tally, the weight and the vote count stored for process P in the
    committed database file. *)
Definition storedResults {A} (o : Outcome (A * World)) : option (string * string * Z) :=
  match o with
  | Returns (_, w) =>
      match disk w !! dbFile with
      | Some t =>
          match GetProcess "P" t with
          | Ok r => Some (gp_ResultsVotes r, gp_ResultsWeight r, gp_VoteCount r)
          | Err _ => None
          end
      | None => None
      end
  | _ => None
  end.

Definition someEvents : list Event :=
  [EvProcess "Q"; EvVote (ballot "N1" 0 "10") 0; EvCancel "P";
   EvSetAccount address {| sa_Balance := 7; sa_Nonce := 2 |};
   EvSpendTokens address 4 10 "P";
   EvTransferTokens {| tk_TxHash := "t"; tk_FromAddress := address;
                       tk_ToAddress := address; tk_Amount := 3 |};
   EvProcessesStart ["P"; "Q"]; EvRevealKeys "P"].

End Demo.

(** ** Further definitions: relations between worlds, runs that may panic,
    [AfterSyncBootstrap], and inputs *)

Section Runs.
Context `{B : Backend}.

(** What a run answers to its caller, the world left out. *)
Definition answer {A} (o : Outcome (A * World)) : Outcome A :=
  match o with
  | Returns (a, _) => Returns a
  | Panics msg => Panics msg
  | Blocks => Blocks
  end.

(** Every run of [m] that returns relates the world it started in to the
    world it returns in by [R]. *)
Definition preserves {A} (R : World -> World -> Prop) (m : M A) : Prop :=
  forall w a w', m w = Returns (a, w') -> R w w'.

(** The two databases and the read-only queries are the same handles, on
    the same path, and the application is the same. *)
Definition sameHandles (w w' : World) : Prop :=
  readOnlyQuery (idx w') = readOnlyQuery (idx w) /\
  readOnlyDB (idx w') = readOnlyDB (idx w) /\
  readWriteDB (idx w') = readWriteDB (idx w) /\
  dbPath (idx w') = dbPath (idx w) /\ App w' = App w.

(** How many transactions were begun so far. *)
Definition begins (w : World) : nat :=
  length (filter (fun s => s = "BEGIN") (sqlTrace w)).

(** A transaction that is there stays; a BEGIN is sent exactly when a
    transaction comes into being. *)
Definition oneBegin (w w' : World) : Prop :=
  (is_Some (blockTx (idx w)) -> is_Some (blockTx (idx w'))) /\
  begins w' =
    (begins w + match blockTx (idx w), blockTx (idx w') with
                | None, Some _ => 1
                | _, _ => 0
                end)%nat.

(** A relation between worlds that every step of a callback of the event
    sink respects. *)
Class BlockStep (R : World -> World -> Prop) : Prop := {
  step_refl : forall w, R w w;
  step_trans : forall w1 w2 w3, R w1 w2 -> R w2 w3 -> R w1 w3;
  step_log : forall l msg w, R w (add_log l msg w);
  step_mutex : forall b w, R w (on_idx (set_blockMu b) w);
  step_votePool : forall f w, R w (on_idx (fun i => set_votePool (f i) i) w);
  step_updateProcs : forall f w, R w (on_idx (fun i => set_blockUpdateProcs (f i) i) w);
  step_voteCounts :
    forall f w, R w (on_idx (fun i => set_blockUpdateProcVoteCounts (f i) i) w);
  step_liveResults : forall f w, R w (on_idx (fun i => set_liveResultsProcs (f i) i) w);
  step_blockTxQueries : preserves R blockTxQueries;
  step_q_write : forall q stmt f, stmt <> "BEGIN" -> preserves R (q_write q stmt f);
}.

End Runs.


Section Partial.
Context `{B : Backend}.

(** The panic of [DecodeJSON] in [ProcessFromDB]. *)
Definition jsonPanic : string := "json: cannot unmarshal".

(** [wp], except that with [allow] the run may also panic in
    [DecodeJSON]. *)
Definition wpx {A} (allow : bool) (m : M A) (Q : A -> World -> Prop) (w : World) : Prop :=
  match m w with
  | Returns (a, w') => Q a w'
  | Panics msg => allow = true /\ msg = jsonPanic
  | Blocks => False
  end.

(** Inside [Commit]: the block transaction is in progress, [q] is the
    handle bound to it, and the three scratch maps are [P], [U] and [V]. *)
Definition blockState (q : Queries) (P : gmap string (gmap string Vote))
    (U V : gmap string bool) (w : World) : Prop :=
  inTx w /\ blockQueries (idx w) = Some q /\
  votePool (idx w) = P /\ blockUpdateProcs (idx w) = U /\
  blockUpdateProcVoteCounts (idx w) = V.

(** Between two blocks: nothing pending, no transaction, the mutex free,
    the database ready. *)
Definition blockEnded (w : World) : Prop :=
  votePool (idx w) = ∅ /\ blockUpdateProcs (idx w) = ∅ /\
  blockUpdateProcVoteCounts (idx w) = ∅ /\ blockTx (idx w) = None /\ ready w.

End Partial.

Section Opened.
Context `{B : Backend}.

(** What [startDB] leaves when it returns no error: both databases open
    on the database path, the read-only queries prepared on the reader,
    the block queries prepared. *)
Definition opened (w : World) : Prop :=
  let db := {| sql_path := dbPath (idx w); sql_closed := false |} in
  readWriteDB (idx w) = Some db /\ readOnlyDB (idx w) = Some db /\
  readOnlyQuery (idx w) = Some {| q_ro := true; q_tx := None |} /\
  is_Some (blockQueries (idx w)).

(** The tables of the database file, as a connection of the writer finds
    them. *)
Definition stored (w : World) : Tables := default newDB (disk w !! dbPath (idx w)).

(** The triple a listing returns for the rows [rows] of its search. *)
Definition pageOf {Row Item} (item : Row -> Item) (total : Row -> Z)
    (rows : res (list Row)) : option (list Item) * Z * option string :=
  match rows with
  | Err e => (None, 0%Z, Some e)
  | Ok [] => (Some [], 0%Z, None)
  | Ok (first :: rest) => (Some (map item (first :: rest)), uint64 (total first), None)
  end.

End Opened.

Section BlockRow.
Context `{B : Backend}.

(** The tables [t] once [Commit] has indexed the block at [height]: the
    row of the block the application has at that height, if it has one and
    the statement succeeds. *)
Definition withBlockRow (app : BaseApplication) (height : Z) (t : Tables) : Tables :=
  match app_GetBlockByHeight app height with
  | Some b =>
      match CreateBlock
              {| cb_ChainID := b_ChainID b; cb_Height := b_Height b; cb_Time := b_Time b;
                 cb_Hash := nonNullBytes (b_Hash b);
                 cb_ProposerAddress := nonNullBytes (b_ProposerAddress b);
                 cb_LastBlockHash := nonNullBytes (b_LastBlockHash b) |} t with
      | Ok t' => t'
      | Err _ => t
      end
  | None => t
  end.

(** The tables [t] after a statement that is dropped when it fails. *)
Definition applied (f : Tables -> res Tables) (t : Tables) : Tables :=
  match f t with
  | Ok t' => t'
  | Err _ => t
  end.

(** The tables after the loop of [Commit] over the processes whose vote
    count is to be computed again. *)
Definition countedVotes (pids : list string) (t : Tables) : Tables :=
  foldl (fun t pid => applied (ComputeProcessVoteCount pid) t) t pids.

(** Inside [Commit], in the transaction [tx] of the world [w0], whose
    working copy is now [T]. *)
Definition writing (q : Queries) (tx : Tx) (w0 : World) (T : Tables) (w : World) : Prop :=
  blockMu (idx w) = true /\
  blockTx (idx w) = Some {| tx_id := tx_id tx; tx_path := tx_path tx;
                            tx_work := T; tx_done := false |} /\
  blockQueries (idx w) = Some q /\ q_tx q = Some (tx_id tx) /\
  disk w = disk w0 /\ App w = App w0 /\
  blockUpdateProcVoteCounts (idx w) = blockUpdateProcVoteCounts (idx w0).

End BlockRow.

Section Migrations.
Context `{B : Backend}.

(** What [gooseMigrationsPending] answers on the tables [t]: whether goose
    reads a version and collects at least one migration above it. *)
Definition migrationsPending (t : Tables) : bool :=
  match goose_GetDBVersion t with
  | Ok v =>
      match goose_CollectMigrations v with
      | Ok migrations => (0 <? Z.of_nat (length migrations))%Z
      | Err _ => false
      end
  | Err _ => false
  end.

Definition reindexScheduled : Level * string :=
  (Info, "indexer db needs migration, scheduling a reindex after sync").

End Migrations.

Section PoolOnly.
Context `{B : Backend}.

(** [w'] differs from [w] at most in the vote pool and in the log. *)
Definition poolAndLogOnly (w w' : World) : Prop :=
  (dbPath (idx w') = dbPath (idx w) /\ readOnlyDB (idx w') = readOnlyDB (idx w) /\
   readWriteDB (idx w') = readWriteDB (idx w) /\
   readOnlyQuery (idx w') = readOnlyQuery (idx w)) /\
  (blockMu (idx w') = blockMu (idx w) /\ blockTx (idx w') = blockTx (idx w) /\
   blockQueries (idx w') = blockQueries (idx w) /\
   blockUpdateProcs (idx w') = blockUpdateProcs (idx w) /\
   blockUpdateProcVoteCounts (idx w') = blockUpdateProcVoteCounts (idx w)) /\
  (liveResultsProcs (idx w') = liveResultsProcs (idx w) /\
   ignoreLiveResults (idx w') = ignoreLiveResults (idx w)) /\
  (App w' = App w /\ disk w' = disk w /\ sqlTrace w' = sqlTrace w /\
   spawned w' = spawned w /\ nextTx w' = nextTx w).

(** The row [OnVote] writes for [vote]. *)
Definition voteWeight (vote : Vote) : string :=
  match Weight vote with
  | Some weight => EncodeJSON_BigInt weight
  | None => dquote ++ "1" ++ dquote
  end.

End PoolOnly.

Section Reindexing.
Context `{B : Backend}.

(** Inside [ReindexBlocks]: as inside [Commit], with the read-only
    queries [ro] there. *)
Definition reindexing (q ro : Queries) (P : gmap string (gmap string Vote))
    (U V : gmap string bool) (w : World) : Prop :=
  blockState q P U V w /\ readOnlyQuery (idx w) = Some ro.

(** The COMMITs sent so far. *)
Definition commits (w : World) : nat :=
  length (filter (fun s => s = "COMMIT") (sqlTrace w)).

(** What [Commit] and [ReindexBlocks] log when [idx.blockTx.Commit()]
    fails. *)
Definition commitFailed : Level * string := (Error, "could not commit tx").

(** Inside [ReindexBlocks], since the world [w0] it was called in: a
    transaction is open on the file of the writer [db]; no other file has
    changed; no commit has failed; every transaction begun was committed,
    but the one that is open. *)
Definition inReindex (w0 : World) (db : SqlDB) (w : World) : Prop :=
  readWriteDB (idx w) = Some db /\
  (exists tx, blockTx (idx w) = Some tx /\ tx_done tx = false /\
              tx_path tx = sql_path db) /\
  (forall p, p <> sql_path db -> disk w !! p = disk w0 !! p) /\
  (commitFailed ∈ logs w -> commitFailed ∈ logs w0) /\
  (commits w0 <= commits w)%nat /\
  (begins w + commits w0 = commits w + begins w0 + 1)%nat.

End Reindexing.

(** ** [AfterSyncBootstrap]

    What [AfterSyncBootstrap] calls outside [indexer.go] is an interface,
    as the backend is: two more generated queries
    ([UpdateProcessResultByID] takes the results whose encodings are its
    parameters), the empty tally of [results], the iteration over the
    committed ballots of the chain state (the ballots it visits, and the
    error that ends it if one does), [commitVotesUnsafe] called with nil
    for the subtracted results, and [ProcessInfo]. *)
Class Recovery `{B : Backend} := {
  GetProcessIDsByFinalResults : bool -> Tables -> res (list bytes);
  UpdateProcessResultByID : Results -> Tables -> res Tables;
  NewEmptyVotes : ProcessVoteOptions -> list (list Z);
  IterateVotes : BaseApplication -> bytes -> list StateDBVote * option string;
  commitVotes_nil_sql : bytes -> Results -> Results -> Z -> Tables -> res Tables;
  ProcessInfo : bytes -> M (res Process);
}.

(** [statedb.ErrEmptyTree]. *)
Definition ErrEmptyTree : string := "empty tree".

Section Bootstrap.
Context `{R : Recovery}.

(** The callback given to [IterateVotes]. *)
Definition addStateVote (process : Process) (partialResults : Results)
    (vote : StateDBVote) : M Results :=
  let (r, e) := addLiveVote process (sv_VotePackage vote)
                            (Some (SetBytes (sv_Weight vote))) partialResults in
  logIfErr e Error "could not add live vote" ;; ret r.

(** The body of [for _, p := range prcIDs]. *)
Definition recoverProcess (queries : option Queries) (p : bytes) : M unit :=
  log Debug "recovering live process" ;;
  let* process := ProcessInfo p in
  match process with
  | Err _ => log Error "cannot fetch process"
  | Ok process =>
      let options := p_VoteOpts process in
      let indxR := {| r_ProcessID := p; r_Votes := NewEmptyVotes options; r_Weight := 0;
                      r_VoteOpts := options; r_EnvelopeType := p_Envelope process;
                      r_BlockHeight := 0 |} in
      let* e := q_write queries "UpdateProcessResultByID" (UpdateProcessResultByID indxR) in
      match e with
      | Some _ => log Error "cannot UpdateProcessResultByID sql"
      | None =>
          let partialResults := {| r_ProcessID := ""; r_Votes := []; r_Weight := 0;
                                   r_VoteOpts := options;
                                   r_EnvelopeType := p_Envelope process;
                                   r_BlockHeight := 0 |} in
          let* app := gets App in
          let (visited, err) := IterateVotes app p in
          let* partialResults := foldM (addStateVote process) visited partialResults in
          match err with
          | Some e =>
              if String.eqb e ErrEmptyTree
              then log Debug "process doesn't have any votes yet, skipping"
              else log Error "unexpected error during iterate votes"
          | None =>
              let* app := gets App in
              let* e := q_write queries "commitVotes"
                          (commitVotes_nil_sql p indxR partialResults (app_Height app)) in
              match e with
              | Some _ => log Error "could not commit live votes"
              | None => addProcessToLiveResults p
              end
          end
      end
  end.

(** [AfterSyncBootstrap] waits until the chain is synchronized and then
    recounts the results of the processes that are still open.  Waiting
    for a chain that is not synced never ends here. *)
Definition AfterSyncBootstrap (inTest : bool) : M unit :=
  let* ignore := gets (fun w => ignoreLiveResults (idx w)) in
  if (ignore : bool) then ret tt
  else
    let* synced := gets (fun w => IsSynced (App w)) in
    if negb inTest && negb synced then (fun _ => Blocks)
    else
      log Info "running indexer after-sync bootstrap" ;;
      withLock (
        let* queries := blockTxQueries in
        let* prcIDs := q_read queries "GetProcessIDsByFinalResults"
                         (GetProcessIDsByFinalResults false) in
        match prcIDs with
        | Err e => log Error e
        | Ok prcIDs =>
            log Info "recovered live results processes" ;;
            log Info "starting live results recovery computation" ;;
            forEach prcIDs (recoverProcess queries) ;;
            commitBlockTx ;;
            log Info "live results recovery computation finished"
        end).

(** Inside [AfterSyncBootstrap]: as inside [ReindexBlocks], with the
    processes of [L] among those with live results. *)
Definition recovering (q ro : Queries) (P : gmap string (gmap string Vote))
    (U V : gmap string bool) (L : gset string) (w : World) : Prop :=
  reindexing q ro P U V w /\ L ⊆ liveResultsProcs (idx w).

(** [ProcessInfo] only reads: on an indexer with its read-only queries it
    returns with the indexer as it was, or panics in [DecodeJSON]. *)
Definition ProcessInfo_reads : Prop :=
  forall p w, is_Some (readOnlyQuery (idx w)) ->
    wpx true (ProcessInfo p) (fun _ w' => idx w' = idx w) w.

End Bootstrap.

(** Modelled from the spec: what [AfterSyncBootstrap] calls, on the
    reference backend.  The processes without final results are listed in
    the order of their rows; the stored results triple of a process is
    reset to the given tally, weight, options and envelope; results are
    committed as current + added, nothing subtracted; [ProcessInfo] reads
    the row of the process through the read-only queries and decodes it;
    on a database that was not migrated the listing fails.
    The chain state has two committed ballots for process P and an empty
    tree for every other process. *)
Module Recount.
Import Spec.

Definition unfinished (final : bool) (t : SpecTables) : res (list bytes) :=
  if (t_version t =? latestVersion)%Z
  then Ok (map gp_ID (List.filter (fun r => Bool.eqb (gp_FinalResults r) final)
                                  (t_processes t)))
  else Err "no such table: processes".

Definition resetResults (r : Results) (t : SpecTables) : res SpecTables :=
  Ok (updateRow (r_ProcessID r)
        (fun row => withOptions (r_VoteOpts r) (r_EnvelopeType r)
                      (withResults (r_Votes r) (r_Weight r) (gp_ResultsBlockHeight row) row))
        t).

Definition commitAdded (pid : bytes) (current added : Results) (height : Z)
    (t : SpecTables) : res SpecTables :=
  commitVotes pid current added
    {| r_ProcessID := pid; r_Votes := []; r_Weight := 0; r_VoteOpts := r_VoteOpts added;
       r_EnvelopeType := r_EnvelopeType added; r_BlockHeight := 0 |}
    height t.

Definition committedBallots (app : BaseApplication) (pid : bytes)
    : list StateDBVote * option string :=
  if String.eqb pid "P"
  then ([Demo.committed "10" None; Demo.committed "01" (Some 1%Z)], None)
  else ([], Some ErrEmptyTree).

Definition processInfo (pid : bytes) : M (res Process) :=
  let* ro := gets (fun w => readOnlyQuery (idx w)) in
  let* row := q_read ro "GetProcess" (GetProcess pid) in
  match row with
  | Err e => ret (Err e)
  | Ok row => let* process := ProcessFromDB row in ret (Ok process)
  end.

#[global] Instance SpecRecovery : Recovery :=
  Build_Recovery SpecBackend unfinished resetResults zeroVotes committedBallots
                 commitAdded processInfo.

End Recount.

(** Inputs for the properties below, on the reference backend. *)
Module Scenes.
Import Spec.

(** An account whose balance does not fit a signed 64-bit number. *)
Definition richAccount : StateAccount := {| sa_Balance := 2 ^ 64 - 1; sa_Nonce := 7 |}.

Definition richRow : CreateAccountParams :=
  {| ca_Account := "CCCCCCCCCCCCCCCCCCCC"; ca_Balance := -1; ca_Nonce := 7 |}.

(** The index of [Demo] with that account. *)
Definition withRich : SpecTables :=
  with_accounts (t_accounts Demo.tables ++ [richRow])%list Demo.tables.

(** The same with the row of block 2. *)
Definition withRichAndBlock2 : SpecTables :=
  with_blocks [blockParams Demo.block2] withRich.

(** The indexer of [Demo] after [Close]. *)
Definition closed : World :=
  on_idx (fun i => set_readWriteDB (Some {| sql_path := Demo.dbFile; sql_closed := true |})
                     (set_readOnlyDB (Some {| sql_path := Demo.dbFile; sql_closed := true |}) i))
         Demo.world.

(** The index of [Demo] with a row for block 2 stored with another
    timestamp than the one of the block store. *)
Definition otherTime : SpecTables :=
  with_blocks [{| cb_ChainID := "chain"; cb_Height := 2; cb_Time := 21; cb_Hash := "h2";
                  cb_ProposerAddress := "v"; cb_LastBlockHash := "h1" |}] Demo.tables.

Definition reindexingOtherTime : World :=
  set_disk {[Demo.dbFile := otherTime]} Demo.inBlock.

(** A row of process P whose stored tally is not JSON. *)
Definition brokenRow : GetProcessRow :=
  {| gp_ID := "P"; gp_Status := 0; gp_HaveResults := true; gp_FinalResults := false;
     gp_SourceNetworkID := 0; gp_EnvelopePb := "?"; gp_VoteOptsPb := marshalVoteOpts Demo.opts;
     gp_VoteCount := 0; gp_ResultsVotes := "0,0;x"; gp_ResultsWeight := encodeBigInt 0;
     gp_ResultsBlockHeight := 0 |}.

(** A row whose tally decodes, with an envelope that does not unmarshal. *)
Definition oddRow : GetProcessRow :=
  {| gp_ID := "P"; gp_Status := 0; gp_HaveResults := true; gp_FinalResults := false;
     gp_SourceNetworkID := 0; gp_EnvelopePb := "?"; gp_VoteOptsPb := marshalVoteOpts Demo.opts;
     gp_VoteCount := 0; gp_ResultsVotes := "1,2;3,4;"; gp_ResultsWeight := encodeBigInt 10;
     gp_ResultsBlockHeight := 0 |}.

(** A ballot without a weight, for a process that is not in the index. *)
Definition plainBallot : Vote :=
  {| ProcessID := "Q"; Nullifier := "N7"; Height := 3; Weight := None; Overwrites := 0;
     VoterID := ""; EncryptionKeyIndexes := []; VotePackage := "11" |}.

(** The chain application of [Demo] before it is synced, and one whose
    state has no process. *)
Definition syncing : BaseApplication :=
  {| IsSynced := false; app_Height := app_Height Demo.app;
     app_Timestamp := app_Timestamp Demo.app;
     app_GetBlockByHeight := app_GetBlockByHeight Demo.app;
     app_BlockStore := app_BlockStore Demo.app; State_Vote := State_Vote Demo.app;
     State_Process := fun _ => Err "process not found" |}.

Definition notSynced : World :=
  {| idx := idx Demo.world; App := syncing; disk := disk Demo.world; logs := [];
     sqlTrace := []; spawned := []; nextTx := 0 |}.

(** An indexer that ignores live results, with the mutex held, on a chain
    that is not synced. *)
Definition ignoring : World :=
  {| idx := {| votePool := ∅; dbPath := Demo.dbFile;
               readOnlyDB := Some Demo.handle; readWriteDB := Some Demo.handle;
               readOnlyQuery := Some {| q_ro := true; q_tx := None |};
               blockMu := true; blockTx := None;
               blockQueries := Some {| q_ro := false; q_tx := None |};
               blockUpdateProcs := ∅; blockUpdateProcVoteCounts := ∅;
               liveResultsProcs := ∅; ignoreLiveResults := true |};
     App := syncing; disk := disk Demo.world; logs := []; sqlTrace := [];
     spawned := []; nextTx := 0 |}.

(** The indexer of [Demo] on a database file that was not migrated. *)
Definition unmigrated : World :=
  set_disk {[Demo.dbFile := with_version 0 Demo.tables]} Demo.world.

(** The indexer of [Demo] on a database file without processes. *)
Definition noProcesses : World :=
  set_disk {[Demo.dbFile := with_processes [] Demo.tables]} Demo.world.

(** The reference backend with a migration that fails. *)
Definition failingMigration : Backend :=
  Build_Backend SpecTables bytes emptyTables
    (fun t => Ok (t_version t)) CollectMigrations
    (fun _ => Err "ERROR 00003_process_results.sql: failed to run SQL migration")
    (fun t => Ok t) (fun t => Ok t) Prepare
    CreateVote CreateAccount CreateTokenTransfer CreateTokenFee CreateBlock
    ComputeProcessVoteCount
    GetProcess GetBlockByHeight GetTransactionByHeightAndIndex CountBlocks
    SearchTokenFees SearchTokenTransfers SearchAccounts
    addLiveVote updateProcess commitVotes newEmptyProcess indexTx
    (fun z => dquote ++ encodeBigInt z ++ dquote)
    (fun l => String.concat "," (map pretty l))
    decodeVotes decodeBigInt unmarshalEnvelope unmarshalVoteOpts
    (fun n => if (n =? 0)%Z then Some "UNKNOWN" else None)
    txTypeName Tx_Hash Tx_Unmarshal.

(** An operating system on which the data directory cannot be created, and
    one on which the database file cannot be examined. *)
Definition noMkdir : OS :=
  Unix.os (fun _ => Some "mkdir data: permission denied") (fun _ => None).
Definition noStat : OS :=
  Unix.os (fun _ => None) (fun _ => Some "stat data/db.sqlite: permission denied").

(** The indexer of [Demo] in a block in which [OnVote] has received, for
    nullifier N9, of which the chain state has no ballot, a ballot with
    overwrite counter 1. *)
Definition overwriting : World :=
  Eval vm_compute in
  match OnVote (Demo.ballot "N9" 1 "10") 1 Demo.world with
  | Returns (_, w) => w
  | _ => Demo.world
  end.

End Scenes.

(** * Properties *)

Section LogicLemmas.
Context `{B : Backend}.

Lemma wp_ret {A} (a : A) (Q : A → World → Prop) (w : World) :
  Q a w → wp (ret a) Q w.
Proof. exact id. Qed.

Lemma wp_bind {A C} (m : M A) (k : A → M C) (Q : C → World → Prop) (w : World) :
  wp m (fun a w' => wp (k a) Q w') w → wp (bind m k) Q w.
Proof.
  unfold wp, bind. destruct (m w) as [[a w'] | |]; auto.
Qed.

Lemma wp_gets {A} (f : World → A) (Q : A → World → Prop) (w : World) :
  Q (f w) w → wp (gets f) Q w.
Proof. exact id. Qed.

Lemma wp_modify (f : World → World) (Q : unit → World → Prop) (w : World) :
  Q tt (f w) → wp (modify f) Q w.
Proof. exact id. Qed.

Lemma wp_log (l : Level) (msg : string) (Q : unit → World → Prop) (w : World) :
  Q tt (add_log l msg w) → wp (log l msg) Q w.
Proof. exact id. Qed.

Lemma wp_mono {A} (m : M A) (P Q : A → World → Prop) (w : World) :
  wp m P w → (∀ a w', P a w' → Q a w') → wp m Q w.
Proof.
  unfold wp. destruct (m w) as [[a w'] | |]; auto.
Qed.

Lemma wp_returns {A} (m : M A) (Q : A → World → Prop) (w : World) :
  wp m Q w ↔ ∃ a w', m w = Returns (a, w') ∧ Q a w'.
Proof.
  unfold wp. split.
  - destruct (m w) as [[a w'] | |]; [eauto | tauto | tauto].
  - intros (a & w' & -> & HQ). exact HQ.
Qed.

Lemma quiet_refl (w : World) : quiet w w.
Proof. repeat split. Qed.

Lemma quiet_trans (w1 w2 w3 : World) : quiet w1 w2 → quiet w2 w3 → quiet w1 w3.
Proof.
  intros (? & ? & ? & ?) (? & ? & ? & ?). repeat split; congruence.
Qed.

Lemma quiet_log (l : Level) (msg : string) (w : World) : quiet w (add_log l msg w).
Proof. repeat split. Qed.

Lemma quiet_trace (stmt : string) (w : World) : quiet w (add_trace stmt w).
Proof. repeat split. Qed.

Lemma frame_refl (w : World) : frame w w.
Proof. repeat split; auto. Qed.

Lemma frame_trans (w1 w2 w3 : World) : frame w1 w2 → frame w2 w3 → frame w1 w3.
Proof.
  intros (? & ? & ? & ? & ? & ? & ? & ? & ?) (? & ? & ? & ? & ? & ? & ? & ? & ?).
  repeat split; try congruence. auto.
Qed.

Lemma frame_log (l : Level) (msg : string) (w : World) : frame w (add_log l msg w).
Proof. repeat split; auto. intros x Hx. simpl. now apply list_elem_of_further. Qed.

Lemma wp_logIfErr (e : option string) (l : Level) (msg : string)
    (Q : unit → World → Prop) (w : World) :
  (∀ w', idx w' = idx w → frame w w' → Q tt w') → wp (logIfErr e l msg) Q w.
Proof.
  intros H. destruct e; simpl.
  - apply wp_log, H; [reflexivity | apply frame_log].
  - apply wp_ret, H; [reflexivity | apply frame_refl].
Qed.

End LogicLemmas.


Section Listings.
Context `{B : Backend}.

Lemma bad_page_cases (limit offset : Z) :
  (offset < 0 ∨ limit <= 0)%Z →
  (offset <? 0)%Z = true ∨ ((offset <? 0)%Z = false ∧ (limit <=? 0)%Z = true).
Proof.
  intros H. destruct (Z.ltb_spec offset 0) as [Ho | Ho].
  - now left.
  - right. split; [reflexivity |]. apply Z.leb_le. lia.
Qed.

(** C7.  A listing called with a negative offset or a limit that is not
    positive returns at once: a nil page, a zero count and the error that
    names the bad value, and the world is as it was (no statement was sent
    to the database, nothing was logged). *)
Theorem listings_reject_bad_page (w : World) (limit offset : Z) (a b c : string) :
  (offset < 0 ∨ limit <= 0)%Z →
  ∃ e, (e = badOffset offset ∨ e = badLimit limit) ∧
    TokenFeesList limit offset a b c w = Returns ((None, 0%Z, Some e), w) ∧
    TokenTransfersList limit offset a b c w = Returns ((None, 0%Z, Some e), w) ∧
    AccountList limit offset a w = Returns ((None, 0%Z, Some e), w).
Proof.
  intros H. unfold TokenFeesList, TokenTransfersList, AccountList.
  destruct (bad_page_cases limit offset H) as [Ho | [Ho Hl]].
  - exists (badOffset offset). rewrite Ho. split; [now left | repeat split].
  - exists (badLimit limit). rewrite Ho, Hl. split; [now right | repeat split].
Qed.

End Listings.

Section QuerySurface.
Context `{B : Backend}.

(** What a read through a queries handle comes to. *)
Lemma q_read_Some {A} (q : Queries) (stmt : string) (f : Tables → res A) (w : World) :
  q_read (Some q) stmt f w =
  Returns (match tables_of q w with Ok t => f t | Err e => Err e end, add_trace stmt w).
Proof.
  unfold q_read, bind, modify, gets, ret. simpl.
  change (tables_of q (add_trace stmt w)) with (tables_of q w).
  destruct (tables_of q w); reflexivity.
Qed.

Lemma q_read_None {A} (stmt : string) (f : Tables → res A) (w : World) :
  q_read None stmt f w = Panics nilDeref.
Proof. reflexivity. Qed.

(** C10.  Whenever a listing returns a page that is empty, the total it
    returns with it is 0 and the error is nil: the total is read off the
    first row of the result, and there is none. *)
Theorem empty_page_total_is_zero (w : World) (limit offset : Z) (a b c : string) :
  (∀ total err w',
     TokenFeesList limit offset a b c w = Returns ((Some [], total, err), w') →
     total = 0%Z ∧ err = None) ∧
  (∀ total err w',
     TokenTransfersList limit offset a b c w = Returns ((Some [], total, err), w') →
     total = 0%Z ∧ err = None) ∧
  (∀ total err w',
     AccountList limit offset a w = Returns ((Some [], total, err), w') →
     total = 0%Z ∧ err = None).
Proof.
  split; [| split]; intros total err w' H.
  all: first [ progress unfold TokenFeesList in H
             | progress unfold TokenTransfersList in H
             | progress unfold AccountList in H ].
  all: destruct (offset <? 0)%Z; [discriminate H |].
  all: destruct (limit <=? 0)%Z; [discriminate H |].
  all: unfold bind at 1 in H; unfold gets at 1 in H.
  all: destruct (readOnlyQuery (idx w)) as [q |];
    [| unfold bind, q_read, panic in H; discriminate H].
  all: unfold bind in H; rewrite q_read_Some in H.
  all: match type of H with
       | context [match ?r with Ok _ => _ | Err _ => _ end] => destruct r as [rows | e]
       end; [| discriminate H].
  all: destruct rows as [| row rows]; simpl in H; unfold ret in H; inversion H; auto.
Qed.

(** C8.  An identifier whose length is not 40 is answered false with the
    world untouched (no statement reaches the database); an answer of true
    comes only for a 40-character identifier, from the first row that the
    account search returns for that very identifier. *)
Theorem AccountExists_full_width_only (w : World) (accountID : string) :
  (String.length accountID ≠ 40 → AccountExists accountID w = Returns (false, w)) ∧
  (∀ w', AccountExists accountID w = Returns (true, w') →
     String.length accountID = 40 ∧
     ∃ q t row rows,
       readOnlyQuery (idx w) = Some q ∧ tables_of q w = Ok t ∧
       SearchAccounts {| sa_Limit := 1; sa_Offset := 0;
                         sa_AccountIDSubstr := accountID |} t = Ok (row :: rows) ∧
       (0 < uint64 (ar_TotalCount row))%Z).
Proof.
  split.
  - intros Hlen. unfold AccountExists.
    apply Nat.eqb_neq in Hlen. now rewrite Hlen.
  - intros w' H. unfold AccountExists in H.
    destruct (String.length accountID =? 40)%nat eqn:Hlen; simpl in H;
      [| unfold ret in H; inversion H].
    apply Nat.eqb_eq in Hlen. split; [exact Hlen |].
    unfold AccountList in H. simpl in H.
    unfold bind at 1 2 in H. unfold gets at 1 in H.
    destruct (readOnlyQuery (idx w)) as [q |];
      [| unfold bind, q_read, panic in H; discriminate H].
    unfold bind at 1 in H. rewrite q_read_Some in H.
    destruct (tables_of q w) as [t | e] eqn:Ht.
    + destruct (SearchAccounts _ t) as [[| row rows] | e] eqn:Hs;
        unfold bind, ret, logIfErr in H; simpl in H; inversion H as [[Hc Hw]].
      exists q, t, row, rows. repeat split; auto. now apply Z.ltb_lt.
    + unfold bind, ret, logIfErr, log, modify in H; simpl in H. inversion H.
Qed.

End QuerySurface.

Section BlockTransaction.
Context `{B : Backend}.

Ltac run_monad :=
  unfold bind, ret, gets, modify, panic, log, when, logIfErr; simpl.

(** C5.  [blockTxQueries] called with the block mutex free panics.  Called
    with the mutex held and no transaction in [blockTx], whenever it
    returns it has begun a transaction on the writer (on the tables of the
    database file as they are), keeps it in [blockTx], and has rebound the
    prepared queries to it, returning the rebound handle; it does return
    when the writer database is open; when beginning fails (the database
    was never opened, or was closed) it panics.  With a transaction
    already there it returns the handle as it is. *)
Theorem blockTxQueries_lock_and_rebind (w : World) :
  (blockMu (idx w) = false →
   blockTxQueries w =
   Panics "Indexer.blockTxQueries was called without locking Indexer.lockPool") ∧
  (blockMu (idx w) = true → blockTx (idx w) = None →
   ∀ r w', blockTxQueries w = Returns (r, w') →
     ∃ db q, readWriteDB (idx w) = Some db ∧ blockQueries (idx w) = Some q ∧
       let tx := {| tx_id := nextTx w; tx_path := sql_path db;
                    tx_work := default newDB (disk w !! sql_path db);
                    tx_done := false |} in
       r = Some (WithTx q tx) ∧ blockTx (idx w') = Some tx ∧
       blockQueries (idx w') = Some (WithTx q tx) ∧
       sqlTrace w' = "BEGIN" :: sqlTrace w ∧ disk w' = disk w) ∧
  (blockMu (idx w) = true → blockTx (idx w) = None →
   ∀ db q, readWriteDB (idx w) = Some db → sql_closed db = false →
           blockQueries (idx w) = Some q →
     let tx := {| tx_id := nextTx w; tx_path := sql_path db;
                  tx_work := default newDB (disk w !! sql_path db);
                  tx_done := false |} in
     ∃ w', blockTxQueries w = Returns (Some (WithTx q tx), w') ∧
           blockTx (idx w') = Some tx ∧
           blockQueries (idx w') = Some (WithTx q tx) ∧
           sqlTrace w' = "BEGIN" :: sqlTrace w ∧
           disk w' = disk w ∧ blockMu (idx w') = true) ∧
  (blockMu (idx w) = true → blockTx (idx w) = None →
   (readWriteDB (idx w) = None ∨
    ∃ db, readWriteDB (idx w) = Some db ∧ sql_closed db = true) →
   ∃ msg, blockTxQueries w = Panics msg) ∧
  (blockMu (idx w) = true → is_Some (blockTx (idx w)) →
   blockTxQueries w = Returns (blockQueries (idx w), w)).
Proof.
  repeat apply conj.
  - intros Hmu. unfold blockTxQueries, TryLock. run_monad. now rewrite Hmu.
  - intros Hmu Htx r w' Hrun.
    unfold blockTxQueries, TryLock, db_Begin, acquire_conn, open_tables in Hrun.
    unfold bind, ret, gets, modify, panic in Hrun. simpl in Hrun.
    rewrite Hmu, Htx in Hrun.
    destruct (readWriteDB (idx w)) as [db |] eqn:Hdb; [| discriminate Hrun].
    simpl in Hrun. rewrite Htx in Hrun.
    destruct (sql_closed db) eqn:Hclosed; [discriminate Hrun |].
    destruct (blockQueries (idx w)) as [q |] eqn:Hq.
    2:{ destruct (disk w !! sql_path db); simpl in Hrun; rewrite Hq in Hrun;
        discriminate Hrun. }
    exists db, q. split; [reflexivity |]. split; [reflexivity |].
    destruct (disk w !! sql_path db) as [t |] eqn:Hfile; simpl in Hrun;
      rewrite Hq in Hrun; simpl in Hrun; inversion Hrun; subst r w'; simpl;
      repeat split.
  - intros Hmu Htx db q Hdb Hopen Hq tx.
    unfold blockTxQueries, TryLock, db_Begin, acquire_conn, open_tables. run_monad.
    rewrite Hmu, Htx, Hdb. simpl. rewrite Htx, Hopen. simpl.
    destruct (disk w !! sql_path db) as [t |] eqn:Hfile; simpl; rewrite Hq; simpl;
      eexists; (split; [reflexivity |]); simpl; subst tx; rewrite ?Hfile; auto.
  - intros Hmu Htx Hfail.
    unfold blockTxQueries, TryLock, db_Begin, acquire_conn, open_tables. run_monad.
    rewrite Hmu, Htx. destruct Hfail as [Hdb | [db [Hdb Hclosed]]]; rewrite Hdb; simpl.
    + eauto.
    + rewrite Htx, Hclosed. simpl. eauto.
  - intros Hmu [tx Htx].
    unfold blockTxQueries, TryLock. run_monad. now rewrite Hmu, Htx.
Qed.

End BlockTransaction.

Section Restore.
Context `{B : Backend}.

Lemma wp_db_exec (db : SqlDB) (stmt : string) (f : Tables → res Tables)
    (Q : option string → World → Prop) (w : World) :
  blockTx (idx w) = None →
  match open_tables false db w with
  | Ok t =>
      match f t with
      | Ok t' => Q None (set_disk (<[sql_path db := t']> (disk w)) (add_trace stmt w))
      | Err e => Q (Some e) (add_trace stmt w)
      end
  | Err e => Q (Some e) (add_trace stmt w)
  end →
  wp (db_exec (Some db) stmt f) Q w.
Proof.
  intros Htx H. unfold wp, db_exec, acquire_conn, bind, modify, gets, ret.
  rewrite Htx. simpl.
  change (open_tables false db (add_trace stmt w)) with (open_tables false db w).
  destruct (open_tables false db w) as [t | e]; [| exact H].
  destruct (f t); exact H.
Qed.

Lemma wp_db_query {A} (ro : bool) (db : SqlDB) (stmt : string) (f : Tables → res A)
    (Q : res A → World → Prop) (w : World) :
  blockTx (idx w) = None →
  Q (match open_tables ro db w with Ok t => f t | Err e => Err e end) (add_trace stmt w) →
  wp (db_query ro (Some db) stmt f) Q w.
Proof.
  intros Htx H. unfold wp, db_query, acquire_conn, bind, modify, gets, ret.
  rewrite Htx. simpl.
  change (open_tables ro db (add_trace stmt w)) with (open_tables ro db w).
  destruct (open_tables ro db w); exact H.
Qed.

Lemma wp_gooseMigrationsPending (db : SqlDB) (Q : bool → World → Prop) (w : World) :
  blockTx (idx w) = None →
  (∀ b w', quiet w w' → Q b w') →
  wp (gooseMigrationsPending (Some db)) Q w.
Proof.
  intros Htx H. unfold gooseMigrationsPending.
  apply wp_bind, wp_db_query; [exact Htx |].
  destruct (match open_tables false db w with Ok t => _ | Err e => _ end) as [v | e].
  - destruct (goose_CollectMigrations v) as [l | e].
    + apply wp_ret, H, quiet_trace.
    + destruct (e =? "no migration files found")%string.
      * apply wp_ret, H, quiet_trace.
      * apply wp_bind, wp_log, wp_ret, H. repeat split.
  - apply wp_bind, wp_log, wp_ret, H. repeat split.
Qed.

Lemma open_writer (db : SqlDB) (w : World) :
  sql_closed db = false →
  open_tables false db w = Ok (default newDB (disk w !! sql_path db)).
Proof.
  intros H. unfold open_tables. rewrite H. now destruct (disk w !! sql_path db).
Qed.

Lemma open_file (ro : bool) (db : SqlDB) (w : World) (t : Tables) :
  sql_closed db = false → disk w !! sql_path db = Some t →
  open_tables ro db w = Ok t.
Proof. intros H Hf. unfold open_tables. now rewrite H, Hf. Qed.

Lemma startDB_opens (w : World) :
  readWriteDB (idx w) = None → blockTx (idx w) = None →
  let db := {| sql_path := dbPath (idx w); sql_closed := false |} in
  wp startDB (fun e w' =>
    readWriteDB (idx w') = Some db ∧
    (∀ p, p ≠ dbPath (idx w) → disk w' !! p = disk w !! p) ∧
    (e = None →
     ∃ t1 t2, goose_Up (default newDB (disk w !! dbPath (idx w))) = Ok t1 ∧
              sql_Analyze t1 = Ok t2 ∧ sql_Prepare t2 = None) ∧
    (∀ t1 t2, goose_Up (default newDB (disk w !! dbPath (idx w))) = Ok t1 →
              sql_Analyze t1 = Ok t2 → sql_Prepare t2 = None →
       e = None ∧ disk w' !! dbPath (idx w) = Some t2 ∧
       readOnlyDB (idx w') = Some db ∧
       readOnlyQuery (idx w') = Some {| q_ro := true; q_tx := None |} ∧
       blockQueries (idx w') = Some {| q_ro := false; q_tx := None |})) w.
Proof.
  intros Hrw Htx db. unfold startDB.
  match goal with |- wp _ ?Q _ => set (Post := Q) end.
  apply wp_bind, wp_gets. rewrite Hrw.
  apply wp_bind, wp_gets. fold db.
  apply wp_bind, wp_modify.
  apply wp_bind, wp_gooseMigrationsPending; [exact Htx |].
  intros pending w1 (Hi1 & _ & Hd1 & _). simpl in Hi1, Hd1.
  apply wp_bind.
  apply wp_mono with (P := fun _ w2 => idx w2 = idx w1 ∧ disk w2 = disk w1).
  { destruct pending; [apply wp_log | apply wp_ret]; now split. }
  intros _ w2 [Hi2 Hd2]. rewrite Hi1 in Hi2. rewrite Hd1 in Hd2. clear w1 Hi1 Hd1.
  apply wp_bind.
  apply wp_mono with (P := Post).
  2:{ intros r w3 Hpost. destruct pending.
      - apply wp_bind, wp_modify, wp_ret. exact Hpost.
      - apply wp_bind, wp_ret, wp_ret. exact Hpost. }
  unfold Post. clear Post.
  assert (Htx2 : blockTx (idx w2) = None) by (rewrite Hi2; exact Htx).
  apply wp_bind, wp_db_exec; [exact Htx2 |].
  rewrite open_writer by reflexivity. simpl sql_path. rewrite Hd2.
  destruct (goose_Up _) as [t1 | e] eqn:Hup.
  2:{ apply wp_ret. simpl. rewrite ?Hi2, ?Hd2.
      split; [reflexivity |]. split; [reflexivity |]. split; [discriminate |].
      intros t1' t2' Hup'. congruence. }
  apply wp_bind, wp_db_exec; [exact Htx2 |].
  rewrite (open_file false db _ t1) by (try reflexivity; apply lookup_insert_eq).
  destruct (sql_Analyze t1) as [t2 | e] eqn:Han.
  2:{ apply wp_ret. simpl. rewrite ?Hi2, ?Hd2. split; [reflexivity |]. split.
      - intros p Hp. now rewrite lookup_insert_ne.
      - split; [discriminate |]. intros t1' t2' Hup'. congruence. }
  apply wp_bind, wp_modify.
  apply wp_bind, wp_db_query; [exact Htx2 |].
  rewrite (open_file true db _ t2) by (try reflexivity; apply lookup_insert_eq).
  assert (Hframe : ∀ p, p ≠ dbPath (idx w) →
            <[dbPath (idx w) := t2]> (<[dbPath (idx w) := t1]> (disk w)) !! p = disk w !! p).
  { intros p Hp. now rewrite !lookup_insert_ne. }
  destruct (sql_Prepare t2) as [e |] eqn:Hprep.
  { apply wp_bind, wp_modify, wp_ret. simpl. rewrite ?Hi2, ?Hd2.
    split; [reflexivity |]. split; [exact Hframe |]. split; [discriminate |].
    intros t1' t2' Hup' Han'. congruence. }
  apply wp_bind, wp_modify.
  apply wp_bind, wp_db_query; [exact Htx2 |].
  rewrite (open_file false db _ t2) by (try reflexivity; apply lookup_insert_eq).
  rewrite Hprep.
  apply wp_bind, wp_modify, wp_ret. simpl. rewrite ?Hi2, ?Hd2.
  split; [reflexivity |]. split; [exact Hframe |].
  split; [intros _; exists t1, t2; auto |].
  intros t1' t2' Hup' Han' _.
  assert (t1' = t1) by congruence. subst t1'.
  assert (t2' = t2) by congruence. subst t2'.
  repeat split. apply lookup_insert_eq.
Qed.

(** C6.  [RestoreBackup] called once the writer database is set panics.
    Called before, with a source file that does not exist, it returns the
    wrapped error and leaves the world as it was.  Called before, with a
    source file holding [data] (a file other than the database file), it
    is [startDB] run on the world where the database file holds [data]:
    it returns, the writer database is open on the database path, the
    source file still holds [data]; the error is nil exactly when the
    migrations, the analysis and the preparation of the statements succeed
    on the copy, and then the database file holds the migrated copy and
    the reader database and both query handles are set. *)
Theorem RestoreBackup_copies_then_opens (w : World) (path : string) :
  (is_Some (readWriteDB (idx w)) →
   RestoreBackup path w =
   Panics "Indexer.RestoreBackup called after the database was initialized") ∧
  (readWriteDB (idx w) = None → disk w !! path = None →
   ∃ e, RestoreBackup path w =
        Returns (Some ("could not restore indexer backup: " ++ e), w)) ∧
  (readWriteDB (idx w) = None → blockTx (idx w) = None →
   ∀ data, disk w !! path = Some data → path ≠ dbPath (idx w) →
     let db := {| sql_path := dbPath (idx w); sql_closed := false |} in
     RestoreBackup path w = startDB (set_disk (<[dbPath (idx w) := data]> (disk w)) w) ∧
     ∃ e w', RestoreBackup path w = Returns (e, w') ∧
       readWriteDB (idx w') = Some db ∧
       disk w' !! path = Some data ∧
       (e = None →
        ∃ t1 t2, goose_Up data = Ok t1 ∧ sql_Analyze t1 = Ok t2 ∧
                 sql_Prepare t2 = None) ∧
       (∀ t1 t2, goose_Up data = Ok t1 → sql_Analyze t1 = Ok t2 →
                 sql_Prepare t2 = None →
          e = None ∧ disk w' !! dbPath (idx w) = Some t2 ∧
          readOnlyDB (idx w') = Some db ∧
          readOnlyQuery (idx w') = Some {| q_ro := true; q_tx := None |} ∧
          blockQueries (idx w') = Some {| q_ro := false; q_tx := None |})).
Proof.
  split; [| split].
  - intros [db Hdb]. unfold RestoreBackup, bind, gets. now rewrite Hdb.
  - intros Hrw Hsrc. unfold RestoreBackup, copyFile, bind, gets, ret.
    rewrite Hrw, Hsrc. eauto.
  - intros Hrw Htx data Hsrc Hne db.
    assert (Heq : RestoreBackup path w =
                  startDB (set_disk (<[dbPath (idx w) := data]> (disk w)) w)).
    { unfold RestoreBackup, copyFile, bind, gets, modify, ret.
      rewrite Hrw, Hsrc. rewrite lookup_insert_ne by congruence. rewrite Hsrc.
      rewrite insert_insert_eq.
      destruct (startDB _) as [[[e |] w'] | |]; reflexivity. }
    split; [exact Heq |]. rewrite Heq.
    pose proof (startDB_opens (set_disk (<[dbPath (idx w) := data]> (disk w)) w)
                  Hrw Htx) as Hopen.
    apply wp_returns in Hopen.
    destruct Hopen as (e & w' & Hrun & Hdb & Hframe & Hnil & Hok).
    simpl in Hdb, Hframe, Hnil, Hok.
    rewrite lookup_insert_eq in Hnil, Hok. simpl in Hnil, Hok.
    exists e, w'. split; [exact Hrun |]. split; [exact Hdb |]. split; [| split].
    + rewrite Hframe by exact Hne. now rewrite lookup_insert_ne by congruence.
    + exact Hnil.
    + exact Hok.
Qed.

End Restore.

Section BlockLemmas.
Context `{B : Backend}.

Lemma wp_Lock (Q : unit → World → Prop) (w : World) :
  blockMu (idx w) = false → Q tt (on_idx (set_blockMu true) w) → wp Lock Q w.
Proof. intros Hmu H. unfold wp, Lock. now rewrite Hmu. Qed.

Lemma wp_Unlock (Q : unit → World → Prop) (w : World) :
  Q tt (on_idx (set_blockMu false) w) → wp Unlock Q w.
Proof. exact id. Qed.

Lemma wp_withLock {A} (body : M A) (Q : A → World → Prop) (w : World) :
  blockMu (idx w) = false →
  wp body (fun a w' => Q a (on_idx (set_blockMu false) w')) (on_idx (set_blockMu true) w) →
  wp (withLock body) Q w.
Proof.
  intros Hmu H. unfold withLock.
  apply wp_bind, wp_Lock; [exact Hmu |].
  apply wp_bind. eapply wp_mono; [exact H |].
  intros a w' HQ. apply wp_bind, wp_Unlock, wp_ret. exact HQ.
Qed.

Lemma wp_blockTxQueries (Q : option Queries → World → Prop) (w : World) :
  blockMu (idx w) = true → dbReady w →
  (∀ q w', frame w w' → inTx w' → blockQueries (idx w') = Some q → Q (Some q) w') →
  wp blockTxQueries Q w.
Proof.
  intros Hmu [[db [Hdb Hopen]] [q [Hq Hbound]]] H.
  unfold wp, blockTxQueries, TryLock, bind, gets. rewrite Hmu.
  destruct (blockTx (idx w)) as [tx |] eqn:Htx.
  - unfold ret. rewrite Hq. apply H; [apply frame_refl | | exact Hq].
    split; [exact Hmu |]. split; [| rewrite Htx; eauto].
    split; [eauto |]. exists q. rewrite Htx. auto.
  - unfold db_Begin, acquire_conn, bind, gets, modify, ret. rewrite Hdb, Htx.
    simpl. rewrite open_writer by exact Hopen. simpl. rewrite Hq. simpl.
    apply H.
    + repeat split; auto.
    + split; [exact Hmu |]. split; [| simpl; eauto]. split.
      * exists db. auto.
      * eexists. split; [reflexivity |]. intros _. simpl. eauto.
    + reflexivity.
Qed.

Lemma wp_q_write (q : Queries) (stmt : string) (f : Tables → res Tables)
    (Q : option string → World → Prop) (w : World) :
  inTx w → blockQueries (idx w) = Some q →
  (∀ e w', frame w w' → inTx w' → blockQueries (idx w') = Some q → Q e w') →
  wp (q_write (Some q) stmt f) Q w.
Proof.
  intros (Hmu & [[db [Hdb Hopen]] [q' [Hq' Hbound]]] & [tx Htx]) Hq H.
  assert (q' = q) by congruence. subst q'.
  destruct Hbound as [n Hn]; [rewrite Htx; eauto |].
  assert (Hkeep : inTx (add_trace stmt w)).
  { split; [exact Hmu |]. split; [| simpl; rewrite Htx; eauto].
    split; [eauto |]. exists q. split; [exact Hq |]. eauto. }
  unfold wp, q_write, bind, gets, modify, ret.
  change (tables_of q (add_trace stmt w)) with (tables_of q w).
  destruct (tables_of q w) as [t | e].
  - destruct (f t) as [t' | e].
    + unfold store_tables. rewrite Hn. simpl. rewrite Htx. apply H.
      * repeat split; auto.
      * split; [exact Hmu |]. split; [| simpl; eauto].
        split; [simpl; eauto |]. exists q. simpl. split; [exact Hq |]. eauto.
      * exact Hq.
    + apply H; [repeat split; auto | exact Hkeep | exact Hq].
  - apply H; [repeat split; auto | exact Hkeep | exact Hq].
Qed.

End BlockLemmas.

Section BlockScratch.
Context `{B : Backend}.

Lemma inTx_unlock (w : World) : inTx w → ready (on_idx (set_blockMu false) w).
Proof. intros (_ & Hdb & _). split; [reflexivity | exact Hdb]. Qed.

Lemma dbReady_lock (b : bool) (w : World) : dbReady w → dbReady (on_idx (set_blockMu b) w).
Proof. exact id. Qed.

Lemma inTx_idx (w w' : World) : idx w' = idx w → inTx w → inTx w'.
Proof. unfold inTx, dbReady. now intros ->. Qed.

Lemma frame_disk (w w' : World) : frame w w' → disk w' = disk w.
Proof. now intros (? & _). Qed.

Lemma wp_markUpdateProc (pid : bytes) (w : World) :
  ready w → wp (withLock (markUpdateProc pid)) (calm w) w.
Proof.
  intros [Hmu Hdb]. apply wp_withLock; [exact Hmu |].
  unfold markUpdateProc. apply wp_modify. split; [| reflexivity].
  split; [reflexivity | exact Hdb].
Qed.

Lemma wp_markAll (pids : list bytes) (w : World) :
  dbReady w →
  wp (forEach pids markUpdateProc) (fun _ w' => dbReady w' ∧ disk w' = disk w) w.
Proof.
  revert w. induction pids as [| pid pids IH]; intros w Hdb; simpl.
  - apply wp_ret. auto.
  - apply wp_bind. unfold markUpdateProc at 1. apply wp_modify.
    eapply wp_mono; [apply IH; exact Hdb |].
    intros _ w' [H1 H2]. auto.
Qed.

Ltac locked_write Hmu Hdb :=
  apply wp_withLock; [exact Hmu |];
  apply wp_bind, wp_blockTxQueries; [reflexivity | exact Hdb |];
  let q := fresh "q" in let w1 := fresh "w" in
  let Hf := fresh "Hf" in let Hin := fresh "Hin" in let Hq := fresh "Hq" in
  intros q w1 Hf Hin Hq;
  try (apply wp_bind, wp_gets);
  apply wp_bind, wp_q_write; [exact Hin | exact Hq |];
  let e := fresh "e" in let w2 := fresh "w" in
  let Hf2 := fresh "Hf" in let Hin2 := fresh "Hin" in let Hq2 := fresh "Hq" in
  intros e w2 Hf2 Hin2 Hq2;
  pose proof (frame_disk _ _ Hf) as Hd1; pose proof (frame_disk _ _ Hf2) as Hd2;
  simpl in Hd1.

Lemma wp_OnSetAccount (a : bytes) (acc : StateAccount) (w : World) :
  ready w → wp (OnSetAccount a acc) (calm w) w.
Proof.
  intros [Hmu Hdb]. unfold OnSetAccount. locked_write Hmu Hdb.
  apply wp_logIfErr. intros w' Hi Hf'. split.
  - apply inTx_unlock. eapply inTx_idx; eauto.
  - simpl. rewrite (frame_disk _ _ Hf'). congruence.
Qed.

Lemma wp_OnTransferTokens (tx : TokenTransfer) (w : World) :
  ready w → wp (OnTransferTokens tx) (calm w) w.
Proof.
  intros [Hmu Hdb]. unfold OnTransferTokens. locked_write Hmu Hdb.
  apply wp_logIfErr. intros w' Hi Hf'. split.
  - apply inTx_unlock. eapply inTx_idx; eauto.
  - simpl. rewrite (frame_disk _ _ Hf'). congruence.
Qed.

Lemma wp_OnSpendTokens (a : bytes) (txType cost : Z) (ref : string) (w : World) :
  ready w → wp (OnSpendTokens a txType cost ref) (calm w) w.
Proof.
  intros [Hmu Hdb]. unfold OnSpendTokens. locked_write Hmu Hdb.
  apply wp_logIfErr. intros w' Hi Hf'. split.
  - apply inTx_unlock. eapply inTx_idx; eauto.
  - simpl. rewrite (frame_disk _ _ Hf'). congruence.
Qed.

Lemma wp_OnProcess (pid : bytes) (w : World) :
  ready w → wp (OnProcess pid) (calm w) w.
Proof.
  intros [Hmu Hdb]. unfold OnProcess, newEmptyProcess.
  apply wp_bind, wp_withLock; [exact Hmu |].
  apply wp_bind, wp_blockTxQueries; [reflexivity | exact Hdb |].
  intros q w1 Hf1 Hin1 Hq1.
  apply wp_bind, wp_gets.
  apply wp_q_write; [exact Hin1 | exact Hq1 |].
  intros e w2 Hf2 Hin2 Hq2.
  apply wp_bind, wp_logIfErr. intros w' Hi Hf'.
  assert (Hr : ready w').
  { unfold ready, dbReady. rewrite Hi. apply inTx_unlock. exact Hin2. }
  assert (Hd : disk w' = disk w).
  { rewrite (frame_disk _ _ Hf'). simpl.
    rewrite (frame_disk _ _ Hf2), (frame_disk _ _ Hf1). reflexivity. }
  apply wp_bind, wp_gets. apply wp_bind.
  destruct (IsSynced (App w')); simpl.
  - unfold addProcessToLiveResults. apply wp_modify, wp_log. split; [exact Hr | exact Hd].
  - apply wp_ret, wp_log. split; [exact Hr | exact Hd].
Qed.

Lemma wp_OnRevealKeys (pid : bytes) (w : World) :
  ready w → wp (OnRevealKeys pid) (calm w) w.
Proof.
  intros Hr. unfold OnRevealKeys. apply wp_bind, wp_gets.
  destruct (State_Process (App w) pid) as [p | e].
  - destruct (sp_KeyIndex p).
    + now apply wp_markUpdateProc.
    + apply wp_log. split; [exact Hr | reflexivity].
  - apply wp_log. split; [exact Hr | reflexivity].
Qed.

Lemma wp_OnProcessesStart (pids : list bytes) (w : World) :
  ready w → wp (OnProcessesStart pids) (calm w) w.
Proof.
  intros [Hmu Hdb]. unfold OnProcessesStart.
  apply wp_withLock; [exact Hmu |].
  eapply wp_mono; [apply wp_markAll; exact Hdb |].
  intros [] w' [H1 H2]. split; [| exact H2]. split; [reflexivity | exact H1].
Qed.

Lemma pooled_insert (vote : Vote) (m : gmap string Vote)
    (pool : gmap string (gmap string Vote)) :
  <[ProcessID vote := <[Nullifier vote := vote]> m]> pool !! ProcessID vote
    ≫= (fun m => m !! Nullifier vote) = Some vote.
Proof. rewrite lookup_insert_eq. simpl. apply lookup_insert_eq. Qed.

(** The first block of [OnVote] returns, and touches the pool and the log
    only; for a process with live results the pooled ballot is then the
    one just received, whatever was pooled before. *)
Lemma poolVote_pools (vote : Vote) (w : World) :
  ∃ w1, poolVote vote w = Returns (tt, w1) ∧
    disk w1 = disk w ∧ blockMu (idx w1) = blockMu (idx w) ∧
    (dbReady w → dbReady w1) ∧
    (∀ x, x ∈ logs w → x ∈ logs w1) ∧
    (ignoreLiveResults (idx w) = false →
     ProcessID vote ∈ liveResultsProcs (idx w) →
     pooled vote w1 = Some vote ∧
     ∀ prev, pooled vote w = Some prev → (Overwrites vote < Overwrites prev)%Z →
             lowerOverwrite ∈ logs w1).
Proof.
  unfold poolVote, isProcessLiveResults, pooled, bind, gets, ret.
  destruct (ignoreLiveResults (idx w)) eqn:Hign; simpl.
  { eexists. split; [reflexivity |]. do 4 (split; [auto |]). discriminate. }
  destruct (bool_decide (ProcessID vote ∈ liveResultsProcs (idx w))) eqn:Hlive; simpl.
  2:{ eexists. split; [reflexivity |]. do 4 (split; [auto |]).
      intros _ Hin. apply bool_decide_eq_false in Hlive. contradiction. }
  unfold bind, gets, modify, ret, when, log.
  destruct (votePool (idx w) !! ProcessID vote) as [m |] eqn:Hm; simpl.
  - rewrite Hm. simpl.
    destruct (m !! Nullifier vote) as [prev |] eqn:Hprev; simpl.
    + destruct (Overwrites vote <? Overwrites prev)%Z eqn:Hlt; simpl.
      * eexists. split; [reflexivity |]. simpl. do 3 (split; [auto |]).
        split; [intros x Hx; now apply list_elem_of_further |].
        intros _ _. split; [apply pooled_insert |].
        intros. apply list_elem_of_here.
      * eexists. split; [reflexivity |]. simpl. do 4 (split; [auto |]).
        intros _ _. split; [apply pooled_insert |].
        intros prev' Hp Hlt'. inversion Hp; subst prev'.
        apply Z.ltb_ge in Hlt. lia.
    + eexists. split; [reflexivity |]. simpl. do 4 (split; [auto |]).
      intros _ _. split; [apply pooled_insert |].
      intros prev' Hp. discriminate.
  - rewrite lookup_insert_eq. simpl. rewrite lookup_empty. simpl.
    eexists. split; [reflexivity |]. simpl. do 4 (split; [auto |]).
    intros _ _. split; [apply pooled_insert |].
    intros prev' Hp. discriminate.
Qed.

Lemma frame_pooled (vote : Vote) (w w' : World) :
  frame w w' → pooled vote w' = pooled vote w.
Proof. intros (_ & _ & Hp & _). unfold pooled. now rewrite Hp. Qed.

Lemma frame_logs (w w' : World) (x : Level * string) :
  frame w w' → x ∈ logs w → x ∈ logs w'.
Proof. intros (_ & _ & _ & _ & _ & _ & _ & _ & Hl). apply Hl. Qed.

Lemma wp_OnVote (vote : Vote) (txIndex : Z) (w : World) :
  ready w →
  wp (OnVote vote txIndex) (fun _ w' =>
    ready w' ∧ disk w' = disk w ∧
    (ignoreLiveResults (idx w) = false →
     ProcessID vote ∈ liveResultsProcs (idx w) →
     pooled vote w' = Some vote ∧
     ∀ prev, pooled vote w = Some prev → (Overwrites vote < Overwrites prev)%Z →
             lowerOverwrite ∈ logs w')) w.
Proof.
  intros [Hmu Hdb]. unfold OnVote.
  destruct (poolVote_pools vote w) as (w1 & Hrun & Hd1 & Hmu1 & Hdb1 & Hl1 & Hpool).
  apply wp_bind. unfold wp at 1. rewrite Hrun.
  rewrite Hmu in Hmu1. specialize (Hdb1 Hdb).
  apply wp_withLock; [exact Hmu1 |].
  apply wp_bind, wp_blockTxQueries; [reflexivity | exact Hdb1 |].
  intros q w2 Hf2 Hin2 Hq2.
  apply wp_bind, wp_q_write; [exact Hin2 | exact Hq2 |].
  intros e w3 Hf3 Hin3 Hq3.
  apply wp_bind, wp_logIfErr. intros w4 Hi4 Hf4.
  apply wp_modify.
  pose proof (frame_trans _ _ _ Hf2 (frame_trans _ _ _ Hf3 Hf4)) as Hf.
  split; [| split].
  - split; [reflexivity |]. destruct Hin3 as (_ & Hr & _).
    unfold dbReady in *. simpl. rewrite Hi4. exact Hr.
  - simpl. rewrite (frame_disk _ _ Hf). simpl. exact Hd1.
  - intros Hign Hlive. destruct (Hpool Hign Hlive) as [Hp Hwarn]. split.
    + change (pooled vote w4 = Some vote). rewrite (frame_pooled _ _ _ Hf). exact Hp.
    + intros prev Hprev Hlt. simpl. apply (frame_logs _ _ _ Hf). simpl.
      now apply (Hwarn prev).
Qed.

Lemma wp_dispatch (ev : Event) (w : World) :
  ready w → wp (dispatch ev) (calm w) w.
Proof.
  intros Hr. destruct ev; simpl.
  - now apply wp_OnProcess.
  - eapply wp_mono; [now apply wp_OnVote |]. intros [] w' (H1 & H2 & _). now split.
  - now apply wp_markUpdateProc.
  - now apply wp_markUpdateProc.
  - now apply wp_markUpdateProc.
  - now apply wp_markUpdateProc.
  - now apply wp_OnRevealKeys.
  - now apply wp_markUpdateProc.
  - now apply wp_OnProcessesStart.
  - now apply wp_OnSetAccount.
  - now apply wp_OnTransferTokens.
  - now apply wp_markUpdateProc.
  - now apply wp_OnSpendTokens.
Qed.

Lemma wp_runEvents (evs : list Event) (w : World) :
  ready w → wp (runEvents evs) (calm w) w.
Proof.
  revert w. induction evs as [| ev evs IH]; intros w Hr; simpl.
  - apply wp_ret. now split.
  - apply wp_bind. eapply wp_mono; [now apply wp_dispatch |].
    intros [] w1 [Hr1 Hd1]. eapply wp_mono; [now apply IH |].
    intros [] w2 [Hr2 Hd2]. split; [exact Hr2 | congruence].
Qed.

Lemma wp_Rollback (w : World) :
  blockMu (idx w) = false →
  wp Rollback (fun _ w' =>
    votePool (idx w') = ∅ ∧ blockUpdateProcs (idx w') = ∅ ∧
    blockUpdateProcVoteCounts (idx w') = ∅ ∧ blockTx (idx w') = None ∧
    blockMu (idx w') = false ∧ disk w' = disk w ∧
    (is_Some (blockTx (idx w)) → sqlTrace w' = "ROLLBACK" :: sqlTrace w)) w.
Proof.
  intros Hmu. unfold Rollback. apply wp_withLock; [exact Hmu |].
  do 3 apply wp_bind, wp_modify. apply wp_bind, wp_gets. simpl.
  destruct (blockTx (idx w)) as [tx |] eqn:Htx.
  - apply wp_bind. unfold tx_Rollback. apply wp_bind, wp_gets. simpl. rewrite Htx.
    apply wp_bind, wp_modify.
    destruct (tx_done tx).
    + apply wp_ret, wp_bind, wp_log, wp_modify. simpl. repeat split; auto.
    + apply wp_bind, wp_modify, wp_ret, wp_bind, wp_ret, wp_modify. simpl.
      repeat split; auto.
  - apply wp_ret. simpl. repeat split; auto. intros [? ?]. discriminate.
Qed.

(** C1 (amended).  [OnVote] on a process with live results, called with the
    mutex free and the database open, returns, and the pool entry for the
    process and nullifier of the ballot then holds that ballot, the one
    received last, whatever was pooled before; if the ballot pooled before
    had a higher overwrite counter, the warning is in the log. *)
Theorem OnVote_pools_last_ballot (vote : Vote) (txIndex : Z) (w : World) :
  ignoreLiveResults (idx w) = false →
  ProcessID vote ∈ liveResultsProcs (idx w) →
  ready w →
  ∃ w', OnVote vote txIndex w = Returns (tt, w') ∧
    pooled vote w' = Some vote ∧
    ∀ prev, pooled vote w = Some prev → (Overwrites vote < Overwrites prev)%Z →
            lowerOverwrite ∈ logs w'.
Proof.
  intros Hign Hlive Hr.
  pose proof (wp_OnVote vote txIndex w Hr) as H.
  apply wp_returns in H. destruct H as ([] & w' & Hrun & _ & _ & Hpool).
  exists w'. split; [exact Hrun |]. now apply Hpool.
Qed.

(** C4.  [Rollback] called with the mutex free returns with the vote pool,
    the update set and the vote-count set empty, the transaction handle
    nil and the files as they were; a transaction that was there was sent
    ROLLBACK.  After any sequence of callbacks of the event sink run from a
    ready indexer, [Rollback] leaves every file as it was before the first
    of them. *)
Theorem Rollback_discards_block (evs : list Event) (w : World) :
  (blockMu (idx w) = false →
   ∃ w', Rollback w = Returns (tt, w') ∧
     votePool (idx w') = ∅ ∧ blockUpdateProcs (idx w') = ∅ ∧
     blockUpdateProcVoteCounts (idx w') = ∅ ∧ blockTx (idx w') = None ∧
     disk w' = disk w ∧
     (is_Some (blockTx (idx w)) → sqlTrace w' = "ROLLBACK" :: sqlTrace w)) ∧
  (ready w →
   ∃ w1 w2, runEvents evs w = Returns (tt, w1) ∧ Rollback w1 = Returns (tt, w2) ∧
     disk w2 = disk w ∧
     votePool (idx w2) = ∅ ∧ blockUpdateProcs (idx w2) = ∅ ∧
     blockUpdateProcVoteCounts (idx w2) = ∅ ∧ blockTx (idx w2) = None).
Proof.
  split.
  - intros Hmu. pose proof (wp_Rollback w Hmu) as H.
    apply wp_returns in H. destruct H as ([] & w' & Hrun & H1 & H2 & H3 & H4 & _ & H5 & H6).
    exists w'. repeat split; assumption.
  - intros Hr. pose proof (wp_runEvents evs w Hr) as H.
    apply wp_returns in H. destruct H as ([] & w1 & Hrun1 & [Hmu1 _] & Hd1).
    pose proof (wp_Rollback w1 Hmu1) as H.
    apply wp_returns in H. destruct H as ([] & w2 & Hrun2 & H1 & H2 & H3 & H4 & _ & H5 & _).
    exists w1, w2. repeat split; try assumption. congruence.
Qed.

End BlockScratch.

Section CommitLoop.
Context `{B : Backend}.

(** C2 (amended).  In the loop of [Commit], for a pooled ballot with
    overwrite counter above 0 whose previous ballot the chain state gives:
    if the counter is not above the stored one, the error is logged and the
    ballot is skipped, both accumulators and both counters as they were;
    otherwise the previous ballot is passed to [addLiveVote] on the
    subtracted accumulator, and then, if that reported no error, the new
    ballot is passed to [addLiveVote] on the added accumulator and counted
    as an overwrite, while if it reported an error the ballot is logged and
    skipped with the added accumulator as it was. *)
Theorem overwrite_with_previous (proc : Process) (t : Tally) (v : Vote)
    (pv : StateDBVote) (w : World) :
  (0 < Overwrites v)%Z →
  State_Vote (App w) (ProcessID v) (Nullifier v) = VoteFound pv →
  let sub := addLiveVote proc (sv_VotePackage pv) (Some (SetBytes (sv_Weight pv)))
                         (subtractedResults t) in
  ((Overwrites v <= GetOverwriteCount pv)%Z →
   ∃ w', commitPooledVote proc t v w = Returns (t, w') ∧ quiet w w' ∧
         (Error, "check vote overwrite failed") ∈ logs w') ∧
  ((GetOverwriteCount pv < Overwrites v)%Z → sub.2 = None →
   ∃ w', commitPooledVote proc t v w =
         Returns ({| addedResults :=
                       (addLiveVote proc (VotePackage v) (Weight v) (addedResults t)).1;
                     subtractedResults := sub.1;
                     newVotes := newVotes t;
                     overwritedVotes := overwritedVotes t + 1 |}, w') ∧
         quiet w w') ∧
  ((GetOverwriteCount pv < Overwrites v)%Z → sub.2 ≠ None →
   ∃ w', commitPooledVote proc t v w =
         Returns ({| addedResults := addedResults t;
                     subtractedResults := sub.1;
                     newVotes := newVotes t;
                     overwritedVotes := overwritedVotes t |}, w') ∧
         quiet w w' ∧
         (Error, "vote cannot be added to subtracted results") ∈ logs w').
Proof.
  intros Hpos Hlook sub. apply Z.ltb_lt in Hpos.
  unfold commitPooledVote, addNewVote, bind, gets, ret, log, modify.
  rewrite Hpos, Hlook. simpl. fold sub.
  split; [| split].
  - intros Hle. apply Z.leb_le in Hle. rewrite Hle.
    eexists. split; [reflexivity |]. split; [repeat split |]. apply list_elem_of_here.
  - intros Hgt Hok. apply Z.leb_gt in Hgt. rewrite Hgt.
    destruct sub as [s e]. simpl in Hok. subst e. simpl.
    destruct (addLiveVote _ _ _ _) as [added [e |]]; simpl;
      eexists; (split; [reflexivity | repeat split]).
  - intros Hgt Herr. apply Z.leb_gt in Hgt. rewrite Hgt.
    destruct sub as [s [e |]]; [| now destruct Herr]. simpl.
    eexists. split; [reflexivity |]. split; [repeat split |]. apply list_elem_of_here.
Qed.

End CommitLoop.

Section ReindexLoop.
Context `{B : Backend}.

Lemma reindexTxs_mismatch_here (b : Block) (index : Z) (tx : bytes)
    (post : list bytes) (w : World) :
  hashMismatch b index tx w →
  reindexTxs b index (tx :: post) w =
  Returns (false, add_log (fst hashMismatchLog) (snd hashMismatchLog)
                    (add_trace "GetTransactionByHeightAndIndex" w)).
Proof.
  intros (q & t & row & Hq & Ht & Hrow & Hne).
  simpl. unfold bind at 1. unfold gets at 1. rewrite Hq.
  unfold bind at 1. rewrite q_read_Some, Ht, Hrow.
  apply String.eqb_neq in Hne. rewrite Hne. reflexivity.
Qed.

Lemma reindexTxs_prefix (b : Block) (pre rest : list bytes) :
  ∀ (index : Z) (w w2 : World),
    reindexTxs b index pre w = Returns (true, w2) →
    reindexTxs b index (pre ++ rest)%list w =
    reindexTxs b (index + Z.of_nat (length pre)) rest w2.
Proof.
  induction pre as [| tx pre IH]; intros index w w2 Hrun.
  - simpl in *. unfold ret in Hrun. inversion Hrun. now rewrite Z.add_0_r.
  - replace (index + Z.of_nat (length (tx :: pre)))%Z
      with (index + 1 + Z.of_nat (length pre))%Z by (simpl length; lia).
    simpl app. simpl reindexTxs in *.
    unfold bind at 1 in Hrun. unfold bind at 1.
    unfold gets at 1 in Hrun. unfold gets at 1.
    unfold bind at 1 in Hrun. unfold bind at 1.
    destruct (q_read _ _ _ w) as [[r w1] | |]; try discriminate Hrun.
    assert (Hgo : ∀ w1,
      match Tx_Unmarshal tx (b_ChainID b) with
      | Ok vtx => indexTx vtx (uint32 (b_Height b)) (int32 index);;
                  reindexTxs b (index + 1) pre
      | Err _ => log Error "cannot unmarshal tx";; reindexTxs b (index + 1) pre
      end w1 = Returns (true, w2) →
      match Tx_Unmarshal tx (b_ChainID b) with
      | Ok vtx => indexTx vtx (uint32 (b_Height b)) (int32 index);;
                  reindexTxs b (index + 1) (pre ++ rest)%list
      | Err _ => log Error "cannot unmarshal tx";; reindexTxs b (index + 1) (pre ++ rest)%list
      end w1 = reindexTxs b (index + 1 + Z.of_nat (length pre)) rest w2).
    { intros w3 H3. destruct (Tx_Unmarshal tx (b_ChainID b)) as [vtx | e].
      - unfold bind in *. destruct (indexTx _ _ _ w3) as [[u w4] | |]; try discriminate H3.
        now apply IH.
      - unfold bind, log, modify in *. now apply IH. }
    destruct r as [row | e].
    + destruct (negb (tr_Hash row =? Tx_Hash tx)%string).
      * discriminate Hrun.
      * now apply Hgo.
    + now apply Hgo.
Qed.

(** C9 (amended).  In the transaction loop of [ReindexBlocks], a position
    whose stored hash is not the hash of the block store's transaction
    ends the loop for that block: the error is logged, the loop returns
    without a write, so that the stored row is as it was and neither this
    transaction nor the later ones of the block are indexed.  It is not
    fatal: when the loop has run through the transactions before that
    position, [ReindexBlocks] goes on with the next heights, from the world
    in which the mismatch was met, plus the lookup and the log. *)
Theorem reindex_hash_mismatch_ends_block (b : Block) (pre post : list bytes)
    (tx : bytes) (w : World) :
  let stopped w2 := add_log (fst hashMismatchLog) (snd hashMismatchLog)
                      (add_trace "GetTransactionByHeightAndIndex" w2) in
  (∀ index, hashMismatch b index tx w →
     reindexTxs b index (tx :: post) w = Returns (false, stopped w)) ∧
  (∀ h hs queries queries' w1 w2,
     app_GetBlockByHeight (App w) h = Some b →
     b_Txs b = (pre ++ tx :: post)%list →
     reindexBlock h b queries w = Returns (queries', w1) →
     reindexTxs b 0 pre w1 = Returns (true, w2) →
     hashMismatch b (Z.of_nat (length pre)) tx w2 →
     reindexHeights (h :: hs) queries w = reindexHeights hs queries' (stopped w2)).
Proof.
  intros stopped. split.
  - intros index H. now apply reindexTxs_mismatch_here.
  - intros h hs queries queries' w1 w2 Hb Htxs Hblock Hpre Hmis.
    simpl. unfold bind at 1. unfold gets at 1. rewrite Hb.
    unfold bind at 1. rewrite Hblock. unfold bind at 1.
    rewrite Htxs, (reindexTxs_prefix b pre (tx :: post) 0 w1 w2 Hpre).
    rewrite Z.add_0_l, (reindexTxs_mismatch_here b _ tx post w2 Hmis). reflexivity.
Qed.

End ReindexLoop.

(** * The theorems at concrete inputs *)

Lemma demo_ready : ready Demo.world.
Proof.
  split; [reflexivity |]. split.
  - exists Demo.handle. split; reflexivity.
  - eexists. split; [reflexivity |]. intros [tx Htx]. discriminate Htx.
Qed.

Lemma listings_reject_bad_page_witness :
  (0 < 0 ∨ 0 <= 0)%Z ∧
  ∃ e, (e = badOffset 0 ∨ e = badLimit 0) ∧
    TokenFeesList 0 0 "" "" "" Demo.world = Returns ((None, 0%Z, Some e), Demo.world) ∧
    TokenTransfersList 0 0 "" "" "" Demo.world = Returns ((None, 0%Z, Some e), Demo.world) ∧
    AccountList 0 0 "" Demo.world = Returns ((None, 0%Z, Some e), Demo.world).
Proof.
  assert (H : (0 < 0 ∨ 0 <= 0)%Z) by (right; reflexivity).
  split; [exact H |].
  exact (listings_reject_bad_page Demo.world 0 0 "" "" "" H).
Defined.

Lemma empty_page_total_is_zero_witness :
  length (Spec.feeHits {| sf_Limit := 10; sf_Offset := 5; sf_TxType := "";
                          sf_Reference := ""; sf_FromAccount := "" |} Demo.tables) = 2%nat ∧
  (∃ total err w',
     TokenFeesList 10 5 "" "" "" Demo.world = Returns ((Some [], total, err), w') ∧
     total = 0%Z ∧ err = None) ∧
  (∃ total err w',
     TokenTransfersList 10 5 "" "" "" Demo.world = Returns ((Some [], total, err), w') ∧
     total = 0%Z ∧ err = None) ∧
  (∃ total err w',
     AccountList 10 5 "" Demo.world = Returns ((Some [], total, err), w') ∧
     total = 0%Z ∧ err = None).
Proof.
  destruct (empty_page_total_is_zero Demo.world 10 5 "" "" "") as (Hf & Ht & Ha).
  split; [reflexivity |].
  split; [| split].
  - assert (H : TokenFeesList 10 5 "" "" "" Demo.world =
                Returns ((Some [], 0%Z, None), add_trace "SearchTokenFees" Demo.world))
      by reflexivity.
    do 3 eexists. split; [exact H |]. exact (Hf _ _ _ H).
  - assert (H : TokenTransfersList 10 5 "" "" "" Demo.world =
                Returns ((Some [], 0%Z, None), add_trace "SearchTokenTransfers" Demo.world))
      by reflexivity.
    do 3 eexists. split; [exact H |]. exact (Ht _ _ _ H).
  - assert (H : AccountList 10 5 "" Demo.world =
                Returns ((Some [], 0%Z, None), add_trace "SearchAccounts" Demo.world))
      by reflexivity.
    do 3 eexists. split; [exact H |]. exact (Ha _ _ _ H).
Defined.

Lemma AccountExists_full_width_only_witness :
  (String.length "4141" ≠ 40 ∧
   AccountExists "4141" Demo.world = Returns (false, Demo.world)) ∧
  (∃ w', AccountExists Demo.addressHex Demo.world = Returns (true, w') ∧
         String.length Demo.addressHex = 40).
Proof.
  split.
  - assert (H : String.length "4141" ≠ 40) by (simpl; lia).
    split; [exact H |].
    exact (proj1 (AccountExists_full_width_only Demo.world "4141") H).
  - assert (H : AccountExists Demo.addressHex Demo.world =
                Returns (true, add_trace "SearchAccounts" Demo.world))
      by reflexivity.
    eexists. split; [exact H |].
    exact (proj1 (proj2 (AccountExists_full_width_only Demo.world Demo.addressHex) _ H)).
Defined.

Lemma blockTxQueries_lock_and_rebind_witness :
  blockTxQueries Demo.world =
    Panics "Indexer.blockTxQueries was called without locking Indexer.lockPool" ∧
  (∃ w', blockTxQueries Demo.locked =
           Returns (Some {| q_ro := false; q_tx := Some 0%nat |}, w') ∧
         blockTx (idx w') = Some {| tx_id := 0; tx_path := Demo.dbFile;
                                    tx_work := Demo.tables; tx_done := false |} ∧
         blockQueries (idx w') = Some {| q_ro := false; q_tx := Some 0%nat |} ∧
         sqlTrace w' = ["BEGIN"] ∧ disk w' = disk Demo.locked) ∧
  (∃ msg, blockTxQueries (on_idx (set_readWriteDB None) Demo.locked) = Panics msg) ∧
  blockTxQueries Demo.inBlock =
    Returns (Some {| q_ro := false; q_tx := Some 0%nat |}, Demo.inBlock).
Proof.
  split; [| split; [| split]].
  - exact (proj1 (blockTxQueries_lock_and_rebind Demo.world) eq_refl).
  - destruct (blockTxQueries_lock_and_rebind Demo.locked)
      as (_ & Hreturned & Hreturns & _).
    destruct (Hreturns eq_refl eq_refl Demo.handle {| q_ro := false; q_tx := None |}
                eq_refl eq_refl eq_refl)
      as (w' & Hrun & _).
    destruct (Hreturned eq_refl eq_refl _ _ Hrun)
      as (db & q & Hdb & Hq & _ & Htx & Hq' & Htrace & Hdisk).
    inversion Hdb; subst db. inversion Hq; subst q.
    exists w'. repeat split; assumption.
  - destruct (blockTxQueries_lock_and_rebind (on_idx (set_readWriteDB None) Demo.locked))
      as (_ & _ & _ & Hfails & _).
    exact (Hfails eq_refl eq_refl (or_introl eq_refl)).
  - destruct (blockTxQueries_lock_and_rebind Demo.inBlock) as (_ & _ & _ & _ & Hthere).
    exact (Hthere eq_refl (ex_intro _ _ eq_refl)).
Defined.

Lemma RestoreBackup_copies_then_opens_witness :
  RestoreBackup "backup.sqlite" Demo.world =
    Panics "Indexer.RestoreBackup called after the database was initialized" ∧
  (∃ e, RestoreBackup "missing.sqlite" Demo.unopened =
        Returns (Some ("could not restore indexer backup: " ++ e), Demo.unopened)) ∧
  (∃ w', RestoreBackup "backup.sqlite" Demo.unopened = Returns (None, w') ∧
         readWriteDB (idx w') = Some Demo.handle ∧
         disk w' !! "backup.sqlite" = Some (Spec.with_version 0 Demo.tables) ∧
         disk w' !! Demo.dbFile = Some Demo.tables ∧
         readOnlyDB (idx w') = Some Demo.handle ∧
         readOnlyQuery (idx w') = Some {| q_ro := true; q_tx := None |} ∧
         blockQueries (idx w') = Some {| q_ro := false; q_tx := None |}).
Proof.
  split; [| split].
  - exact (proj1 (RestoreBackup_copies_then_opens Demo.world "backup.sqlite")
             (ex_intro _ Demo.handle eq_refl)).
  - exact (proj1 (proj2 (RestoreBackup_copies_then_opens Demo.unopened "missing.sqlite"))
             eq_refl eq_refl).
  - assert (Hne : "backup.sqlite" ≠ dbPath (idx Demo.unopened)) by discriminate.
    destruct (proj2 (proj2 (RestoreBackup_copies_then_opens Demo.unopened "backup.sqlite"))
                eq_refl eq_refl (Spec.with_version 0 Demo.tables) eq_refl Hne)
      as (_ & e & w' & Hrun & Hrw & Hsrc & _ & Hok).
    destruct (Hok Demo.tables Demo.tables eq_refl eq_refl eq_refl)
      as (He & Hfile & Hro & Hroq & Hq).
    subst e. exists w'. repeat split; assumption.
Defined.

Lemma Rollback_discards_block_witness :
  let midBlock := on_idx (set_blockMu false) Demo.inBlock in
  (∃ w', Rollback midBlock = Returns (tt, w') ∧
     votePool (idx w') = ∅ ∧ blockUpdateProcs (idx w') = ∅ ∧
     blockUpdateProcVoteCounts (idx w') = ∅ ∧ blockTx (idx w') = None ∧
     disk w' = disk midBlock ∧ sqlTrace w' = ["ROLLBACK"]) ∧
  (∃ w1 w2, runEvents Demo.someEvents Demo.world = Returns (tt, w1) ∧
     is_Some (blockTx (idx w1)) ∧
     Rollback w1 = Returns (tt, w2) ∧ disk w2 = disk Demo.world ∧
     votePool (idx w2) = ∅ ∧ blockUpdateProcs (idx w2) = ∅ ∧
     blockUpdateProcVoteCounts (idx w2) = ∅ ∧ blockTx (idx w2) = None).
Proof.
  intros midBlock. split.
  - destruct (proj1 (Rollback_discards_block [] midBlock) eq_refl)
      as (w' & Hrun & H1 & H2 & H3 & H4 & H5 & H6).
    exists w'. repeat split; try assumption.
    exact (H6 (ex_intro _ _ eq_refl)).
  - destruct (proj2 (Rollback_discards_block Demo.someEvents Demo.world) demo_ready)
      as (w1 & w2 & Hrun1 & Hrun2 & H1 & H2 & H3 & H4 & H5).
    exists w1, w2. repeat split; try assumption.
    assert (Htx : match runEvents Demo.someEvents Demo.world with
                  | Returns (_, w) => negb (bool_decide (blockTx (idx w) = None))
                  | _ => false
                  end = true) by reflexivity.
    rewrite Hrun1 in Htx. destruct (blockTx (idx w1)); [eauto | discriminate Htx].
Defined.

Lemma overwrite_with_previous_witness :
  (∃ w', commitPooledVote Demo.proc Demo.zeroTally (Demo.ballot "N2" 1 "10") Demo.world =
         Returns (Demo.zeroTally, w') ∧
         (Error, "check vote overwrite failed") ∈ logs w') ∧
  (∃ w', commitPooledVote Demo.proc Demo.zeroTally (Demo.ballot "N1" 1 "01") Demo.world =
         Returns ({| addedResults :=
                       {| r_ProcessID := ""; r_Votes := [[5; 0]; [0; 5]]%Z; r_Weight := 5;
                          r_VoteOpts := Demo.opts; r_EnvelopeType := zeroEnvelope;
                          r_BlockHeight := 0 |};
                     subtractedResults :=
                       {| r_ProcessID := ""; r_Votes := [[0; 5]; [5; 0]]%Z; r_Weight := 5;
                          r_VoteOpts := Demo.opts; r_EnvelopeType := zeroEnvelope;
                          r_BlockHeight := 0 |};
                     newVotes := 0; overwritedVotes := 1 |}, w')) ∧
  (∃ w', commitPooledVote Demo.proc Demo.zeroTally (Demo.ballot "N3" 1 "01") Demo.world =
         Returns (Demo.zeroTally, w') ∧
         (Error, "vote cannot be added to subtracted results") ∈ logs w').
Proof.
  split; [| split].
  - assert (Hpos : (0 < Overwrites (Demo.ballot "N2" 1 "10"))%Z) by reflexivity.
    assert (Hle : (Overwrites (Demo.ballot "N2" 1 "10")
                   <= GetOverwriteCount (Demo.committed "01" (Some 1%Z)))%Z)
      by (compute; discriminate).
    destruct (proj1 (overwrite_with_previous Demo.proc Demo.zeroTally
                       (Demo.ballot "N2" 1 "10") (Demo.committed "01" (Some 1%Z))
                       Demo.world Hpos eq_refl) Hle) as (w' & Hrun & _ & Hlog).
    exists w'. split; assumption.
  - assert (Hpos : (0 < Overwrites (Demo.ballot "N1" 1 "01"))%Z) by reflexivity.
    assert (Hgt : (GetOverwriteCount (Demo.committed "10" None)
                   < Overwrites (Demo.ballot "N1" 1 "01"))%Z) by reflexivity.
    destruct (proj1 (proj2 (overwrite_with_previous Demo.proc Demo.zeroTally
                       (Demo.ballot "N1" 1 "01") (Demo.committed "10" None)
                       Demo.world Hpos eq_refl)) Hgt eq_refl) as (w' & Hrun & _).
    exists w'. exact Hrun.
  - assert (Hpos : (0 < Overwrites (Demo.ballot "N3" 1 "01"))%Z) by reflexivity.
    assert (Hgt : (GetOverwriteCount (Demo.committed "20" None)
                   < Overwrites (Demo.ballot "N3" 1 "01"))%Z) by reflexivity.
    assert (Herr : (addLiveVote Demo.proc (sv_VotePackage (Demo.committed "20" None))
                      (Some (SetBytes (sv_Weight (Demo.committed "20" None))))
                      (subtractedResults Demo.zeroTally)).2 ≠ None) by discriminate.
    destruct (proj2 (proj2 (overwrite_with_previous Demo.proc Demo.zeroTally
                       (Demo.ballot "N3" 1 "01") (Demo.committed "20" None)
                       Demo.world Hpos eq_refl)) Hgt Herr) as (w' & Hrun & _ & Hlog).
    exists w'. split; [exact Hrun | exact Hlog].
Defined.

(** C2, as worded, fails: the ballot committed for N3 has a choice above
    the maximum, [addLiveVote] reports it, and the overwriting ballot, a
    valid one, is not passed to [addLiveVote] on the added accumulator. *)
Lemma overwrite_always_added_fails :
  ¬ overwrite_always_added_at Demo.proc Demo.zeroTally (Demo.ballot "N3" 1 "01")
      (Demo.committed "20" None) Demo.world.
Proof.
  intros H.
  assert (Hpos : (0 < Overwrites (Demo.ballot "N3" 1 "01"))%Z) by reflexivity.
  assert (Hgt : (GetOverwriteCount (Demo.committed "20" None)
                 < Overwrites (Demo.ballot "N3" 1 "01"))%Z) by reflexivity.
  destruct (H Hpos eq_refl Hgt) as (t' & w' & Hrun & _ & Hadded).
  assert (Hcode : commitPooledVote Demo.proc Demo.zeroTally (Demo.ballot "N3" 1 "01")
                    Demo.world
                  = Returns (Demo.zeroTally,
                             add_log Error "vote cannot be added to subtracted results"
                               (add_log Debug "vote overwrite, previous vote" Demo.world)))
    by reflexivity.
  rewrite Hcode in Hrun. inversion Hrun; subst t'.
  vm_compute in Hadded. discriminate Hadded.
Qed.

Lemma OnVote_pools_last_ballot_witness :
  ∃ w', OnVote (Demo.ballot "N1" 1 "10") 1 Demo.highPooled = Returns (tt, w') ∧
    pooled (Demo.ballot "N1" 1 "10") Demo.highPooled = Some (Demo.ballot "N1" 2 "01") ∧
    pooled (Demo.ballot "N1" 1 "10") w' = Some (Demo.ballot "N1" 1 "10") ∧
    lowerOverwrite ∈ logs w'.
Proof.
  assert (Hlive : ProcessID (Demo.ballot "N1" 1 "10")
                  ∈ liveResultsProcs (idx Demo.highPooled))
    by (apply elem_of_singleton; reflexivity).
  destruct (OnVote_pools_last_ballot (Demo.ballot "N1" 1 "10") 1 Demo.highPooled
              eq_refl Hlive demo_ready) as (w' & Hrun & Hpool & Hwarn).
  exists w'. split; [exact Hrun |]. split; [reflexivity |]. split; [exact Hpool |].
  apply (Hwarn (Demo.ballot "N1" 2 "01")); reflexivity.
Defined.

(** C1, as worded, fails: a ballot with counter 2 is pooled, a ballot with
    counter 1 arrives for the same nullifier, and the pool then holds the
    ballot with counter 1. *)
Lemma pool_keeps_highest_fails :
  ¬ pool_keeps_highest_at Demo.highPooled (Demo.ballot "N1" 1 "10") 1.
Proof.
  intros H.
  assert (Hlive : ProcessID (Demo.ballot "N1" 1 "10")
                  ∈ liveResultsProcs (idx Demo.highPooled))
    by (apply elem_of_singleton; reflexivity).
  pose proof (wp_OnVote (Demo.ballot "N1" 1 "10") 1 Demo.highPooled demo_ready) as Hwp.
  apply wp_returns in Hwp. destruct Hwp as ([] & w' & Hrun & _ & _ & Hpool).
  destruct (Hpool eq_refl Hlive) as [Hlast _].
  assert (Hlt : (Overwrites (Demo.ballot "N1" 1 "10")
                 < Overwrites (Demo.ballot "N1" 2 "01"))%Z) by reflexivity.
  pose proof (H eq_refl Hlive (Demo.ballot "N1" 2 "01") w' eq_refl Hlt Hrun) as Hkept.
  rewrite Hlast in Hkept. discriminate Hkept.
Qed.

Lemma demo_mismatch (w : World) :
  readOnlyQuery (idx w) = Some {| q_ro := true; q_tx := None |} →
  readOnlyDB (idx w) = Some Demo.handle →
  disk w = disk Demo.world →
  hashMismatch Demo.block1 1 "b" w.
Proof.
  intros Hq Hdb Hdisk.
  exists {| q_ro := true; q_tx := None |}, Demo.tables,
         {| tr_BlockHeight := 1; tr_BlockIndex := 1; tr_Hash := "x" |}.
  split; [exact Hq |]. split.
  - unfold tables_of. simpl. rewrite Hdb. unfold open_tables. simpl.
    rewrite Hdisk. reflexivity.
  - split; [reflexivity | discriminate].
Qed.

Lemma reindex_hash_mismatch_ends_block_witness :
  let stopped w := add_log (fst hashMismatchLog) (snd hashMismatchLog)
                     (add_trace "GetTransactionByHeightAndIndex" w) in
  reindexTxs Demo.block1 1 ["b"; "c"] Demo.locked = Returns (false, stopped Demo.locked) ∧
  reindexHeights [1; 2]%Z (blockQueries (idx Demo.inBlock)) Demo.inBlock =
  reindexHeights [2]%Z Demo.afterBlockRow.1 (stopped Demo.afterFirstTx).
Proof.
  intros stopped. split.
  - exact (proj1 (reindex_hash_mismatch_ends_block Demo.block1 [] ["c"] "b" Demo.locked)
             1%Z (demo_mismatch Demo.locked eq_refl eq_refl eq_refl)).
  - assert (Hblock : reindexBlock 1 Demo.block1 (blockQueries (idx Demo.inBlock))
                       Demo.inBlock
                     = Returns (Demo.afterBlockRow.1, Demo.afterBlockRow.2))
      by reflexivity.
    assert (Hpre : reindexTxs Demo.block1 0 ["a"] Demo.afterBlockRow.2
                   = Returns (true, Demo.afterFirstTx))
      by reflexivity.
    assert (Hmis : hashMismatch Demo.block1 (Z.of_nat (length ["a"])) "b"
                     Demo.afterFirstTx).
    { apply demo_mismatch; reflexivity. }
    exact (proj2 (reindex_hash_mismatch_ends_block Demo.block1 ["a"] ["c"] "b"
                    Demo.inBlock)
             1%Z [2]%Z _ _ _ _ eq_refl eq_refl Hblock Hpre Hmis).
Defined.

(** What the block transaction holds of the transactions table. *)
Lemma indexed_positions_differ :
  let rows (o : Outcome (bool * World)) :=
    match o with
    | Returns (_, w) =>
        match blockTx (idx w) with
        | Some tx => map (fun r => (tr_BlockIndex r, tr_Hash r))
                         (Spec.t_transactions (tx_work tx))
        | None => []
        end
    | _ => []
    end in
  rows (reindexTxs Demo.block1 0 (b_Txs Demo.block1) Demo.inBlock)
    = [(1, "x"); (0, "a")]%Z ∧
  rows (reindexTxs_asSpecified Demo.block1 0 (b_Txs Demo.block1) Demo.inBlock)
    = [(1, "x"); (0, "a"); (2, "c")]%Z.
Proof. split; reflexivity. Qed.

(** C9, as worded, fails: block 1 has transactions a, b, c; position 1 is
    stored with another hash than that of b; the loop of the code stops
    there and never indexes c, the loop of the specification does. *)
Lemma reindex_skips_one_row_fails :
  ¬ reindex_skips_one_row_at Demo.block1 Demo.inBlock.
Proof.
  unfold reindex_skips_one_row_at. intros H.
  destruct indexed_positions_differ as [Hcode Hspec].
  cbv zeta in Hcode, Hspec. rewrite H, Hspec in Hcode. discriminate Hcode.
Qed.

(** The scenarios S2 and S3 of the specification on the reference backend:
    a ballot, then its overwrite. *)
Example single_vote_then_overwrite :
  Demo.storedResults ((OnVote (Demo.ballot "N1" 0 "10") 0 ;; Commit 2) Demo.world)
    = Some ("0,5;5,0;", "5", 1%Z) ∧
  Demo.storedResults ((OnVote (Demo.ballot "N1" 0 "10") 0 ;; Commit 2 ;;
                       OnVote (Demo.ballot "N1" 1 "01") 0 ;; Commit 3) Demo.world)
    = Some ("5,0;0,5;", "5", 1%Z).
Proof. split; reflexivity. Qed.

(** A block in which a valid ballot overwrites the invalid ballot committed
    for N3: the vote is indexed and counted, the tally does not move. *)
Example overwrite_of_invalid_ballot_is_dropped :
  Demo.storedResults ((OnVote (Demo.ballot "N3" 1 "01") 0 ;; Commit 4) Demo.world)
    = Some ("0,0;0,0;", "0", 1%Z).
Proof. reflexivity. Qed.

(** * Further properties *)

Section Preserves.
Context `{B : Backend}.
Context (R : World → World → Prop) `{!BlockStep R}.

Lemma preserves_ret {A} (a : A) : preserves R (ret a).
Proof. intros w a' w' H. inversion H; subst. apply step_refl. Qed.

Lemma preserves_gets {A} (f : World → A) : preserves R (gets f).
Proof. intros w a' w' H. inversion H; subst. apply step_refl. Qed.

Lemma preserves_panic {A} (msg : string) : preserves R (panic (A := A) msg).
Proof. intros w a' w' H. discriminate H. Qed.

Lemma preserves_bind {A C} (m : M A) (k : A → M C) :
  preserves R m → (∀ a, preserves R (k a)) → preserves R (bind m k).
Proof.
  intros Hm Hk w c w' H. unfold bind in H.
  destruct (m w) as [[a w1] | |] eqn:Hrun; try discriminate H.
  eapply step_trans; [eapply Hm; exact Hrun | eapply Hk; exact H].
Qed.

Lemma preserves_modify (f : World → World) :
  (∀ w, R w (f w)) → preserves R (modify f).
Proof. intros Hf w a w' H. inversion H; subst. apply Hf. Qed.

Lemma preserves_log (l : Level) (msg : string) : preserves R (log l msg).
Proof. apply preserves_modify. intros w. apply step_log. Qed.

Lemma preserves_Lock : preserves R Lock.
Proof.
  intros w a w' H. unfold Lock in H.
  destruct (blockMu (idx w)); inversion H; subst. apply step_mutex.
Qed.

Lemma preserves_Unlock : preserves R Unlock.
Proof. apply preserves_modify. intros w. apply step_mutex. Qed.

Lemma preserves_forEach {A} (l : list A) (f : A → M unit) :
  (∀ x, preserves R (f x)) → preserves R (forEach l f).
Proof.
  intros Hf. induction l as [| x l IH]; simpl.
  - apply preserves_ret.
  - apply preserves_bind; [apply Hf | intros _; exact IH].
Qed.

Lemma preserves_foldM {A S} (f : S → A → M S) (l : list A) :
  (∀ s x, preserves R (f s x)) → ∀ s, preserves R (foldM f l s).
Proof.
  intros Hf. induction l as [| x l IH]; intros s; simpl.
  - apply preserves_ret.
  - apply preserves_bind; [apply Hf | intros s'; apply IH].
Qed.

End Preserves.

Ltac preserved :=
  repeat first
    [ match goal with |- BlockStep _ => typeclasses eauto end
    | apply preserves_ret
    | apply preserves_gets
    | apply preserves_panic
    | apply preserves_log
    | apply preserves_Lock
    | apply preserves_Unlock
    | apply step_blockTxQueries
    | apply step_q_write; discriminate
    | apply preserves_modify; intros ?;
      first [ apply step_votePool | apply step_updateProcs | apply step_voteCounts
            | apply step_liveResults | apply step_mutex ]
    | apply preserves_forEach; [| intros ?]
    | apply preserves_bind; [| | intros ?]
    | match goal with
      | |- preserves _ (match ?x with _ => _ end) => destruct x
      end ].

Section Sink.
Context `{B : Backend}.
Context (R : World → World → Prop) `{!BlockStep R}.

Lemma preserves_markUpdateProc (pid : bytes) : preserves R (withLock (markUpdateProc pid)).
Proof. unfold withLock, markUpdateProc. preserved. Qed.

Lemma preserves_OnVote (vote : Vote) (txIndex : Z) : preserves R (OnVote vote txIndex).
Proof.
  unfold OnVote, poolVote, withLock, isProcessLiveResults, when, logIfErr. preserved.
Qed.

Lemma preserves_dispatch (ev : Event) : preserves R (dispatch ev).
Proof.
  destruct ev; simpl; try apply preserves_markUpdateProc; try apply preserves_OnVote.
  - unfold OnProcess, newEmptyProcess, withLock, when, logIfErr, addProcessToLiveResults.
    preserved.
  - unfold OnRevealKeys, withLock, markUpdateProc. preserved.
  - unfold OnProcessesStart, withLock, markUpdateProc. preserved.
  - unfold OnSetAccount, withLock, logIfErr. preserved.
  - unfold OnTransferTokens, withLock, logIfErr. preserved.
  - unfold OnSpendTokens, withLock, logIfErr. preserved.
Qed.

Lemma preserves_runEvents (evs : list Event) : preserves R (runEvents evs).
Proof. apply preserves_forEach; [exact _ |]. intros ev. now apply preserves_dispatch. Qed.

End Sink.

Section BlockSteps.
Context `{B : Backend}.

(** How [blockTxQueries] returns: with the transaction that is there and
    the world as it is, or with a transaction begun on the writer. *)
Lemma blockTxQueries_returns (w w' : World) (r : option Queries) :
  blockTxQueries w = Returns (r, w') →
  (is_Some (blockTx (idx w)) ∧ w' = w) ∨
  (blockTx (idx w) = None ∧
   ∃ db q, readWriteDB (idx w) = Some db ∧ blockQueries (idx w) = Some q ∧
     let tx := {| tx_id := nextTx w; tx_path := sql_path db;
                  tx_work := default newDB (disk w !! sql_path db);
                  tx_done := false |} in
     w' = on_idx (set_blockQueries (Some (WithTx q tx)))
            (on_idx (set_blockTx (Some tx)) (bump_nextTx (add_trace "BEGIN" w)))).
Proof.
  intros Hrun.
  unfold blockTxQueries, TryLock, db_Begin, acquire_conn, open_tables in Hrun.
  unfold bind, ret, gets, modify, panic in Hrun. simpl in Hrun.
  destruct (blockMu (idx w)) eqn:Hmu; [| discriminate Hrun].
  destruct (blockTx (idx w)) as [tx |] eqn:Htx.
  - left. split; [eauto |]. now inversion Hrun.
  - right. split; [reflexivity |].
    destruct (readWriteDB (idx w)) as [db |] eqn:Hdb; [| discriminate Hrun].
    simpl in Hrun. rewrite Htx in Hrun.
    destruct (sql_closed db) eqn:Hclosed; [discriminate Hrun |].
    destruct (blockQueries (idx w)) as [q |] eqn:Hq.
    2:{ destruct (disk w !! sql_path db); simpl in Hrun; rewrite Hq in Hrun;
        discriminate Hrun. }
    exists db, q. split; [reflexivity |]. split; [reflexivity |].
    destruct (disk w !! sql_path db) as [t |] eqn:Hfile; simpl in Hrun;
      rewrite Hq in Hrun; simpl in Hrun; inversion Hrun; reflexivity.
Qed.

(** How a statement that writes returns: with the statement traced, and
    with the tables it gives stored where the handle writes. *)
Lemma q_write_returns (q : option Queries) (stmt : string) (f : Tables → res Tables)
    (w w' : World) (e : option string) :
  q_write q stmt f w = Returns (e, w') →
  ∃ q', q = Some q' ∧
    (w' = add_trace stmt w ∨
     ∃ t t', tables_of q' w = Ok t ∧ f t = Ok t' ∧ e = None ∧
             w' = store_tables q' t' (add_trace stmt w)).
Proof.
  intros Hrun. destruct q as [q |]; [| discriminate Hrun]. exists q.
  split; [reflexivity |].
  unfold q_write, bind, gets, modify, ret in Hrun.
  change (tables_of q (add_trace stmt w)) with (tables_of q w) in Hrun.
  destruct (tables_of q w) as [t | err]; [| left; now inversion Hrun].
  destruct (f t) as [t' | err] eqn:Hf; [| left; now inversion Hrun].
  right. exists t, t'. inversion Hrun. auto.
Qed.

#[global] Instance sameHandles_step : BlockStep sameHandles.
Proof.
  split.
  - now intros w.
  - intros w1 w2 w3 (? & ? & ? & ? & ?) (? & ? & ? & ? & ?). repeat split; congruence.
  - now intros l msg w.
  - now intros b w.
  - now intros f w.
  - now intros f w.
  - now intros f w.
  - now intros f w.
  - intros w r w' Hrun. apply blockTxQueries_returns in Hrun.
    destruct Hrun as [[_ ->] | (_ & db & q & _ & _ & ->)]; now repeat split.
  - intros q stmt f _ w e w' Hrun. apply q_write_returns in Hrun.
    destruct Hrun as (q' & -> & [-> | (t & t' & _ & _ & _ & ->)]); [now repeat split |].
    unfold store_tables. destruct (q_tx q').
    + simpl. now destruct (blockTx (idx w)).
    + simpl. destruct (q_ro q'); simpl.
      * now destruct (readOnlyDB (idx w)).
      * now destruct (readWriteDB (idx w)).
Qed.

Lemma begins_same (w w' : World) : sqlTrace w' = sqlTrace w → begins w' = begins w.
Proof. unfold begins. now intros ->. Qed.

Lemma begins_other (stmt : string) (w w' : World) :
  stmt ≠ "BEGIN" → sqlTrace w' = stmt :: sqlTrace w → begins w' = begins w.
Proof. intros Hne Ht. unfold begins. rewrite Ht. now rewrite filter_cons_False. Qed.

Lemma begins_BEGIN (w w' : World) :
  sqlTrace w' = "BEGIN" :: sqlTrace w → begins w' = S (begins w).
Proof. intros Ht. unfold begins. rewrite Ht. now rewrite filter_cons_True. Qed.

Lemma oneBegin_idle (w w' : World) :
  blockTx (idx w') = blockTx (idx w) → begins w' = begins w → oneBegin w w'.
Proof.
  intros Htx Hb. split; [now rewrite Htx |]. rewrite Htx, Hb.
  destruct (blockTx (idx w)); lia.
Qed.

#[global] Instance oneBegin_step : BlockStep oneBegin.
Proof.
  split.
  - intros w. now apply oneBegin_idle.
  - intros w1 w2 w3 [H12 E12] [H23 E23]. split; [auto |].
    rewrite E23, E12.
    destruct (blockTx (idx w1)) as [tx1 |] eqn:H1;
      destruct (blockTx (idx w2)) as [tx2 |] eqn:H2;
      destruct (blockTx (idx w3)) as [tx3 |] eqn:H3; try lia.
    all: try (destruct H12 as [? ?]; [eauto | discriminate]).
    all: try (destruct H23 as [? ?]; [eauto | discriminate]).
  - intros l msg w. now apply oneBegin_idle.
  - intros b w. now apply oneBegin_idle.
  - intros f w. now apply oneBegin_idle.
  - intros f w. now apply oneBegin_idle.
  - intros f w. now apply oneBegin_idle.
  - intros f w. now apply oneBegin_idle.
  - intros w r w' Hrun. apply blockTxQueries_returns in Hrun.
    destruct Hrun as [[[tx Htx] ->] | (Htx & db & q & _ & _ & ->)].
    + now apply oneBegin_idle.
    + split; [simpl; eauto |]. rewrite Htx.
      rewrite (begins_BEGIN w) by reflexivity. simpl. lia.
  - intros q stmt f Hne w e w' Hrun. apply q_write_returns in Hrun.
    destruct Hrun as (q' & -> & [-> | (t & t' & _ & _ & _ & ->)]).
    + apply oneBegin_idle; [reflexivity |]. now apply (begins_other stmt).
    + unfold store_tables. destruct (q_tx q').
      * simpl. destruct (blockTx (idx w)) as [tx |] eqn:Htx.
        -- split; [simpl; eauto |]. simpl. rewrite Htx.
           rewrite (begins_other stmt w) by (exact Hne || reflexivity). lia.
        -- apply oneBegin_idle; [reflexivity |]. now apply (begins_other stmt).
      * simpl. destruct (q_ro q'); simpl.
        -- destruct (readOnlyDB (idx w));
             (apply oneBegin_idle; [reflexivity |]; now apply (begins_other stmt)).
        -- destruct (readWriteDB (idx w));
             (apply oneBegin_idle; [reflexivity |]; now apply (begins_other stmt)).
Qed.

End BlockSteps.

Section Isolation.
Context `{B : Backend}.

Lemma tables_of_unbound (q : Queries) (w w' : World) :
  q_tx q = None → sameHandles w w' → disk w' = disk w →
  tables_of q w' = tables_of q w.
Proof.
  intros Hq (_ & Hro & Hrw & _) Hd. unfold tables_of, open_tables.
  now rewrite Hq, Hro, Hrw, Hd.
Qed.

(** What a listing answers is a function of the read-only handle and of
    the tables that handle sees. *)
Lemma listing_answers (w w' : World) :
  readOnlyQuery (idx w') = readOnlyQuery (idx w) →
  (∀ q, readOnlyQuery (idx w) = Some q → tables_of q w' = tables_of q w) →
  ∀ (limit offset : Z) (a b c : string),
    answer (TokenFeesList limit offset a b c w') =
      answer (TokenFeesList limit offset a b c w) ∧
    answer (TokenTransfersList limit offset a b c w') =
      answer (TokenTransfersList limit offset a b c w) ∧
    answer (AccountList limit offset a w') = answer (AccountList limit offset a w) ∧
    answer (AccountExists a w') = answer (AccountExists a w).
Proof.
  intros Hq Ht limit offset a b c.
  unfold AccountExists, TokenFeesList, TokenTransfersList, AccountList.
  split; [| split; [| split]].
  1-3: destruct (offset <? 0)%Z; [reflexivity |];
       destruct (limit <=? 0)%Z; [reflexivity |].
  4: destruct (negb (String.length a =? 40)%nat); [reflexivity |]; simpl.
  all: unfold bind, gets; cbv beta iota; rewrite Hq.
  all: destruct (readOnlyQuery (idx w)) as [q |]; [| reflexivity].
  all: rewrite !q_read_Some, (Ht q eq_refl).
  all: destruct (tables_of q w) as [t | e]; [| reflexivity].
  all: match goal with
       | |- context [match ?r with Ok _ => _ | Err _ => _ end] => destruct r as [rows | e]
       end; [| reflexivity].
  all: destruct rows; reflexivity.
Qed.

(** X1.  Nothing that the callbacks of a block have written is visible to
    the queries before [Commit]: run from an indexer that is ready, with
    the read-only queries bound to no transaction, any sequence of
    callbacks returns, and every listing and [AccountExists] then answer
    what they answered before the first of them. *)
Theorem uncommitted_block_is_invisible (evs : list Event) (w : World) :
  ready w →
  (∀ q, readOnlyQuery (idx w) = Some q → q_tx q = None) →
  ∃ w1, runEvents evs w = Returns (tt, w1) ∧
    ∀ (limit offset : Z) (a b c : string),
      answer (TokenFeesList limit offset a b c w1) =
        answer (TokenFeesList limit offset a b c w) ∧
      answer (TokenTransfersList limit offset a b c w1) =
        answer (TokenTransfersList limit offset a b c w) ∧
      answer (AccountList limit offset a w1) = answer (AccountList limit offset a w) ∧
      answer (AccountExists a w1) = answer (AccountExists a w).
Proof.
  intros Hr Hunbound.
  pose proof (wp_runEvents evs w Hr) as H.
  apply wp_returns in H. destruct H as ([] & w1 & Hrun & _ & Hdisk).
  exists w1. split; [exact Hrun |].
  pose proof (preserves_runEvents sameHandles evs w tt w1 Hrun) as Hsame.
  apply listing_answers.
  - apply Hsame.
  - intros q Hq. apply tables_of_unbound; auto.
Qed.

(** X2.  The callbacks of a block begin at most one transaction, and only
    when none is in progress: run from an indexer that is ready, any
    sequence of callbacks returns; a transaction that was in progress is
    still there and no BEGIN was sent; otherwise exactly one BEGIN was sent
    if a transaction is there afterwards, and none if not. *)
Theorem one_transaction_per_block (evs : list Event) (w : World) :
  ready w →
  ∃ w1, runEvents evs w = Returns (tt, w1) ∧
    (is_Some (blockTx (idx w)) → is_Some (blockTx (idx w1))) ∧
    begins w1 =
      (begins w + match blockTx (idx w), blockTx (idx w1) with
                  | None, Some _ => 1
                  | _, _ => 0
                  end)%nat.
Proof.
  intros Hr.
  pose proof (wp_runEvents evs w Hr) as H.
  apply wp_returns in H. destruct H as ([] & w1 & Hrun & _).
  exists w1. split; [exact Hrun |].
  exact (preserves_runEvents oneBegin evs w tt w1 Hrun).
Qed.

End Isolation.

Section PartialLemmas.
Context `{B : Backend}.

Lemma wpx_wp {A} (allow : bool) (m : M A) (Q : A → World → Prop) (w : World) :
  wp m Q w → wpx allow m Q w.
Proof. unfold wp, wpx. destruct (m w) as [[a w'] | |]; tauto. Qed.

Lemma wpx_bind {A C} (allow : bool) (m : M A) (k : A → M C) (Q : C → World → Prop)
    (w : World) :
  wpx allow m (fun a w' => wpx allow (k a) Q w') w → wpx allow (bind m k) Q w.
Proof. unfold wpx, bind. destruct (m w) as [[a w'] | |]; auto. Qed.

Lemma wpx_mono {A} (allow : bool) (m : M A) (P Q : A → World → Prop) (w : World) :
  wpx allow m P w → (∀ a w', P a w' → Q a w') → wpx allow m Q w.
Proof. unfold wpx. destruct (m w) as [[a w'] | |]; auto. Qed.

Lemma wpx_withLock {A} (allow : bool) (body : M A) (Q : A → World → Prop) (w : World) :
  blockMu (idx w) = false →
  wpx allow body (fun a w' => Q a (on_idx (set_blockMu false) w'))
      (on_idx (set_blockMu true) w) →
  wpx allow (withLock body) Q w.
Proof.
  intros Hmu H. unfold withLock.
  apply wpx_bind, wpx_wp, wp_Lock; [exact Hmu |].
  apply wpx_bind. eapply wpx_mono; [exact H |].
  intros a w' HQ. apply wpx_bind, wpx_wp, wp_Unlock, wp_ret. exact HQ.
Qed.

Lemma wpx_forEach {A} (allow : bool) (I : World → Prop) (l : list A) (f : A → M unit) :
  (∀ x w, I w → wpx allow (f x) (fun _ w' => I w') w) →
  ∀ w, I w → wpx allow (forEach l f) (fun _ w' => I w') w.
Proof.
  intros Hf. induction l as [| x l IH]; intros w HI; simpl.
  - exact HI.
  - apply wpx_bind. eapply wpx_mono; [apply Hf; exact HI |].
    intros [] w' HI'. now apply IH.
Qed.

Lemma wpx_foldM {A S} (allow : bool) (I : World → Prop) (l : list A) (f : S → A → M S) :
  (∀ s x w, I w → wpx allow (f s x) (fun _ w' => I w') w) →
  ∀ s w, I w → wpx allow (foldM f l s) (fun _ w' => I w') w.
Proof.
  intros Hf. induction l as [| x l IH]; intros s w HI; simpl.
  - exact HI.
  - apply wpx_bind. eapply wpx_mono; [apply Hf; exact HI |].
    intros s' w' HI'. now apply IH.
Qed.

End PartialLemmas.

Section TallyLoop.
Context `{B : Backend}.

(** One pooled ballot: the loop body returns, changes the log only, and
    moves at most one of the two counters, by one. *)
Lemma commitPooledVote_counts (proc : Process) (t : Tally) (v : Vote) (w : World) :
  ∃ t' w', commitPooledVote proc t v w = Returns (t', w') ∧ quiet w w' ∧
    ((newVotes t' = newVotes t ∧ overwritedVotes t' = overwritedVotes t) ∨
     (newVotes t' = newVotes t + 1 ∧ overwritedVotes t' = overwritedVotes t) ∨
     (newVotes t' = newVotes t ∧ overwritedVotes t' = overwritedVotes t + 1))%Z.
Proof.
  unfold commitPooledVote, addNewVote, bind, gets, ret, log, modify.
  destruct (0 <? Overwrites v)%Z.
  - destruct (State_Vote (App w) (ProcessID v) (Nullifier v)) as [pv | | e]; simpl.
    + destruct (Overwrites v <=? GetOverwriteCount pv)%Z.
      * do 2 eexists. split; [reflexivity |]. split; [repeat split | auto].
      * destruct (addLiveVote proc (sv_VotePackage pv) _ _) as [sub [e |]]; simpl.
        -- do 2 eexists. split; [reflexivity |]. split; [repeat split | auto].
        -- destruct (addLiveVote proc (VotePackage v) _ _) as [added [e |]]; simpl;
             (do 2 eexists; split; [reflexivity |]; split; [repeat split | auto]).
    + destruct (addLiveVote proc (VotePackage v) _ _) as [added [e |]]; simpl;
        (do 2 eexists; split; [reflexivity |]; split; [repeat split | auto]).
    + destruct (addLiveVote proc (VotePackage v) _ _) as [added [e' |]]; simpl;
        (do 2 eexists; split; [reflexivity |]; split; [repeat split | auto]).
  - destruct (addLiveVote proc (VotePackage v) _ _) as [added [e |]]; simpl;
      (do 2 eexists; split; [reflexivity |]; split; [repeat split | auto]).
Qed.

Lemma tally_loop (proc : Process) (votes : list Vote) :
  ∀ (t : Tally) (w : World),
    ∃ t' w', foldM (commitPooledVote proc) votes t w = Returns (t', w') ∧ quiet w w' ∧
      (newVotes t <= newVotes t' ∧ overwritedVotes t <= overwritedVotes t' ∧
       (newVotes t' - newVotes t) + (overwritedVotes t' - overwritedVotes t)
         <= Z.of_nat (length votes))%Z.
Proof.
  induction votes as [| v votes IH]; intros t w.
  - exists t, w. split; [reflexivity |]. split; [apply quiet_refl | simpl; lia].
  - destruct (commitPooledVote_counts proc t v w) as (t1 & w1 & Hrun1 & Hq1 & Hc1).
    destruct (IH t1 w1) as (t2 & w2 & Hrun2 & Hq2 & Hc2).
    exists t2, w2. split.
    + simpl. unfold bind. now rewrite Hrun1.
    + split; [eapply quiet_trans; eauto |]. simpl length. lia.
Qed.

(** X3.  The loop of [Commit] over the pooled ballots of a process always
    returns, and changes nothing in the world but the log; neither counter
    goes down, and together they grow by at most the number of ballots:
    each ballot is a new vote, an overwrite, or is skipped. *)
Theorem pooled_ballots_counted_once (proc : Process) (votes : list Vote) (t : Tally)
    (w : World) :
  ∃ t' w', foldM (commitPooledVote proc) votes t w = Returns (t', w') ∧ quiet w w' ∧
    (newVotes t <= newVotes t' ∧ overwritedVotes t <= overwritedVotes t' ∧
     (newVotes t' - newVotes t) + (overwritedVotes t' - overwritedVotes t)
       <= Z.of_nat (length votes))%Z.
Proof. apply tally_loop. Qed.

End TallyLoop.

Section CommitEnds.
Context `{B : Backend}.

Lemma wp_q_read {A} (q : Queries) (stmt : string) (f : Tables → res A)
    (Q : res A → World → Prop) (w : World) :
  Q (match tables_of q w with Ok t => f t | Err e => Err e end) (add_trace stmt w) →
  wp (q_read (Some q) stmt f) Q w.
Proof. intros H. unfold wp. now rewrite q_read_Some. Qed.

Lemma blockState_idx (q : Queries) (P : gmap string (gmap string Vote))
    (U V : gmap string bool) (w w' : World) :
  idx w' = idx w → blockState q P U V w → blockState q P U V w'.
Proof. unfold blockState, inTx, dbReady. now intros ->. Qed.

Lemma blockState_write (q : Queries) (P : gmap string (gmap string Vote))
    (U V : gmap string bool) (stmt : string) (f : Tables → res Tables) (w : World) :
  blockState q P U V w →
  wp (q_write (Some q) stmt f) (fun _ w' => blockState q P U V w') w.
Proof.
  intros (Hin & Hq & HP & HU & HV). apply wp_q_write; [exact Hin | exact Hq |].
  intros e w' (_ & _ & Hp & _ & _ & _ & Hu & Hv & _) Hin' Hq'.
  split; [exact Hin' |]. split; [exact Hq' |].
  split; [congruence |]. split; congruence.
Qed.

Lemma blockState_logIfErr (q : Queries) (P : gmap string (gmap string Vote))
    (U V : gmap string bool) (e : option string) (l : Level) (msg : string) (w : World) :
  blockState q P U V w →
  wp (logIfErr e l msg) (fun _ w' => blockState q P U V w') w.
Proof.
  intros H. apply wp_logIfErr. intros w' Hi _. now apply (blockState_idx _ _ _ _ w).
Qed.

(** [ProcessFromDB] returns with the log grown, or panics in [DecodeJSON]. *)
Lemma wpx_ProcessFromDB (row : GetProcessRow) (Q : Process → World → Prop) (w : World) :
  (∀ p w', idx w' = idx w → Q p w') → wpx true (ProcessFromDB row) Q w.
Proof.
  intros H. unfold ProcessFromDB.
  destruct (DecodeJSON_Votes _) as [votes |]; [| now split].
  destruct (DecodeJSON_BigInt _) as [weight |]; [| now split].
  apply wpx_wp.
  apply wp_bind.
  apply wp_mono with (P := fun _ w' => idx w' = idx w).
  { destruct (SourceNetworkId_name _).
    - now apply wp_ret.
    - now apply wp_bind, wp_log, wp_ret. }
  intros network w1 H1. apply wp_bind.
  apply wp_mono with (P := fun _ w' => idx w' = idx w).
  { destruct (Unmarshal_EnvelopeType _).
    - now apply wp_ret.
    - now apply wp_bind, wp_log, wp_ret. }
  intros envelope w2 H2. apply wp_bind.
  apply wp_mono with (P := fun _ w' => idx w' = idx w).
  { destruct (Unmarshal_VoteOpts _).
    - now apply wp_ret.
    - now apply wp_bind, wp_log, wp_ret. }
  intros voteOpts w3 H3. apply wp_ret. now apply H.
Qed.

Lemma blockState_commitPool (q : Queries) (P : gmap string (gmap string Vote))
    (U V : gmap string bool) (counts : Z * Z) (entry : string * gmap string Vote)
    (w : World) :
  blockState q P U V w →
  wpx true (commitPool (Some q) counts entry) (fun _ w' => blockState q P U V w') w.
Proof.
  intros HI. unfold commitPool.
  apply wpx_bind, wpx_wp, wp_q_read.
  assert (HI1 : blockState q P U V (add_trace "GetProcess" w))
    by now apply (blockState_idx _ _ _ _ w).
  destruct (match tables_of q w with Ok t => _ | Err e => _ end) as [row | e].
  - apply wpx_bind, wpx_ProcessFromDB. intros proc w1 Hi1.
    apply wpx_bind, wpx_wp.
    destruct (tally_loop proc (map_to_list entry.2).*2
                {| addedResults := emptyResults proc;
                   subtractedResults := emptyResults proc;
                   newVotes := counts.1; overwritedVotes := counts.2 |} w1)
      as (t & w2 & Hrun & (Hi2 & _) & _).
    unfold wp at 1. rewrite Hrun.
    apply wpx_bind, wpx_wp, wp_gets.
    apply wpx_bind, wpx_wp.
    assert (HI2 : blockState q P U V w2).
    { apply (blockState_idx _ _ _ _ (add_trace "GetProcess" w)); [congruence | exact HI1]. }
    eapply wp_mono; [apply blockState_write; exact HI2 |].
    intros e w3 HI3. apply wpx_bind, wpx_wp.
    eapply wp_mono; [apply blockState_logIfErr; exact HI3 |].
    intros [] w4 HI4. exact HI4.
  - apply wpx_wp, wp_bind, wp_log, wp_ret. now apply (blockState_idx _ _ _ _ w).
Qed.

(** [idx.blockTx.Commit()] on a transaction that is there. *)
Lemma wp_tx_Commit (tx : Tx) (Q : option string → World → Prop) (w : World) :
  blockTx (idx w) = Some tx →
  (if tx_done tx then Q (Some ErrTxDone) (add_trace "COMMIT" w)
   else Q None (on_idx (set_blockTx (Some (finish tx)))
                  (set_disk (<[tx_path tx := tx_work tx]> (disk w))
                     (add_trace "COMMIT" w)))) →
  wp tx_Commit Q w.
Proof.
  intros Htx H. unfold wp, tx_Commit, bind, gets, modify, ret. rewrite Htx.
  destruct (tx_done tx); exact H.
Qed.

Lemma wpx_Commit (height : Z) (w : World) :
  ready w →
  wpx (negb (bool_decide (votePool (idx w) = ∅))) (Commit height)
      (fun e w' => blockEnded w' ∧ (e ≠ None → Z.rem height 1000 = 0%Z)) w.
Proof.
  intros [Hmu Hdb]. unfold Commit.
  set (allow := negb (bool_decide (votePool (idx w) = ∅))).
  apply wpx_withLock; [exact Hmu |].
  apply wpx_bind, wpx_wp, wp_gets.
  apply wpx_bind, wpx_wp, wp_blockTxQueries; [reflexivity | exact Hdb |].
  intros q w1 Hf1 Hin1 Hq1.
  set (P := votePool (idx w)). set (U := blockUpdateProcs (idx w)).
  set (V := blockUpdateProcVoteCounts (idx w)).
  assert (HI1 : blockState q P U V w1).
  { destruct Hf1 as (_ & _ & Hp & _ & _ & _ & Hu & Hv & _).
    split; [exact Hin1 |]. split; [exact Hq1 |]. auto. }
  apply wpx_bind, wpx_wp, wp_gets.
  apply wpx_bind.
  apply wpx_mono with (P := fun _ w' => blockState q P U V w').
  { apply wpx_wp. destruct (app_GetBlockByHeight (App w1) height).
    - apply wp_bind. eapply wp_mono; [apply blockState_write; exact HI1 |].
      intros e w2 HI2. now apply blockState_logIfErr.
    - apply wp_ret. exact HI1. }
  intros [] w2 HI2.
  apply wpx_bind.
  apply wpx_mono with (P := fun _ w' => blockState q P U V w').
  { apply wpx_forEach; [| exact HI2].
    intros pid w3 HI3. apply wpx_bind, wpx_wp.
    eapply wp_mono; [apply blockState_write; exact HI3 |].
    intros e w4 HI4. apply wpx_wp.
    destruct e; apply wp_log; now apply (blockState_idx _ _ _ _ w4). }
  intros [] w3 HI3.
  apply wpx_bind, wpx_wp, wp_modify.
  apply wpx_bind, wpx_wp, wp_gets.
  assert (HI4 : blockState q P ∅ V (on_idx (set_blockUpdateProcs ∅) w3)).
  { destruct HI3 as (Hin & Hq & Hp & _ & Hv). repeat split; try assumption.
    all: apply Hin. }
  assert (Hpool : votePool (idx (on_idx (set_blockUpdateProcs ∅) w3)) = P)
    by apply HI4.
  rewrite Hpool.
  apply wpx_bind.
  apply wpx_mono with (P := fun _ w' => blockState q P ∅ V w').
  { destruct (decide (P = ∅)) as [Hempty | Hsome].
    - assert (Hl : map_to_list P = []) by (rewrite Hempty; apply map_to_list_empty).
      rewrite Hl. exact HI4.
    - assert (Hallow : allow = true).
      { unfold allow. fold P. now rewrite bool_decide_eq_false_2. }
      rewrite Hallow. apply wpx_foldM; [| exact HI4].
      intros s x w4 HI. now apply blockState_commitPool. }
  intros counts w4 HI5.
  apply wpx_bind, wpx_wp, wp_modify.
  apply wpx_bind, wpx_wp, wp_gets.
  assert (HI6 : blockState q ∅ ∅ V (on_idx (set_votePool ∅) w4)).
  { destruct HI5 as (Hin & Hq & _ & Hu & Hv). repeat split; try assumption.
    all: apply Hin. }
  apply wpx_bind.
  apply wpx_mono with (P := fun _ w' => blockState q ∅ ∅ V w').
  { apply wpx_forEach; [| exact HI6].
    intros pid w5 HI. apply wpx_bind, wpx_wp.
    eapply wp_mono; [apply blockState_write; exact HI |].
    intros e w6 HI'. apply wpx_wp. now apply blockState_logIfErr. }
  intros [] w5 ((Hmu5 & Hdb5 & [tx Htx5]) & Hq5 & Hp5 & Hu5 & _).
  apply wpx_wp.
  apply wp_bind, wp_modify.
  apply wp_bind, wp_tx_Commit with (tx := tx); [exact Htx5 |].
  destruct Hdb5 as [[db [Hdb5 Hopen5]] _].
  assert (Hfinal : ∀ (e : option string) (w6 : World),
    readWriteDB (idx w6) = Some db → blockQueries (idx w6) = Some q →
    votePool (idx w6) = ∅ → blockUpdateProcs (idx w6) = ∅ →
    blockUpdateProcVoteCounts (idx w6) = ∅ →
    wp (logIfErr e Error "could not commit tx" ;;
        modify (on_idx (set_blockTx None)) ;;
        let* r :=
          if (Z.rem height 1000 =? 0)%Z then
            let* db := gets (fun w => readWriteDB (idx w)) in
            db_exec db "PRAGMA optimize" sql_Optimize
          else ret None in
        match r with
        | Some e => ret (Some e)
        | None =>
            when (0 <? counts.1 + counts.2)%Z (log Info "add live votes to results") ;;
            ret None
        end)
       (fun e w' => blockEnded (on_idx (set_blockMu false) w') ∧
                    (e ≠ None → Z.rem height 1000 = 0%Z)) w6).
  { intros e w6 Hrw Hq Hp Hu Hv.
    assert (Hended : ∀ w7, idx w7 = set_blockTx None (idx w6) →
              blockEnded (on_idx (set_blockMu false) w7)).
    { intros w7 Hi. unfold blockEnded, ready, dbReady. simpl. rewrite Hi. simpl.
      repeat split; try assumption.
      - exists db. auto.
      - exists q. split; [exact Hq |]. intros [? ?]. discriminate. }
    apply wp_bind, wp_logIfErr. intros w7 Hi7 _.
    apply wp_bind, wp_modify.
    apply wp_bind.
    destruct (Z.rem height 1000 =? 0)%Z eqn:Hrem.
    - apply Z.eqb_eq in Hrem.
      apply wp_bind, wp_gets. simpl. rewrite Hi7, Hrw.
      apply wp_db_exec; [simpl; reflexivity |].
      assert (Hidx : idx (add_trace "PRAGMA optimize" (on_idx (set_blockTx None) w7))
                     = set_blockTx None (idx w6)) by (simpl; now rewrite Hi7).
      destruct (open_tables false db _) as [t | err].
      + destruct (sql_Optimize t) as [t' | err].
        * apply wp_bind.
          destruct (0 <? counts.1 + counts.2)%Z; simpl;
            [apply wp_log | apply wp_ret]; apply wp_ret;
            (split; [now apply Hended | auto]).
        * apply wp_ret. split; [now apply Hended | auto].
      + apply wp_ret. split; [now apply Hended | auto].
    - apply wp_ret, wp_bind.
      destruct (0 <? counts.1 + counts.2)%Z; simpl;
        [apply wp_log | apply wp_ret]; apply wp_ret;
        (split; [apply Hended; simpl; now rewrite Hi7 | intros Hne; now destruct Hne]). }
  destruct (tx_done tx); apply Hfinal; simpl; auto.
Qed.

End CommitEnds.

Section CommitTheorems.
Context `{B : Backend}.

(** X4.  [Commit] called on an indexer that is ready either returns or,
    when ballots are pooled, panics in [DecodeJSON] on a stored tally; it
    never waits and never panics otherwise.  When it returns the block is
    over: the vote pool and the two update sets are empty, the transaction
    handle is nil, the mutex is free and the database still ready, so that
    the callbacks of the next block can run; and the error it returns is
    nil unless the height is a multiple of 1000, the only heights at which
    a failure (of PRAGMA optimize) is returned rather than logged. *)
Theorem Commit_ends_block (height : Z) (w : World) :
  ready w →
  (∃ e w', Commit height w = Returns (e, w') ∧
     votePool (idx w') = ∅ ∧ blockUpdateProcs (idx w') = ∅ ∧
     blockUpdateProcVoteCounts (idx w') = ∅ ∧ blockTx (idx w') = None ∧
     ready w' ∧ (e ≠ None → Z.rem height 1000 = 0%Z)) ∨
  (votePool (idx w) ≠ ∅ ∧ Commit height w = Panics jsonPanic).
Proof.
  intros Hr. pose proof (wpx_Commit height w Hr) as H. unfold wpx in H.
  destruct (Commit height w) as [[e w'] | msg |].
  - left. exists e, w'. split; [reflexivity |].
    destruct H as ((H1 & H2 & H3 & H4 & H5) & H6). auto 10.
  - right. destruct H as [Hallow ->]. split; [| reflexivity].
    apply negb_true_iff, bool_decide_eq_false in Hallow. exact Hallow.
  - destruct H.
Qed.

End CommitTheorems.

Section Publish.
Context `{B : Backend}.

Lemma blockTxQueries_begins (w : World) (db : SqlDB) (q : Queries) :
  blockMu (idx w) = true → blockTx (idx w) = None →
  readWriteDB (idx w) = Some db → sql_closed db = false →
  blockQueries (idx w) = Some q →
  let tx := {| tx_id := nextTx w; tx_path := sql_path db;
               tx_work := default newDB (disk w !! sql_path db);
               tx_done := false |} in
  blockTxQueries w =
  Returns (Some (WithTx q tx),
           on_idx (set_blockQueries (Some (WithTx q tx)))
             (on_idx (set_blockTx (Some tx)) (bump_nextTx (add_trace "BEGIN" w)))).
Proof.
  intros Hmu Htx Hdb Hopen Hq tx.
  unfold blockTxQueries, TryLock, bind, gets. rewrite Hmu, Htx.
  unfold db_Begin, acquire_conn, bind, gets, modify, ret. rewrite Hdb, Htx.
  simpl. rewrite open_writer by exact Hopen. simpl. rewrite Hq. reflexivity.
Qed.

Lemma blockTxQueries_there (w : World) :
  blockMu (idx w) = true → is_Some (blockTx (idx w)) →
  blockTxQueries w = Returns (blockQueries (idx w), w).
Proof.
  intros Hmu [tx Htx]. unfold blockTxQueries, TryLock, bind, gets, ret.
  now rewrite Hmu, Htx.
Qed.

(** A statement on a handle bound to the transaction in progress works on
    the tables of that transaction. *)
Lemma q_write_bound (q : Queries) (tx : Tx) (stmt : string) (f : Tables → res Tables)
    (w : World) :
  blockTx (idx w) = Some tx → tx_done tx = false → q_tx q = Some (tx_id tx) →
  q_write (Some q) stmt f w =
  match f (tx_work tx) with
  | Ok t' =>
      Returns (None,
               on_idx (set_blockTx (Some {| tx_id := tx_id tx; tx_path := tx_path tx;
                                            tx_work := t'; tx_done := false |}))
                 (add_trace stmt w))
  | Err e => Returns (Some e, add_trace stmt w)
  end.
Proof.
  intros Htx Hdone Hq. unfold q_write, bind, gets, modify, ret.
  unfold tables_of, store_tables. simpl. rewrite Hq, Htx.
  rewrite decide_True by reflexivity. rewrite Hdone.
  destruct (f (tx_work tx)); [| reflexivity].
  change (blockTx (idx (add_trace stmt w))) with (blockTx (idx w)).
  now rewrite Htx, Hdone.
Qed.

End Publish.

Section Published.
Context `{B : Backend}.

Lemma sortedKeys_empty {V} : sortedKeys (∅ : gmap string V) = [].
Proof. unfold sortedKeys. now rewrite map_to_list_empty. Qed.

(** [Commit] with nothing pending but the transaction: the block row is
    written in the transaction, and the tables of the transaction become
    the file. *)
Lemma Commit_publishes (height : Z) (w : World) (tx : Tx) (q : Queries) :
  blockMu (idx w) = false → blockTx (idx w) = Some tx → tx_done tx = false →
  blockQueries (idx w) = Some q → q_tx q = Some (tx_id tx) →
  votePool (idx w) = ∅ → blockUpdateProcs (idx w) = ∅ →
  blockUpdateProcVoteCounts (idx w) = ∅ →
  Z.rem height 1000 ≠ 0%Z →
  ∃ w', Commit height w = Returns (None, w') ∧
    disk w' = <[tx_path tx := withBlockRow (App w) height (tx_work tx)]> (disk w) ∧
    sameHandles w w'.
Proof.
  intros Hmu Htx Hdone Hq Hbound Hp Hu Hv Hrem.
  apply Z.eqb_neq in Hrem.
  set (Post := fun (e : option string) (w' : World) =>
         e = None ∧
         disk w' = <[tx_path tx := withBlockRow (App w) height (tx_work tx)]> (disk w) ∧
         sameHandles w w').
  enough (Hwp : wp (Commit height) Post w).
  { apply wp_returns in Hwp. destruct Hwp as (e & w' & Hrun & -> & H). eauto. }
  unfold Commit. apply wp_withLock; [exact Hmu |].
  apply wp_bind, wp_gets. simpl blockUpdateProcs. rewrite Hu, sortedKeys_empty.
  apply wp_bind. unfold wp at 1.
  rewrite blockTxQueries_there by (simpl; rewrite ?Htx; eauto).
  simpl blockQueries. rewrite Hq.
  apply wp_bind, wp_gets. simpl App.
  apply wp_bind.
  apply wp_mono with (P := fun _ w1 =>
    blockTx (idx w1) = Some {| tx_id := tx_id tx; tx_path := tx_path tx;
                               tx_work := withBlockRow (App w) height (tx_work tx);
                               tx_done := false |} ∧
    disk w1 = disk w ∧ sameHandles w w1 ∧
    votePool (idx w1) = ∅ ∧ blockUpdateProcVoteCounts (idx w1) = ∅).
  { unfold withBlockRow. destruct (app_GetBlockByHeight (App w) height) as [b |].
    - apply wp_bind. unfold wp at 1.
      rewrite (q_write_bound q tx) by (assumption || exact Htx).
      fold (blockParams b).
      destruct (CreateBlock (blockParams b) (tx_work tx)) as [t' | e].
      + apply wp_ret. simpl. repeat split; assumption.
      + apply wp_log. simpl. rewrite Htx. destruct tx; simpl in *. subst.
        repeat split; assumption.
    - apply wp_ret. simpl. rewrite Htx. destruct tx; simpl in *. subst.
      repeat split; assumption. }
  intros [] w1 (Htx1 & Hd1 & (Hroq1 & Hro1 & Hrw1 & Hpath1 & Happ1) & Hp1 & Hv1).
  simpl forEach. apply wp_bind, wp_ret.
  apply wp_bind, wp_modify. apply wp_bind, wp_gets. simpl votePool.
  rewrite Hp1, map_to_list_empty. simpl foldM. apply wp_bind, wp_ret.
  apply wp_bind, wp_modify. apply wp_bind, wp_gets. simpl blockUpdateProcVoteCounts.
  rewrite Hv1, map_to_list_empty. simpl forEach. apply wp_bind, wp_ret.
  apply wp_bind, wp_modify.
  apply wp_bind, wp_tx_Commit with (tx := {| tx_id := tx_id tx; tx_path := tx_path tx;
                               tx_work := withBlockRow (App w) height (tx_work tx);
                               tx_done := false |}); [exact Htx1 |].
  simpl tx_done. cbv iota.
  apply wp_bind, wp_ret. apply wp_bind, wp_modify. rewrite Hrem.
  apply wp_bind, wp_ret. apply wp_bind, wp_ret, wp_ret.
  unfold Post. simpl. rewrite Hd1. repeat split; assumption.
Qed.

(** The first write of a block, here the one of [OnSetAccount]: a
    transaction is begun on the tables of the file and the statement is
    applied in it. *)
Lemma OnSetAccount_first (address : bytes) (account : StateAccount) (w : World)
    (db : SqlDB) (q : Queries) :
  blockMu (idx w) = false → blockTx (idx w) = None →
  readWriteDB (idx w) = Some db → sql_closed db = false →
  blockQueries (idx w) = Some q →
  let tx := {| tx_id := nextTx w; tx_path := sql_path db;
               tx_work :=
                 applied (CreateAccount {| ca_Account := address;
                                           ca_Balance := int64 (sa_Balance account);
                                           ca_Nonce := sa_Nonce account |})
                         (default newDB (disk w !! sql_path db));
               tx_done := false |} in
  ∃ w1, OnSetAccount address account w = Returns (tt, w1) ∧
    blockMu (idx w1) = false ∧ blockTx (idx w1) = Some tx ∧
    blockQueries (idx w1) = Some (WithTx q tx) ∧
    disk w1 = disk w ∧ sameHandles w w1 ∧
    votePool (idx w1) = votePool (idx w) ∧
    blockUpdateProcs (idx w1) = blockUpdateProcs (idx w) ∧
    blockUpdateProcVoteCounts (idx w1) = blockUpdateProcVoteCounts (idx w).
Proof.
  intros Hmu Htx Hdb Hopen Hq tx.
  unfold OnSetAccount, withLock, bind. unfold Lock. rewrite Hmu.
  rewrite (blockTxQueries_begins _ db q) by (reflexivity || assumption).
  rewrite (q_write_bound _ {| tx_id := nextTx w; tx_path := sql_path db;
                              tx_work := default newDB (disk w !! sql_path db);
                              tx_done := false |}) by reflexivity.
  subst tx. unfold applied. simpl tx_work.
  destruct (CreateAccount _ _) as [t1 | e]; simpl;
    (eexists; split; [reflexivity |]; simpl; repeat split).
Qed.

Lemma set_account_then_commit (address : bytes) (account : StateAccount)
    (height : Z) (t1 : Tables) (w : World) :
  opened w → blockEnded w → Z.rem height 1000 ≠ 0%Z →
  CreateAccount {| ca_Account := address; ca_Balance := int64 (sa_Balance account);
                   ca_Nonce := sa_Nonce account |} (stored w) = Ok t1 →
  ∃ w', (OnSetAccount address account ;; Commit height) w = Returns (None, w') ∧
    disk w' = <[dbPath (idx w) := withBlockRow (App w) height t1]> (disk w) ∧
    sameHandles w w'.
Proof.
  intros (Hrw & Hro & Hroq & [q Hq]) (Hp & Hu & Hv & Htx & Hmu & _) Hrem Hcreate.
  destruct (OnSetAccount_first address account w _ q Hmu Htx Hrw eq_refl Hq)
    as (w1 & Hrun1 & Hmu1 & Htx1 & Hq1 & Hd1 & (Hroq1 & Hro1 & Hrw1 & Hpath1 & Happ1)
        & Hp1 & Hu1 & Hv1).
  simpl in Htx1. unfold stored in Hcreate. unfold applied in Htx1.
  rewrite Hcreate in Htx1.
  destruct (Commit_publishes height w1 _ _ Hmu1 Htx1 eq_refl Hq1 eq_refl)
    as (w2 & Hrun2 & Hd2 & (Hroq2 & Hro2 & Hrw2 & Hpath2 & Happ2)); try congruence.
  simpl in Hd2. rewrite Happ1, Hd1 in Hd2.
  exists w2. split; [| split; [exact Hd2 |]].
  - unfold bind at 1. now rewrite Hrun1.
  - repeat split; congruence.
Qed.

(** X5.  An account set in a block is listed once the block is committed
    (and, by X1, not before).  On an indexer as [startDB] leaves it, with
    nothing pending, at a height that is not a multiple of 1000: when the
    statement of [OnSetAccount] succeeds on the stored tables, [OnSetAccount]
    followed by [Commit] returns no error, the database file then holds
    the stored tables with the account and the row of the block, and
    [AccountList] answers the page that the account search gives on those
    tables. *)
Theorem account_listed_after_commit (address : bytes) (account : StateAccount)
    (height limit offset : Z) (accountID : string) (t1 : Tables) (w : World) :
  opened w → blockEnded w → Z.rem height 1000 ≠ 0%Z →
  CreateAccount {| ca_Account := address; ca_Balance := int64 (sa_Balance account);
                   ca_Nonce := sa_Nonce account |} (stored w) = Ok t1 →
  (0 <= offset)%Z → (0 < limit)%Z →
  ∃ w', (OnSetAccount address account ;; Commit height) w = Returns (None, w') ∧
    disk w' = <[dbPath (idx w) := withBlockRow (App w) height t1]> (disk w) ∧
    answer (AccountList limit offset accountID w') =
    Returns (pageOf accountOf ar_TotalCount
               (SearchAccounts {| sa_Limit := limit; sa_Offset := offset;
                                  sa_AccountIDSubstr := accountID |}
                               (withBlockRow (App w) height t1))).
Proof.
  intros Hopened Hended Hrem Hcreate Hoff Hlim.
  destruct (set_account_then_commit address account height t1 w
              Hopened Hended Hrem Hcreate) as (w2 & Hrun & Hd2 & Hroq2 & Hro2 & _).
  destruct Hopened as (_ & Hro & Hroq & _).
  exists w2. split; [exact Hrun |]. split; [exact Hd2 |].
  unfold AccountList.
  apply Z.ltb_ge in Hoff. rewrite Hoff. apply Z.leb_gt in Hlim. rewrite Hlim.
  unfold bind, gets. cbv beta iota.
  rewrite Hroq2, Hroq, q_read_Some.
  unfold tables_of. simpl. rewrite Hro2, Hro.
  unfold open_tables. simpl. rewrite Hd2, lookup_insert_eq.
  destruct (SearchAccounts _ _) as [[| row rows] | e]; reflexivity.
Qed.

End Published.

Section CommitOverwrite.
Context `{B : Backend}.

Lemma ProcessFromDB_anywhere (row : GetProcessRow) (proc : Process) (w w1 : World) :
  answer (ProcessFromDB row w) = Returns proc →
  ∃ w2, ProcessFromDB row w1 = Returns (proc, w2) ∧ quiet w1 w2.
Proof.
  unfold ProcessFromDB.
  destruct (DecodeJSON_Votes _) as [votes |]; [| discriminate].
  destruct (DecodeJSON_BigInt _) as [weight |]; [| discriminate].
  unfold bind, log, modify, ret.
  destruct (SourceNetworkId_name _), (Unmarshal_EnvelopeType _), (Unmarshal_VoteOpts _);
    simpl; intros H; inversion H; eexists; (split; [reflexivity | repeat split]).
Qed.

(** The loop body of [Commit] on a ballot with no previous ballot to be
    read. *)
Lemma commitPooledVote_new (proc : Process) (t : Tally) (v : Vote) (w : World) :
  (0 < Overwrites v)%Z →
  (∀ pv, State_Vote (App w) (ProcessID v) (Nullifier v) ≠ VoteFound pv) →
  ∃ w', commitPooledVote proc t v w =
        Returns ({| addedResults :=
                      (addLiveVote proc (VotePackage v) (Weight v) (addedResults t)).1;
                    subtractedResults := subtractedResults t;
                    newVotes := newVotes t + 1;
                    overwritedVotes := overwritedVotes t |}, w') ∧
        quiet w w' ∧
        (∀ e, (addLiveVote proc (VotePackage v) (Weight v) (addedResults t)).2 = Some e →
              (Error, "vote cannot be added to results") ∈ logs w').
Proof.
  intros Hpos Hnone. unfold commitPooledVote, addNewVote, bind, gets, ret.
  apply Z.ltb_lt in Hpos. rewrite Hpos.
  destruct (State_Vote (App w) (ProcessID v) (Nullifier v)) as [pv | | e] eqn:Hlook.
  - now destruct (Hnone pv).
  - simpl. destruct (addLiveVote _ _ _ _) as [added [e |]]; simpl;
      eexists; (split; [reflexivity | split; [repeat split |]]).
    + intros _ _. apply list_elem_of_here.
    + discriminate.
  - unfold log, modify, bind. simpl.
    destruct (addLiveVote _ _ _ _) as [added [e' |]]; simpl;
      eexists; (split; [reflexivity | split; [repeat split |]]).
    + intros _ _. apply list_elem_of_here.
    + discriminate.
Qed.

Lemma writing_idx (q : Queries) (tx : Tx) (w0 : World) (T : Tables) (w w' : World) :
  quiet w w' → writing q tx w0 T w → writing q tx w0 T w'.
Proof.
  intros (Hi & Ha & Hd & _). unfold writing. rewrite Hi, Ha, Hd. tauto.
Qed.

Lemma writing_write (q : Queries) (tx : Tx) (w0 : World) (T : Tables)
    (stmt : string) (f : Tables → res Tables) (w : World) :
  writing q tx w0 T w →
  wp (q_write (Some q) stmt f)
     (fun _ w' => writing q tx w0 (applied f T) w' ∧ logs w' = logs w ∧
                  votePool (idx w') = votePool (idx w)) w.
Proof.
  intros (Hmu & Htx & Hq & Hbound & Hd & Ha & Hv).
  unfold wp. rewrite (q_write_bound q _ stmt f w Htx eq_refl Hbound).
  unfold applied. simpl tx_work.
  destruct (f T) as [T' | e]; simpl; repeat split; assumption.
Qed.

Lemma writing_counts (q : Queries) (tx : Tx) (w0 : World) (pids : list string) :
  ∀ (T : Tables) (w : World),
    writing q tx w0 T w →
    wp (forEach pids (fun pid =>
          let* e := q_write (Some q) "ComputeProcessVoteCount"
                      (ComputeProcessVoteCount pid) in
          logIfErr e Error "could not compute process vote count"))
       (fun _ w' => writing q tx w0 (countedVotes pids T) w') w.
Proof.
  induction pids as [| pid pids IH]; intros T w HW; simpl.
  - exact HW.
  - apply wp_bind, wp_bind.
    eapply wp_mono; [apply writing_write; exact HW |].
    intros e w1 (HW1 & _).
    apply wp_mono with (P := fun _ w2 => quiet w1 w2).
    { destruct e; simpl; [apply wp_log |]; repeat split. }
    intros [] w2 Hq2.
    apply IH. now apply (writing_idx _ _ _ _ w1).
Qed.

(** [Commit] of a block whose pool holds one ballot, an overwrite with no
    previous ballot to be read: what [commitVotes] is given, and what the
    file holds in the end. *)
Lemma Commit_new_overwrite (height : Z) (v : Vote) (row : GetProcessRow) (proc : Process)
    (tx : Tx) (q : Queries) (w : World) :
  blockMu (idx w) = false → blockTx (idx w) = Some tx → tx_done tx = false →
  blockQueries (idx w) = Some q → q_tx q = Some (tx_id tx) →
  votePool (idx w) = {[ProcessID v := {[Nullifier v := v]}]} →
  blockUpdateProcs (idx w) = ∅ → Z.rem height 1000 ≠ 0%Z →
  (0 < Overwrites v)%Z →
  (∀ pv, State_Vote (App w) (ProcessID v) (Nullifier v) ≠ VoteFound pv) →
  let t0 := withBlockRow (App w) height (tx_work tx) in
  GetProcess (ProcessID v) t0 = Ok row →
  answer (ProcessFromDB row w) = Returns proc →
  ∃ w', Commit height w = Returns (None, w') ∧
    disk w' =
      <[tx_path tx :=
          countedVotes (map_to_list (blockUpdateProcVoteCounts (idx w))).*1
            (applied (commitVotes_sql (ProcessID v) (Process_Results proc)
                        (addLiveVote proc (VotePackage v) (Weight v) (emptyResults proc)).1
                        (emptyResults proc) (app_Height (App w))) t0)]> (disk w) ∧
    (Info, "add live votes to results") ∈ logs w'.
Proof.
  intros Hmu Htx Hdone Hq Hbound Hp Hu Hrem Hpos Hnone t0 Hrow Hproc.
  apply Z.eqb_neq in Hrem.
  set (T1 := applied (commitVotes_sql (ProcessID v) (Process_Results proc)
                        (addLiveVote proc (VotePackage v) (Weight v) (emptyResults proc)).1
                        (emptyResults proc) (app_Height (App w))) t0).
  set (T2 := countedVotes (map_to_list (blockUpdateProcVoteCounts (idx w))).*1 T1).
  set (Post := fun (e : option string) (w' : World) =>
         e = None ∧ disk w' = <[tx_path tx := T2]> (disk w) ∧
         (Info, "add live votes to results") ∈ logs w').
  enough (Hwp : wp (Commit height) Post w).
  { apply wp_returns in Hwp. destruct Hwp as (e & w' & Hrun & -> & H). eauto. }
  unfold Commit. apply wp_withLock; [exact Hmu |].
  apply wp_bind, wp_gets. simpl blockUpdateProcs. rewrite Hu, sortedKeys_empty.
  apply wp_bind. unfold wp at 1.
  rewrite blockTxQueries_there by (simpl; rewrite ?Htx; eauto).
  simpl blockQueries. rewrite Hq.
  apply wp_bind, wp_gets. simpl App.
  apply wp_bind.
  apply wp_mono with (P := fun _ w1 =>
    writing q tx w t0 w1 ∧ votePool (idx w1) = votePool (idx w)).
  { unfold t0, withBlockRow. destruct (app_GetBlockByHeight (App w) height) as [b |].
    - apply wp_bind.
      assert (HW : writing q tx w (tx_work tx) (on_idx (set_blockMu true) w)).
      { unfold writing. simpl. rewrite Htx. destruct tx; simpl in *. subst.
        repeat split; assumption. }
      eapply wp_mono; [apply writing_write; exact HW |].
      intros e w1 (HW1 & _ & Hp1). fold (blockParams b) in HW1.
      apply wp_mono with (P := fun _ w2 => quiet w1 w2).
      { destruct e; simpl; [apply wp_log |]; repeat split. }
      intros [] w2 Hq2. split.
      + apply (writing_idx _ _ _ _ w1); [exact Hq2 | exact HW1].
      + destruct Hq2 as (-> & _). exact Hp1.
    - apply wp_ret. split; [| reflexivity].
      unfold writing. simpl. rewrite Htx. destruct tx; simpl in *. subst.
      repeat split; assumption. }
  intros [] w1 (HW1 & Hp1).
  simpl forEach. apply wp_bind, wp_ret.
  apply wp_bind, wp_modify. apply wp_bind, wp_gets. simpl votePool.
  rewrite Hp1, Hp, map_to_list_singleton. simpl foldM.
  apply wp_bind, wp_bind.
  assert (HW2 : writing q tx w t0 (on_idx (set_blockUpdateProcs ∅) w1)).
  { destruct HW1 as (? & ? & ? & ? & ? & ? & ?). repeat split; assumption. }
  apply wp_mono with (P := fun counts w3 => counts = (1, 0)%Z ∧ writing q tx w T1 w3).
  { unfold commitPool. simpl fst. simpl snd.
    apply wp_bind, wp_q_read.
    assert (Ht : tables_of q (on_idx (set_blockUpdateProcs ∅) w1) = Ok t0).
    { destruct HW2 as (_ & Htx2 & _ & Hb2 & _).
      unfold tables_of. rewrite Hb2, Htx2. simpl.
      now rewrite decide_True by reflexivity. }
    rewrite Ht, Hrow.
    apply wp_bind.
    match goal with |- wp _ _ ?w2 => set (w2' := w2) end.
    destruct (ProcessFromDB_anywhere row proc w w2' Hproc) as (w3 & Hrun3 & Hq3).
    unfold wp at 1. rewrite Hrun3.
    assert (HW3 : writing q tx w t0 w3).
    { apply (writing_idx _ _ _ _ w2'); [exact Hq3 |].
      apply (writing_idx _ _ _ _ (on_idx (set_blockUpdateProcs ∅) w1));
        [repeat split | exact HW2]. }
    rewrite map_to_list_singleton. simpl foldM.
    apply wp_bind, wp_bind.
    assert (Hnone3 : ∀ pv, State_Vote (App w3) (ProcessID v) (Nullifier v) ≠ VoteFound pv).
    { destruct HW3 as (_ & _ & _ & _ & _ & Ha3 & _). now rewrite Ha3. }
    destruct (commitPooledVote_new proc
                {| addedResults := emptyResults proc; subtractedResults := emptyResults proc;
                   newVotes := 0; overwritedVotes := 0 |} v w3 Hpos Hnone3)
      as (w4 & Hrun4 & Hq4 & _).
    unfold wp at 1. simpl in Hrun4. rewrite Hrun4. apply wp_ret.
    assert (HW4 : writing q tx w t0 w4) by now apply (writing_idx _ _ _ _ w3).
    apply wp_bind, wp_gets. apply wp_bind.
    eapply wp_mono; [apply writing_write; exact HW4 |].
    intros e w5 (HW5 & _). simpl in HW5.
    assert (Ha4 : app_Height (App w4) = app_Height (App w)).
    { destruct HW4 as (_ & _ & _ & _ & _ & -> & _). reflexivity. }
    rewrite Ha4 in HW5. fold T1 in HW5.
    apply wp_bind.
    apply wp_mono with (P := fun _ w6 => quiet w5 w6).
    { destruct e; simpl; [apply wp_log |]; repeat split. }
    intros [] w6 Hq6. apply wp_ret. split; [reflexivity |].
    now apply (writing_idx _ _ _ _ w5). }
  intros counts w3 (-> & HW3). apply wp_ret.
  apply wp_bind, wp_modify. apply wp_bind, wp_gets.
  assert (HW4 : writing q tx w T1 (on_idx (set_votePool ∅) w3)).
  { destruct HW3 as (? & ? & ? & ? & ? & ? & ?). repeat split; assumption. }
  assert (Hv4 : blockUpdateProcVoteCounts (idx (on_idx (set_votePool ∅) w3))
                = blockUpdateProcVoteCounts (idx w)).
  { destruct HW4 as (_ & _ & _ & _ & _ & _ & Hv). rewrite Hv. reflexivity. }
  rewrite Hv4.
  apply wp_bind.
  eapply wp_mono; [apply writing_counts; exact HW4 |].
  intros [] w5 HW5. fold T2 in HW5.
  apply wp_bind, wp_modify.
  destruct HW5 as (Hmu5 & Htx5 & Hq5 & _ & Hd5 & _).
  apply wp_bind, wp_tx_Commit with (tx := {| tx_id := tx_id tx; tx_path := tx_path tx;
                                              tx_work := T2; tx_done := false |});
    [exact Htx5 |].
  simpl tx_done. cbv iota.
  apply wp_bind, wp_ret. apply wp_bind, wp_modify. rewrite Hrem.
  apply wp_bind, wp_ret. simpl fst. simpl snd.
  change (0 <? 1 + 0)%Z with true.
  apply wp_bind, wp_log, wp_ret.
  unfold Post. simpl. rewrite Hd5.
  split; [reflexivity |]. split; [reflexivity |]. apply list_elem_of_here.
Qed.

(** C3 (amended).  In the loop of [Commit], a pooled ballot with overwrite
    counter above 0 whose previous ballot the chain state does not give (a
    nil ballot, or an error) is passed to [addLiveVote] on the added
    accumulator; the subtracted accumulator is left as it is, and the
    ballot counts as a new vote, whether or not [addLiveVote] accepts it:
    an error of [addLiveVote] is logged, and the added accumulator is the
    one [addLiveVote] left.  Nothing but the log changes in the world.
    When the ballot is the only one pooled, in a block with no process to
    update, at a height that is not a multiple of 1000, and the row of its
    process decodes, [Commit] gives [commitVotes] the added accumulator
    that [addLiveVote] made of the empty one and the empty subtracted
    accumulator, the file holds the result, and the added live votes are
    logged. *)
Theorem overwrite_without_previous_is_new (proc : Process) (t : Tally) (v : Vote)
    (w : World) :
  (0 < Overwrites v)%Z →
  (∀ pv, State_Vote (App w) (ProcessID v) (Nullifier v) ≠ VoteFound pv) →
  (∃ w', commitPooledVote proc t v w =
         Returns ({| addedResults :=
                       (addLiveVote proc (VotePackage v) (Weight v) (addedResults t)).1;
                     subtractedResults := subtractedResults t;
                     newVotes := newVotes t + 1;
                     overwritedVotes := overwritedVotes t |}, w') ∧
         quiet w w' ∧
         (∀ e, (addLiveVote proc (VotePackage v) (Weight v) (addedResults t)).2 = Some e →
               (Error, "vote cannot be added to results") ∈ logs w')) ∧
  (∀ (height : Z) (row : GetProcessRow) (stored : Process) (tx : Tx) (q : Queries),
     blockMu (idx w) = false → blockTx (idx w) = Some tx → tx_done tx = false →
     blockQueries (idx w) = Some q → q_tx q = Some (tx_id tx) →
     votePool (idx w) = {[ProcessID v := {[Nullifier v := v]}]} →
     blockUpdateProcs (idx w) = ∅ → Z.rem height 1000 ≠ 0%Z →
     let t0 := withBlockRow (App w) height (tx_work tx) in
     GetProcess (ProcessID v) t0 = Ok row →
     answer (ProcessFromDB row w) = Returns stored →
     ∃ w', Commit height w = Returns (None, w') ∧
       disk w' =
         <[tx_path tx :=
             countedVotes (map_to_list (blockUpdateProcVoteCounts (idx w))).*1
               (applied (commitVotes_sql (ProcessID v) (Process_Results stored)
                           (addLiveVote stored (VotePackage v) (Weight v)
                                        (emptyResults stored)).1
                           (emptyResults stored) (app_Height (App w))) t0)]> (disk w) ∧
       (Info, "add live votes to results") ∈ logs w').
Proof.
  intros Hpos Hnone. split.
  - now apply commitPooledVote_new.
  - intros height row stored tx q Hmu Htx Hdone Hq Hbound Hp Hu Hrem t0 Hrow Hproc.
    now apply (Commit_new_overwrite height v row stored tx q w).
Qed.

End CommitOverwrite.

Section Files.
Context `{B : Backend}.

(** X6.  [copyFile]: with no file at [src] it returns the error of
    [os.Open] and the files are as they were; with [src] another file
    than [dst] it returns nil, [dst] holds what [src] holds and every
    other file is as it was; with [dst] the very file [src], the file is
    truncated by [os.Create] before it is read, and ends up empty. *)
Theorem copyFile_cases (dst src : string) (w : World) :
  (disk w !! src = None →
   ∃ e, copyFile dst src w = Returns (Some e, w)) ∧
  (∀ data, disk w !! src = Some data → dst ≠ src →
     copyFile dst src w = Returns (None, set_disk (<[dst := data]> (disk w)) w)) ∧
  (is_Some (disk w !! src) →
   copyFile src src w = Returns (None, set_disk (<[src := newDB]> (disk w)) w)).
Proof.
  unfold copyFile, bind, gets, modify, ret. split; [| split].
  - intros Hsrc. rewrite Hsrc. eauto.
  - intros data Hsrc Hne. rewrite Hsrc, lookup_insert_ne by exact Hne.
    rewrite Hsrc. now rewrite insert_insert_eq.
  - intros [data Hsrc]. rewrite Hsrc, lookup_insert_eq.
    now rewrite insert_insert_eq.
Qed.

End Files.

Section Casts.
Context `{B : Backend}.

Lemma uint64_int64 (z : Z) : (0 <= z < 2 ^ 64)%Z → uint64 (int64 z) = z.
Proof.
  intros Hz. unfold uint64, int64.
  destruct (Z_lt_ge_dec z (2 ^ 63)) as [Hlow | Hhigh].
  - rewrite (Z.mod_small (z + 2 ^ 63)) by lia.
    replace (z + 2 ^ 63 - 2 ^ 63)%Z with z by lia. apply Z.mod_small. lia.
  - replace (z + 2 ^ 63)%Z with (z - 2 ^ 63 + 1 * 2 ^ 64)%Z by lia.
    rewrite Z.mod_add by lia. rewrite (Z.mod_small (z - 2 ^ 63)) by lia.
    replace (z - 2 ^ 63 - 2 ^ 63)%Z with (z + (-1) * 2 ^ 64)%Z by lia.
    rewrite Z.mod_add by lia. apply Z.mod_small. lia.
Qed.

(** X7.  Balances, amounts and costs are unsigned 64-bit numbers in the
    chain and signed 64-bit columns in the database: the callbacks cast
    with [int64], the listings cast back with [uint64].  Whatever unsigned
    64-bit value a callback is given, also one above 2^63 - 1 that is
    stored as a negative number, the listing that reads the stored row
    returns it unchanged. *)
Theorem stored_amounts_round_trip (address : bytes) (account : StateAccount)
    (tx : TokenTransfer) (cost total height time : Z) (txType reference : string) :
  (0 <= sa_Balance account < 2 ^ 64)%Z → (0 <= sa_Nonce account < 2 ^ 32)%Z →
  (0 <= tk_Amount tx < 2 ^ 64)%Z → (0 <= cost < 2 ^ 64)%Z →
  accountOf {| ar_Account := address; ar_Balance := int64 (sa_Balance account);
               ar_Nonce := sa_Nonce account; ar_TotalCount := total |}
    = {| a_Address := address; a_Balance := sa_Balance account;
         a_Nonce := sa_Nonce account |} ∧
  tt_Amount (transferMeta {| xr_TxHash := tk_TxHash tx; xr_BlockHeight := height;
                             xr_FromAccount := tk_FromAddress tx;
                             xr_ToAccount := tk_ToAddress tx;
                             xr_Amount := int64 (tk_Amount tx);
                             xr_TransferTime := time; xr_TotalCount := total |})
    = tk_Amount tx ∧
  tf_Cost (feeMeta {| fr_FromAccount := address; fr_TxType := txType;
                      fr_Cost := int64 cost; fr_Reference := reference;
                      fr_SpendTime := time; fr_BlockHeight := height;
                      fr_TotalCount := total |})
    = cost.
Proof.
  intros Hb Hn Ha Hc. unfold accountOf, transferMeta, feeMeta. simpl.
  rewrite !uint64_int64 by assumption.
  unfold uint32. rewrite Z.mod_small by assumption. auto.
Qed.

End Casts.

Section Reads.
Context `{B : Backend}.

(** X8.  [AccountExists] does not report a failure of the storage: for an
    identifier of 40 characters, when the account search fails (the
    database is closed, the file is gone, the statement fails), the error
    is logged and the answer is false, as for an account that does not
    exist. *)
Theorem AccountExists_hides_failures (accountID e : string) (q : Queries) (w : World) :
  String.length accountID = 40 →
  readOnlyQuery (idx w) = Some q →
  match tables_of q w with
  | Ok t => SearchAccounts {| sa_Limit := 1; sa_Offset := 0;
                              sa_AccountIDSubstr := accountID |} t
  | Err e => Err e
  end = Err e →
  AccountExists accountID w =
  Returns (false, add_log Error "indexer query failed" (add_trace "SearchAccounts" w)).
Proof.
  intros Hlen Hq Hfail. unfold AccountExists, AccountList.
  apply Nat.eqb_eq in Hlen. rewrite Hlen. simpl.
  unfold bind, gets. cbv beta iota. rewrite Hq, q_read_Some, Hfail. reflexivity.
Qed.

(** X9.  The listings only read.  Called with a valid page, each of them
    sends one statement, its search, through the read-only queries, and
    returns with the world otherwise as it was: nothing is written, logged
    or locked.  Called before the database was opened (no read-only
    queries yet) they panic on the nil handle. *)
Theorem listings_only_read (limit offset : Z) (a b c : string) (w : World) :
  (0 <= offset)%Z → (0 < limit)%Z →
  (is_Some (readOnlyQuery (idx w)) →
   (∃ r, TokenFeesList limit offset a b c w =
           Returns (r, add_trace "SearchTokenFees" w)) ∧
   (∃ r, TokenTransfersList limit offset a b c w =
           Returns (r, add_trace "SearchTokenTransfers" w)) ∧
   (∃ r, AccountList limit offset a w = Returns (r, add_trace "SearchAccounts" w))) ∧
  (readOnlyQuery (idx w) = None →
   TokenFeesList limit offset a b c w = Panics nilDeref ∧
   TokenTransfersList limit offset a b c w = Panics nilDeref ∧
   AccountList limit offset a w = Panics nilDeref).
Proof.
  intros Hoff Hlim. apply Z.ltb_ge in Hoff. apply Z.leb_gt in Hlim.
  unfold TokenFeesList, TokenTransfersList, AccountList. rewrite Hoff, Hlim.
  unfold bind, gets. cbv beta iota. split.
  - intros [q Hq]. rewrite Hq, !q_read_Some.
    split; [| split];
      match goal with
      | |- context [match ?r with Ok _ => _ | Err _ => _ end] =>
          destruct r as [[| row rows] | e]
      end; eexists; reflexivity.
  - intros Hq. rewrite Hq. auto.
Qed.

End Reads.

Section Marks.
Context `{B : Backend}.

Lemma mark_runs (pid : bytes) (w : World) :
  (blockMu (idx w) = false →
   ∃ w', withLock (markUpdateProc pid) w = Returns (tt, w') ∧
     blockUpdateProcs (idx w') = <[pid := true]> (blockUpdateProcs (idx w)) ∧
     blockMu (idx w') = false ∧ blockTx (idx w') = blockTx (idx w) ∧
     blockUpdateProcVoteCounts (idx w') = blockUpdateProcVoteCounts (idx w) ∧
     votePool (idx w') = votePool (idx w) ∧
     sqlTrace w' = sqlTrace w ∧ disk w' = disk w ∧ logs w' = logs w) ∧
  (blockMu (idx w) = true → withLock (markUpdateProc pid) w = Blocks).
Proof.
  unfold withLock, markUpdateProc, Lock, Unlock, bind, modify, ret. split.
  - intros Hmu. rewrite Hmu. eexists. split; [reflexivity |]. simpl. repeat split.
  - intros Hmu. now rewrite Hmu.
Qed.

(** X10.  [OnCancel], [OnProcessKeys], [OnProcessStatusChange],
    [OnProcessDurationChange], [OnProcessResults] and [OnCensusUpdate] are
    one function: called with the mutex free each of them returns having
    marked the process for update and nothing more: no statement is sent,
    no transaction is begun, no file, log entry or other map is touched;
    the database work is left to [Commit].  Called with the mutex held
    they wait. *)
Theorem status_callbacks_only_mark (pid : bytes) (w : World) :
  OnProcessKeys pid w = OnCancel pid w ∧
  OnProcessStatusChange pid w = OnCancel pid w ∧
  OnProcessDurationChange pid w = OnCancel pid w ∧
  OnProcessResults pid w = OnCancel pid w ∧
  OnCensusUpdate pid w = OnCancel pid w ∧
  (blockMu (idx w) = false →
   ∃ w', OnCancel pid w = Returns (tt, w') ∧
     blockUpdateProcs (idx w') = <[pid := true]> (blockUpdateProcs (idx w)) ∧
     blockMu (idx w') = false ∧ blockTx (idx w') = blockTx (idx w) ∧
     blockUpdateProcVoteCounts (idx w') = blockUpdateProcVoteCounts (idx w) ∧
     votePool (idx w') = votePool (idx w) ∧
     sqlTrace w' = sqlTrace w ∧ disk w' = disk w ∧ logs w' = logs w) ∧
  (blockMu (idx w) = true → OnCancel pid w = Blocks).
Proof.
  do 5 (split; [reflexivity |]). apply mark_runs.
Qed.

(** X11.  [OnRevealKeys] marks the process for update only when the chain
    state has the process and its key index is set, and then does what
    [OnProcessKeys] does.  When the state does not give the process, or
    gives it without a key index, it logs an error and returns with
    nothing marked, and without taking the mutex: it returns even while the
    mutex is held. *)
Theorem OnRevealKeys_needs_key_index (pid : bytes) (w : World) :
  (∀ p, State_Process (App w) pid = Ok p → is_Some (sp_KeyIndex p) →
        OnRevealKeys pid w = OnProcessKeys pid w) ∧
  ((∃ e, State_Process (App w) pid = Err e) ∨
   (∃ p, State_Process (App w) pid = Ok p ∧ sp_KeyIndex p = None) →
   ∃ msg, OnRevealKeys pid w = Returns (tt, add_log Error msg w)).
Proof.
  unfold OnRevealKeys, OnProcessKeys, bind, gets. split.
  - intros p Hp [k Hk]. now rewrite Hp, Hk.
  - intros [[e He] | (p & Hp & Hk)].
    + rewrite He. eexists. reflexivity.
    + rewrite Hp, Hk. eexists. reflexivity.
Qed.

End Marks.

Section Decode.
Context `{B : Backend}.

(** X12.  [ProcessFromDB] panics exactly when the stored tally or the
    stored weight is not valid JSON.  Otherwise it returns, also for a row
    whose envelope, vote options or source network do not decode (those
    are logged): the process has the identifier of the row and the decoded
    tally and weight, and the world changes in its log only. *)
Theorem ProcessFromDB_panics_on_bad_json_only (row : GetProcessRow) (w : World) :
  (∀ votes weight,
     DecodeJSON_Votes (gp_ResultsVotes row) = Some votes →
     DecodeJSON_BigInt (gp_ResultsWeight row) = Some weight →
     ∃ p w', ProcessFromDB row w = Returns (p, w') ∧ quiet w w' ∧
       p_ID p = gp_ID row ∧ p_ResultsVotes p = votes ∧ p_ResultsWeight p = weight) ∧
  (DecodeJSON_Votes (gp_ResultsVotes row) = None ∨
   DecodeJSON_BigInt (gp_ResultsWeight row) = None →
   ProcessFromDB row w = Panics jsonPanic).
Proof.
  unfold ProcessFromDB. split.
  - intros votes weight -> ->. unfold bind, ret, log, modify.
    destruct (SourceNetworkId_name _); destruct (Unmarshal_EnvelopeType _);
      destruct (Unmarshal_VoteOpts _); simpl;
      (do 2 eexists; split; [reflexivity |]; simpl; repeat split).
  - intros [-> | ->]; [reflexivity |].
    now destruct (DecodeJSON_Votes _).
Qed.

End Decode.

Section ReindexRow.
Context `{B : Backend}.

(** X13.  In [ReindexBlocks], a block whose stored row has another
    timestamp than the block of the block store is left untouched: at a
    height where the transaction is not renewed, the block closure logs
    the error and returns without sending a statement that writes.  In
    every other case (the lookup fails, as it does when there is no stored
    row, or the stored row has the same timestamp) the block is passed to
    [CreateBlock], and a failure of that statement is only logged. *)
Theorem reindex_keeps_block_of_other_time (height : Z) (b : Block)
    (queries : option Queries) (q : Queries) (w : World) :
  readOnlyQuery (idx w) = Some q → Z.rem height 10000 ≠ 1%Z →
  let found := match tables_of q w with
               | Ok t => GetBlockByHeight (b_Height b) t
               | Err e => Err e
               end in
  (∀ row, found = Ok row → br_Time row ≠ b_Time b →
     reindexBlock height b queries w =
     Returns (queries,
              add_log Error
                "while reindexing blocks, block timestamp in db differs from blockstore, leaving untouched"
                (add_trace "GetBlockByHeight" w))) ∧
  ((∀ row, found = Ok row → br_Time row = b_Time b) →
   reindexBlock height b queries w =
   (let* e := q_write queries "CreateBlock" (CreateBlock (blockParams b)) in
    logIfErr e Error "cannot index new block" ;; ret queries)
     (add_trace "GetBlockByHeight" w)).
Proof.
  intros Hq Hrem found. apply Z.eqb_neq in Hrem.
  assert (Heq : reindexBlock height b queries w =
    match found with
    | Ok row =>
        if negb (br_Time row =? b_Time b)%Z then
          Returns (queries,
                   add_log Error
                     "while reindexing blocks, block timestamp in db differs from blockstore, leaving untouched"
                     (add_trace "GetBlockByHeight" w))
        else
          (let* e := q_write queries "CreateBlock" (CreateBlock (blockParams b)) in
           logIfErr e Error "cannot index new block" ;; ret queries)
            (add_trace "GetBlockByHeight" w)
    | Err _ =>
        (let* e := q_write queries "CreateBlock" (CreateBlock (blockParams b)) in
         logIfErr e Error "cannot index new block" ;; ret queries)
          (add_trace "GetBlockByHeight" w)
    end).
  { unfold reindexBlock. unfold bind at 1. unfold gets at 1. rewrite Hq.
    unfold bind at 1. rewrite q_read_Some. fold found. rewrite Hrem.
    unfold bind at 1. unfold ret at 1.
    destruct found as [row | e]; [| reflexivity].
    destruct (negb (br_Time row =? b_Time b)%Z); reflexivity. }
  rewrite Heq. split.
  - intros row Hrow Hne. rewrite Hrow. apply Z.eqb_neq in Hne. now rewrite Hne.
  - intros Hsame. destruct found as [row | e]; [| reflexivity].
    now rewrite (Hsame row eq_refl), Z.eqb_refl.
Qed.

End ReindexRow.

Section Start.
Context `{B : Backend}.

Lemma gooseMigrationsPending_answers (db : SqlDB) (w : World) :
  blockTx (idx w) = None → sql_closed db = false →
  ∃ w', gooseMigrationsPending (Some db) w =
          Returns (migrationsPending (default newDB (disk w !! sql_path db)), w') ∧
        quiet w w' ∧ spawned w' = spawned w ∧
        (∀ x, x ∈ logs w → x ∈ logs w').
Proof.
  intros Htx Hopen.
  unfold gooseMigrationsPending, migrationsPending, db_query, acquire_conn.
  unfold bind, gets, modify, ret, log. rewrite Htx. simpl.
  change (open_tables false db (add_trace "goose: get db version" w))
    with (open_tables false db w).
  rewrite open_writer by exact Hopen.
  destruct (goose_GetDBVersion _) as [v | e].
  - destruct (goose_CollectMigrations v) as [l | e].
    + eexists. split; [reflexivity |]. repeat split; auto.
    + destruct (e =? "no migration files found")%string.
      * eexists. split; [reflexivity |]. repeat split; auto.
      * eexists. split; [reflexivity |]. repeat split; auto.
        intros x Hx. simpl. now apply list_elem_of_further.
  - eexists. split; [reflexivity |]. repeat split; auto.
    intros x Hx. simpl. now apply list_elem_of_further.
Qed.

(** X14.  [startDB] schedules the reindex exactly when migrations are
    pending on the database file as it finds it, and it does so whether or
    not it then succeeds: called before the database is set, it returns,
    and the goroutine [ReindexBlocks(false)] has been started (and the
    notice logged) if and only if goose read a version on the file and
    collected a migration above it, also when the migrations, the analysis
    or the preparation of the statements then fail and an error is
    returned.  Once it has returned, with or without an error, the writer
    database is set, and a second call panics. *)
Theorem startDB_schedules_reindex (w : World) :
  readWriteDB (idx w) = None → blockTx (idx w) = None →
  let pending := migrationsPending (stored w) in
  ∃ e w', startDB w = Returns (e, w') ∧
    spawned w' = (if pending then "ReindexBlocks(false)" :: spawned w else spawned w) ∧
    (pending = true → reindexScheduled ∈ logs w') ∧
    startDB w' = Panics "Indexer.startDB called twice".
Proof.
  intros Hrw Htx pending.
  set (Post := fun (e : option string) (w' : World) =>
    spawned w' = (if pending then "ReindexBlocks(false)" :: spawned w else spawned w) ∧
    (pending = true → reindexScheduled ∈ logs w') ∧
    is_Some (readWriteDB (idx w'))).
  enough (Hwp : wp startDB Post w).
  { apply wp_returns in Hwp. destruct Hwp as (e & w' & Hrun & Hs & Hl & [db Hdb]).
    exists e, w'. split; [exact Hrun |]. split; [exact Hs |]. split; [exact Hl |].
    unfold startDB, bind, gets. now rewrite Hdb. }
  unfold startDB.
  apply wp_bind, wp_gets. rewrite Hrw.
  apply wp_bind, wp_gets.
  set (db := {| sql_path := dbPath (idx w); sql_closed := false |}).
  apply wp_bind, wp_modify.
  apply wp_bind.
  destruct (gooseMigrationsPending_answers db (on_idx (set_readWriteDB (Some db)) w)
              Htx eq_refl) as (w1 & Hrun1 & (Hi1 & _ & Hd1 & _) & Hs1 & Hl1).
  change (migrationsPending _) with pending in Hrun1.
  unfold wp at 1. rewrite Hrun1. simpl in Hi1, Hd1, Hs1, Hl1.
  apply wp_bind.
  apply wp_mono with (P := fun _ w2 =>
    idx w2 = idx w1 ∧ disk w2 = disk w1 ∧ spawned w2 = spawned w ∧
    (pending = true → reindexScheduled ∈ logs w2)).
  { destruct pending.
    - apply wp_log. simpl. repeat split; auto. intros _. apply list_elem_of_here.
    - apply wp_ret. repeat split; auto. discriminate. }
  intros [] w2 (Hi2 & Hd2 & Hs2 & Hl2).
  assert (Htx2 : blockTx (idx w2) = None) by (rewrite Hi2, Hi1; exact Htx).
  apply wp_bind.
  apply wp_mono with (P := fun _ w3 =>
    spawned w3 = spawned w ∧ (pending = true → reindexScheduled ∈ logs w3) ∧
    is_Some (readWriteDB (idx w3))).
  2:{ intros r w3 (Hs3 & Hl3 & Hdb3). destruct pending.
      - apply wp_bind, wp_modify, wp_ret. unfold Post. simpl.
        rewrite Hs3. auto.
      - apply wp_bind, wp_ret, wp_ret. unfold Post. auto. }
  assert (Hrw2 : is_Some (readWriteDB (idx w2))) by (rewrite Hi2, Hi1; simpl; eauto).
  apply wp_bind, wp_db_exec; [exact Htx2 |].
  destruct (open_tables false db w2) as [t0 | e0]; [| apply wp_ret; auto].
  destruct (goose_Up t0) as [t1 | e1]; [| apply wp_ret; auto].
  apply wp_bind, wp_db_exec; [exact Htx2 |].
  destruct (open_tables false db _) as [t1' | e1']; [| apply wp_ret; auto].
  destruct (sql_Analyze t1') as [t2 | e2]; [| apply wp_ret; auto].
  apply wp_bind, wp_modify.
  apply wp_bind, wp_db_query; [exact Htx2 |].
  destruct (match open_tables true db _ with Ok t => _ | Err e => _ end)
    as [[e3 |] | e3].
  - apply wp_bind, wp_modify, wp_ret; auto.
  - apply wp_bind, wp_modify.
    apply wp_bind, wp_db_query; [exact Htx2 |].
    destruct (match open_tables false db _ with Ok t => _ | Err e => _ end)
      as [[e4 |] | e4]; apply wp_bind, wp_modify, wp_ret; auto.
  - apply wp_bind, wp_modify, wp_ret; auto.
Qed.

End Start.

Section Construction.
Context `{B : Backend} `{O : OS}.

Lemma RestoreBackup_returns (path : string) (w : World) :
  readWriteDB (idx w) = None → blockTx (idx w) = None →
  ∃ e w', RestoreBackup path w = Returns (e, w').
Proof.
  intros Hrw Htx. unfold RestoreBackup, copyFile, bind, gets, modify, ret. rewrite Hrw.
  cbv beta iota.
  destruct (disk w !! path) as [data |] eqn:Hsrc; [| eauto].
  match goal with
  | |- context [?m !! path] => destruct (m !! path) as [data' |] eqn:Hread
  end.
  2:{ destruct (decide (dbPath (idx w) = path)) as [Heq | Hne].
      - rewrite Heq, lookup_insert_eq in Hread. discriminate Hread.
      - rewrite lookup_insert_ne in Hread by exact Hne. congruence. }
  cbv beta iota.
  match goal with
  | |- context [startDB ?w1] => pose proof (startDB_opens w1 Hrw Htx) as Hopen
  end.
  apply wp_returns in Hopen. destruct Hopen as (e & w' & Hrun & _).
  rewrite Hrun. destruct e; eauto.
Qed.

Lemma New_runs (app : BaseApplication) (files : gmap string Tables)
    (DataDir : string) (expect ignore : bool) :
  os_MkdirAll DataDir = None →
  let path := filepath_Join DataDir dbFilename in
  let w :=
    {| idx := {| votePool := ∅; dbPath := path; readOnlyDB := None; readWriteDB := None;
                 readOnlyQuery := None; blockMu := false; blockTx := None;
                 blockQueries := None; blockUpdateProcs := ∅;
                 blockUpdateProcVoteCounts := ∅; liveResultsProcs := ∅;
                 ignoreLiveResults := ignore |};
       App := app; disk := files;
       logs := [(Info, "indexer initialization")];
       sqlTrace := []; spawned := []; nextTx := 0 |} in
  New app files DataDir expect ignore =
  if match os_Stat files path with
     | StatNil => true
     | StatNotExist => negb expect
     | StatOther _ => false
     end
  then (let* e := startDB in
        match e with
        | Some e => ret (nilIndexer, Some e)
        | None => ret (theIndexer, None)
        end) w
  else Returns ((theIndexer, None), w).
Proof.
  intros Hmk path w. unfold New. rewrite Hmk.
  unfold bind at 1. unfold modify at 1.
  unfold bind at 1. unfold gets at 1. unfold bind at 1. unfold gets at 1.
  cbv beta iota.
  change (os_Stat (disk (on_idx _ _)) (dbPath (idx (on_idx _ _))))
    with (os_Stat files path).
  destruct (match os_Stat files path with
            | StatNil => true
            | StatNotExist => negb expect
            | StatOther _ => false
            end); reflexivity.
Qed.

Lemma startDB_keeps_path (w : World) :
  readWriteDB (idx w) = None → blockTx (idx w) = None →
  wp startDB (fun _ w' => dbPath (idx w') = dbPath (idx w)) w.
Proof.
  intros Hrw Htx. unfold startDB.
  set (db := {| sql_path := dbPath (idx w); sql_closed := false |}).
  match goal with |- wp _ ?Q _ => set (Post := Q) end.
  apply wp_bind, wp_gets. rewrite Hrw.
  apply wp_bind, wp_gets. fold db.
  apply wp_bind, wp_modify.
  apply wp_bind, wp_gooseMigrationsPending; [exact Htx |].
  intros pending w1 (Hi1 & _ & Hd1 & _). simpl in Hi1.
  apply wp_bind.
  apply wp_mono with (P := fun _ w2 => idx w2 = idx w1).
  { destruct pending; [apply wp_log | apply wp_ret]; reflexivity. }
  intros _ w2 Hi2. rewrite Hi1 in Hi2. clear w1 Hi1 Hd1.
  apply wp_bind.
  apply wp_mono with (P := Post).
  2:{ intros r w3 Hpost. destruct pending.
      - apply wp_bind, wp_modify, wp_ret. exact Hpost.
      - apply wp_bind, wp_ret, wp_ret. exact Hpost. }
  unfold Post. clear Post.
  assert (Htx2 : blockTx (idx w2) = None) by (rewrite Hi2; exact Htx).
  assert (Hp2 : dbPath (idx w2) = dbPath (idx w)) by now rewrite Hi2.
  apply wp_bind, wp_db_exec; [exact Htx2 |].
  destruct (open_tables false db w2) as [t0 | e0]; [| apply wp_ret; exact Hp2].
  destruct (goose_Up t0) as [t1 | e1]; [| apply wp_ret; exact Hp2].
  apply wp_bind, wp_db_exec; [exact Htx2 |].
  destruct (open_tables false db _) as [t1' | e1']; [| apply wp_ret; exact Hp2].
  destruct (sql_Analyze t1') as [t2 | e2]; [| apply wp_ret; exact Hp2].
  apply wp_bind, wp_modify.
  apply wp_bind, wp_db_query; [exact Htx2 |].
  destruct (match open_tables true db _ with Ok t => _ | Err e => _ end)
    as [[e3 |] | e3].
  - apply wp_bind, wp_modify, wp_ret. exact Hp2.
  - apply wp_bind, wp_modify.
    apply wp_bind, wp_db_query; [exact Htx2 |].
    destruct (match open_tables false db _ with Ok t => _ | Err e => _ end)
      as [[e4 |] | e4]; apply wp_bind, wp_modify, wp_ret; exact Hp2.
  - apply wp_bind, wp_modify, wp_ret. exact Hp2.
Qed.

(** X15.  [New] returns the indexer and a nil error, or nil and the error.
    When [os.MkdirAll] fails it returns nil and that error, and nothing
    was opened or sent.  When a restore is expected and there is no file
    at the database path, or when [os.Stat] fails otherwise, it returns
    the indexer with no database opened: [RestoreBackup] is then accepted
    (it returns, for any path), and until then a listing panics on the nil
    handle.  With a file at the database path (the flag is then ignored),
    or with no file and no restore expected, it runs [startDB]: it returns
    the indexer exactly when the migrations, the analysis and the
    preparation of the statements succeed, the writer database is then
    set on the database path and [RestoreBackup] panics; otherwise it
    returns nil and an error.  In either case the other files are as they
    were. *)
Theorem New_opens_unless_restore_expected (app : BaseApplication)
    (files : gmap string Tables) (DataDir : string) (expect ignore : bool) :
  let path := filepath_Join DataDir dbFilename in
  (∀ e, os_MkdirAll DataDir = Some e →
     ∃ w, New app files DataDir expect ignore = Returns ((nilIndexer, Some e), w) ∧
       readWriteDB (idx w) = None ∧ disk w = files ∧ sqlTrace w = []) ∧
  (os_MkdirAll DataDir = None →
   (os_Stat files path = StatNotExist ∧ expect = true ∨
    (∃ e, os_Stat files path = StatOther e) →
    ∃ w, New app files DataDir expect ignore = Returns ((theIndexer, None), w) ∧
      dbPath (idx w) = path ∧
      readWriteDB (idx w) = None ∧ disk w = files ∧ sqlTrace w = [] ∧
      (∀ backup, ∃ e w', RestoreBackup backup w = Returns (e, w')) ∧
      (∀ limit offset a, (0 <= offset)%Z → (0 < limit)%Z →
         AccountList limit offset a w = Panics nilDeref)) ∧
   (os_Stat files path = StatNil ∨ os_Stat files path = StatNotExist ∧ expect = false →
    ∃ r e w, New app files DataDir expect ignore = Returns ((r, e), w) ∧
      (∀ p, p ≠ path → disk w !! p = files !! p) ∧
      (e = None ↔
       ∃ t1 t2, goose_Up (default newDB (files !! path)) = Ok t1 ∧
                sql_Analyze t1 = Ok t2 ∧ sql_Prepare t2 = None) ∧
      (e = None →
       r = theIndexer ∧ dbPath (idx w) = path ∧
       readWriteDB (idx w) = Some {| sql_path := path; sql_closed := false |} ∧
       ∀ backup, RestoreBackup backup w =
         Panics "Indexer.RestoreBackup called after the database was initialized") ∧
      (e ≠ None → r = nilIndexer))).
Proof.
  intros path. split.
  - intros e He. unfold New. rewrite He. eexists. split; [reflexivity |]. simpl. auto.
  - intros Hmk. split.
    + intros Hskip. rewrite New_runs by exact Hmk. fold path.
      assert (Hstart : match os_Stat files path with
                       | StatNil => true
                       | StatNotExist => negb expect
                       | StatOther _ => false
                       end = false).
      { destruct Hskip as [[-> ->] | [e ->]]; reflexivity. }
      rewrite Hstart. eexists. split; [reflexivity |].
      simpl. do 4 (split; [reflexivity |]). split.
      * intros backup. now apply RestoreBackup_returns.
      * intros limit offset a Hoff Hlim. unfold AccountList.
        apply Z.ltb_ge in Hoff. apply Z.leb_gt in Hlim. now rewrite Hoff, Hlim.
    + intros Hgo. rewrite New_runs by exact Hmk. fold path.
      assert (Hstart : match os_Stat files path with
                       | StatNil => true
                       | StatNotExist => negb expect
                       | StatOther _ => false
                       end = true).
      { destruct Hgo as [-> | [-> ->]]; reflexivity. }
      rewrite Hstart.
      match goal with
      | |- context [_ ?w0 = Returns _] => set (w := w0)
      end.
      pose proof (startDB_opens w eq_refl eq_refl) as Hopen.
      apply wp_returns in Hopen.
      destruct Hopen as (e & w' & Hrun & Hdb & Hframe & Hnone & Hsome).
      assert (Hpath : dbPath (idx w') = path).
      { pose proof (startDB_keeps_path w eq_refl eq_refl) as Hk. unfold wp in Hk.
        rewrite Hrun in Hk. exact Hk. }
      unfold bind. rewrite Hrun.
      destruct e as [e |].
      * exists nilIndexer, (Some e), w'. split; [reflexivity |].
        split; [exact Hframe |]. split; [| split; [discriminate | reflexivity]].
        split; [discriminate |].
        intros (t1 & t2 & H1 & H2 & H3).
        now destruct (Hsome t1 t2 H1 H2 H3) as [He _].
      * exists theIndexer, None, w'. split; [reflexivity |].
        split; [exact Hframe |]. split; [| split; [| now intros H]].
        -- split; [intros _; now apply Hnone | reflexivity].
        -- intros _. split; [reflexivity |]. split; [exact Hpath |].
           split; [exact Hdb |].
           intros backup. unfold RestoreBackup, bind, gets. now rewrite Hdb.
Qed.

End Construction.

Section Pool.
Context `{B : Backend}.

Lemma poolAndLogOnly_refl (w : World) : poolAndLogOnly w w.
Proof. repeat split. Qed.

(** The first block of [OnVote] touches the pool and the log only; the
    pooled ballots of the other processes and nullifiers stay; without
    live results for the process the pool is as it was. *)
Lemma poolVote_touches (vote : Vote) (w : World) :
  ∃ w1, poolVote vote w = Returns (tt, w1) ∧ poolAndLogOnly w w1 ∧
    (∀ other, ProcessID other ≠ ProcessID vote ∨ Nullifier other ≠ Nullifier vote →
              pooled other w1 = pooled other w) ∧
    (ignoreLiveResults (idx w) = true ∨ ProcessID vote ∉ liveResultsProcs (idx w) →
     votePool (idx w1) = votePool (idx w)).
Proof.
  assert (Hins : ∀ (pool : gmap string (gmap string Vote)) (other : Vote),
            ProcessID other ≠ ProcessID vote ∨ Nullifier other ≠ Nullifier vote →
            <[ProcessID vote := <[Nullifier vote := vote]>
                                  (default ∅ (pool !! ProcessID vote))]> pool
              !! ProcessID other ≫= (fun m => m !! Nullifier other)
            = pool !! ProcessID other ≫= (fun m => m !! Nullifier other)).
  { intros pool other Hne.
    destruct (decide (ProcessID other = ProcessID vote)) as [Hp | Hp].
    - destruct Hne as [Hne | Hne]; [contradiction |].
      rewrite Hp, lookup_insert_eq. simpl.
      rewrite lookup_insert_ne by congruence.
      destruct (pool !! ProcessID vote); simpl; [reflexivity | apply lookup_empty].
    - now rewrite lookup_insert_ne by congruence. }
  unfold poolVote, isProcessLiveResults, pooled, bind, gets, ret.
  destruct (ignoreLiveResults (idx w)) eqn:Hign; simpl.
  { eexists. split; [reflexivity |]. split; [apply poolAndLogOnly_refl |]. auto. }
  destruct (bool_decide (ProcessID vote ∈ liveResultsProcs (idx w))) eqn:Hlive; simpl.
  2:{ eexists. split; [reflexivity |]. split; [apply poolAndLogOnly_refl |]. auto. }
  apply bool_decide_eq_true in Hlive.
  assert (Hnot : ¬ (false = true ∨ ProcessID vote ∉ liveResultsProcs (idx w))).
  { intros [H | H]; [discriminate | contradiction]. }
  unfold bind, gets, modify, ret, when, log.
  destruct (votePool (idx w) !! ProcessID vote) as [m |] eqn:Hm; simpl.
  - rewrite Hm. simpl.
    destruct (m !! Nullifier vote) as [prev |] eqn:Hprev; simpl.
    + destruct (Overwrites vote <? Overwrites prev)%Z; simpl;
        (eexists; split; [reflexivity |]; simpl; split; [repeat split |]);
        (split; [| intros H; now destruct (Hnot H)]);
        intros other Hne; rewrite <- (Hins (votePool (idx w)) other Hne), Hm;
        reflexivity.
    + eexists. split; [reflexivity |]. simpl. split; [repeat split |].
      split; [| intros H; now destruct (Hnot H)].
      intros other Hne. rewrite <- (Hins (votePool (idx w)) other Hne), Hm.
      reflexivity.
  - rewrite lookup_insert_eq. simpl. rewrite lookup_empty. simpl.
    eexists. split; [reflexivity |]. simpl. split; [repeat split |].
    split; [| intros H; now destruct (Hnot H)].
    intros other Hne. rewrite insert_insert_eq.
    rewrite <- (Hins (votePool (idx w)) other Hne), Hm. reflexivity.
Qed.

Lemma ready_poolAndLogOnly (w w' : World) : poolAndLogOnly w w' → ready w → ready w'.
Proof.
  intros ((_ & _ & Hrw & _) & (Hmu & Htx & Hq & _) & _) [H1 H2].
  unfold ready, dbReady in *. now rewrite Hmu, Hrw, Hq, Htx.
Qed.

(** [OnVote] on an indexer that is ready. *)
Lemma wp_OnVote_pool (vote : Vote) (txIndex : Z) (w : World) :
  ready w →
  wp (OnVote vote txIndex) (fun _ w' =>
    ready w' ∧ App w' = App w ∧
    liveResultsProcs (idx w') = liveResultsProcs (idx w) ∧
    ignoreLiveResults (idx w') = ignoreLiveResults (idx w) ∧
    blockUpdateProcs (idx w') = blockUpdateProcs (idx w) ∧
    blockUpdateProcVoteCounts (idx w') =
      <[ProcessID vote := true]> (blockUpdateProcVoteCounts (idx w)) ∧
    (∀ other, ProcessID other ≠ ProcessID vote ∨ Nullifier other ≠ Nullifier vote →
              pooled other w' = pooled other w) ∧
    (ignoreLiveResults (idx w) = true ∨ ProcessID vote ∉ liveResultsProcs (idx w) →
     votePool (idx w') = votePool (idx w))) w.
Proof.
  intros Hr. unfold OnVote.
  destruct (poolVote_touches vote w) as (w1 & Hrun & Honly & Hothers & Hsame).
  pose proof (ready_poolAndLogOnly _ _ Honly Hr) as [Hmu1 Hdb1].
  destruct Honly as (_ & (_ & _ & _ & Hu1 & Hv1) & (Hl1 & Hi1) & (Ha1 & _)).
  apply wp_bind. unfold wp at 1. rewrite Hrun.
  apply wp_withLock; [exact Hmu1 |].
  apply wp_bind, wp_blockTxQueries; [reflexivity | exact Hdb1 |].
  intros q w2 Hf2 Hin2 Hq2.
  apply wp_bind, wp_q_write; [exact Hin2 | exact Hq2 |].
  intros e w3 Hf3 Hin3 Hq3.
  apply wp_bind, wp_logIfErr. intros w4 Hi4 Hf4.
  apply wp_modify.
  pose proof (frame_trans _ _ _ Hf2 (frame_trans _ _ _ Hf3 Hf4)) as Hf.
  destruct Hf as (_ & Ha & Hp & Hl & Hi & _ & Hu & Hv & _). simpl in *.
  split.
  { split; [reflexivity |]. destruct Hin3 as (_ & Hr3 & _).
    unfold dbReady in *. simpl. rewrite Hi4. exact Hr3. }
  split; [congruence |]. split; [congruence |]. split; [congruence |].
  split; [congruence |]. split; [now rewrite Hv, Hv1 |]. split.
  - intros other Hne. rewrite <- (Hothers other Hne). unfold pooled. simpl.
    now rewrite Hp.
  - intros Hnot. rewrite Hp. now apply Hsame.
Qed.

(** X16.  [OnVote] on an indexer that is ready returns, marks the vote
    count of the process for recomputation, and leaves every other entry
    of the vote pool as it was: the ballots pooled for other processes,
    and for other nullifiers of the same process, are the same before and
    after.  When live results are ignored, or the process has none, the
    whole pool is as it was. *)
Theorem OnVote_leaves_other_ballots (vote : Vote) (txIndex : Z) (w : World) :
  ready w →
  ∃ w', OnVote vote txIndex w = Returns (tt, w') ∧
    blockUpdateProcVoteCounts (idx w') =
      <[ProcessID vote := true]> (blockUpdateProcVoteCounts (idx w)) ∧
    (∀ other, ProcessID other ≠ ProcessID vote ∨ Nullifier other ≠ Nullifier vote →
              pooled other w' = pooled other w) ∧
    (ignoreLiveResults (idx w) = true ∨ ProcessID vote ∉ liveResultsProcs (idx w) →
     votePool (idx w') = votePool (idx w)).
Proof.
  intros Hr. pose proof (wp_OnVote_pool vote txIndex w Hr) as H.
  apply wp_returns in H.
  destruct H as ([] & w' & Hrun & _ & _ & _ & _ & _ & Hv & Hothers & Hsame).
  exists w'. auto.
Qed.

(** [OnProcess] on an indexer that is ready. *)
Lemma wp_OnProcess_live (pid : bytes) (w : World) :
  ready w →
  wp (OnProcess pid) (fun _ w' =>
    ready w' ∧ App w' = App w ∧ votePool (idx w') = votePool (idx w) ∧
    ignoreLiveResults (idx w') = ignoreLiveResults (idx w) ∧
    liveResultsProcs (idx w') =
      (if IsSynced (App w) then {[pid]} ∪ liveResultsProcs (idx w)
       else liveResultsProcs (idx w))) w.
Proof.
  intros [Hmu Hdb]. unfold OnProcess, newEmptyProcess.
  apply wp_bind, wp_withLock; [exact Hmu |].
  apply wp_bind, wp_blockTxQueries; [reflexivity | exact Hdb |].
  intros q w1 Hf1 Hin1 Hq1.
  apply wp_bind, wp_gets.
  apply wp_q_write; [exact Hin1 | exact Hq1 |].
  intros e w2 Hf2 Hin2 Hq2.
  apply wp_bind, wp_logIfErr. intros w' Hi Hf'.
  assert (Hr : ready w').
  { unfold ready, dbReady. rewrite Hi. apply inTx_unlock. exact Hin2. }
  pose proof (frame_trans _ _ _ Hf1 Hf2) as Hf.
  destruct Hf as (_ & Ha & Hp & Hl & Hig & _).
  destruct Hf' as (_ & Ha' & Hp' & Hl' & Hig' & _). simpl in *.
  apply wp_bind, wp_gets. apply wp_bind.
  replace (App w') with (App w) by congruence.
  destruct (IsSynced (App w)); simpl.
  - unfold addProcessToLiveResults. apply wp_modify, wp_log. simpl.
    split; [exact Hr |]. repeat split; congruence.
  - apply wp_ret, wp_log. simpl. split; [exact Hr |]. repeat split; congruence.
Qed.

(** X17.  Ballots are pooled for live results only for processes created
    while the chain was synced.  On an indexer that is ready and does not
    ignore live results, [OnProcess] for a process followed by [OnVote] for
    a ballot of that process both return; if the chain was synced the
    ballot is then pooled; if it was not, and the process was not in the
    live-results set before, the pool is as it was. *)
Theorem ballots_pooled_when_synced (vote : Vote) (txIndex : Z) (w : World) :
  ready w → ignoreLiveResults (idx w) = false →
  ∃ w1 w2, OnProcess (ProcessID vote) w = Returns (tt, w1) ∧
    OnVote vote txIndex w1 = Returns (tt, w2) ∧
    (IsSynced (App w) = true → pooled vote w2 = Some vote) ∧
    (IsSynced (App w) = false → ProcessID vote ∉ liveResultsProcs (idx w) →
     votePool (idx w2) = votePool (idx w)).
Proof.
  intros Hr Hign.
  pose proof (wp_OnProcess_live (ProcessID vote) w Hr) as H1.
  apply wp_returns in H1.
  destruct H1 as ([] & w1 & Hrun1 & Hr1 & Ha1 & Hp1 & Hi1 & Hl1).
  pose proof (wp_OnVote vote txIndex w1 Hr1) as H2.
  apply wp_returns in H2. destruct H2 as ([] & w2 & Hrun2 & _ & _ & Hpooled).
  pose proof (wp_OnVote_pool vote txIndex w1 Hr1) as H3.
  apply wp_returns in H3.
  destruct H3 as ([] & w2' & Hrun3 & _ & _ & _ & _ & _ & _ & _ & Hsame).
  assert (Hw : w2' = w2) by congruence. subst w2'.
  exists w1, w2. split; [exact Hrun1 |]. split; [exact Hrun2 |]. split.
  - intros Hsync. rewrite Hsync in Hl1. apply Hpooled; [congruence |].
    rewrite Hl1. apply elem_of_union_l. now apply elem_of_singleton.
  - intros Hsync Hnot. rewrite Hsync in Hl1. rewrite <- Hp1. apply Hsame.
    right. now rewrite Hl1.
Qed.

Lemma q_write_bound_trace (q : Queries) (tx : Tx) (stmt : string)
    (f : Tables → res Tables) (w : World) :
  blockTx (idx w) = Some tx → tx_done tx = false → q_tx q = Some (tx_id tx) →
  ∃ e w', q_write (Some q) stmt f w = Returns (e, w') ∧
    blockTx (idx w') = Some {| tx_id := tx_id tx; tx_path := tx_path tx;
                               tx_work := applied f (tx_work tx); tx_done := false |} ∧
    sqlTrace w' = stmt :: sqlTrace w ∧ disk w' = disk w ∧ logs w' = logs w ∧
    blockUpdateProcVoteCounts (idx w') = blockUpdateProcVoteCounts (idx w).
Proof.
  intros Htx Hdone Hq. rewrite (q_write_bound q tx) by assumption. unfold applied.
  destruct (f (tx_work tx)); do 2 eexists; (split; [reflexivity |]); simpl.
  - repeat split.
  - rewrite Htx. destruct tx; simpl in *; subst. repeat split.
Qed.

(** X18.  [OnVote] indexes the ballot in any case, with or without live
    results.  On an indexer with the mutex free, the writer open and no
    transaction in progress, it returns having begun the block transaction
    on the tables of the file and sent one [CreateVote] in it, for the
    nullifier, process, height and counter of the ballot, at position
    [txIndex]; the weight column is the JSON of the weight, and of the
    number 1, quoted, when the ballot has no weight.  The files are as they
    were. *)
Theorem OnVote_indexes_in_any_case (vote : Vote) (txIndex : Z) (w : World)
    (db : SqlDB) (q : Queries) :
  blockMu (idx w) = false → blockTx (idx w) = None →
  readWriteDB (idx w) = Some db → sql_closed db = false →
  blockQueries (idx w) = Some q →
  ∃ w' row,
    OnVote vote txIndex w = Returns (tt, w') ∧
    blockTx (idx w') =
      Some {| tx_id := nextTx w; tx_path := sql_path db;
              tx_work := applied (CreateVote row) (default newDB (disk w !! sql_path db));
              tx_done := false |} ∧
    sqlTrace w' = "CreateVote" :: "BEGIN" :: sqlTrace w ∧ disk w' = disk w ∧
    cv_Nullifier row = Nullifier vote ∧ cv_ProcessID row = ProcessID vote ∧
    cv_BlockHeight row = Height vote ∧ cv_BlockIndex row = txIndex ∧
    cv_OverwriteCount row = Overwrites vote ∧ cv_Package row = VotePackage vote ∧
    cv_Weight row = voteWeight vote ∧
    (Weight vote = None → cv_Weight row = dquote ++ "1" ++ dquote).
Proof.
  intros Hmu Htx Hdb Hopen Hq.
  destruct (poolVote_touches vote w) as (w1 & Hrun & Honly & _).
  destruct Honly as ((_ & _ & Hdb1 & _) & (Hmu1 & Htx1 & Hq1 & _) & _
                     & (_ & Hd1 & Ht1 & _ & Hn1)).
  rewrite Hmu in Hmu1. rewrite Htx in Htx1. rewrite Hdb in Hdb1. rewrite Hq in Hq1.
  unfold OnVote. unfold bind at 1. rewrite Hrun.
  unfold withLock, bind. unfold Lock. rewrite Hmu1.
  rewrite (blockTxQueries_begins _ db q) by (reflexivity || assumption).
  match goal with
  | |- context [q_write (Some ?q') ?stmt ?f ?w2] =>
      destruct (q_write_bound_trace q'
                  {| tx_id := nextTx w1; tx_path := sql_path db;
                     tx_work := default newDB (disk w1 !! sql_path db);
                     tx_done := false |} stmt f w2 eq_refl eq_refl eq_refl)
        as (e & w3 & Hrun3 & Htx3 & Ht3 & Hd3 & _ & _)
  end.
  rewrite Hrun3. simpl in Htx3, Ht3, Hd3.
  rewrite Hn1, Hd1 in Htx3. rewrite Ht1 in Ht3. rewrite Hd1 in Hd3.
  destruct e; do 2 eexists; (split; [reflexivity |]); simpl;
    rewrite Htx3, Ht3, Hd3; unfold voteWeight; repeat split; now intros ->.
Qed.

End Pool.

Section Closing.
Context `{B : Backend}.

(** X19.  [Close] closes the two databases and nothing else: it neither
    commits nor rolls back, so the files are as they were and what a block
    in progress has written is not in them.  Called on an indexer whose
    database was never opened it panics on the nil handle.  Once it has
    returned, a listing called with a valid page returns the error of the
    closed database, and [blockTxQueries] called for a new block panics. *)
Theorem Close_only_closes (w : World) :
  (readOnlyDB (idx w) = None → Close w = Panics nilDeref) ∧
  (∀ ro rw, readOnlyDB (idx w) = Some ro → readWriteDB (idx w) = Some rw →
     ∃ w', Close w = Returns (None, w') ∧ disk w' = disk w ∧ sqlTrace w' = sqlTrace w ∧
       (readOnlyQuery (idx w) = Some {| q_ro := true; q_tx := None |} →
        ∀ limit offset a, (0 <= offset)%Z → (0 < limit)%Z →
          answer (AccountList limit offset a w') = Returns (None, 0%Z, Some ErrDBClosed)) ∧
       (blockMu (idx w) = true → blockTx (idx w) = None →
        blockTxQueries w' = Panics ErrDBClosed)).
Proof.
  unfold Close, bind, gets, modify, ret. split.
  - intros Hro. now rewrite Hro.
  - intros ro rw Hro Hrw. rewrite Hro. simpl. rewrite Hrw.
    eexists. split; [reflexivity |]. simpl. do 2 (split; [reflexivity |]). split.
    + intros Hq limit offset a Hoff Hlim. unfold AccountList.
      apply Z.ltb_ge in Hoff. apply Z.leb_gt in Hlim. rewrite Hoff, Hlim.
      unfold bind, gets. cbv beta iota. simpl readOnlyQuery. rewrite Hq, q_read_Some.
      reflexivity.
    + intros Hmu Htx. unfold blockTxQueries, TryLock, db_Begin, acquire_conn, open_tables.
      unfold bind, gets, modify, ret, panic. simpl. rewrite Hmu.
      change (blockTx (idx (on_idx _ (on_idx _ w)))) with (blockTx (idx w)).
      rewrite Htx. simpl. now rewrite Htx.
Qed.

End Closing.

Section ReindexAll.
Context `{B : Backend}.

Lemma reindexing_idx (q ro : Queries) (P : gmap string (gmap string Vote))
    (U V : gmap string bool) (w w' : World) :
  idx w' = idx w → reindexing q ro P U V w → reindexing q ro P U V w'.
Proof.
  intros Hi [HI Hro]. split; [now apply (blockState_idx _ _ _ _ w) | now rewrite Hi].
Qed.

Lemma reindexing_write (q ro : Queries) (P : gmap string (gmap string Vote))
    (U V : gmap string bool) (stmt : string) (f : Tables → res Tables) (w : World) :
  stmt ≠ "BEGIN" → reindexing q ro P U V w →
  wp (q_write (Some q) stmt f) (fun _ w' => reindexing q ro P U V w') w.
Proof.
  intros Hne [HI Hro].
  pose proof (blockState_write q P U V stmt f w HI) as H.
  apply wp_returns in H. destruct H as (e & w' & Hrun & HI').
  unfold wp. rewrite Hrun. split; [exact HI' |].
  destruct (step_q_write (R := sameHandles) (Some q) stmt f Hne w e w' Hrun) as (Hq & _).
  now rewrite Hq.
Qed.

Lemma reindexing_indexTx (q ro : Queries) (P : gmap string (gmap string Vote))
    (U V : gmap string bool) (vtx : VochainTx) (height index : Z) (w : World) :
  reindexing q ro P U V w →
  wp (indexTx vtx height index) (fun _ w' => reindexing q ro P U V w') w.
Proof.
  intros HI. unfold indexTx.
  destruct HI as [(Hin & Hq & HP) Hro].
  apply wp_bind. unfold wp at 1.
  rewrite blockTxQueries_there by apply Hin. rewrite Hq.
  apply wp_bind.
  eapply wp_mono; [apply (reindexing_write q ro P U V); [discriminate |] |].
  { split; [| exact Hro]. split; [exact Hin |]. split; assumption. }
  intros e w1 HI1. apply wp_logIfErr. intros w2 Hi2 _.
  now apply (reindexing_idx _ _ _ _ _ w1).
Qed.

Lemma reindexing_txs (q ro : Queries) (P : gmap string (gmap string Vote))
    (U V : gmap string bool) (b : Block) (txs : list bytes) :
  ∀ (index : Z) (w : World),
    reindexing q ro P U V w →
    wp (reindexTxs b index txs) (fun _ w' => reindexing q ro P U V w') w.
Proof.
  induction txs as [| tx txs IH]; intros index w HI; simpl.
  - exact HI.
  - apply wp_bind, wp_gets. rewrite (proj2 HI).
    apply wp_bind, wp_q_read.
    assert (HI1 : reindexing q ro P U V (add_trace "GetTransactionByHeightAndIndex" w))
      by now apply (reindexing_idx _ _ _ _ _ w).
    assert (Hgo : wp match Tx_Unmarshal tx (b_ChainID b) with
                     | Ok vtx => indexTx vtx (uint32 (b_Height b)) (int32 index) ;;
                                 reindexTxs b (index + 1) txs
                     | Err _ => log Error "cannot unmarshal tx" ;;
                                reindexTxs b (index + 1) txs
                     end (fun _ w' => reindexing q ro P U V w')
                     (add_trace "GetTransactionByHeightAndIndex" w)).
    { destruct (Tx_Unmarshal tx (b_ChainID b)) as [vtx | e].
      - apply wp_bind. eapply wp_mono; [apply reindexing_indexTx; exact HI1 |].
        intros [] w2 HI2. now apply IH.
      - apply wp_bind, wp_log. apply IH.
        now apply (reindexing_idx _ _ _ _ _ (add_trace "GetTransactionByHeightAndIndex" w)). }
    destruct (match tables_of ro w with Ok t => _ | Err e => _ end) as [row | e];
      [| exact Hgo].
    destruct (negb (tr_Hash row =? Tx_Hash tx)%string); [| exact Hgo].
    apply wp_bind, wp_log, wp_ret.
    now apply (reindexing_idx _ _ _ _ _ (add_trace "GetTransactionByHeightAndIndex" w)).
Qed.

(** [commitBlockTx] and [blockTxQueries] again, as at the heights where
    [ReindexBlocks] renews the transaction. *)
Lemma reindexing_renew (q ro : Queries) (P : gmap string (gmap string Vote))
    (U V : gmap string bool) (w : World) :
  reindexing q ro P U V w →
  wp (commitBlockTx ;; blockTxQueries)
     (fun r w' => ∃ q', r = Some q' ∧ reindexing q' ro P U V w') w.
Proof.
  intros [((Hmu & [[db [Hdb Hopen]] _] & [tx Htx]) & Hq & HP & HU & HV) Hro].
  unfold commitBlockTx.
  assert (Hnext : ∀ w1 : World,
    blockMu (idx w1) = true → blockTx (idx w1) = None →
    readWriteDB (idx w1) = Some db → blockQueries (idx w1) = Some q →
    votePool (idx w1) = P → blockUpdateProcs (idx w1) = U →
    blockUpdateProcVoteCounts (idx w1) = V → readOnlyQuery (idx w1) = Some ro →
    wp blockTxQueries (fun r w' => ∃ q', r = Some q' ∧ reindexing q' ro P U V w') w1).
  { intros w1 Hmu1 Htx1 Hdb1 Hq1 HP1 HU1 HV1 Hro1. unfold wp.
    rewrite (blockTxQueries_begins w1 db q) by assumption.
    eexists. split; [reflexivity |]. split; [| exact Hro1].
    split; [| split; [reflexivity | auto]].
    split; [exact Hmu1 |]. split; [| simpl; eauto]. split.
    - exists db. auto.
    - eexists. split; [reflexivity |]. simpl. eauto. }
  apply wp_bind, wp_bind, wp_tx_Commit with (tx := tx); [exact Htx |].
  destruct (tx_done tx).
  - apply wp_bind, wp_log, wp_modify. now apply Hnext.
  - apply wp_bind, wp_ret, wp_modify. now apply Hnext.
Qed.

Lemma reindexing_block (q ro : Queries) (P : gmap string (gmap string Vote))
    (U V : gmap string bool) (height : Z) (b : Block) (w : World) :
  reindexing q ro P U V w →
  wp (reindexBlock height b (Some q))
     (fun r w' => ∃ q', r = Some q' ∧ reindexing q' ro P U V w') w.
Proof.
  intros HI. unfold reindexBlock.
  apply wp_bind, wp_gets. rewrite (proj2 HI).
  apply wp_bind, wp_q_read.
  assert (HI1 : reindexing q ro P U V (add_trace "GetBlockByHeight" w))
    by now apply (reindexing_idx _ _ _ _ _ w).
  apply wp_bind.
  apply wp_mono with (P := fun r w' => ∃ q', r = Some q' ∧ reindexing q' ro P U V w').
  { destruct (Z.rem height 10000 =? 1)%Z.
    - apply wp_bind, wp_log. apply (reindexing_renew q).
      now apply (reindexing_idx _ _ _ _ _ (add_trace "GetBlockByHeight" w)).
    - apply wp_ret. eauto. }
  intros r w2 (q' & -> & HI2).
  assert (Hcreate : wp (let* e := q_write (Some q') "CreateBlock"
                                    (CreateBlock (blockParams b)) in
                        logIfErr e Error "cannot index new block" ;; ret (Some q'))
                       (fun r w' => ∃ q'', r = Some q'' ∧ reindexing q'' ro P U V w') w2).
  { apply wp_bind.
    eapply wp_mono; [apply (reindexing_write q' ro P U V); [discriminate | exact HI2] |].
    intros e w3 HI3. apply wp_bind, wp_logIfErr. intros w4 Hi4 _. apply wp_ret.
    exists q'. split; [reflexivity |]. now apply (reindexing_idx _ _ _ _ _ w3). }
  destruct (match tables_of ro w with Ok t => _ | Err e => _ end) as [row | e];
    [| exact Hcreate].
  destruct (negb (br_Time row =? b_Time b)%Z); [| exact Hcreate].
  apply wp_bind, wp_log, wp_ret. exists q'. split; [reflexivity |].
  now apply (reindexing_idx _ _ _ _ _ w2).
Qed.

Lemma reindexing_begin (ro : Queries) (w : World) :
  blockMu (idx w) = true → dbReady w → readOnlyQuery (idx w) = Some ro →
  wp blockTxQueries
     (fun r w' => ∃ q, r = Some q ∧
        reindexing q ro (votePool (idx w)) (blockUpdateProcs (idx w))
                   (blockUpdateProcVoteCounts (idx w)) w') w.
Proof.
  intros Hmu Hdb Hro.
  assert (H : wp blockTxQueries
                (fun r w' => ∃ q, r = Some q ∧ frame w w' ∧ inTx w' ∧
                                  blockQueries (idx w') = Some q) w).
  { apply wp_blockTxQueries; [exact Hmu | exact Hdb |]. eauto. }
  apply wp_returns in H.
  destruct H as (r & w' & Hrun & q & -> & Hf & Hin & Hq).
  unfold wp. rewrite Hrun. exists q. split; [reflexivity |].
  destruct Hf as (_ & _ & Hp & _ & _ & _ & Hu & Hv & _).
  destruct (step_blockTxQueries (R := sameHandles) w (Some q) w' Hrun) as (Hroq & _).
  split; [| now rewrite Hroq].
  split; [exact Hin |]. split; [exact Hq |]. auto.
Qed.

Lemma reindexing_heights (ro : Queries) (P : gmap string (gmap string Vote))
    (U V : gmap string bool) (heights : list Z) :
  ∀ (q : Queries) (w : World),
    reindexing q ro P U V w →
    wp (reindexHeights heights (Some q))
       (fun _ w' => ∃ q', reindexing q' ro P U V w') w.
Proof.
  induction heights as [| height heights IH]; intros q w HI; simpl.
  - exists q. exact HI.
  - apply wp_bind, wp_gets.
    destruct (app_GetBlockByHeight (App w) height) as [b |]; [| now apply IH].
    apply wp_bind.
    eapply wp_mono; [apply reindexing_block; exact HI |].
    intros r w1 (q' & -> & HI1). apply wp_bind.
    eapply wp_mono; [apply reindexing_txs; exact HI1 |].
    intros ? w2 HI2. now apply IH.
Qed.

(** [ReindexBlocks] returns, and leaves the pool, the update sets and the
    database handles as they were. *)
Lemma ReindexBlocks_returns (inTest : bool) (w : World) :
  (inTest = false → IsSynced (App w) = false → ReindexBlocks inTest w = Blocks) ∧
  (inTest = true ∨ IsSynced (App w) = true →
   ready w → is_Some (readOnlyQuery (idx w)) →
   ∃ w', ReindexBlocks inTest w = Returns (tt, w') ∧ ready w' ∧
     votePool (idx w') = votePool (idx w) ∧
     blockUpdateProcs (idx w') = blockUpdateProcs (idx w) ∧
     blockUpdateProcVoteCounts (idx w') = blockUpdateProcVoteCounts (idx w) ∧
     (is_Some (app_BlockStore (App w)) → blockTx (idx w') = None) ∧
     (app_BlockStore (App w) = None → disk w' = disk w ∧ sqlTrace w' = sqlTrace w)).
Proof.
  split.
  - intros -> Hsync. unfold ReindexBlocks, bind, gets. now rewrite Hsync.
  - intros Hgo [Hmu Hdb] [ro Hro].
    set (Post := fun (_ : unit) (w' : World) =>
      ready w' ∧ votePool (idx w') = votePool (idx w) ∧
      blockUpdateProcs (idx w') = blockUpdateProcs (idx w) ∧
      blockUpdateProcVoteCounts (idx w') = blockUpdateProcVoteCounts (idx w) ∧
      (is_Some (app_BlockStore (App w)) → blockTx (idx w') = None) ∧
      (app_BlockStore (App w) = None → disk w' = disk w ∧ sqlTrace w' = sqlTrace w)).
    enough (Hwp : wp (ReindexBlocks inTest) Post w).
    { apply wp_returns in Hwp. destruct Hwp as ([] & w' & Hrun & H). exists w'. auto. }
    unfold ReindexBlocks. apply wp_bind, wp_gets.
    assert (Hif : negb inTest && negb (IsSynced (App w)) = false).
    { destruct Hgo as [-> | ->]; [reflexivity | apply andb_false_r]. }
    rewrite Hif. apply wp_withLock; [exact Hmu |].
    apply wp_bind, wp_gets. simpl App.
    destruct (app_BlockStore (App w)) as [store |].
    2:{ apply wp_ret. unfold Post. simpl.
        split; [split; [reflexivity | exact Hdb] |]. repeat split; auto.
        intros [? ?]. discriminate. }
    apply wp_bind. unfold Indexer_CountBlocks. apply wp_bind, wp_gets.
    simpl readOnlyQuery. rewrite Hro. apply wp_q_read.
    apply wp_bind, wp_logIfErr. intros w1 Hi1 _.
    apply wp_bind, wp_log.
    assert (Hdb2 : dbReady (add_log Info "start reindexing" w1)).
    { unfold dbReady. simpl. rewrite Hi1. exact Hdb. }
    apply wp_bind.
    eapply wp_mono;
      [apply (reindexing_begin ro); [simpl; now rewrite Hi1 | exact Hdb2 |
                                      simpl; now rewrite Hi1] |].
    intros r w3 (q & -> & HI3). simpl in HI3. rewrite Hi1 in HI3. simpl in HI3.
    apply wp_bind.
    eapply wp_mono; [apply reindexing_heights; exact HI3 |].
    intros [] w4 (q' & ((Hmu4 & [[db [Hdb4 Hopen4]] _] & [tx Htx4]) & Hq4 & HP4 & HU4 & HV4)
                  & Hro4).
    unfold commitBlockTx.
    assert (Hend : ∀ w5 : World, idx w5 = set_blockTx None (idx w4) →
              Post tt (on_idx (set_blockMu false)
                         (add_log Info "finished reindexing" w5))).
    { intros w5 Hi5. unfold Post, ready, dbReady. simpl. rewrite Hi5. simpl.
      split; [| split; [exact HP4 | split; [exact HU4 | split; [exact HV4 |]]]].
      - split; [reflexivity |]. split.
        + exists db. auto.
        + exists q'. split; [exact Hq4 |]. intros [? ?]. discriminate.
      - split; [reflexivity |]. discriminate. }
    apply wp_bind, wp_bind, wp_bind, wp_tx_Commit with (tx := tx); [exact Htx4 |].
    destruct (tx_done tx).
    + apply wp_log, wp_modify, wp_log. now apply Hend.
    + apply wp_ret, wp_modify, wp_log. now apply Hend.
Qed.

Lemma wp_and {A} (m : M A) (Q1 Q2 : A → World → Prop) (w : World) :
  wp m Q1 w → wp m Q2 w → wp m (fun a w' => Q1 a w' ∧ Q2 a w') w.
Proof. unfold wp. destruct (m w) as [[a w'] | |]; tauto. Qed.

Lemma commits_same (w w' : World) : sqlTrace w' = sqlTrace w → commits w' = commits w.
Proof. unfold commits. now intros ->. Qed.

Lemma commits_other (stmt : string) (w w' : World) :
  stmt ≠ "COMMIT" → sqlTrace w' = stmt :: sqlTrace w → commits w' = commits w.
Proof. intros Hne Ht. unfold commits. rewrite Ht. now rewrite filter_cons_False. Qed.

Lemma commits_COMMIT (w w' : World) :
  sqlTrace w' = "COMMIT" :: sqlTrace w → commits w' = S (commits w).
Proof. intros Ht. unfold commits. rewrite Ht. now rewrite filter_cons_True. Qed.

Lemma inReindex_trace (w0 : World) (db : SqlDB) (stmt : string) (w : World) :
  stmt ≠ "BEGIN" → stmt ≠ "COMMIT" →
  inReindex w0 db w → inReindex w0 db (add_trace stmt w).
Proof.
  intros Hb Hc (Hdb & Htx & Hd & Hl & Hle & Hn).
  assert (Hbs : begins (add_trace stmt w) = begins w) by now apply (begins_other stmt).
  assert (Hcs : commits (add_trace stmt w) = commits w) by now apply (commits_other stmt).
  unfold inReindex. rewrite Hbs, Hcs. repeat split; assumption.
Qed.

Lemma inReindex_log (w0 : World) (db : SqlDB) (l : Level) (msg : string) (w : World) :
  (l, msg) ≠ commitFailed →
  inReindex w0 db w → inReindex w0 db (add_log l msg w).
Proof.
  intros Hne (Hdb & Htx & Hd & Hl & Hle & Hn).
  split; [exact Hdb |]. split; [exact Htx |]. split; [exact Hd |].
  split; [| split; [exact Hle | exact Hn]].
  simpl. intros Hin. apply elem_of_cons in Hin. destruct Hin as [Heq | Hin]; [| auto].
  now destruct Hne.
Qed.

Lemma inReindex_logIfErr (w0 : World) (db : SqlDB) (e : option string) (l : Level)
    (msg : string) (w : World) :
  (l, msg) ≠ commitFailed →
  inReindex w0 db w → wp (logIfErr e l msg) (fun _ w' => inReindex w0 db w') w.
Proof.
  intros Hne HJ. destruct e; simpl.
  - apply wp_log. now apply inReindex_log.
  - exact HJ.
Qed.

Lemma inReindex_write (w0 : World) (db : SqlDB) (q ro : Queries)
    (P : gmap string (gmap string Vote)) (U V : gmap string bool)
    (stmt : string) (f : Tables → res Tables) (w : World) :
  stmt ≠ "BEGIN" → stmt ≠ "COMMIT" →
  reindexing q ro P U V w → inReindex w0 db w →
  wp (q_write (Some q) stmt f)
     (fun _ w' => reindexing q ro P U V w' ∧ inReindex w0 db w') w.
Proof.
  intros Hb Hc HI HJ. apply wp_and; [now apply reindexing_write |].
  destruct HI as [((Hmu & [_ [q' [Hq' Hbound]]] & Hsome) & Hq & _) _].
  assert (q' = q) by congruence. subst q'.
  destruct (Hbound Hsome) as [n Hn].
  pose proof (inReindex_trace w0 db stmt w Hb Hc HJ) as HJ1.
  destruct HJ as (Hdb & (tx & Htx & Hdone & Hpath) & Hd & Hl & Hle & Hcount).
  unfold wp, q_write, bind, gets, modify, ret.
  change (tables_of q (add_trace stmt w)) with (tables_of q w).
  destruct (tables_of q w) as [t | e]; [| exact HJ1].
  destruct (f t) as [t' | e]; [| exact HJ1].
  unfold store_tables. rewrite Hn. simpl blockTx. rewrite Htx.
  destruct HJ1 as (Hdb1 & _ & Hd1 & Hl1 & Hle1 & Hcount1).
  split; [exact Hdb1 |]. split; [| repeat split; assumption].
  eexists. split; [reflexivity |]. simpl. auto.
Qed.

Lemma both_idx (w0 : World) (db : SqlDB) (q ro : Queries)
    (P : gmap string (gmap string Vote)) (U V : gmap string bool)
    (l : Level) (msg : string) (w : World) :
  (l, msg) ≠ commitFailed →
  reindexing q ro P U V w ∧ inReindex w0 db w →
  reindexing q ro P U V (add_log l msg w) ∧ inReindex w0 db (add_log l msg w).
Proof.
  intros Hne [HI HJ]. split.
  - now apply (reindexing_idx _ _ _ _ _ w).
  - now apply inReindex_log.
Qed.

Lemma both_trace (w0 : World) (db : SqlDB) (q ro : Queries)
    (P : gmap string (gmap string Vote)) (U V : gmap string bool)
    (stmt : string) (w : World) :
  stmt ≠ "BEGIN" → stmt ≠ "COMMIT" →
  reindexing q ro P U V w ∧ inReindex w0 db w →
  reindexing q ro P U V (add_trace stmt w) ∧ inReindex w0 db (add_trace stmt w).
Proof.
  intros Hb Hc [HI HJ]. split.
  - now apply (reindexing_idx _ _ _ _ _ w).
  - now apply inReindex_trace.
Qed.

Lemma inReindex_indexTx (w0 : World) (db : SqlDB) (q ro : Queries)
    (P : gmap string (gmap string Vote)) (U V : gmap string bool)
    (vtx : VochainTx) (height index : Z) (w : World) :
  reindexing q ro P U V w ∧ inReindex w0 db w →
  wp (indexTx vtx height index)
     (fun _ w' => reindexing q ro P U V w' ∧ inReindex w0 db w') w.
Proof.
  intros [HI HJ]. unfold indexTx.
  pose proof HI as [(Hin & Hq & HP) Hro].
  apply wp_bind. unfold wp at 1.
  rewrite blockTxQueries_there by apply Hin. rewrite Hq.
  apply wp_bind.
  eapply wp_mono;
    [apply (inReindex_write w0 db q ro P U V); [discriminate | discriminate | exact HI | exact HJ] |].
  intros e w1 HK1. destruct e; simpl.
  - apply wp_log. apply both_idx; [discriminate | exact HK1].
  - exact HK1.
Qed.

Lemma inReindex_txs (w0 : World) (db : SqlDB) (q ro : Queries)
    (P : gmap string (gmap string Vote)) (U V : gmap string bool)
    (b : Block) (txs : list bytes) :
  ∀ (index : Z) (w : World),
    reindexing q ro P U V w ∧ inReindex w0 db w →
    wp (reindexTxs b index txs)
       (fun _ w' => reindexing q ro P U V w' ∧ inReindex w0 db w') w.
Proof.
  induction txs as [| tx txs IH]; intros index w HK; simpl.
  - exact HK.
  - apply wp_bind, wp_gets. rewrite (proj2 (proj1 HK)).
    apply wp_bind, wp_q_read.
    assert (HK1 : reindexing q ro P U V (add_trace "GetTransactionByHeightAndIndex" w) ∧
                  inReindex w0 db (add_trace "GetTransactionByHeightAndIndex" w))
      by (apply both_trace; [discriminate | discriminate | exact HK]).
    assert (Hgo : wp match Tx_Unmarshal tx (b_ChainID b) with
                     | Ok vtx => indexTx vtx (uint32 (b_Height b)) (int32 index) ;;
                                 reindexTxs b (index + 1) txs
                     | Err _ => log Error "cannot unmarshal tx" ;;
                                reindexTxs b (index + 1) txs
                     end
                     (fun _ w' => reindexing q ro P U V w' ∧ inReindex w0 db w')
                     (add_trace "GetTransactionByHeightAndIndex" w)).
    { destruct (Tx_Unmarshal tx (b_ChainID b)) as [vtx | e].
      - apply wp_bind. eapply wp_mono; [apply inReindex_indexTx; exact HK1 |].
        intros [] w2 HK2. now apply IH.
      - apply wp_bind, wp_log. apply IH.
        apply both_idx; [discriminate | exact HK1]. }
    destruct (match tables_of ro w with Ok t => _ | Err e => _ end) as [row | e];
      [| exact Hgo].
    destruct (negb (tr_Hash row =? Tx_Hash tx)%string); [| exact Hgo].
    apply wp_bind, wp_log, wp_ret.
    apply both_idx; [discriminate | exact HK1].
Qed.

(** [commitBlockTx] and [blockTxQueries] again, as at the heights where
    [ReindexBlocks] renews the transaction: one COMMIT that succeeds, one
    BEGIN. *)
Lemma inReindex_renew (w0 : World) (db : SqlDB) (q ro : Queries)
    (P : gmap string (gmap string Vote)) (U V : gmap string bool) (w : World) :
  reindexing q ro P U V w ∧ inReindex w0 db w →
  wp (commitBlockTx ;; blockTxQueries)
     (fun r w' => ∃ q', r = Some q' ∧ reindexing q' ro P U V w' ∧ inReindex w0 db w') w.
Proof.
  intros [HI HJ].
  assert (H1 : wp (commitBlockTx ;; blockTxQueries)
                 (fun r w' => ∃ q', r = Some q' ∧ reindexing q' ro P U V w') w)
    by now apply (reindexing_renew q).
  assert (H2 : wp (commitBlockTx ;; blockTxQueries) (fun _ w' => inReindex w0 db w') w).
  { destruct HI as [((Hmu & [[db' [Hdb' Hopen]] _] & _) & Hq & _) _].
    destruct HJ as (Hdb & (tx & Htx & Hdone & Hpath) & Hd & Hl & Hle & Hcount).
    assert (db' = db) by congruence. subst db'.
    unfold commitBlockTx.
    apply wp_bind, wp_bind, wp_tx_Commit with (tx := tx); [exact Htx |].
    rewrite Hdone. apply wp_bind, wp_ret, wp_modify.
    unfold wp. rewrite (blockTxQueries_begins _ db q) by (reflexivity || assumption).
    match goal with |- inReindex _ _ ?w2 => set (w' := w2) end.
    assert (Hdisk : disk w' = <[tx_path tx := tx_work tx]> (disk w)) by reflexivity.
    assert (Hlogs : logs w' = logs w) by reflexivity.
    assert (Htrace : sqlTrace w' = "BEGIN" :: "COMMIT" :: sqlTrace w) by reflexivity.
    assert (Hrw : readWriteDB (idx w') = readWriteDB (idx w)) by reflexivity.
    assert (Hb : begins w' = S (begins w)).
    { rewrite (begins_BEGIN (add_trace "COMMIT" w) w') by exact Htrace.
      f_equal. }
    assert (Hc : commits w' = S (commits w)).
    { rewrite (commits_other "BEGIN" (add_trace "COMMIT" w) w')
        by (discriminate || exact Htrace).
      now apply commits_COMMIT. }
    unfold inReindex. rewrite Hdisk, Hlogs, Hrw, Hb, Hc.
    split; [exact Hdb |]. split; [subst w'; simpl; eauto |].
    split.
    { intros p Hp. rewrite Hpath. rewrite lookup_insert_ne by congruence. now apply Hd. }
    split; [exact Hl |]. lia. }
  pose proof (wp_and _ _ _ _ H1 H2) as H.
  eapply wp_mono; [exact H |].
  intros r w' [(q' & -> & HI') HJ']. eauto.
Qed.

Lemma inReindex_block (w0 : World) (db : SqlDB) (q ro : Queries)
    (P : gmap string (gmap string Vote)) (U V : gmap string bool)
    (height : Z) (b : Block) (w : World) :
  reindexing q ro P U V w ∧ inReindex w0 db w →
  wp (reindexBlock height b (Some q))
     (fun r w' => ∃ q', r = Some q' ∧ reindexing q' ro P U V w' ∧ inReindex w0 db w') w.
Proof.
  intros HK. unfold reindexBlock.
  apply wp_bind, wp_gets. rewrite (proj2 (proj1 HK)).
  apply wp_bind, wp_q_read.
  assert (HK1 : reindexing q ro P U V (add_trace "GetBlockByHeight" w) ∧
                inReindex w0 db (add_trace "GetBlockByHeight" w))
    by (apply both_trace; [discriminate | discriminate | exact HK]).
  apply wp_bind.
  apply wp_mono with
    (P := fun r w' => ∃ q', r = Some q' ∧ reindexing q' ro P U V w' ∧ inReindex w0 db w').
  { destruct (Z.rem height 10000 =? 1)%Z.
    - apply wp_bind, wp_log. apply (inReindex_renew w0 db q).
      apply both_idx; [discriminate | exact HK1].
    - apply wp_ret. eauto. }
  intros r w2 (q' & -> & HI2 & HJ2).
  assert (Hcreate : wp (let* e := q_write (Some q') "CreateBlock"
                                    (CreateBlock (blockParams b)) in
                        logIfErr e Error "cannot index new block" ;; ret (Some q'))
                       (fun r w' => ∃ q'', r = Some q'' ∧ reindexing q'' ro P U V w' ∧
                                           inReindex w0 db w') w2).
  { apply wp_bind.
    eapply wp_mono;
      [apply (inReindex_write w0 db q' ro P U V);
         [discriminate | discriminate | exact HI2 | exact HJ2] |].
    intros e w3 HK3. apply wp_bind.
    apply wp_mono with (P := fun _ w' => reindexing q' ro P U V w' ∧ inReindex w0 db w').
    - destruct e; simpl; [apply wp_log; apply both_idx; [discriminate | exact HK3]
                         | exact HK3].
    - intros [] w4 HK4. apply wp_ret. exists q'. tauto. }
  destruct (match tables_of ro w with Ok t => _ | Err e => _ end) as [row | e];
    [| exact Hcreate].
  destruct (negb (br_Time row =? b_Time b)%Z); [| exact Hcreate].
  apply wp_bind, wp_log, wp_ret. exists q'. split; [reflexivity |].
  apply both_idx; [discriminate | tauto].
Qed.

Lemma inReindex_heights (w0 : World) (db : SqlDB) (ro : Queries)
    (P : gmap string (gmap string Vote)) (U V : gmap string bool) (heights : list Z) :
  ∀ (q : Queries) (w : World),
    reindexing q ro P U V w ∧ inReindex w0 db w →
    wp (reindexHeights heights (Some q))
       (fun _ w' => ∃ q', reindexing q' ro P U V w' ∧ inReindex w0 db w') w.
Proof.
  induction heights as [| height heights IH]; intros q w HK; simpl.
  - exists q. exact HK.
  - apply wp_bind, wp_gets.
    destruct (app_GetBlockByHeight (App w) height) as [b |]; [| now apply IH].
    apply wp_bind.
    eapply wp_mono; [apply inReindex_block; exact HK |].
    intros r w1 (q' & -> & HK1). apply wp_bind.
    eapply wp_mono; [apply inReindex_txs; exact HK1 |].
    intros ? w2 HK2. now apply IH.
Qed.

(** With a block store, called with no transaction in progress:
    [ReindexBlocks] commits every transaction it begins. *)
Lemma ReindexBlocks_commits (inTest : bool) (w : World) (db : SqlDB) :
  inTest = true ∨ IsSynced (App w) = true →
  ready w → is_Some (readOnlyQuery (idx w)) →
  is_Some (app_BlockStore (App w)) → blockTx (idx w) = None →
  readWriteDB (idx w) = Some db →
  wp (ReindexBlocks inTest)
     (fun _ w' =>
        (∃ rest, sqlTrace w' = "COMMIT" :: rest) ∧
        (begins w < begins w')%nat ∧
        (begins w' + commits w = commits w' + begins w)%nat ∧
        (commitFailed ∈ logs w' → commitFailed ∈ logs w) ∧
        is_Some (disk w' !! sql_path db) ∧
        (∀ p, p ≠ sql_path db → disk w' !! p = disk w !! p)) w.
Proof.
  intros Hgo [Hmu Hready] [ro Hro] [store Hstore] Htx Hdb.
  pose proof Hready as [[db' [Hdb' Hopen]] [q [Hq _]]].
  assert (db' = db) by congruence. subst db'.
  unfold ReindexBlocks. apply wp_bind, wp_gets.
  assert (Hif : negb inTest && negb (IsSynced (App w)) = false).
  { destruct Hgo as [-> | ->]; [reflexivity | apply andb_false_r]. }
  rewrite Hif. apply wp_withLock; [exact Hmu |].
  apply wp_bind, wp_gets. simpl App. rewrite Hstore.
  apply wp_bind. unfold Indexer_CountBlocks. apply wp_bind, wp_gets.
  simpl readOnlyQuery. rewrite Hro. apply wp_q_read.
  apply wp_bind.
  set (w1 := add_trace "CountBlocks" (on_idx (set_blockMu true) w)).
  apply wp_mono with (P := fun _ w2 =>
    idx w2 = idx w1 ∧ disk w2 = disk w ∧ App w2 = App w ∧
    sqlTrace w2 = "CountBlocks" :: sqlTrace w ∧
    (commitFailed ∈ logs w2 → commitFailed ∈ logs w)).
  { destruct (res_err _); simpl.
    - apply wp_log. simpl. repeat split; try reflexivity.
      intros Hin. apply elem_of_cons in Hin. destruct Hin as [Heq | Hin]; [| exact Hin].
      discriminate Heq.
    - repeat split; auto. }
  intros [] w2 (Hi2 & Hd2 & Ha2 & Ht2 & Hl2).
  apply wp_bind, wp_log.
  set (w3 := add_log Info "start reindexing" w2).
  assert (Hi3 : idx w3 = idx w1) by exact Hi2.
  apply wp_bind. unfold wp at 1.
  rewrite (blockTxQueries_begins w3 db q)
    by (try rewrite Hi3; (reflexivity || assumption)).
  match goal with
  | |- wp _ _ ?w4' => set (w4 := w4')
  end.
  assert (HI4 : reindexing
                  (WithTx q {| tx_id := nextTx w3; tx_path := sql_path db;
                               tx_work := default newDB (disk w3 !! sql_path db);
                               tx_done := false |})
                  ro (votePool (idx w)) (blockUpdateProcs (idx w))
                  (blockUpdateProcVoteCounts (idx w)) w4).
  { pose proof (reindexing_begin ro w3) as Hb. unfold wp in Hb.
    rewrite (blockTxQueries_begins w3 db q) in Hb
      by (try rewrite Hi3; (reflexivity || assumption)).
    destruct Hb as (q' & Heq & HI).
    - now rewrite Hi3.
    - unfold dbReady. rewrite Hi3. exact Hready.
    - now rewrite Hi3.
    - assert (q' = WithTx q {| tx_id := nextTx w3; tx_path := sql_path db;
                               tx_work := default newDB (disk w3 !! sql_path db);
                               tx_done := false |}) by congruence.
      subst q'. rewrite Hi3 in HI. exact HI. }
  assert (HJ4 : inReindex w db w4).
  { assert (Hrw4 : readWriteDB (idx w4) = readWriteDB (idx w3)) by reflexivity.
    assert (Hd4 : disk w4 = disk w) by exact Hd2.
    assert (Hl4 : logs w4 = (Info, "start reindexing") :: logs w2) by reflexivity.
    assert (Ht4 : sqlTrace w4 = "BEGIN" :: sqlTrace w2) by reflexivity.
    assert (Hb4 : begins w4 = S (begins w)).
    { rewrite (begins_BEGIN w2 w4) by exact Ht4. f_equal.
      now apply (begins_other "CountBlocks"). }
    assert (Hc4 : commits w4 = commits w).
    { rewrite (commits_other "BEGIN" w2 w4) by (discriminate || exact Ht4).
      now apply (commits_other "CountBlocks"). }
    unfold inReindex. rewrite Hrw4, Hd4, Hl4, Hb4, Hc4, Hi3.
    split; [exact Hdb |]. split; [subst w4; simpl; eauto |].
    split; [reflexivity |]. split; [| lia].
    intros Hin. apply elem_of_cons in Hin. destruct Hin as [Heq | Hin]; [| auto].
    discriminate Heq. }
  apply wp_bind.
  eapply wp_mono; [apply inReindex_heights; split; [exact HI4 | exact HJ4] |].
  intros [] w5 (q5 & _ & HJ5).
  destruct HJ5 as (Hdb5 & (tx & Htx5 & Hdone & Hpath) & Hd5 & Hl5 & Hle5 & Hcount5).
  unfold commitBlockTx.
  apply wp_bind, wp_bind, wp_bind, wp_tx_Commit with (tx := tx); [exact Htx5 |].
  rewrite Hdone. apply wp_ret, wp_modify, wp_log.
  match goal with
  | |- context [sqlTrace ?w6'] => set (w6 := w6')
  end.
  assert (Ht6 : sqlTrace w6 = "COMMIT" :: sqlTrace w5) by reflexivity.
  assert (Hd6 : disk w6 = <[tx_path tx := tx_work tx]> (disk w5)) by reflexivity.
  assert (Hl6 : logs w6 = (Info, "finished reindexing") :: logs w5) by reflexivity.
  assert (Hb6 : begins w6 = begins w5) by now apply (begins_other "COMMIT").
  assert (Hc6 : commits w6 = S (commits w5)) by now apply commits_COMMIT.
  rewrite Ht6, Hd6, Hl6, Hb6, Hc6.
  split; [eauto |]. split; [lia |]. split; [lia |]. split.
  { intros Hin. apply elem_of_cons in Hin. destruct Hin as [Heq | Hin]; [| auto].
    discriminate Heq. }
  split.
  - rewrite Hpath, lookup_insert_eq. eauto.
  - intros p Hp. rewrite Hpath, lookup_insert_ne by congruence. now apply Hd5.
Qed.

(** X20.  [ReindexBlocks] on a chain that is not synced waits (unless it
    is called in a test).  Otherwise, on an indexer that is ready and has
    its read-only queries, it returns, whatever the block store and the
    index hold: the loop over the heights ends, the mutex is free again
    and the database ready, and the vote pool and the two update sets are
    as they were.  Without a block store it has sent no statement and the
    files are as they were.  With a block store the transaction handle is
    nil in the end, and when no transaction was in progress at the call,
    it has committed what it wrote: it has sent at least one BEGIN and as
    many COMMITs as BEGINs, with COMMIT the last statement sent; none of
    its commits has failed (no failure of a commit is logged that was not
    logged before); the file of the writer database exists, and no other
    file has changed. *)
Theorem ReindexBlocks_returns_committed (inTest : bool) (w : World) :
  (inTest = false → IsSynced (App w) = false → ReindexBlocks inTest w = Blocks) ∧
  (inTest = true ∨ IsSynced (App w) = true →
   ready w → is_Some (readOnlyQuery (idx w)) →
   ∃ w', ReindexBlocks inTest w = Returns (tt, w') ∧ ready w' ∧
     votePool (idx w') = votePool (idx w) ∧
     blockUpdateProcs (idx w') = blockUpdateProcs (idx w) ∧
     blockUpdateProcVoteCounts (idx w') = blockUpdateProcVoteCounts (idx w) ∧
     (is_Some (app_BlockStore (App w)) → blockTx (idx w') = None) ∧
     (is_Some (app_BlockStore (App w)) → blockTx (idx w) = None →
      ∀ db, readWriteDB (idx w) = Some db →
        (∃ rest, sqlTrace w' = "COMMIT" :: rest) ∧
        (begins w < begins w')%nat ∧
        (begins w' + commits w = commits w' + begins w)%nat ∧
        (commitFailed ∈ logs w' → commitFailed ∈ logs w) ∧
        is_Some (disk w' !! sql_path db) ∧
        (∀ p, p ≠ sql_path db → disk w' !! p = disk w !! p)) ∧
     (app_BlockStore (App w) = None → disk w' = disk w ∧ sqlTrace w' = sqlTrace w)).
Proof.
  destruct (ReindexBlocks_returns inTest w) as [Hwait Hrun]. split; [exact Hwait |].
  intros Hgo Hready Hro.
  destruct (Hrun Hgo Hready Hro) as (w' & Hw' & Hr & Hp & Hu & Hv & Htx & Hnone).
  exists w'. do 6 (split; [assumption |]). split; [| exact Hnone].
  intros Hstore Htx0 db Hdb.
  pose proof (ReindexBlocks_commits inTest w db Hgo Hready Hro Hstore Htx0 Hdb) as H.
  unfold wp in H. rewrite Hw' in H. exact H.
Qed.

End ReindexAll.

Section Forgotten.
Context `{B : Backend}.

Lemma Rollback_keeps (w : World) :
  blockMu (idx w) = false →
  ∃ w', Rollback w = Returns (tt, w') ∧
    votePool (idx w') = ∅ ∧ blockUpdateProcs (idx w') = ∅ ∧
    blockUpdateProcVoteCounts (idx w') = ∅ ∧ blockTx (idx w') = None ∧
    blockMu (idx w') = false ∧ disk w' = disk w ∧ sameHandles w w' ∧
    blockQueries (idx w') = blockQueries (idx w).
Proof.
  intros Hmu.
  unfold Rollback, withLock, tx_Rollback, Lock, Unlock, bind, gets, modify, ret, logIfErr, log.
  rewrite Hmu. simpl.
  destruct (blockTx (idx w)) as [tx |] eqn:Htx; simpl.
  - rewrite Htx. destruct (tx_done tx); simpl;
      (eexists; split; [reflexivity |]; simpl; repeat split).
  - eexists. split; [reflexivity |]. simpl. repeat split. exact Htx.
Qed.

(** X21.  What a rolled-back block has written is never committed.  On an
    indexer as [startDB] leaves it, with nothing pending: any sequence of
    callbacks followed by [Rollback] returns, and when the next block then
    sets an account and is committed, the database file holds the stored
    tables with that account and the row of that block, exactly what it
    holds by X5 when the rolled-back block never happened. *)
Theorem rolled_back_block_is_forgotten (evs : list Event) (address : bytes)
    (account : StateAccount) (height : Z) (t1 : Tables) (w : World) :
  opened w → blockEnded w → Z.rem height 1000 ≠ 0%Z →
  CreateAccount {| ca_Account := address; ca_Balance := int64 (sa_Balance account);
                   ca_Nonce := sa_Nonce account |} (stored w) = Ok t1 →
  ∃ w1 w2 w',
    runEvents evs w = Returns (tt, w1) ∧ Rollback w1 = Returns (tt, w2) ∧
    (OnSetAccount address account ;; Commit height) w2 = Returns (None, w') ∧
    disk w' = <[dbPath (idx w) := withBlockRow (App w) height t1]> (disk w).
Proof.
  intros (Hrw & Hro & Hroq & _) (_ & _ & _ & _ & Hr) Hrem Hcreate.
  pose proof (wp_runEvents evs w Hr) as H.
  apply wp_returns in H.
  destruct H as ([] & w1 & Hrun1 & [Hmu1 [[db1 [Hdb1 Hopen1]] [q1 [Hq1 _]]]] & Hd1).
  destruct (preserves_runEvents sameHandles evs w tt w1 Hrun1)
    as (Hroq1 & Hro1 & Hrw1 & Hpath1 & Happ1).
  destruct (Rollback_keeps w1 Hmu1)
    as (w2 & Hrun2 & Hp2 & Hu2 & Hv2 & Htx2 & Hmu2 & Hd2
        & (Hroq2 & Hro2 & Hrw2 & Hpath2 & Happ2) & Hq2).
  assert (Hopened2 : opened w2).
  { unfold opened. rewrite Hpath2, Hpath1, Hrw2, Hrw1, Hro2, Hro1, Hroq2, Hroq1, Hq2, Hq1.
    eauto. }
  assert (Hended2 : blockEnded w2).
  { do 4 (split; [assumption |]). split; [exact Hmu2 |]. split.
    - exists db1. rewrite Hrw2. auto.
    - exists q1. rewrite Hq2. split; [exact Hq1 |]. rewrite Htx2. intros [? ?]. discriminate. }
  assert (Hstored : stored w2 = stored w).
  { unfold stored. now rewrite Hd2, Hd1, Hpath2, Hpath1. }
  rewrite <- Hstored in Hcreate.
  destruct (set_account_then_commit address account height t1 w2
              Hopened2 Hended2 Hrem Hcreate) as (w' & Hrun & Hd' & _).
  exists w1, w2, w'. split; [exact Hrun1 |]. split; [exact Hrun2 |].
  split; [exact Hrun |]. rewrite Hd', Hpath2, Hpath1, Happ2, Happ1, Hd2, Hd1. reflexivity.
Qed.

End Forgotten.

Section BootstrapLemmas.
Context `{R : Recovery}.

Lemma recovering_idx (q ro : Queries) (P : gmap string (gmap string Vote))
    (U V : gmap string bool) (L : gset string) (w w' : World) :
  idx w' = idx w → recovering q ro P U V L w → recovering q ro P U V L w'.
Proof.
  intros Hi [HI HL]. split; [now apply (reindexing_idx _ _ _ _ _ w) | now rewrite Hi].
Qed.

Lemma recovering_write (q ro : Queries) (P : gmap string (gmap string Vote))
    (U V : gmap string bool) (L : gset string) (stmt : string)
    (f : Tables → res Tables) (Q : option string → World → Prop) (w : World) :
  stmt ≠ "BEGIN" → recovering q ro P U V L w →
  (∀ e w', recovering q ro P U V L w' → Q e w') →
  wp (q_write (Some q) stmt f) Q w.
Proof.
  intros Hne [[(Hin & Hq & HP & HU & HV) Hro] HL] HQ.
  assert (H : wp (q_write (Some q) stmt f)
                 (fun _ w' => frame w w' ∧ inTx w' ∧ blockQueries (idx w') = Some q) w).
  { apply wp_q_write; [exact Hin | exact Hq |]. auto. }
  apply wp_returns in H. destruct H as (e & w' & Hrun & Hf & Hin' & Hq').
  unfold wp. rewrite Hrun. apply HQ.
  destruct Hf as (_ & _ & Hp & Hl & _ & _ & Hu & Hv & _).
  destruct (step_q_write (R := sameHandles) (Some q) stmt f Hne w e w' Hrun) as (Hroq & _).
  split; [| now rewrite Hl].
  split; [| now rewrite Hroq].
  split; [exact Hin' |]. split; [exact Hq' |].
  split; [congruence |]. split; congruence.
Qed.

Lemma wp_addStateVotes (process : Process) (votes : list StateDBVote) :
  ∀ (partialResults : Results) (Q : Results → World → Prop) (w : World),
    (∀ r w', idx w' = idx w → Q r w') →
    wp (foldM (addStateVote process) votes partialResults) Q w.
Proof.
  induction votes as [| vote votes IH]; intros partialResults Q w HQ; simpl.
  - apply wp_ret. now apply HQ.
  - apply wp_bind. unfold addStateVote at 1.
    destruct (addLiveVote _ _ _ _) as [r e].
    apply wp_bind, wp_logIfErr. intros w1 Hi1 _. apply wp_ret.
    apply IH. intros r' w2 Hi2. apply HQ. congruence.
Qed.

Lemma recovering_process (q ro : Queries) (P : gmap string (gmap string Vote))
    (U V : gmap string bool) (L : gset string) (p : bytes) (w : World) :
  ProcessInfo_reads → recovering q ro P U V L w →
  wpx true (recoverProcess (Some q) p) (fun _ w' => recovering q ro P U V L w') w.
Proof.
  intros Hinfo HI. unfold recoverProcess.
  apply wpx_bind, wpx_wp, wp_log.
  assert (HI0 : recovering q ro P U V L (add_log Debug "recovering live process" w))
    by now apply (recovering_idx _ _ _ _ _ _ w).
  apply wpx_bind.
  eapply wpx_mono.
  { apply Hinfo. simpl. rewrite (proj2 (proj1 HI)). eauto. }
  intros process w1 Hi1. simpl in Hi1.
  assert (HI1 : recovering q ro P U V L w1) by now apply (recovering_idx _ _ _ _ _ _ w).
  apply wpx_wp.
  destruct process as [process | e].
  2:{ apply wp_log. now apply (recovering_idx _ _ _ _ _ _ w1). }
  apply wp_bind.
  apply (recovering_write q ro P U V L); [discriminate | exact HI1 |].
  intros e w2 HI2.
  destruct e as [e |].
  { apply wp_log. now apply (recovering_idx _ _ _ _ _ _ w2). }
  apply wp_bind, wp_gets.
  destruct (IterateVotes (App w2) p) as [visited err].
  apply wp_bind, wp_addStateVotes. intros partialResults w3 Hi3.
  assert (HI3 : recovering q ro P U V L w3) by now apply (recovering_idx _ _ _ _ _ _ w2).
  destruct err as [e |].
  { destruct (e =? ErrEmptyTree)%string; apply wp_log;
      now apply (recovering_idx _ _ _ _ _ _ w3). }
  apply wp_bind, wp_gets. apply wp_bind.
  apply (recovering_write q ro P U V L); [discriminate | exact HI3 |].
  intros e w4 HI4.
  destruct e as [e |].
  { apply wp_log. now apply (recovering_idx _ _ _ _ _ _ w4). }
  unfold addProcessToLiveResults. apply wp_modify.
  destruct HI4 as [[(Hin & Hq & HP & HU & HV) Hro] HL].
  split; [split; [| exact Hro] |].
  - split; [exact Hin |]. split; [exact Hq |]. auto.
  - simpl. apply union_subseteq_r'. exact HL.
Qed.

Lemma recovering_begin (ro : Queries) (w : World) :
  blockMu (idx w) = true → dbReady w → readOnlyQuery (idx w) = Some ro →
  wp blockTxQueries
     (fun r w' => ∃ q, r = Some q ∧
        recovering q ro (votePool (idx w)) (blockUpdateProcs (idx w))
                   (blockUpdateProcVoteCounts (idx w)) (liveResultsProcs (idx w)) w') w.
Proof.
  intros Hmu Hdb Hro.
  assert (H : wp blockTxQueries
                (fun r w' => ∃ q, r = Some q ∧ frame w w' ∧ inTx w' ∧
                                  blockQueries (idx w') = Some q) w).
  { apply wp_blockTxQueries; [exact Hmu | exact Hdb |]. eauto. }
  apply wp_returns in H.
  destruct H as (r & w' & Hrun & q & -> & Hf & Hin & Hq).
  unfold wp. rewrite Hrun. exists q. split; [reflexivity |].
  destruct Hf as (_ & _ & Hp & Hl & _ & _ & Hu & Hv & _).
  destruct (step_blockTxQueries (R := sameHandles) w (Some q) w' Hrun) as (Hroq & _).
  split; [| now rewrite Hl].
  split; [| now rewrite Hroq].
  split; [exact Hin |]. split; [exact Hq |]. auto.
Qed.

Lemma wpx_AfterSyncBootstrap (inTest : bool) (w : World) :
  ignoreLiveResults (idx w) = false → inTest = true ∨ IsSynced (App w) = true →
  ready w → is_Some (readOnlyQuery (idx w)) → ProcessInfo_reads →
  wpx true (AfterSyncBootstrap inTest)
      (fun _ w' => ready w' ∧ votePool (idx w') = votePool (idx w) ∧
         blockUpdateProcs (idx w') = blockUpdateProcs (idx w) ∧
         blockUpdateProcVoteCounts (idx w') = blockUpdateProcVoteCounts (idx w) ∧
         liveResultsProcs (idx w) ⊆ liveResultsProcs (idx w')) w.
Proof.
  intros Hign Hgo [Hmu Hdb] [ro Hro] Hinfo. unfold AfterSyncBootstrap.
  match goal with |- wpx _ _ ?Q _ => set (Post := Q) end.
  apply wpx_bind, wpx_wp, wp_gets. rewrite Hign.
  apply wpx_bind, wpx_wp, wp_gets.
  assert (Hif : negb inTest && negb (IsSynced (App w)) = false).
  { destruct Hgo as [-> | ->]; [reflexivity | apply andb_false_r]. }
  rewrite Hif.
  apply wpx_bind, wpx_wp, wp_log.
  apply wpx_withLock; [exact Hmu |].
  apply wpx_bind, wpx_wp.
  eapply wp_mono; [apply (recovering_begin ro); [reflexivity | exact Hdb | exact Hro] |].
  intros r w1 (q & -> & HI1). simpl in HI1.
  apply wpx_bind, wpx_wp, wp_q_read.
  assert (HI2 : recovering q ro (votePool (idx w)) (blockUpdateProcs (idx w))
                  (blockUpdateProcVoteCounts (idx w)) (liveResultsProcs (idx w))
                  (add_trace "GetProcessIDsByFinalResults" w1))
    by now apply (recovering_idx _ _ _ _ _ _ w1).
  assert (Hready : ∀ w2 : World,
    recovering q ro (votePool (idx w)) (blockUpdateProcs (idx w))
               (blockUpdateProcVoteCounts (idx w)) (liveResultsProcs (idx w)) w2 →
    ∀ w3, idx w3 = idx w2 ∨ idx w3 = set_blockTx None (idx w2) →
          Post tt (on_idx (set_blockMu false) w3)).
  { intros w2 [[((_ & [[db [Hdb2 Hopen2]] [q2 [Hq2 Hb2]]] & _) & Hq' & HP & HU & HV) _] HL]
           w3 Hi3.
    unfold Post, ready, dbReady. simpl.
    destruct Hi3 as [Hi3 | Hi3]; rewrite Hi3; simpl.
    - split; [| auto]. split; [reflexivity |]. split; [eauto | eauto].
    - split; [| auto]. split; [reflexivity |]. split; [eauto |].
      exists q2. split; [exact Hq2 |]. intros [? ?]. discriminate. }
  destruct (match tables_of q w1 with Ok t => _ | Err e => _ end) as [ids | e].
  2:{ apply wpx_wp, wp_log. apply (Hready _ HI2). now left. }
  apply wpx_bind, wpx_wp, wp_log. apply wpx_bind, wpx_wp, wp_log.
  apply wpx_bind.
  apply wpx_mono with (P := fun _ w' =>
    recovering q ro (votePool (idx w)) (blockUpdateProcs (idx w))
               (blockUpdateProcVoteCounts (idx w)) (liveResultsProcs (idx w)) w').
  { apply wpx_forEach.
    - intros p w2 HI. now apply recovering_process.
    - now apply (recovering_idx _ _ _ _ _ _ (add_trace "GetProcessIDsByFinalResults" w1)). }
  intros [] w2 HI3. apply wpx_wp.
  pose proof HI3 as [[((_ & _ & [tx Htx]) & _) _] _].
  unfold commitBlockTx.
  apply wp_bind, wp_bind, wp_tx_Commit with (tx := tx); [exact Htx |].
  destruct (tx_done tx).
  - apply wp_bind, wp_log, wp_modify, wp_log. apply (Hready _ HI3). now right.
  - apply wp_bind, wp_ret, wp_modify, wp_log. apply (Hready _ HI3). now right.
Qed.

End BootstrapLemmas.

Section BootstrapTheorems.
Context `{R : Recovery}.

(** X22.  [AfterSyncBootstrap] does nothing when live results are ignored:
    it returns at once, for a chain that is synced or not, with the mutex
    free or held, and the world is as it was.  Otherwise it waits for a
    chain that is not synced (unless it is called in a test), and else, on
    an indexer that is ready, with a [ProcessInfo] that only reads, it
    returns or panics in [DecodeJSON] on a stored tally: it never waits,
    and whatever the processes, the chain state and the statements do, the
    loop over the processes ends.  When it returns, the mutex is free and
    the database ready, the vote pool and the two update sets are as they
    were, and every process that had live results still has them. *)
Theorem AfterSyncBootstrap_recounts (inTest : bool) (w : World) :
  (ignoreLiveResults (idx w) = true → AfterSyncBootstrap inTest w = Returns (tt, w)) ∧
  (ignoreLiveResults (idx w) = false → inTest = false → IsSynced (App w) = false →
   AfterSyncBootstrap inTest w = Blocks) ∧
  (ignoreLiveResults (idx w) = false → inTest = true ∨ IsSynced (App w) = true →
   ready w → is_Some (readOnlyQuery (idx w)) → ProcessInfo_reads →
   (∃ w', AfterSyncBootstrap inTest w = Returns (tt, w') ∧ ready w' ∧
      votePool (idx w') = votePool (idx w) ∧
      blockUpdateProcs (idx w') = blockUpdateProcs (idx w) ∧
      blockUpdateProcVoteCounts (idx w') = blockUpdateProcVoteCounts (idx w) ∧
      liveResultsProcs (idx w) ⊆ liveResultsProcs (idx w')) ∨
   AfterSyncBootstrap inTest w = Panics jsonPanic).
Proof.
  split; [| split].
  - intros Hign. unfold AfterSyncBootstrap, bind, gets. now rewrite Hign.
  - intros Hign -> Hsync. unfold AfterSyncBootstrap, bind, gets. now rewrite Hign, Hsync.
  - intros Hign Hgo Hr Hro Hinfo.
    pose proof (wpx_AfterSyncBootstrap inTest w Hign Hgo Hr Hro Hinfo) as H.
    unfold wpx in H. destruct (AfterSyncBootstrap inTest w) as [[[] w'] | msg |].
    + left. exists w'. split; [reflexivity | exact H].
    + right. destruct H as [_ ->]. reflexivity.
    + destruct H.
Qed.

(** X23.  When the listing of the processes without final results fails,
    [AfterSyncBootstrap] returns with the transaction it has begun still
    open: on an indexer with the mutex free, the writer open and no
    transaction in progress, it sends BEGIN and the listing, logs the
    error, and returns without COMMIT or ROLLBACK; the transaction handle
    is set and the files are as they were.  When the listing succeeds with
    no process, it commits at once: the transaction handle is nil again and
    the live-results set is as it was. *)
Theorem AfterSyncBootstrap_failed_listing (inTest : bool) (w : World)
    (db : SqlDB) (q : Queries) :
  ignoreLiveResults (idx w) = false → inTest = true ∨ IsSynced (App w) = true →
  blockMu (idx w) = false → blockTx (idx w) = None →
  readWriteDB (idx w) = Some db → sql_closed db = false →
  blockQueries (idx w) = Some q →
  let listed := GetProcessIDsByFinalResults false (default newDB (disk w !! sql_path db)) in
  (∀ e, listed = Err e →
     ∃ w', AfterSyncBootstrap inTest w = Returns (tt, w') ∧
       is_Some (blockTx (idx w')) ∧ blockMu (idx w') = false ∧
       sqlTrace w' = "GetProcessIDsByFinalResults" :: "BEGIN" :: sqlTrace w ∧
       disk w' = disk w ∧ (Error, e) ∈ logs w') ∧
  (listed = Ok [] →
     ∃ w', AfterSyncBootstrap inTest w = Returns (tt, w') ∧
       blockTx (idx w') = None ∧ blockMu (idx w') = false ∧
       sqlTrace w' = "COMMIT" :: "GetProcessIDsByFinalResults" :: "BEGIN" :: sqlTrace w ∧
       liveResultsProcs (idx w') = liveResultsProcs (idx w)).
Proof.
  intros Hign Hgo Hmu Htx Hdb Hopen Hq listed.
  assert (Hif : negb inTest && negb (IsSynced (App w)) = false).
  { destruct Hgo as [-> | ->]; [reflexivity | apply andb_false_r]. }
  assert (Hstart : ∀ Q : unit → World → Prop,
    (∀ w2, blockMu (idx w2) = true →
           blockTx (idx w2) = Some {| tx_id := nextTx w; tx_path := sql_path db;
                                      tx_work := default newDB (disk w !! sql_path db);
                                      tx_done := false |} →
           liveResultsProcs (idx w2) = liveResultsProcs (idx w) →
           sqlTrace w2 = "GetProcessIDsByFinalResults" :: "BEGIN" :: sqlTrace w →
           disk w2 = disk w →
           wp match listed with
              | Err e => log Error e
              | Ok prcIDs =>
                  log Info "recovered live results processes" ;;
                  log Info "starting live results recovery computation" ;;
                  forEach prcIDs (recoverProcess (Some (WithTx q
                    {| tx_id := nextTx w; tx_path := sql_path db;
                       tx_work := default newDB (disk w !! sql_path db);
                       tx_done := false |}))) ;;
                  commitBlockTx ;;
                  log Info "live results recovery computation finished"
              end (fun a w' => Q a (on_idx (set_blockMu false) w')) w2) →
    wp (AfterSyncBootstrap inTest) Q w).
  { intros Q HQ. unfold AfterSyncBootstrap.
    apply wp_bind, wp_gets. rewrite Hign.
    apply wp_bind, wp_gets. rewrite Hif.
    apply wp_bind, wp_log.
    apply wp_withLock; [exact Hmu |].
    apply wp_bind. unfold wp at 1.
    rewrite (blockTxQueries_begins _ db q) by (reflexivity || assumption).
    apply wp_bind, wp_q_read.
    unfold tables_of. simpl. rewrite decide_True by reflexivity.
    fold listed. now apply HQ. }
  split.
  - intros e He.
    enough (Hwp : wp (AfterSyncBootstrap inTest) (fun _ w' =>
              is_Some (blockTx (idx w')) ∧ blockMu (idx w') = false ∧
              sqlTrace w' = "GetProcessIDsByFinalResults" :: "BEGIN" :: sqlTrace w ∧
              disk w' = disk w ∧ (Error, e) ∈ logs w') w).
    { apply wp_returns in Hwp. destruct Hwp as ([] & w' & Hrun & H). eauto. }
    apply Hstart. intros w2 Hmu2 Htx2 Hl2 Ht2 Hd2. rewrite He.
    apply wp_log. simpl. rewrite Htx2. split; [eauto |]. repeat split; auto.
    apply list_elem_of_here.
  - intros Hnone.
    enough (Hwp : wp (AfterSyncBootstrap inTest) (fun _ w' =>
              blockTx (idx w') = None ∧ blockMu (idx w') = false ∧
              sqlTrace w' =
                "COMMIT" :: "GetProcessIDsByFinalResults" :: "BEGIN" :: sqlTrace w ∧
              liveResultsProcs (idx w') = liveResultsProcs (idx w)) w).
    { apply wp_returns in Hwp. destruct Hwp as ([] & w' & Hrun & H). eauto. }
    apply Hstart. intros w2 Hmu2 Htx2 Hl2 Ht2 Hd2. rewrite Hnone.
    apply wp_bind, wp_log. apply wp_bind, wp_log. simpl forEach.
    apply wp_bind, wp_ret. unfold commitBlockTx.
    apply wp_bind, wp_bind, wp_tx_Commit
      with (tx := {| tx_id := nextTx w; tx_path := sql_path db;
                     tx_work := default newDB (disk w !! sql_path db);
                     tx_done := false |}); [exact Htx2 |].
    simpl tx_done. cbv iota.
    apply wp_bind, wp_ret, wp_modify, wp_log. simpl. rewrite Ht2. auto.
Qed.

End BootstrapTheorems.

(** * The further theorems at concrete inputs *)

Lemma overwrite_without_previous_is_new_witness :
  (∃ w', commitPooledVote Demo.proc Demo.zeroTally (Demo.ballot "N9" 1 "10")
           Scenes.overwriting =
         Returns ({| addedResults :=
                       {| r_ProcessID := ""; r_Votes := [[0; 5]; [5; 0]]%Z; r_Weight := 5;
                          r_VoteOpts := Demo.opts; r_EnvelopeType := zeroEnvelope;
                          r_BlockHeight := 0 |};
                     subtractedResults := emptyResults Demo.proc;
                     newVotes := 1; overwritedVotes := 0 |}, w')) ∧
  (∃ w', Commit 3 Scenes.overwriting = Returns (None, w') ∧
         Demo.storedResults (Commit 3 Scenes.overwriting) = Some ("0,5;5,0;", "5", 1%Z) ∧
         (Info, "add live votes to results") ∈ logs w') ∧
  (∃ w', commitPooledVote Demo.proc Demo.zeroTally (Demo.ballot "N4" 1 "10") Demo.world =
         Returns ({| addedResults :=
                       {| r_ProcessID := ""; r_Votes := [[0; 5]; [5; 0]]%Z; r_Weight := 5;
                          r_VoteOpts := Demo.opts; r_EnvelopeType := zeroEnvelope;
                          r_BlockHeight := 0 |};
                     subtractedResults := emptyResults Demo.proc;
                     newVotes := 1; overwritedVotes := 0 |}, w')) ∧
  (∃ w', commitPooledVote Demo.proc Demo.zeroTally (Demo.ballot "N9" 1 "20") Demo.world =
         Returns ({| addedResults := emptyResults Demo.proc;
                     subtractedResults := emptyResults Demo.proc;
                     newVotes := 1; overwritedVotes := 0 |}, w') ∧
         (Error, "vote cannot be added to results") ∈ logs w').
Proof.
  assert (Hpos : ∀ n p, (0 < Overwrites (Demo.ballot n 1 p))%Z) by reflexivity.
  assert (Hnone : ∀ pv, State_Vote (App Scenes.overwriting) "P" "N9" ≠ VoteFound pv)
    by (intros pv; discriminate).
  assert (Hnone4 : ∀ pv, State_Vote (App Demo.world) "P" "N4" ≠ VoteFound pv)
    by (intros pv; discriminate).
  assert (Hnone9 : ∀ pv, State_Vote (App Demo.world) "P" "N9" ≠ VoteFound pv)
    by (intros pv; discriminate).
  destruct (overwrite_without_previous_is_new Demo.proc Demo.zeroTally
              (Demo.ballot "N9" 1 "10") Scenes.overwriting (Hpos _ _) Hnone)
    as [(w1 & Hrun1 & _) Hcommit].
  split; [exists w1; exact Hrun1 |].
  assert (Hrem : Z.rem 3 1000 ≠ 0%Z) by discriminate.
  pose (tx := {| tx_id := 0; tx_path := Demo.dbFile;
                 tx_work := default Demo.tables
                              (tx_work <$> blockTx (idx Scenes.overwriting));
                 tx_done := false |}).
  pose (row := {| gp_ID := "P"; gp_Status := 0; gp_HaveResults := true;
                  gp_FinalResults := false; gp_SourceNetworkID := 0;
                  gp_EnvelopePb := Spec.marshalEnvelope zeroEnvelope;
                  gp_VoteOptsPb := Spec.marshalVoteOpts Demo.opts; gp_VoteCount := 0;
                  gp_ResultsVotes := Spec.encodeVotes (Spec.zeroVotes Demo.opts);
                  gp_ResultsWeight := Spec.encodeBigInt 0; gp_ResultsBlockHeight := 0 |}).
  destruct (Hcommit 3%Z row Demo.proc tx {| q_ro := false; q_tx := Some 0%nat |})
    as (w' & Hrun & _ & Hlog); try reflexivity; try exact Hrem.
  split; [exists w'; split; [exact Hrun |]; split; [reflexivity | exact Hlog] |].
  split.
  - destruct (overwrite_without_previous_is_new Demo.proc Demo.zeroTally
                (Demo.ballot "N4" 1 "10") Demo.world (Hpos _ _) Hnone4)
      as [(w4 & Hrun4 & _) _].
    exists w4. exact Hrun4.
  - destruct (overwrite_without_previous_is_new Demo.proc Demo.zeroTally
                (Demo.ballot "N9" 1 "20") Demo.world (Hpos _ _) Hnone9)
      as [(w9 & Hrun9 & _ & Hlog9) _].
    exists w9. split; [exact Hrun9 |]. now apply (Hlog9 "choice above the maximum value").
Defined.

(** C3, as worded, fails: the ballot pooled for N9, of which the chain
    state has no ballot, has a choice above the maximum; [addLiveVote]
    reports it and leaves the added accumulator as it was, so the ballot
    is not added, and it is counted as a new vote all the same. *)
Lemma overwrite_without_previous_added_fails :
  ¬ overwrite_without_previous_added_at Demo.proc Demo.zeroTally (Demo.ballot "N9" 1 "20")
      Demo.world.
Proof.
  intros H.
  assert (Hpos : (0 < Overwrites (Demo.ballot "N9" 1 "20"))%Z) by reflexivity.
  assert (Hnone : ∀ pv, State_Vote (App Demo.world) "P" "N9" ≠ VoteFound pv)
    by (intros pv; discriminate).
  destruct (H Hpos Hnone) as (t' & w' & _ & Hadded & _).
  apply (f_equal snd) in Hadded. discriminate Hadded.
Qed.

(** The same block committed: the tally stored for the process has not
    moved, and the ballot is in the vote count. *)
Example invalid_new_overwrite_is_counted_not_added :
  Demo.storedResults ((OnVote (Demo.ballot "N9" 1 "20") 0 ;; Commit 4) Demo.world)
    = Some ("0,0;0,0;", "0", 1%Z).
Proof. reflexivity. Qed.

Lemma demo_unbound :
  ∀ q, readOnlyQuery (idx Demo.world) = Some q → q_tx q = None.
Proof. intros q Hq. injection Hq as <-. reflexivity. Qed.

Lemma demo_opened : opened Demo.world.
Proof. unfold opened. simpl. repeat split. eauto. Qed.

Lemma demo_ended : blockEnded Demo.world.
Proof. do 4 (split; [reflexivity |]). exact demo_ready. Qed.

Lemma uncommitted_block_is_invisible_witness :
  ∃ w1, runEvents Demo.someEvents Demo.world = Returns (tt, w1) ∧
    is_Some (blockTx (idx w1)) ∧
    answer (TokenFeesList 10 0 "" "" "" w1) =
      answer (TokenFeesList 10 0 "" "" "" Demo.world) ∧
    answer (AccountList 10 0 "" w1) = answer (AccountList 10 0 "" Demo.world) ∧
    answer (AccountExists Demo.addressHex w1) = Returns true.
Proof.
  destruct (uncommitted_block_is_invisible Demo.someEvents Demo.world
              demo_ready demo_unbound) as (w1 & Hrun & Hsame).
  exists w1. split; [exact Hrun |]. split.
  - assert (Htx : match runEvents Demo.someEvents Demo.world with
                  | Returns (_, w) => negb (bool_decide (blockTx (idx w) = None))
                  | _ => false
                  end = true) by reflexivity.
    rewrite Hrun in Htx. destruct (blockTx (idx w1)); [eauto | discriminate Htx].
  - destruct (Hsame 10%Z 0%Z "" "" "") as (Hf & _ & Ha & _).
    destruct (Hsame 10%Z 0%Z Demo.addressHex "" "") as (_ & _ & _ & He).
    split; [exact Hf |]. split; [exact Ha |]. rewrite He. reflexivity.
Defined.

Lemma one_transaction_per_block_witness :
  ∃ w1, runEvents Demo.someEvents Demo.world = Returns (tt, w1) ∧
    begins Demo.world = 0%nat ∧ begins w1 = 1%nat.
Proof.
  destruct (one_transaction_per_block Demo.someEvents Demo.world demo_ready)
    as (w1 & Hrun & _ & Hb).
  exists w1. split; [exact Hrun |]. split; [reflexivity |].
  assert (Htx : match runEvents Demo.someEvents Demo.world with
                | Returns (_, w) => negb (bool_decide (blockTx (idx w) = None))
                | _ => false
                end = true) by reflexivity.
  rewrite Hrun in Htx. rewrite Hb.
  destruct (blockTx (idx w1)); [reflexivity | discriminate Htx].
Defined.

Lemma Commit_ends_block_witness :
  ∃ e w', Commit 2 Demo.world = Returns (e, w') ∧
    votePool (idx w') = ∅ ∧ blockUpdateProcs (idx w') = ∅ ∧
    blockUpdateProcVoteCounts (idx w') = ∅ ∧ blockTx (idx w') = None ∧
    ready w' ∧ e = None.
Proof.
  destruct (Commit_ends_block 2 Demo.world demo_ready)
    as [(e & w' & Hrun & H1 & H2 & H3 & H4 & H5 & H6) | [Hpool _]].
  - exists e, w'. do 6 (split; [assumption |]).
    destruct e as [e |]; [| reflexivity].
    assert (Hrem : Z.rem 2 1000 = 0%Z) by (apply H6; discriminate).
    discriminate Hrem.
  - now destruct Hpool.
Defined.

Lemma account_listed_after_commit_witness :
  ∃ w', (OnSetAccount "CCCCCCCCCCCCCCCCCCCC" Scenes.richAccount ;; Commit 2) Demo.world
          = Returns (None, w') ∧
    disk w' !! Demo.dbFile = Some Scenes.withRichAndBlock2 ∧
    answer (AccountList 10 0 "4343" w') =
    Returns (Some [{| a_Address := "CCCCCCCCCCCCCCCCCCCC"; a_Balance := 2 ^ 64 - 1;
                      a_Nonce := 7 |}], 1%Z, None).
Proof.
  assert (Hrem : Z.rem 2 1000 ≠ 0%Z) by discriminate.
  assert (Hcreate : CreateAccount {| ca_Account := "CCCCCCCCCCCCCCCCCCCC";
                                     ca_Balance := int64 (sa_Balance Scenes.richAccount);
                                     ca_Nonce := sa_Nonce Scenes.richAccount |}
                                  (stored Demo.world) = Ok Scenes.withRich)
    by reflexivity.
  assert (Hoff : (0 <= 0)%Z) by discriminate.
  assert (Hlim : (0 < 10)%Z) by reflexivity.
  destruct (account_listed_after_commit (B := Spec.SpecBackend)
              "CCCCCCCCCCCCCCCCCCCC" Scenes.richAccount
              2 10 0 "4343" Scenes.withRich Demo.world
              demo_opened demo_ended Hrem Hcreate Hoff Hlim)
    as (w' & Hrun & Hdisk & Hlist).
  exists w'. split; [exact Hrun |]. split.
  - rewrite Hdisk. apply lookup_insert_eq.
  - rewrite Hlist. reflexivity.
Defined.

Lemma copyFile_cases_witness :
  (∃ e, copyFile Demo.dbFile "missing.sqlite" Demo.unopened
        = Returns (Some e, Demo.unopened)) ∧
  copyFile Demo.dbFile "backup.sqlite" Demo.unopened =
    Returns (None, set_disk (<[Demo.dbFile := Spec.with_version 0 Demo.tables]>
                               (disk Demo.unopened)) Demo.unopened) ∧
  copyFile "backup.sqlite" "backup.sqlite" Demo.unopened =
    Returns (None, set_disk (<["backup.sqlite" := Spec.emptyTables]> (disk Demo.unopened))
                            Demo.unopened).
Proof.
  split; [| split].
  - exact (proj1 (copyFile_cases Demo.dbFile "missing.sqlite" Demo.unopened) eq_refl).
  - assert (Hne : Demo.dbFile ≠ "backup.sqlite") by discriminate.
    exact (proj1 (proj2 (copyFile_cases Demo.dbFile "backup.sqlite" Demo.unopened))
             (Spec.with_version 0 Demo.tables) eq_refl Hne).
  - exact (proj2 (proj2 (copyFile_cases "backup.sqlite" "backup.sqlite" Demo.unopened))
             (ex_intro _ (Spec.with_version 0 Demo.tables) eq_refl)).
Defined.

Lemma stored_amounts_round_trip_witness :
  accountOf {| ar_Account := Demo.address; ar_Balance := -1; ar_Nonce := 7;
               ar_TotalCount := 1 |}
    = {| a_Address := Demo.address; a_Balance := 2 ^ 64 - 1; a_Nonce := 7 |} ∧
  tt_Amount (transferMeta {| xr_TxHash := "t"; xr_BlockHeight := 3;
                             xr_FromAccount := Demo.address; xr_ToAccount := Demo.address;
                             xr_Amount := - 2 ^ 63; xr_TransferTime := 30;
                             xr_TotalCount := 1 |}) = (2 ^ 63)%Z ∧
  tf_Cost (feeMeta {| fr_FromAccount := Demo.address; fr_TxType := "vote";
                      fr_Cost := 5; fr_Reference := "P"; fr_SpendTime := 30;
                      fr_BlockHeight := 3; fr_TotalCount := 1 |}) = 5%Z.
Proof.
  assert (Hb : (0 <= sa_Balance Scenes.richAccount < 2 ^ 64)%Z)
    by (split; [discriminate | reflexivity]).
  assert (Hn : (0 <= sa_Nonce Scenes.richAccount < 2 ^ 32)%Z)
    by (split; [discriminate | reflexivity]).
  assert (Ha : (0 <= 2 ^ 63 < 2 ^ 64)%Z) by (split; [discriminate | reflexivity]).
  assert (Hc : (0 <= 5 < 2 ^ 64)%Z) by (split; [discriminate | reflexivity]).
  exact (stored_amounts_round_trip Demo.address Scenes.richAccount
           {| tk_TxHash := "t"; tk_FromAddress := Demo.address;
              tk_ToAddress := Demo.address; tk_Amount := 2 ^ 63 |}
           5 1 3 30 "vote" "P" Hb Hn Ha Hc).
Defined.

Lemma AccountExists_hides_failures_witness :
  AccountExists Demo.addressHex Demo.world = Returns (true, add_trace "SearchAccounts" Demo.world) ∧
  AccountExists Demo.addressHex Scenes.closed =
  Returns (false, add_log Error "indexer query failed"
                    (add_trace "SearchAccounts" Scenes.closed)).
Proof.
  split; [reflexivity |].
  exact (AccountExists_hides_failures Demo.addressHex ErrDBClosed
           {| q_ro := true; q_tx := None |} Scenes.closed eq_refl eq_refl eq_refl).
Defined.

Lemma listings_only_read_witness :
  ((∃ r, TokenFeesList 10 0 "" "" "" Demo.world =
           Returns (r, add_trace "SearchTokenFees" Demo.world)) ∧
   (∃ r, TokenTransfersList 10 0 "" "" "" Demo.world =
           Returns (r, add_trace "SearchTokenTransfers" Demo.world)) ∧
   (∃ r, AccountList 10 0 "" Demo.world =
           Returns (r, add_trace "SearchAccounts" Demo.world))) ∧
  (TokenFeesList 10 0 "" "" "" Demo.unopened = Panics nilDeref ∧
   TokenTransfersList 10 0 "" "" "" Demo.unopened = Panics nilDeref ∧
   AccountList 10 0 "" Demo.unopened = Panics nilDeref).
Proof.
  assert (Hoff : (0 <= 0)%Z) by discriminate.
  assert (Hlim : (0 < 10)%Z) by reflexivity.
  split.
  - exact (proj1 (listings_only_read 10 0 "" "" "" Demo.world Hoff Hlim)
             (ex_intro _ _ eq_refl)).
  - exact (proj2 (listings_only_read 10 0 "" "" "" Demo.unopened Hoff Hlim) eq_refl).
Defined.

Lemma status_callbacks_only_mark_witness :
  (∃ w', OnCancel "P" Demo.world = Returns (tt, w') ∧
     OnCensusUpdate "P" Demo.world = Returns (tt, w') ∧
     blockUpdateProcs (idx w') = {["P" := true]} ∧
     blockTx (idx w') = None ∧ sqlTrace w' = [] ∧ disk w' = disk Demo.world) ∧
  OnCancel "P" Demo.locked = Blocks.
Proof.
  split.
  - destruct (status_callbacks_only_mark "P" Demo.world)
      as (_ & _ & _ & _ & Hcensus & Hruns & _).
    destruct (Hruns eq_refl) as (w' & Hrun & Hu & _ & Htx & _ & _ & Ht & Hd & _).
    exists w'. split; [exact Hrun |]. split; [now rewrite Hcensus |].
    split; [exact Hu |]. split; [exact Htx |]. split; [exact Ht | exact Hd].
  - exact (proj2 (proj2 (proj2 (proj2 (proj2 (proj2
             (status_callbacks_only_mark "P" Demo.locked)))))) eq_refl).
Defined.

Lemma OnRevealKeys_needs_key_index_witness :
  OnRevealKeys "P" Demo.world = OnProcessKeys "P" Demo.world ∧
  ∃ msg, OnRevealKeys "P" Scenes.notSynced = Returns (tt, add_log Error msg Scenes.notSynced).
Proof.
  split.
  - exact (proj1 (OnRevealKeys_needs_key_index "P" Demo.world) _ eq_refl
             (ex_intro _ _ eq_refl)).
  - exact (proj2 (OnRevealKeys_needs_key_index "P" Scenes.notSynced)
             (or_introl (ex_intro _ _ eq_refl))).
Defined.

Lemma ProcessFromDB_panics_on_bad_json_only_witness :
  (∃ p w', ProcessFromDB Scenes.oddRow Demo.world = Returns (p, w') ∧
     p_ID p = "P" ∧ p_ResultsVotes p = [[1; 2]; [3; 4]]%Z ∧ p_ResultsWeight p = 10%Z) ∧
  ProcessFromDB Scenes.brokenRow Demo.world = Panics jsonPanic.
Proof.
  split.
  - destruct (proj1 (ProcessFromDB_panics_on_bad_json_only Scenes.oddRow Demo.world)
                [[1; 2]; [3; 4]]%Z 10%Z eq_refl eq_refl)
      as (p & w' & Hrun & _ & Hid & Hv & Hw).
    exists p, w'. split; [exact Hrun |]. split; [exact Hid |]. split; [exact Hv | exact Hw].
  - exact (proj2 (ProcessFromDB_panics_on_bad_json_only Scenes.brokenRow Demo.world)
             (or_introl eq_refl)).
Defined.

Lemma reindex_keeps_block_of_other_time_witness :
  reindexBlock 2 Demo.block2 (blockQueries (idx Demo.inBlock)) Scenes.reindexingOtherTime =
    Returns (blockQueries (idx Demo.inBlock),
             add_log Error
               "while reindexing blocks, block timestamp in db differs from blockstore, leaving untouched"
               (add_trace "GetBlockByHeight" Scenes.reindexingOtherTime)) ∧
  ∃ w', reindexBlock 2 Demo.block2 (blockQueries (idx Demo.inBlock)) Demo.inBlock =
          Returns (blockQueries (idx Demo.inBlock), w') ∧
        sqlTrace w' = ["CreateBlock"; "GetBlockByHeight"].
Proof.
  assert (Hrem : Z.rem 2 10000 ≠ 1%Z) by discriminate.
  split.
  - assert (Hne : br_Time {| br_Height := 2; br_Time := 21; br_Hash := "h2" |}
                  ≠ b_Time Demo.block2) by discriminate.
    exact (proj1 (reindex_keeps_block_of_other_time 2 Demo.block2
                    (blockQueries (idx Demo.inBlock)) {| q_ro := true; q_tx := None |}
                    Scenes.reindexingOtherTime eq_refl Hrem)
             {| br_Height := 2; br_Time := 21; br_Hash := "h2" |} eq_refl Hne).
  - assert (Hnone : ∀ row,
              match tables_of {| q_ro := true; q_tx := None |} Demo.inBlock with
              | Ok t => GetBlockByHeight (b_Height Demo.block2) t
              | Err e => Err e
              end = Ok row → br_Time row = b_Time Demo.block2)
      by (intros row Hrow; discriminate Hrow).
    pose proof (proj2 (reindex_keeps_block_of_other_time 2 Demo.block2
                         (blockQueries (idx Demo.inBlock)) {| q_ro := true; q_tx := None |}
                         Demo.inBlock eq_refl Hrem) Hnone) as Hrun.
    rewrite Hrun. eexists. split; reflexivity.
Defined.

Lemma startDB_schedules_reindex_witness :
  (∃ e w', startDB Demo.unopened = Returns (e, w') ∧
     spawned w' = ["ReindexBlocks(false)"] ∧ reindexScheduled ∈ logs w' ∧
     startDB w' = Panics "Indexer.startDB called twice") ∧
  (∃ e w', startDB (on_idx (set_readWriteDB None) Demo.world) = Returns (e, w') ∧
     spawned w' = [] ∧ startDB w' = Panics "Indexer.startDB called twice").
Proof.
  split.
  - destruct (startDB_schedules_reindex Demo.unopened eq_refl eq_refl)
      as (e & w' & Hrun & Hs & Hl & Htwice).
    exists e, w'. split; [exact Hrun |]. split; [exact Hs |].
    split; [exact (Hl eq_refl) | exact Htwice].
  - destruct (startDB_schedules_reindex (on_idx (set_readWriteDB None) Demo.world)
                eq_refl eq_refl) as (e & w' & Hrun & Hs & _ & Htwice).
    exists e, w'. split; [exact Hrun |]. split; [exact Hs | exact Htwice].
Defined.

Lemma New_opens_unless_restore_expected_witness :
  (∃ w, New (O := Scenes.noMkdir) Demo.app (disk Demo.world) "data" false false =
          Returns ((nilIndexer, Some "mkdir data: permission denied"), w) ∧
        readWriteDB (idx w) = None ∧ sqlTrace w = []) ∧
  (∃ w, New (O := Unix.sound) Demo.app (disk Demo.unopened) "data/" true false =
          Returns ((theIndexer, None), w) ∧
        dbPath (idx w) = "data/db.sqlite" ∧
        readWriteDB (idx w) = None ∧ disk w = disk Demo.unopened ∧ sqlTrace w = [] ∧
        (∃ e w', RestoreBackup "backup.sqlite" w = Returns (e, w')) ∧
        AccountList 10 0 "" w = Panics nilDeref) ∧
  (∃ w, New (O := Scenes.noStat) Demo.app (disk Demo.world) "data" false false =
          Returns ((theIndexer, None), w) ∧
        readWriteDB (idx w) = None ∧ disk w = disk Demo.world) ∧
  (∃ w, New (O := Unix.sound) Demo.app (disk Demo.world) "data" true false =
          Returns ((theIndexer, None), w) ∧
        readWriteDB (idx w) = Some Demo.handle ∧
        RestoreBackup "backup.sqlite" w =
          Panics "Indexer.RestoreBackup called after the database was initialized") ∧
  (∃ e w, New (B := Scenes.failingMigration) (O := Unix.sound)
            Demo.app (disk Demo.world) "data" false false =
          Returns ((nilIndexer, Some e), w)).
Proof.
  assert (Hoff : (0 <= 0)%Z) by discriminate.
  assert (Hlim : (0 < 10)%Z) by reflexivity.
  split; [| split; [| split; [| split]]].
  - destruct (proj1 (New_opens_unless_restore_expected (O := Scenes.noMkdir)
                       Demo.app (disk Demo.world) "data" false false)
                "mkdir data: permission denied" eq_refl)
      as (w & Hrun & Hrw & _ & Ht).
    exists w. auto.
  - destruct (proj1 (proj2 (New_opens_unless_restore_expected (O := Unix.sound)
                       Demo.app (disk Demo.unopened) "data/" true false) eq_refl)
                (or_introl (conj eq_refl eq_refl)))
      as (w & Hrun & Hp & Hrw & Hd & Ht & Hrestore & Hlist).
    exists w. split; [exact Hrun |]. split; [exact Hp |]. split; [exact Hrw |].
    split; [exact Hd |]. split; [exact Ht |]. split; [exact (Hrestore "backup.sqlite") |].
    exact (Hlist 10%Z 0%Z "" Hoff Hlim).
  - destruct (proj1 (proj2 (New_opens_unless_restore_expected (O := Scenes.noStat)
                       Demo.app (disk Demo.world) "data" false false) eq_refl)
                (or_intror (ex_intro _ "stat data/db.sqlite: permission denied" eq_refl)))
      as (w & Hrun & _ & Hrw & Hd & _).
    exists w. auto.
  - destruct (proj2 (proj2 (New_opens_unless_restore_expected (O := Unix.sound)
                       Demo.app (disk Demo.world) "data" true false) eq_refl)
                (or_introl eq_refl))
      as (r & e & w & Hrun & _ & Hiff & Hok & _).
    assert (He : e = None).
    { apply Hiff. eexists _, _. repeat split; reflexivity. }
    destruct (Hok He) as (-> & _ & Hrw & Hpanic). subst e.
    exists w. split; [exact Hrun |]. split; [exact Hrw |].
    exact (Hpanic "backup.sqlite").
  - destruct (proj2 (proj2 (New_opens_unless_restore_expected
                       (B := Scenes.failingMigration) (O := Unix.sound)
                       Demo.app (disk Demo.world) "data" false false) eq_refl)
                (or_introl eq_refl))
      as (r & e & w & Hrun & _ & Hiff & _ & Hfail).
    destruct e as [e |].
    + assert (Hr : r = nilIndexer) by (apply Hfail; discriminate).
      exists e, w. rewrite Hrun. now rewrite Hr.
    + destruct (proj1 Hiff eq_refl) as (t1 & t2 & Hup & _). discriminate Hup.
Defined.

Example Join_cleans :
  Unix.Join "data" "db.sqlite" = "data/db.sqlite" /\
  Unix.Join "data/" "db.sqlite" = "data/db.sqlite" /\
  Unix.Join "" "db.sqlite" = "db.sqlite" /\
  Unix.Join "/var//lib/./x/../vocdoni" "db.sqlite" = "/var/lib/vocdoni/db.sqlite" /\
  Unix.Join "../a/../.." "db.sqlite" = "../../db.sqlite" /\
  Unix.Join "/.." "db.sqlite" = "/db.sqlite" /\
  Unix.Clean "" = "." /\ Unix.Clean "a/.." = "." /\ Unix.Clean "/" = "/".
Proof. repeat split. Qed.

Lemma OnVote_leaves_other_ballots_witness :
  ∃ w', OnVote (Demo.ballot "N2" 0 "10") 1 Demo.highPooled = Returns (tt, w') ∧
    blockUpdateProcVoteCounts (idx w') = {["P" := true]} ∧
    pooled (Demo.ballot "N1" 0 "") w' = Some (Demo.ballot "N1" 2 "01").
Proof.
  destruct (OnVote_leaves_other_ballots (Demo.ballot "N2" 0 "10") 1 Demo.highPooled
              demo_ready) as (w' & Hrun & Hv & Hothers & _).
  exists w'. split; [exact Hrun |]. split; [exact Hv |].
  assert (Hne : ProcessID (Demo.ballot "N1" 0 "") ≠ ProcessID (Demo.ballot "N2" 0 "10") ∨
                Nullifier (Demo.ballot "N1" 0 "") ≠ Nullifier (Demo.ballot "N2" 0 "10"))
    by (right; discriminate).
  rewrite (Hothers _ Hne). reflexivity.
Defined.

Lemma ballots_pooled_when_synced_witness :
  (∃ w1 w2, OnProcess "Q" Demo.world = Returns (tt, w1) ∧
     OnVote Scenes.plainBallot 0 w1 = Returns (tt, w2) ∧
     pooled Scenes.plainBallot w2 = Some Scenes.plainBallot) ∧
  (∃ w1 w2, OnProcess "Q" Scenes.notSynced = Returns (tt, w1) ∧
     OnVote Scenes.plainBallot 0 w1 = Returns (tt, w2) ∧
     votePool (idx w2) = ∅).
Proof.
  split.
  - destruct (ballots_pooled_when_synced Scenes.plainBallot 0 Demo.world
                demo_ready eq_refl) as (w1 & w2 & Hrun1 & Hrun2 & Hpooled & _).
    exists w1, w2. split; [exact Hrun1 |]. split; [exact Hrun2 |].
    exact (Hpooled eq_refl).
  - assert (Hnot : ProcessID Scenes.plainBallot ∉ liveResultsProcs (idx Scenes.notSynced)).
    { intros Hin. change ("Q" ∈ ({["P"]} : gset string)) in Hin.
      apply elem_of_singleton in Hin. discriminate Hin. }
    destruct (ballots_pooled_when_synced Scenes.plainBallot 0 Scenes.notSynced
                demo_ready eq_refl) as (w1 & w2 & Hrun1 & Hrun2 & _ & Hsame).
    exists w1, w2. split; [exact Hrun1 |]. split; [exact Hrun2 |].
    exact (Hsame eq_refl Hnot).
Defined.

Lemma OnVote_indexes_in_any_case_witness :
  ∃ w', OnVote Scenes.plainBallot 4 Demo.world = Returns (tt, w') ∧
    sqlTrace w' = ["CreateVote"; "BEGIN"] ∧ disk w' = disk Demo.world ∧
    match blockTx (idx w') with
    | Some tx => map (fun row => (cv_Nullifier row, cv_BlockIndex row, cv_Weight row))
                     (Spec.t_votes (tx_work tx))
                 = [("N7", 4%Z, dquote ++ "1" ++ dquote)]
    | None => False
    end.
Proof.
  destruct (OnVote_indexes_in_any_case Scenes.plainBallot 4 Demo.world Demo.handle
              {| q_ro := false; q_tx := None |} eq_refl eq_refl eq_refl eq_refl eq_refl)
    as (w' & row & Hrun & Htx & Ht & Hd & Hn & _ & _ & Hi & _ & _ & _ & Hw).
  exists w'. split; [exact Hrun |]. split; [exact Ht |]. split; [exact Hd |].
  rewrite Htx. simpl. unfold applied. simpl.
  change (default Spec.emptyTables ({[Demo.dbFile := Demo.tables]} !! Demo.dbFile))
    with Demo.tables.
  simpl. rewrite Hn, Hi, (Hw eq_refl). reflexivity.
Defined.

Lemma Close_only_closes_witness :
  Close Demo.unopened = Panics nilDeref ∧
  ∃ w', Close Demo.world = Returns (None, w') ∧ disk w' = disk Demo.world ∧
    answer (AccountList 10 0 "" w') = Returns (None, 0%Z, Some ErrDBClosed) ∧
    blockTxQueries (on_idx (set_blockMu true) w') = Panics ErrDBClosed.
Proof.
  assert (Hoff : (0 <= 0)%Z) by discriminate.
  assert (Hlim : (0 < 10)%Z) by reflexivity.
  split.
  - exact (proj1 (Close_only_closes Demo.unopened) eq_refl).
  - destruct (proj2 (Close_only_closes Demo.world) Demo.handle Demo.handle eq_refl eq_refl)
      as (w' & Hrun & Hd & _ & Hlist & _).
    exists w'. split; [exact Hrun |]. split; [exact Hd |].
    split; [exact (Hlist eq_refl 10%Z 0%Z "" Hoff Hlim) |].
    assert (Hc : Close Demo.world = Returns (None, Scenes.closed)) by reflexivity.
    assert (Hw : w' = Scenes.closed) by congruence.
    rewrite Hw. reflexivity.
Defined.

Lemma ReindexBlocks_returns_committed_witness :
  ReindexBlocks false Scenes.notSynced = Blocks ∧
  ∃ w', ReindexBlocks true Demo.world = Returns (tt, w') ∧ ready w' ∧
    votePool (idx w') = ∅ ∧ blockTx (idx w') = None ∧
    (∃ rest, sqlTrace w' = "COMMIT" :: rest) ∧
    (0 < begins w')%nat ∧ begins w' = commits w' ∧
    (commitFailed ∉ logs w') ∧
    match disk w' !! Demo.dbFile with
    | Some t => map (fun b => (cb_Height b, cb_Time b)) (Spec.t_blocks t)
                = [(1, 10); (2, 20)]%Z
    | None => False
    end.
Proof.
  split.
  - exact (proj1 (ReindexBlocks_returns_committed false Scenes.notSynced) eq_refl eq_refl).
  - destruct (proj2 (ReindexBlocks_returns_committed true Demo.world)
                (or_introl eq_refl) demo_ready (ex_intro _ _ eq_refl))
      as (w' & Hrun & Hr & Hp & _ & _ & Htx & Hcommit & _).
    destruct (Hcommit (ex_intro _ _ eq_refl) eq_refl Demo.handle eq_refl)
      as (Hlast & Hbegun & Hbalance & Hlog & _).
    exists w'. split; [exact Hrun |]. split; [exact Hr |]. split; [exact Hp |].
    split; [exact (Htx (ex_intro _ _ eq_refl)) |].
    split; [exact Hlast |]. split; [exact Hbegun |].
    split; [change (begins w' + 0 = commits w' + 0)%nat in Hbalance; lia |].
    split; [intros Hin; apply Hlog in Hin; inversion Hin |].
    assert (Hblocks : match ReindexBlocks true Demo.world with
                      | Returns (_, w) =>
                          match disk w !! Demo.dbFile with
                          | Some t => map (fun b => (cb_Height b, cb_Time b)) (Spec.t_blocks t)
                          | None => []
                          end
                      | _ => []
                      end = [(1, 10); (2, 20)]%Z) by reflexivity.
    rewrite Hrun in Hblocks. destruct (disk w' !! Demo.dbFile); [exact Hblocks |].
    discriminate Hblocks.
Defined.

Lemma rolled_back_block_is_forgotten_witness :
  ∃ w1 w2 w',
    runEvents Demo.someEvents Demo.world = Returns (tt, w1) ∧
    Rollback w1 = Returns (tt, w2) ∧
    (OnSetAccount "CCCCCCCCCCCCCCCCCCCC" Scenes.richAccount ;; Commit 2) w2
      = Returns (None, w') ∧
    disk w' !! Demo.dbFile = Some Scenes.withRichAndBlock2.
Proof.
  assert (Hrem : Z.rem 2 1000 ≠ 0%Z) by discriminate.
  assert (Hcreate : CreateAccount {| ca_Account := "CCCCCCCCCCCCCCCCCCCC";
                                     ca_Balance := int64 (sa_Balance Scenes.richAccount);
                                     ca_Nonce := sa_Nonce Scenes.richAccount |}
                                  (stored Demo.world) = Ok Scenes.withRich)
    by reflexivity.
  destruct (rolled_back_block_is_forgotten (B := Spec.SpecBackend) Demo.someEvents
              "CCCCCCCCCCCCCCCCCCCC" Scenes.richAccount 2 Scenes.withRich Demo.world
              demo_opened demo_ended Hrem Hcreate)
    as (w1 & w2 & w' & Hrun1 & Hrun2 & Hrun & Hdisk).
  exists w1, w2, w'. split; [exact Hrun1 |]. split; [exact Hrun2 |].
  split; [exact Hrun |]. rewrite Hdisk. apply lookup_insert_eq.
Defined.

Lemma Recount_reads : ProcessInfo_reads.
Proof.
  intros p w [ro Hro]. simpl. unfold Recount.processInfo.
  apply wpx_bind, wpx_wp, wp_gets. rewrite Hro.
  apply wpx_bind, wpx_wp, wp_q_read.
  destruct (match tables_of ro w with Ok t => _ | Err e => _ end) as [row | e].
  - apply wpx_bind, wpx_ProcessFromDB. intros process w1 Hi. now apply wpx_wp, wp_ret.
  - now apply wpx_wp, wp_ret.
Qed.

Lemma AfterSyncBootstrap_recounts_witness :
  AfterSyncBootstrap false Scenes.ignoring = Returns (tt, Scenes.ignoring) ∧
  AfterSyncBootstrap false Scenes.notSynced = Blocks ∧
  ∃ w', AfterSyncBootstrap true Demo.world = Returns (tt, w') ∧ ready w' ∧
    votePool (idx w') = ∅ ∧ liveResultsProcs (idx w') = {["P"]} ∧
    Demo.storedResults (AfterSyncBootstrap true Demo.world) = Some ("5,5;5,5;", "10", 0%Z).
Proof.
  split; [| split].
  - exact (proj1 (AfterSyncBootstrap_recounts false Scenes.ignoring) eq_refl).
  - exact (proj1 (proj2 (AfterSyncBootstrap_recounts false Scenes.notSynced))
             eq_refl eq_refl eq_refl).
  - destruct (proj2 (proj2 (AfterSyncBootstrap_recounts true Demo.world))
                eq_refl (or_introl eq_refl) demo_ready (ex_intro _ _ eq_refl) Recount_reads)
      as [(w' & Hrun & Hr & Hp & _ & _ & Hl) | Hpanic].
    + exists w'. split; [exact Hrun |]. split; [exact Hr |]. split; [exact Hp |].
      split; [| reflexivity].
      assert (Hlive : match AfterSyncBootstrap true Demo.world with
                      | Returns (_, w) => bool_decide (liveResultsProcs (idx w) = {["P"]})
                      | _ => false
                      end = true) by reflexivity.
      rewrite Hrun in Hlive. now apply bool_decide_eq_true in Hlive.
    + assert (Hruns : match AfterSyncBootstrap true Demo.world with
                      | Returns _ => true
                      | _ => false
                      end = true) by reflexivity.
      rewrite Hpanic in Hruns. discriminate Hruns.
Defined.

Lemma AfterSyncBootstrap_failed_listing_witness :
  (∃ w', AfterSyncBootstrap true Scenes.unmigrated = Returns (tt, w') ∧
     is_Some (blockTx (idx w')) ∧
     sqlTrace w' = ["GetProcessIDsByFinalResults"; "BEGIN"] ∧
     (Error, "no such table: processes") ∈ logs w') ∧
  (∃ w', AfterSyncBootstrap true Scenes.noProcesses = Returns (tt, w') ∧
     blockTx (idx w') = None ∧
     sqlTrace w' = ["COMMIT"; "GetProcessIDsByFinalResults"; "BEGIN"]).
Proof.
  split.
  - assert (Hfails : GetProcessIDsByFinalResults (Recovery := Recount.SpecRecovery) false
                       (default newDB (disk Scenes.unmigrated !! sql_path Demo.handle))
                     = Err "no such table: processes") by reflexivity.
    destruct (proj1 (AfterSyncBootstrap_failed_listing (R := Recount.SpecRecovery)
                       true Scenes.unmigrated Demo.handle
                       {| q_ro := false; q_tx := None |} eq_refl (or_introl eq_refl)
                       eq_refl eq_refl eq_refl eq_refl eq_refl)
                "no such table: processes" Hfails)
      as (w' & Hrun & Htx & _ & Ht & _ & Hlog).
    exists w'. auto.
  - assert (Hnone : GetProcessIDsByFinalResults (Recovery := Recount.SpecRecovery) false
                      (default newDB (disk Scenes.noProcesses !! sql_path Demo.handle))
                    = Ok []) by reflexivity.
    destruct (proj2 (AfterSyncBootstrap_failed_listing (R := Recount.SpecRecovery)
                       true Scenes.noProcesses Demo.handle
                       {| q_ro := false; q_tx := None |} eq_refl (or_introl eq_refl)
                       eq_refl eq_refl eq_refl eq_refl eq_refl) Hnone)
      as (w' & Hrun & Htx & _ & Ht & _).
    exists w'. auto.
Defined.
